(** * Starfield screensaver: star simulation, projection, input gate and
    settings clamp of the three variants, embedded in Rocq.

    Sources:
    - [Starfield/Starfield.cpp]  (GDI variant, module [Gdi])
    - [MyStarfield.cpp]          (Direct2D variant with resource dialog, module [D2D])
    - [Starfield.cpp], Direct2D  (Direct2D variant with size parameters, module [D2Dp])

    The C++ [float] and [double] are modelled as IEEE 754 binary32 and
    binary64 with round-to-nearest-even ([IEEE]); [int], [LONG] and
    [unsigned] are [Z] with the wrap-around written out where a value can
    leave the 32-bit range. *)

From Stdlib Require Import ZArith Lia Bool List.
From Stdlib Require Floats.SpecFloat.
From Stdlib Require String.
Import ListNotations.
Import String.StringSyntax.
Local Open Scope Z_scope.
Delimit Scope string_scope with string.

(* ================================================================== *)
(** * Part I. Definitions *)
(* ================================================================== *)

(** ** IEEE 754 binary floating point

    A finite value is kept as an integer count of the smallest subnormal:
    [Fin n] in a format with [ushift = u] denotes [n * 2^-u].  Every finite
    binary32 number is a multiple of 2^-149, every finite binary64 number
    a multiple of 2^-1074, so sums are exact integers and products and
    quotients are exact fractions [N / D] of such units; [rnd] rounds the
    fraction to the nearest number of the format, ties to even.  The two
    zeros are identified (the code never looks at the sign of a zero). *)
Module IEEE.

Class Format := {
  prec : Z;      (* bits of the significand *)
  ushift : Z;    (* the unit is 2^-ushift *)
  etop : Z;      (* rounded magnitudes of 2^etop units and more overflow *)
  prec_pos : 0 < prec;
  ushift_nonneg : 0 <= ushift
}.

(** float: 24 significant bits, least subnormal 2^-149, overflow at 2^128. *)
Definition binary32 : Format :=
  {| prec := 24; ushift := 149; etop := 277;
     prec_pos := eq_refl; ushift_nonneg := ltac:(discriminate) |}.
(** double: 53 significant bits, least subnormal 2^-1074, overflow at 2^1024. *)
Definition binary64 : Format :=
  {| prec := 53; ushift := 1074; etop := 2098;
     prec_pos := eq_refl; ushift_nonneg := ltac:(discriminate) |}.

Inductive fp {F : Format} : Type :=
| NaN
| Inf (neg : bool)
| Fin (n : Z).
Arguments fp : clear implicits.

(** Integer division rounding to nearest, ties to the even quotient
    (for [0 <= a], [0 < d]). *)
Definition rne_div (a d : Z) : Z :=
  let q := a / d in
  let r := a mod d in
  if 2 * r <? d then q
  else if d <? 2 * r then q + 1
  else if Z.even q then q else q + 1.

(** Binary exponent of the last significand bit of [a / d] units:
    0 while the value has at most [prec] bits (subnormals and the first
    binades are spaced one unit apart). *)
Definition ulp_exp {F : Format} (a d : Z) : Z :=
  Z.max 0 (Z.log2 (a / d) - (prec - 1)).

(** Magnitude of the rounded value of [a / d] units, [0 <= a], [0 < d]. *)
Definition round_mag {F : Format} (a d : Z) : Z :=
  let s := ulp_exp a d in
  rne_div a (d * 2 ^ s) * 2 ^ s.

(** Correct rounding of the exact value [N / D] units ([0 < D]). *)
Definition rnd {F : Format} (N D : Z) : fp F :=
  let m := round_mag (Z.abs N) D in
  if 2 ^ etop <=? m then Inf (N <? 0) else Fin (Z.sgn N * m).

Definition fopp {F : Format} (x : fp F) : fp F :=
  match x with
  | NaN => NaN
  | Inf s => Inf (negb s)
  | Fin n => Fin (- n)
  end.

Definition fadd {F : Format} (x y : fp F) : fp F :=
  match x, y with
  | NaN, _ | _, NaN => NaN
  | Inf a, Inf b => if Bool.eqb a b then Inf a else NaN
  | Inf a, Fin _ => Inf a
  | Fin _, Inf b => Inf b
  | Fin a, Fin b => rnd (a + b) 1
  end.

Definition fsub {F : Format} (x y : fp F) : fp F := fadd x (fopp y).

Definition fmul {F : Format} (x y : fp F) : fp F :=
  match x, y with
  | NaN, _ | _, NaN => NaN
  | Inf a, Inf b => Inf (xorb a b)
  | Inf a, Fin n | Fin n, Inf a => if n =? 0 then NaN else Inf (xorb a (n <? 0))
  | Fin a, Fin b => rnd (a * b) (2 ^ ushift)
  end.

Definition fdiv {F : Format} (x y : fp F) : fp F :=
  match x, y with
  | NaN, _ | _, NaN => NaN
  | Inf _, Inf _ => NaN
  | Inf a, Fin n => Inf (xorb a (n <? 0))
  | Fin _, Inf _ => Fin 0
  | Fin a, Fin b =>
      if b =? 0 then (if a =? 0 then NaN else Inf (a <? 0))
      else rnd (Z.sgn b * a * 2 ^ ushift) (Z.abs b)
  end.

(** [x < y] and [x <= y]; false as soon as one side is NaN. *)
Definition flt {F : Format} (x y : fp F) : bool :=
  match x, y with
  | NaN, _ | _, NaN => false
  | Inf a, Inf b => a && negb b
  | Inf a, Fin _ => a
  | Fin _, Inf b => negb b
  | Fin a, Fin b => a <? b
  end.

Definition fle {F : Format} (x y : fp F) : bool :=
  match x, y with
  | NaN, _ | _, NaN => false
  | Inf a, Inf b => a || negb b
  | Inf a, Fin _ => a
  | Fin _, Inf b => negb b
  | Fin a, Fin b => a <=? b
  end.

Definition is_nan {F : Format} (x : fp F) : bool :=
  match x with NaN => true | _ => false end.

(** A decimal literal [num / den], correctly rounded as the compiler does. *)
Definition lit {F : Format} (num den : Z) : fp F := rnd (num * 2 ^ ushift) den.

(** Integer to floating point. *)
Definition of_int {F : Format} (n : Z) : fp F := rnd (n * 2 ^ ushift) 1.

(** 32-bit two's complement wrap-around. *)
Definition wrap32 (v : Z) : Z := (v + 2 ^ 31) mod 2 ^ 32 - 2 ^ 31.

(** The value a conversion to [int] or [long] (both 32 bits on Windows)
    leaves when the operand is NaN or out of range: the x86 conversion
    instructions store the "integer indefinite" 0x80000000. *)
Definition INT_INDEFINITE : Z := - 2 ^ 31.

Definition in_int32 (v : Z) : bool := (- 2 ^ 31 <=? v) && (v <? 2 ^ 31).

(** [(int)x]: truncation toward zero. *)
Definition to_int {F : Format} (x : fp F) : Z :=
  match x with
  | Fin n => let t := Z.quot n (2 ^ ushift) in
             if in_int32 t then t else INT_INDEFINITE
  | _ => INT_INDEFINITE
  end.

(** [ceilf], [floorf]: the result is an integer value of the format. *)
Definition fceil {F : Format} (x : fp F) : fp F :=
  match x with
  | Fin n => Fin (- ((- n) / 2 ^ ushift) * 2 ^ ushift)
  | _ => x
  end.

Definition ffloor {F : Format} (x : fp F) : fp F :=
  match x with
  | Fin n => Fin (n / 2 ^ ushift * 2 ^ ushift)
  | _ => x
  end.

(** [lroundf]: nearest integer, halfway cases away from zero. *)
Definition lround {F : Format} (x : fp F) : Z :=
  match x with
  | Fin n => let t := Z.sgn n * ((2 * Z.abs n + 2 ^ ushift) / 2 ^ (ushift + 1)) in
             if in_int32 t then t else INT_INDEFINITE
  | _ => INT_INDEFINITE
  end.

(** [std::fmin], [std::fmax]: the other operand when one is NaN. *)
Definition fmin {F : Format} (x y : fp F) : fp F :=
  match x, y with
  | NaN, _ => y
  | _, NaN => x
  | _, _ => if flt y x then y else x
  end.

Definition fmax {F : Format} (x y : fp F) : fp F :=
  match x, y with
  | NaN, _ => y
  | _, NaN => x
  | _, _ => if flt x y then y else x
  end.

(** The [max] macro of <windows.h>, [(((a) > (b)) ? (a) : (b))], on
    floating-point operands (on [int] operands it is [Z.max], and [min] is
    [Z.min]). *)
Definition MAX {F : Format} (a b : fp F) : fp F := if flt b a then a else b.

Arguments rnd : simpl never.
Arguments lit : simpl never.
Arguments of_int : simpl never.

(** [x] is finite and lies between [lo] and [hi] units. *)
Definition within {F : Format} (lo hi : Z) (x : fp F) : Prop :=
  exists k, x = Fin k /\ lo <= k <= hi.

(** [x] is finite and not negative. *)
Definition finite_nonneg {F : Format} (x : fp F) : Prop :=
  exists k, x = Fin k /\ 0 <= k.

(** [x] is zero, positive or +infinity. *)
Definition nonneg {F : Format} (x : fp F) : Prop :=
  match x with
  | NaN => False
  | Inf s => s = false
  | Fin k => 0 <= k
  end.

End IEEE.
Export IEEE.

Abbreviation float := (fp binary32).
Abbreviation double := (fp binary64).

(** ** Reference semantics

    The Standard Library's [SpecFloat] gives the operations of IEEE 754 on
    sign, mantissa and exponent.  [to_spec32] and [to_spec64] map a value
    of this file to it, and [agree] compares two results ([SFcompare]
    equates the two zeros, as this file does).  Part II checks the four
    operations and the two comparisons of [IEEE] against [SpecFloat] on
    every pair of [ref_values32] and of [ref_values64]. *)
Module Ref.
Import Floats.SpecFloat.

Definition to_spec32 (x : float) : spec_float :=
  match x with
  | NaN => S754_nan
  | Inf s => S754_infinity s
  | Fin n => binary_normalize 24 128 n (-149) false
  end.

Definition to_spec64 (x : double) : spec_float :=
  match x with
  | NaN => S754_nan
  | Inf s => S754_infinity s
  | Fin n => binary_normalize 53 1024 n (-1074) false
  end.

Definition agree (a b : spec_float) : bool :=
  match SFcompare a b with
  | Some Eq => true
  | Some _ => false
  | None => match a, b with S754_nan, S754_nan => true | _, _ => false end
  end.

Definition ref_values32 : list float :=
  [ lit 0 1; lit 1 1; lit (-1) 1; lit 5 10; lit 5 100; lit 6 10; lit 1 3;
    lit 1 60; lit 33 1; lit 628318530718 100000000000; lit 16777215 16777216;
    lit 123456789 1; Fin 1; Inf false; Inf true; NaN ].

Definition ref_values64 : list double :=
  [ lit 66 100; lit 10000000 1; lit (-30000000) 1 ].

Definition check_op2 {F : Format} (vs : list (fp F)) (to_spec : fp F -> spec_float)
    (f : fp F -> fp F -> fp F) (g : spec_float -> spec_float -> spec_float) : bool :=
  forallb (fun a => forallb (fun b => agree (to_spec (f a b)) (g (to_spec a) (to_spec b)))
                            vs) vs.

Definition check_cmp {F : Format} (vs : list (fp F)) (to_spec : fp F -> spec_float)
    (f : fp F -> fp F -> bool) (g : spec_float -> spec_float -> bool) : bool :=
  forallb (fun a => forallb (fun b => Bool.eqb (f a b) (g (to_spec a) (to_spec b)))
                            vs) vs.

Definition check32 : bool :=
  check_op2 ref_values32 to_spec32 fadd (SFadd 24 128)
  && check_op2 ref_values32 to_spec32 fsub (SFsub 24 128)
  && check_op2 ref_values32 to_spec32 fmul (SFmul 24 128)
  && check_op2 ref_values32 to_spec32 fdiv (SFdiv 24 128)
  && check_cmp ref_values32 to_spec32 flt SFltb
  && check_cmp ref_values32 to_spec32 fle SFleb.

Definition check64 : bool :=
  check_op2 ref_values64 to_spec64 fadd (SFadd 53 1024)
  && check_op2 ref_values64 to_spec64 fsub (SFsub 53 1024)
  && check_op2 ref_values64 to_spec64 fmul (SFmul 53 1024)
  && check_op2 ref_values64 to_spec64 fdiv (SFdiv 53 1024)
  && check_cmp ref_values64 to_spec64 flt SFltb
  && check_cmp ref_values64 to_spec64 fle SFleb.

End Ref.

(** ** Library functions the sources call

    [sinf] (libm) and [std::generate_canonical<float, 24>] (the core of
    [std::uniform_real_distribution<float>]) are not part of the
    repository; they are taken as an interface.  [generate_canonical] maps
    one 32-bit engine output to a float; the C++ standard places it in
    [0, 1). *)
Class Libc := {
  sinf : float -> float;
  generate_canonical : Z -> float
}.

(** [std::mt19937], seen through the sequence of 32-bit words it will
    return: a generator state is that sequence and the place reached. *)
Record mt19937 := MkRng { outputs : nat -> Z; cursor : nat }.

(** [rng()] *)
Definition rng_next (g : mt19937) : Z * mt19937 :=
  (outputs g (cursor g) mod 2 ^ 32, MkRng (outputs g) (S (cursor g))).

(** [std::uniform_real_distribution<float> u(a, b); u(rng)]:
    [canonical * (b - a) + a]. *)
Definition uniform_real `{Libc} (a b : float) (g : mt19937) : float * mt19937 :=
  let '(r, g') := rng_next g in
  (fadd (fmul (generate_canonical r) (fsub b a)) a, g').

(** What the C++ standard promises of [generate_canonical]: a value in
    [0, 1). *)
Definition canonical_ok (L : Libc) : Prop :=
  forall r, 0 <= r < 2 ^ 32 ->
            fle (lit 0 1) (generate_canonical r) = true
            /\ flt (generate_canonical r) (lit 1 1) = true.

(** Library instance for test vectors: the canonical value is the top 24
    bits of the word over 2^24 (word 0 gives 0.0f, word 0xFFFFFF00 gives
    1 - 2^-24, as dividing the word by 2^32 does); the sine is a stand-in
    within [-1, 1] that is exact at the argument the counterexamples
    evaluate it at ([sinf(0.0f) = 0.0f]). *)
Definition test_libc : Libc :=
  {| sinf := fun _ => Fin 0;
     generate_canonical := fun r => Fin (r / 2 ^ 8 * 2 ^ 125) |}.

(** A generator whose every output is the word [w]. *)
Definition const_rng (w : Z) : mt19937 := MkRng (fun _ => w) 0.

(** Windows types and macros shared by the three files. *)
Record RECT := { left : Z; top : Z; right : Z; bottom : Z }.
Record POINT := { pt_x : Z; pt_y : Z }.

(** [GetRValue], [GetGValue], [GetBValue] of a COLORREF 0x00bbggrr. *)
Definition GetRValue (c : Z) : Z := c mod 256.
Definition GetGValue (c : Z) : Z := (c / 256) mod 256.
Definition GetBValue (c : Z) : Z := (c / 65536) mod 256.
Definition RGB (r g b : Z) : Z := r mod 256 + (g mod 256) * 256 + (b mod 256) * 65536.

(** Reading [a[i]] of a fixed-size array: [None] outside the bounds. *)
Definition array_get {A} (a : list A) (i : Z) : option A :=
  if (0 <=? i) && (i <? Z.of_nat (length a)) then nth_error a (Z.to_nat i) else None.

Fixpoint list_set {A} (a : list A) (i : nat) (v : A) : list A :=
  match a, i with
  | [], _ => []
  | _ :: t, O => v :: t
  | h :: t, S i' => h :: list_set t i' v
  end.

(** Writing [a[i] = v]: [None] outside the bounds. *)
Definition array_set {A} (a : list A) (i : Z) (v : A) : option (list A) :=
  if (0 <=? i) && (i <? Z.of_nat (length a)) then Some (list_set a (Z.to_nat i) v) else None.

(** The messages the window procedures tell apart. *)
Inductive Msg :=
| WM_CREATE | WM_SIZE | WM_KEYDOWN | WM_LBUTTONDOWN | WM_RBUTTONDOWN
| WM_MBUTTONDOWN | WM_XBUTTONDOWN | WM_MOUSEMOVE | WM_DESTROY | WM_OTHER.

Definition is_input (m : Msg) : bool :=
  match m with
  | WM_KEYDOWN | WM_LBUTTONDOWN | WM_RBUTTONDOWN | WM_MBUTTONDOWN
  | WM_XBUTTONDOWN | WM_MOUSEMOVE => true
  | _ => false
  end.

(** Globals of the input filter. *)
Record InputState := {
  g_running : bool;
  g_perfFreq : Z;
  g_startCounter : Z;
  g_startMouse : POINT;
  g_startMouseInit : bool
}.

(** What the handler reads from the system while it runs:
    [QueryPerformanceCounter], [ForegroundIsOurWindow()], [GetCursorPos],
    and whether the window already has its [RenderWindow] attached. *)
Record SysEnv := {
  now : Z;
  foreground_ours : bool;
  cursor_pos : POINT;
  has_rw : bool
}.

(** [double(now.QuadPart - g_startCounter.QuadPart) / double(g_perfFreq.QuadPart)] *)
Definition elapsed_seconds (st : InputState) (env : SysEnv) : double :=
  fdiv (of_int (now env - g_startCounter st)) (of_int (g_perfFreq st)).

Definition stop (st : InputState) : InputState :=
  {| g_running := false; g_perfFreq := g_perfFreq st;
     g_startCounter := g_startCounter st; g_startMouse := g_startMouse st;
     g_startMouseInit := g_startMouseInit st |}.

Definition set_mouse (st : InputState) (p : POINT) (init : bool) : InputState :=
  {| g_running := g_running st; g_perfFreq := g_perfFreq st;
     g_startCounter := g_startCounter st; g_startMouse := p;
     g_startMouseInit := init |}.

(** [abs(a - b)] on [LONG]. *)
Definition abs_diff (a b : Z) : Z := wrap32 (Z.abs (wrap32 (a - b))).

(** [FullWndProc] of the GDI file and of the Direct2D file with size
    parameters (the two differ in the debounce constant and in logging
    only): the globals after the message. *)
Definition FullWndProc_filtered (g_inputDebounceSeconds : double)
    (g_mouseMoveThreshold : Z) (st : InputState) (msg : Msg) (env : SysEnv)
  : InputState :=
  match msg with
  | WM_CREATE => set_mouse st (g_startMouse st) false
  | WM_SIZE =>
      if has_rw env then set_mouse st (g_startMouse st) false else st
  | WM_KEYDOWN | WM_LBUTTONDOWN | WM_RBUTTONDOWN | WM_MBUTTONDOWN
  | WM_XBUTTONDOWN | WM_MOUSEMOVE =>
      let seconds := elapsed_seconds st env in
      if flt seconds g_inputDebounceSeconds then st
      else if negb (foreground_ours env) then st
      else
        match msg with
        | WM_MOUSEMOVE =>
            let cur := cursor_pos env in
            if negb (g_startMouseInit st) then set_mouse st cur true
            else
              let dx := abs_diff (pt_x cur) (pt_x (g_startMouse st)) in
              let dy := abs_diff (pt_y cur) (pt_y (g_startMouse st)) in
              if (dx <? g_mouseMoveThreshold) && (dy <? g_mouseMoveThreshold)
              then st
              else stop st
        | _ => stop st
        end
  | WM_DESTROY => st
  | WM_OTHER => st
  end.

(** What the filtered window procedure [P] (debounce [deb], threshold
    [thr]) does with an input message: nothing inside the debounce window,
    nothing without the focus, no end of the loop for a mouse move below
    the threshold on both axes; otherwise the loop ends. *)
Definition filtered_gate_spec (P : InputState -> Msg -> SysEnv -> InputState)
    (deb : double) (thr : Z) (st : InputState) (msg : Msg) (env : SysEnv) : Prop :=
  (flt (elapsed_seconds st env) deb = true -> P st msg env = st)
  /\ (foreground_ours env = false -> P st msg env = st)
  /\ (msg = WM_MOUSEMOVE ->
      abs_diff (pt_x (cursor_pos env)) (pt_x (g_startMouse st)) < thr ->
      abs_diff (pt_y (cursor_pos env)) (pt_y (g_startMouse st)) < thr ->
      g_running (P st msg env) = g_running st)
  /\ (flt (elapsed_seconds st env) deb = false ->
      foreground_ours env = true ->
      msg <> WM_MOUSEMOVE ->
      g_running (P st msg env) = false)
  /\ (flt (elapsed_seconds st env) deb = false ->
      foreground_ours env = true ->
      msg = WM_MOUSEMOVE ->
      g_startMouseInit st = true ->
      thr <= abs_diff (pt_x (cursor_pos env)) (pt_x (g_startMouse st))
      \/ thr <= abs_diff (pt_y (cursor_pos env)) (pt_y (g_startMouse st)) ->
      g_running (P st msg env) = false).

(** The text of an edit control as [GetDlgItemInt(.., &ok, FALSE)] reads
    it: the UINT returned and the success flag. *)
Record DlgInt := { dlg_value : Z; dlg_ok : bool }.

(** [int v = GetDlgItemInt(..., &ok, FALSE); if (!ok) v = current;] *)
Definition read_field (f : DlgInt) (current : Z) : Z :=
  if dlg_ok f then wrap32 (dlg_value f) else current.

(* ------------------------------------------------------------------ *)
(** ** Starfield/Starfield.cpp: the GDI variant *)
(* ------------------------------------------------------------------ *)
Module Gdi.

Record Star := { x : float; y : float; z : float; speed : float }.

(** The registry-backed globals [g_starCount], [g_speed], [g_color]. *)
Record Config := { g_starCount : Z; g_speed : Z; g_color : Z }.

(** [backHdc] is kept as the flag "a backbuffer exists". *)
Record RenderWindow := {
  backHdc : bool;
  rc : RECT;
  stars : list Star;
  rng : mt19937
}.

Definition Z_MIN : float := lit 2 1.
Definition Z_MAX : float := lit 33 1.
Definition FOCAL : float := lit 9 1.
Definition SIZE_SCALE : float := lit 1 1.
Definition BUCKETS : Z := 6.
Definition g_inputDebounceSeconds : double := lit 66 100.
Definition g_mouseMoveThreshold : Z := 12.

(** [max(1, r.right - r.left)] on [int]. *)
Definition extent (lo hi : Z) : Z := Z.max 1 (wrap32 (hi - lo)).

(** [max(1, g_speed / 2 + 1)] *)
Definition jitterMax (g_speed : Z) : Z := Z.max 1 (Z.quot g_speed 2 + 1).

(** The body of the loop of [InitStars]: three draws of [ud01(0.0f, 1.0f)],
    then one raw word for the speed jitter. *)
Definition init_star `{Libc} (width height g_speed : Z) (g : mt19937)
  : Star * mt19937 :=
  let '(fx, g) := uniform_real (lit 0 1) (lit 1 1) g in
  let '(fy, g) := uniform_real (lit 0 1) (lit 1 1) g in
  let '(fz, g) := uniform_real (lit 0 1) (lit 1 1) g in
  let '(r, g) := rng_next g in
  ({| x := fmul (fmul (fsub fx (lit 5 10)) (of_int width)) (lit 2 1);
      y := fmul (fmul (fsub fy (lit 5 10)) (of_int height)) (lit 2 1);
      z := fadd (fmul fz (fsub Z_MAX Z_MIN)) Z_MIN;
      speed := fadd (of_int g_speed) (of_int (r mod jitterMax g_speed)) |}, g).

Fixpoint init_loop `{Libc} (n : nat) (width height g_speed : Z) (g : mt19937)
  : list Star * mt19937 :=
  match n with
  | O => ([], g)
  | S n' =>
      let '(s, g1) := init_star width height g_speed g in
      let '(rest, g2) := init_loop n' width height g_speed g1 in
      (s :: rest, g2)
  end.

(** [InitStars]; [None] when [stars.resize(g_starCount)] throws
    [std::length_error] on a negative count. *)
Definition InitStars `{Libc} (cfg : Config) (rw : RenderWindow)
  : option RenderWindow :=
  let r := rc rw in
  let width := extent (left r) (right r) in
  let height := extent (top r) (bottom r) in
  if g_starCount cfg <? 0 then None
  else
    let '(ss, g) := init_loop (Z.to_nat (g_starCount cfg)) width height
                              (g_speed cfg) (rng rw) in
    Some {| backHdc := backHdc rw; rc := rc rw; stars := ss; rng := g |}.

(** A filled ellipse drawn with a solid brush: [Ellipse(hdc, l, t, r, b)]. *)
Record EllipseCall := {
  brush : Z * Z * Z;
  e_left : Z; e_top : Z; e_right : Z; e_bottom : Z
}.

(** "advance depth" and "respawn centered and far" of [RenderFrame]. *)
Definition advance `{Libc} (w h g_speed : Z) (dt : float) (s : Star)
    (g : mt19937) : Star * mt19937 :=
  let z1 := fsub (z s) (fmul (fmul (speed s) dt) (lit 5 10)) in
  if fle z1 Z_MIN then
    let '(fx, g) := uniform_real (lit 0 1) (lit 1 1) g in
    let '(fy, g) := uniform_real (lit 0 1) (lit 1 1) g in
    let '(fz, g) := uniform_real (lit 0 1) (lit 1 1) g in
    let '(r, g) := rng_next g in
    ({| x := fmul (fmul (fsub fx (lit 5 10)) (of_int w)) (lit 2 1);
        y := fmul (fmul (fsub fy (lit 5 10)) (of_int h)) (lit 2 1);
        z := fadd (fmul fz (fsub Z_MAX Z_MIN)) Z_MIN;
        speed := fadd (of_int g_speed) (of_int (r mod jitterMax g_speed)) |}, g)
  else ({| x := x s; y := y s; z := z1; speed := speed s |}, g).

(** [px = cx + s.x * (FOCAL / s.z)] *)
Definition project (c coord zz : float) : float :=
  fadd c (fmul coord (fdiv FOCAL zz)).

(** [psz]: [(int)ceilf(max(1.0f, SIZE_SCALE * inv))], capped at 128. *)
Definition star_size (zz : float) : Z :=
  let inv := fdiv Z_MIN zz in
  let psz := to_int (fceil (MAX (lit 1 1) (fmul SIZE_SCALE inv))) in
  if 128 <? psz then 128 else psz.

(** [intensity]: from depth, pulsated, then [max(0, min(255, intensity))]. *)
Definition star_intensity (zz pulse : float) : Z :=
  let t := fdiv (fsub zz Z_MIN) (fsub Z_MAX Z_MIN) in
  let depthIntensity := fsub (lit 1 1) t in
  let intensity :=
    lround (fadd (lit 100 1) (fmul (fmul depthIntensity (lit 155 1)) pulse)) in
  Z.max 0 (Z.min 255 intensity).

(** [bucket = (int)(intensity / (256.0f / BUCKETS))], then clamped. *)
Definition star_bucket (intensity : Z) : Z :=
  let per_bucket : float := fdiv (lit 256 1) (of_int BUCKETS) in
  let bucket := to_int (fdiv (of_int intensity) per_bucket) in
  Z.max 0 (Z.min (BUCKETS - 1) bucket).

(** "slightly move nearer buckets toward white":
    [br = min(255, (int)lroundf(br * whiten + 255 * (1.0f - whiten)))] with
    [whiten = 0.5f + 0.5f * (bucket / (float)(BUCKETS - 1))]. *)
Definition whiten_channel (br bucket : Z) : Z :=
  let whiten : float :=
    fadd (lit 5 10) (fmul (lit 5 10) (fdiv (of_int bucket) (of_int (BUCKETS - 1)))) in
  Z.min 255 (lround (fadd (fmul (of_int br) whiten)
                          (fmul (of_int 255) (fsub (lit 1 1) whiten)))).

(** One channel of the brush made for a bucket:
    [int br = (baseR * intensity) / 255;] and then the whitening. *)
Definition brush_channel (base intensity bucket : Z) : Z :=
  whiten_channel (Z.quot (base * intensity) 255) bucket.

Definition make_brush (g_color intensity bucket : Z) : Z * Z * Z :=
  (brush_channel (GetRValue g_color) intensity bucket,
   brush_channel (GetGValue g_color) intensity bucket,
   brush_channel (GetBValue g_color) intensity bucket).

(** "skip if offscreen" *)
Definition offscreen (px py : float) (psz w h : Z) : bool :=
  flt (fadd px (of_int psz)) (of_int 0)
  || flt (of_int w) (fsub px (of_int psz))
  || flt (fadd py (of_int psz)) (of_int 0)
  || flt (of_int h) (fsub py (of_int psz)).

(** What the loop of [RenderFrame] carries from star to star. *)
Record LoopState := {
  ls_rng : mt19937;
  ls_brushes : list (option (Z * Z * Z));
  ls_calls : list EllipseCall     (* most recent first *)
}.

(** The body of the loop for one star; [None] is an access outside
    [brushes[BUCKETS]]. *)
Definition render_star `{Libc} (cfg : Config) (w h : Z) (dt pulse : float)
    (s : Star) (st : LoopState) : option (Star * LoopState) :=
  let cx := fmul (of_int w) (lit 5 10) in
  let cy := fmul (of_int h) (lit 5 10) in
  let '(s, g) := advance w h (g_speed cfg) dt s (ls_rng st) in
  let px := project cx (x s) (z s) in
  let py := project cy (y s) (z s) in
  let psz := star_size (z s) in
  let intensity := star_intensity (z s) pulse in
  let bucket := star_bucket intensity in
  match array_get (ls_brushes st) bucket with
  | None => None
  | Some slot =>
      let created :=
        match slot with
        | Some _ => Some (ls_brushes st)
        | None => array_set (ls_brushes st) bucket
                    (Some (make_brush (g_color cfg) intensity bucket))
        end in
      match created with
      | None => None
      | Some brushes =>
          if offscreen px py psz w h then
            Some (s, {| ls_rng := g; ls_brushes := brushes;
                        ls_calls := ls_calls st |})
          else
            match array_get brushes bucket with
            | Some (Some b) =>
                let call :=
                  {| brush := b;
                     e_left := to_int (ffloor (fsub px (of_int psz)));
                     e_top := to_int (ffloor (fsub py (of_int psz)));
                     e_right := to_int (fceil (fadd (fadd px (of_int psz)) (of_int 1)));
                     e_bottom := to_int (fceil (fadd (fadd py (of_int psz)) (of_int 1))) |} in
                Some (s, {| ls_rng := g; ls_brushes := brushes;
                            ls_calls := call :: ls_calls st |})
            | _ => None
            end
      end
  end.

Fixpoint render_loop `{Libc} (cfg : Config) (w h : Z) (dt pulse : float)
    (ss : list Star) (st : LoopState) : option (list Star * LoopState) :=
  match ss with
  | [] => Some ([], st)
  | s :: rest =>
      match render_star cfg w h dt pulse s st with
      | None => None
      | Some (s', st') =>
          match render_loop cfg w h dt pulse rest st' with
          | None => None
          | Some (rest', st'') => Some (s' :: rest', st'')
          end
      end
  end.

(** [RenderFrame]: the window afterwards and the [Ellipse] calls in the
    order issued; [None] is an access outside the brush array. *)
Definition RenderFrame `{Libc} (cfg : Config) (rw : RenderWindow)
    (dt totalTime : float) : option (RenderWindow * list EllipseCall) :=
  if negb (backHdc rw) then Some (rw, [])
  else
    let w := extent (left (rc rw)) (right (rc rw)) in
    let h := extent (top (rc rw)) (bottom (rc rw)) in
    let pulse := fadd (lit 1 1) (fmul (lit 5 100) (sinf (fmul totalTime (lit 15 10)))) in
    let st0 := {| ls_rng := rng rw;
                  ls_brushes := repeat None (Z.to_nat BUCKETS);
                  ls_calls := [] |} in
    match render_loop cfg w h dt pulse (stars rw) st0 with
    | None => None
    | Some (ss, st) =>
        Some ({| backHdc := backHdc rw; rc := rc rw; stars := ss;
                 rng := ls_rng st |}, rev (ls_calls st))
    end.

(** The test of "skip if offscreen" for a star as it stands after the
    advance, and the rectangle [Ellipse] is given for it. *)
Definition star_offscreen (w h : Z) (s : Star) : bool :=
  let cx := fmul (of_int w) (lit 5 10) in
  let cy := fmul (of_int h) (lit 5 10) in
  offscreen (project cx (x s) (z s)) (project cy (y s) (z s))
            (star_size (z s)) w h.

Definition star_rect (w h : Z) (s : Star) : Z * Z * Z * Z :=
  let px := project (fmul (of_int w) (lit 5 10)) (x s) (z s) in
  let py := project (fmul (of_int h) (lit 5 10)) (y s) (z s) in
  let psz := star_size (z s) in
  (to_int (ffloor (fsub px (of_int psz))),
   to_int (ffloor (fsub py (of_int psz))),
   to_int (fceil (fadd (fadd px (of_int psz)) (of_int 1))),
   to_int (fceil (fadd (fadd py (of_int psz)) (of_int 1)))).

Definition call_rect (c : EllipseCall) : Z * Z * Z * Z :=
  (e_left c, e_top c, e_right c, e_bottom c).

(** Every channel of a brush colour lies in [0, 255]. *)
Definition rgb_ok (c : Z * Z * Z) : Prop :=
  let '(r, g, b) := c in
  0 <= r <= 255 /\ 0 <= g <= 255 /\ 0 <= b <= 255.

(** Every brush in the cache is a colour with channels in [0, 255]. *)
Definition slots_ok (l : list (option (Z * Z * Z))) : Prop :=
  Forall (fun o => match o with Some c => rgb_ok c | None => True end) l.

(** The frames of a session: [RenderFrame(rw, dt, total)] once per pass of
    the loop of [RunFull] or [RunPreview]. *)
Fixpoint run_frames `{Libc} (cfg : Config) (rw : RenderWindow)
    (frames : list (float * float)) : option RenderWindow :=
  match frames with
  | [] => Some rw
  | (dt, total) :: rest =>
      match RenderFrame cfg rw dt total with
      | None => None
      | Some (rw', _) => run_frames cfg rw' rest
      end
  end.

(** The depth lies in the closed band [Z_MIN, Z_MAX]. *)
Definition in_band (s : Star) : bool := fle Z_MIN (z s) && fle (z s) Z_MAX.

(** [FullWndProc]: debounce 0.66 s, foreground check, 12 pixel threshold. *)
Definition FullWndProc : InputState -> Msg -> SysEnv -> InputState :=
  FullWndProc_filtered g_inputDebounceSeconds g_mouseMoveThreshold.

(** [std::fmax(lo, std::fmin(hi, v))] on [int] arguments, assigned to [int]:
    computed in [double]. *)
Definition clamp_fm (lo hi v : Z) : Z :=
  to_int (fmax (of_int lo : double) (fmin (of_int hi) (of_int v))).

(** The [CID_OK] branch of [SettingsWndProc]: the configuration saved. *)
Definition SettingsOK (cfg : Config) (stars_field speed_field : DlgInt) : Config :=
  let stars := clamp_fm 10 5000 (read_field stars_field (g_starCount cfg)) in
  let speed := clamp_fm 10 300 (read_field speed_field (g_speed cfg)) in
  {| g_starCount := stars; g_speed := speed; g_color := g_color cfg |}.

End Gdi.

(* ------------------------------------------------------------------ *)
(** ** MyStarfield.cpp: the Direct2D variant with the resource dialog *)
(* ------------------------------------------------------------------ *)
Module D2D.

Record Star := { x : float; y : float; z : float; base : float; phase : float }.

Record Config := {
  g_starCount : Z;
  g_speedPercent : Z;
  g_twinklePercent : Z;
  g_color : Z
}.

(** The render target as the frame reads it: [GetSize()] in DIPs and
    [GetDpi]. *)
Record RenderTarget := { width : float; height : float; dpiX : float }.

Record RenderWindow := {
  rt : option RenderTarget;
  rc : RECT;
  stars : list Star;
  rng : mt19937
}.

Definition g_inputDebounceSeconds : double := lit 25 10.
Definition NEAR : float := lit 5 100.
Definition TWO_PI : float := lit 628318530718 100000000000.

(** [int w = max(1, r.right - r.left)] *)
Definition extent (lo hi : Z) : Z := Z.max 1 (wrap32 (hi - lo)).

(** [Star s{ ux(rng), uy(rng), uz(rng), ub(rng), uph(rng) }] with
    [ux(0, w)], [uy(0, h)], [uz(0.2, 1)], [ub(0.6, 1)], [uph(0, 2 pi)]. *)
Definition init_star `{Libc} (w h : Z) (g : mt19937) : Star * mt19937 :=
  let '(sx, g) := uniform_real (lit 0 1) (of_int w) g in
  let '(sy, g) := uniform_real (lit 0 1) (of_int h) g in
  let '(sz, g) := uniform_real (lit 2 10) (lit 1 1) g in
  let '(sb, g) := uniform_real (lit 6 10) (lit 1 1) g in
  let '(sp, g) := uniform_real (lit 0 1) TWO_PI g in
  ({| x := sx; y := sy; z := sz; base := sb; phase := sp |}, g).

Fixpoint init_loop `{Libc} (n : nat) (w h : Z) (g : mt19937)
  : list Star * mt19937 :=
  match n with
  | O => ([], g)
  | S n' =>
      let '(s, g1) := init_star w h g in
      let '(rest, g2) := init_loop n' w h g1 in
      (s :: rest, g2)
  end.

(** [InitStars]; [None] when [stars.reserve(g_starCount)] throws
    [std::length_error] on a negative count. *)
Definition InitStars `{Libc} (cfg : Config) (rw : RenderWindow)
  : option RenderWindow :=
  let w := extent (left (rc rw)) (right (rc rw)) in
  let h := extent (top (rc rw)) (bottom (rc rw)) in
  if g_starCount cfg <? 0 then None
  else
    let '(ss, g) := init_loop (Z.to_nat (g_starCount cfg)) w h (rng rw) in
    Some {| rt := rt rw; rc := rc rw; stars := ss; rng := g |}.

(** [s.z -= 0.5f * speed * dt; if (s.z <= 0.05f) { ... }] with the respawn
    distributions [ux(0, size.width)], [uy(0, size.height)], [uz(0.5, 1)],
    [ub(0.6, 1)], [uph(0, 2 pi)]. *)
Definition advance `{Libc} (size_w size_h speed dt : float) (s : Star)
    (g : mt19937) : Star * mt19937 :=
  let z1 := fsub (z s) (fmul (fmul (lit 5 10) speed) dt) in
  if fle z1 NEAR then
    let '(sx, g) := uniform_real (lit 0 1) size_w g in
    let '(sy, g) := uniform_real (lit 0 1) size_h g in
    let '(sz, g) := uniform_real (lit 5 10) (lit 1 1) g in
    let '(sb, g) := uniform_real (lit 6 10) (lit 1 1) g in
    let '(sp, g) := uniform_real (lit 0 1) TWO_PI g in
    ({| x := sx; y := sy; z := sz; base := sb; phase := sp |}, g)
  else ({| x := x s; y := y s; z := z1; base := base s; phase := phase s |}, g).

(** [px = (s.x - cx) / s.z + cx] *)
Definition project (c coord zz : float) : float :=
  fadd (fdiv (fsub coord c) zz) c.

(** [float psz = 2.5f / s.z; if (psz < 1.0f) psz = 1.0f;] *)
Definition star_size (zz : float) : float :=
  let psz := fdiv (lit 25 10) zz in
  if flt psz (lit 1 1) then lit 1 1 else psz.

(** [tw = s.base + (sinf(s.phase + totalTime * 5.0f) * 0.5f + 0.5f) * twinkle] *)
Definition twinkle_factor `{Libc} (s : Star) (totalTime twinkle : float) : float :=
  fadd (base s)
       (fmul (fadd (fmul (sinf (fadd (phase s) (fmul totalTime (lit 5 1))))
                         (lit 5 10))
                   (lit 5 10))
             twinkle).

(** [GetRValue(g_color) / 255.0f * tw] *)
Definition channel (c : Z) (tw : float) : float :=
  fmul (fdiv (of_int c) (lit 255 1)) tw.

(** [FillEllipse(Ellipse(Point2F(px, py), psz, psz), brush)] after
    [brush->SetColor(ColorF(rr, gg, bb, 1.0f))]. *)
Record FillCall := {
  color : float * float * float;
  center_x : float; center_y : float;
  radius : float
}.

(** A colour channel is not negative and not above 2. *)
Definition channel_ok (c : float) : Prop :=
  fle (lit 0 1) c = true /\ fle c (lit 2 1) = true.

Definition star_color `{Libc} (cfg : Config) (s : Star) (totalTime : float)
  : float * float * float :=
  let twinkle := fdiv (of_int (g_twinklePercent cfg)) (lit 100 1) in
  let tw := twinkle_factor s totalTime twinkle in
  (channel (GetRValue (g_color cfg)) tw,
   channel (GetGValue (g_color cfg)) tw,
   channel (GetBValue (g_color cfg)) tw).

(** [float speed = g_speedPercent / 100.0f;] *)
Definition frame_speed (cfg : Config) : float :=
  fdiv (of_int (g_speedPercent cfg)) (lit 100 1).

(** The body of the loop of [RenderFrame] for one star. *)
Definition render_star `{Libc} (cfg : Config) (t : RenderTarget)
    (dt totalTime : float) (s : Star) (g : mt19937)
  : Star * mt19937 * FillCall :=
  let cx := fmul (width t) (lit 5 10) in
  let cy := fmul (height t) (lit 5 10) in
  let speed := frame_speed cfg in
  let '(s, g) := advance (width t) (height t) speed dt s g in
  let px := project cx (x s) (z s) in
  let py := project cy (y s) (z s) in
  let psz := star_size (z s) in
  (s, g, {| color := star_color cfg s totalTime;
            center_x := px; center_y := py; radius := psz |}).

Fixpoint render_loop `{Libc} (cfg : Config) (t : RenderTarget)
    (dt totalTime : float) (ss : list Star) (g : mt19937)
  : list Star * mt19937 * list FillCall :=
  match ss with
  | [] => ([], g, [])
  | s :: rest =>
      let '(s', g1, c) := render_star cfg t dt totalTime s g in
      let '(rest', g2, cs) := render_loop cfg t dt totalTime rest g1 in
      (s' :: rest', g2, c :: cs)
  end.

(** [RenderFrame]: the window afterwards and the [FillEllipse] calls. *)
Definition RenderFrame `{Libc} (cfg : Config) (rw : RenderWindow)
    (dt totalTime : float) : RenderWindow * list FillCall :=
  match rt rw with
  | None => (rw, [])
  | Some t =>
      let '(ss, g, calls) := render_loop cfg t dt totalTime (stars rw) (rng rw) in
      ({| rt := rt rw; rc := rc rw; stars := ss; rng := g |}, calls)
  end.

Fixpoint run_frames `{Libc} (cfg : Config) (rw : RenderWindow)
    (frames : list (float * float)) : RenderWindow :=
  match frames with
  | [] => rw
  | (dt, total) :: rest => run_frames cfg (fst (RenderFrame cfg rw dt total)) rest
  end.

(** The depth lies above the near bound 0.05 and not above 1. *)
Definition in_band (s : Star) : bool := flt NEAR (z s) && fle (z s) (lit 1 1).

(** [FullWndProc]: the debounce is the only filter. *)
Definition FullWndProc (st : InputState) (msg : Msg) (env : SysEnv) : InputState :=
  match msg with
  | WM_KEYDOWN | WM_LBUTTONDOWN | WM_RBUTTONDOWN | WM_MBUTTONDOWN
  | WM_XBUTTONDOWN | WM_MOUSEMOVE =>
      let seconds := elapsed_seconds st env in
      if fle g_inputDebounceSeconds seconds then stop st else st
  | _ => st
  end.

(** The colour presets of the combo box; any other selection keeps
    [g_color]. *)
Definition preset (sel : Z) (current : Z) : Z :=
  if sel =? 0 then RGB 255 255 240
  else if sel =? 1 then RGB 200 200 255
  else if sel =? 2 then RGB 160 180 255
  else if sel =? 3 then RGB 255 240 180
  else current.

(** The [IDOK] branch of [SettingsDlgProc]: the configuration saved. *)
Definition SettingsOK (cfg : Config) (stars_field speed_field tw_field : DlgInt)
    (sel : Z) : Config :=
  let stars := Z.max 10 (Z.min 5000 (read_field stars_field (g_starCount cfg))) in
  let speed := Z.max 10 (Z.min 300 (read_field speed_field (g_speedPercent cfg))) in
  let tw := Z.max 0 (Z.min 100 (read_field tw_field (g_twinklePercent cfg))) in
  {| g_starCount := stars; g_speedPercent := speed; g_twinklePercent := tw;
     g_color := preset sel (g_color cfg) |}.

End D2D.

(* ------------------------------------------------------------------ *)
(** ** Starfield.cpp (Direct2D): the variant with size parameters

    [Star], [RenderWindow], [InitStars], the depth advance, the
    projection, the colour and the [CID_OK] branch have the same text as
    in MyStarfield.cpp and are shared with [D2D]; the star size and
    [FullWndProc] differ. *)
(* ------------------------------------------------------------------ *)
Module D2Dp.

Definition g_starSizeMultiplier : float := lit 1 1.
Definition g_starBase : float := lit 1 1.
Definition g_starMin : float := lit 5 10.
Definition g_starMax : float := lit 8 1.
Definition g_inputDebounceSeconds : double := lit 25 10.
Definition g_mouseMoveThreshold : Z := 12.

(** [template <typename T> T clamp(T val, T minVal, T maxVal)] *)
Definition clamp (val minVal maxVal : float) : float :=
  if flt val minVal then minVal
  else if flt maxVal val then maxVal
  else val.

(** [psz = (g_starBase / s.z) * (0.6f + 0.8f * s.base) * g_starSizeMultiplier;] *)
Definition raw_size (s : D2D.Star) : float :=
  fmul (fmul (fdiv g_starBase (D2D.z s))
             (fadd (lit 6 10) (fmul (lit 8 10) (D2D.base s))))
       g_starSizeMultiplier.

(** [psz = clamp(psz, g_starMin, g_starMax);] *)
Definition clamped_size (s : D2D.Star) : float :=
  clamp (raw_size s) g_starMin g_starMax.

(** [... ; dpiScale = dpiX / 96.0f; psz *= dpiScale;] *)
Definition star_size (s : D2D.Star) (dpiX : float) : float :=
  fmul (clamped_size s) (fdiv dpiX (lit 96 1)).

Definition render_star `{Libc} (cfg : D2D.Config) (t : D2D.RenderTarget)
    (dt totalTime : float) (s : D2D.Star) (g : mt19937)
  : D2D.Star * mt19937 * D2D.FillCall :=
  let cx := fmul (D2D.width t) (lit 5 10) in
  let cy := fmul (D2D.height t) (lit 5 10) in
  let speed := D2D.frame_speed cfg in
  let '(s, g) := D2D.advance (D2D.width t) (D2D.height t) speed dt s g in
  let px := D2D.project cx (D2D.x s) (D2D.z s) in
  let py := D2D.project cy (D2D.y s) (D2D.z s) in
  let psz := star_size s (D2D.dpiX t) in
  (s, g, {| D2D.color := D2D.star_color cfg s totalTime;
            D2D.center_x := px; D2D.center_y := py; D2D.radius := psz |}).

Fixpoint render_loop `{Libc} (cfg : D2D.Config) (t : D2D.RenderTarget)
    (dt totalTime : float) (ss : list D2D.Star) (g : mt19937)
  : list D2D.Star * mt19937 * list D2D.FillCall :=
  match ss with
  | [] => ([], g, [])
  | s :: rest =>
      let '(s', g1, c) := render_star cfg t dt totalTime s g in
      let '(rest', g2, cs) := render_loop cfg t dt totalTime rest g1 in
      (s' :: rest', g2, c :: cs)
  end.

Definition RenderFrame `{Libc} (cfg : D2D.Config) (rw : D2D.RenderWindow)
    (dt totalTime : float) : D2D.RenderWindow * list D2D.FillCall :=
  match D2D.rt rw with
  | None => (rw, [])
  | Some t =>
      let '(ss, g, calls) :=
        render_loop cfg t dt totalTime (D2D.stars rw) (D2D.rng rw) in
      ({| D2D.rt := D2D.rt rw; D2D.rc := D2D.rc rw; D2D.stars := ss;
          D2D.rng := g |}, calls)
  end.

Fixpoint run_frames `{Libc} (cfg : D2D.Config) (rw : D2D.RenderWindow)
    (frames : list (float * float)) : D2D.RenderWindow :=
  match frames with
  | [] => rw
  | (dt, total) :: rest => run_frames cfg (fst (RenderFrame cfg rw dt total)) rest
  end.

(** [FullWndProc]: debounce 2.5 s, foreground check, 12 pixel threshold. *)
Definition FullWndProc : InputState -> Msg -> SysEnv -> InputState :=
  FullWndProc_filtered g_inputDebounceSeconds g_mouseMoveThreshold.

End D2Dp.

(* ------------------------------------------------------------------ *)
(** ** Test vectors *)
(* ------------------------------------------------------------------ *)

Definition tv_rect : RECT := {| left := 0; top := 0; right := 1920; bottom := 1080 |}.

(** Two frames at 60 Hz. *)
Definition tv_frames : list (float * float) :=
  [(lit 1 60, lit 1 60); (lit 1 60, lit 2 60)].

Definition gdi_cfg0 : Gdi.Config :=
  {| Gdi.g_starCount := 3; Gdi.g_speed := 60; Gdi.g_color := RGB 255 255 255 |}.

Definition gdi_rw0 : Gdi.RenderWindow :=
  {| Gdi.backHdc := true; Gdi.rc := tv_rect; Gdi.stars := [];
     Gdi.rng := const_rng 0 |}.

(** A star a quarter unit above [Z_MIN], one 60 Hz frame from crossing. *)
Definition gdi_low_star : Gdi.Star :=
  {| Gdi.x := lit 0 1; Gdi.y := lit 0 1; Gdi.z := lit 225 100;
     Gdi.speed := lit 60 1 |}.

Definition d2d_cfg0 : D2D.Config :=
  {| D2D.g_starCount := 3; D2D.g_speedPercent := 60;
     D2D.g_twinklePercent := 30; D2D.g_color := RGB 255 255 240 |}.

(** A star just above the near bound 0.05, one 60 Hz frame from crossing,
    at the left edge of the window. *)
Definition d2d_low_star : D2D.Star :=
  {| D2D.x := lit 0 1; D2D.y := lit 0 1; D2D.z := lit 52 1000;
     D2D.base := lit 9 10; D2D.phase := lit 0 1 |}.

Definition d2d_rt0 : D2D.RenderTarget :=
  {| D2D.width := lit 1920 1; D2D.height := lit 1080 1; D2D.dpiX := lit 96 1 |}.

Definition d2d_rw0 : D2D.RenderWindow :=
  {| D2D.rt := Some d2d_rt0; D2D.rc := tv_rect; D2D.stars := [];
     D2D.rng := const_rng 0 |}.

(** A near star at the top left corner of the window: it projects far to
    the left of and above the viewport. *)
Definition d2d_corner_star : D2D.Star :=
  {| D2D.x := lit 0 1; D2D.y := lit 0 1; D2D.z := lit 1 10;
     D2D.base := lit 8 10; D2D.phase := lit 0 1 |}.

Definition d2d_rw1 : D2D.RenderWindow :=
  {| D2D.rt := Some d2d_rt0; D2D.rc := tv_rect; D2D.stars := [d2d_corner_star];
     D2D.rng := const_rng 0 |}.

(** The bounding box of a [FillEllipse] call lies entirely to the left of
    the viewport. *)
Definition fill_left_of_viewport (c : D2D.FillCall) : bool :=
  flt (fadd (D2D.center_x c) (D2D.radius c)) (lit 0 1).

(** A bright star: [base = 0.9], phase 0. *)
Definition d2d_bright_star : D2D.Star :=
  {| D2D.x := lit 960 1; D2D.y := lit 540 1; D2D.z := lit 5 10;
     D2D.base := lit 9 10; D2D.phase := lit 0 1 |}.

(** A far star, beyond the band of the Direct2D variants. *)
Definition d2d_far_star : D2D.Star :=
  {| D2D.x := lit 0 1; D2D.y := lit 0 1; D2D.z := lit 4 1;
     D2D.base := lit 6 10; D2D.phase := lit 0 1 |}.

(** Input filter test vectors: a 10 MHz performance counter started at 0,
    the mouse first seen at (100, 100). *)
Definition tv_input : InputState :=
  {| g_running := true; g_perfFreq := 10000000; g_startCounter := 0;
     g_startMouse := {| pt_x := 100; pt_y := 100 |}; g_startMouseInit := true |}.

(** The system [seconds] seconds after the start (in tenths), with the
    cursor [dx] pixels to the right of (100, 100). *)
Definition tv_env (tenths dx : Z) (focus : bool) : SysEnv :=
  {| now := tenths * 1000000; foreground_ours := focus;
     cursor_pos := {| pt_x := 100 + dx; pt_y := 100 |}; has_rw := true |}.

(** Settings dialog test vectors: an edit control holding 99999, one that
    does not parse, and a configuration with the GDI defaults. *)
Definition tv_big_field : DlgInt := {| dlg_value := 99999; dlg_ok := true |}.
Definition tv_bad_field : DlgInt := {| dlg_value := 0; dlg_ok := false |}.

(** The GDI configuration with another speed. *)
Definition gdi_cfg_fast : Gdi.Config :=
  {| Gdi.g_starCount := 3; Gdi.g_speed := 100; Gdi.g_color := RGB 255 255 255 |}.

(** The GDI configuration with another colour, and the window without a
    backbuffer. *)
Definition gdi_cfg_blue : Gdi.Config :=
  {| Gdi.g_starCount := 3; Gdi.g_speed := 60; Gdi.g_color := RGB 0 0 255 |}.

Definition gdi_rw_nobuf : Gdi.RenderWindow :=
  {| Gdi.backHdc := false; Gdi.rc := tv_rect; Gdi.stars := [gdi_low_star];
     Gdi.rng := const_rng 0 |}.

(* ------------------------------------------------------------------ *)
(** ** The command line: [ParseArgs] and the dispatch of [wWinMain]

    [ParseArgs] has the same text in the three files.  A [wchar_t] is its
    code unit and a [std::wstring] the list of its code units; [argv] is
    the list of its [argc] strings. *)
(* ------------------------------------------------------------------ *)
Module Cmd.

(** [towlower], [iswdigit] and [_wcstoui64(s, nullptr, 0)] belong to the C
    run-time library and are taken as an interface. *)
Class Wcrt := {
  towlower : Z -> Z;
  iswdigit : Z -> bool;
  wcstoui64 : list Z -> Z
}.

Definition NULL : Z := 0.

(** [(HWND)v] of an [unsigned __int64], in a 64-bit build. *)
Definition to_HWND (v : Z) : Z := v mod 2 ^ 64.

(** [L'/'], [L'-'], [L':'], ['c'], ['p']. *)
Definition SLASH : Z := 47.
Definition DASH : Z := 45.
Definition COLON : Z := 58.
Definition CHAR_c : Z := 99.
Definition CHAR_p : Z := 112.

(** [s.find(c)]: the first position of [c], [None] for [npos]. *)
Fixpoint find (s : list Z) (c : Z) : option nat :=
  match s with
  | [] => None
  | h :: t => if h =? c then Some O
              else match find t c with
                   | Some i => Some (S i)
                   | None => None
                   end
  end.

(** [s.substr(pos)] for [pos <= s.size()]. *)
Definition substr (s : list Z) (pos : nat) : list Z := skipn pos s.

Definition empty (s : list Z) : bool :=
  match s with [] => true | _ => false end.

(** [for (wchar_t ch : a2) if (!iswdigit(ch)) { numeric = false; break; }] *)
Fixpoint digits_loop `{Wcrt} (numeric : bool) (a2 : list Z) : bool :=
  match a2 with
  | [] => numeric
  | ch :: rest => if negb (iswdigit ch) then false else digits_loop numeric rest
  end.

(** [ParseArgs]: the pair [(modeOut, hwndOut)]. *)
Definition ParseArgs `{Wcrt} (argv : list (list Z)) : Z * Z :=
  let argc := Z.of_nat (length argv) in
  if argc <=? 1 then (0, NULL)
  else
    let a1 := nth 1 argv [] in
    if (2 <=? Z.of_nat (length a1))
       && ((nth 0 a1 0 =? SLASH) || (nth 0 a1 0 =? DASH))
    then
      let c := towlower (nth 1 a1 0) in
      match find a1 COLON with
      | Some colon =>
          let num := substr a1 (colon + 1) in
          (c, if negb (empty num) then to_HWND (wcstoui64 num) else NULL)
      | None =>
          if 3 <=? argc then
            let a2 := nth 2 argv [] in
            let numeric := digits_loop (negb (empty a2)) a2 in
            (c, if numeric then to_HWND (wcstoui64 a2) else NULL)
          else (c, NULL)
      end
    else (0, NULL).

(** What [wWinMain] runs after [ParseArgs]: the settings dialog
    ([ShowSettingsModalPopup()] in the two Starfield.cpp,
    [RunSettingsSmart(argH)] in MyStarfield.cpp), the preview inside the
    window [argH], or the full-screen saver. *)
Inductive Run :=
| RunSettings (argH : Z)
| RunPreview (argH : Z)
| RunFull.

Definition wWinMain `{Wcrt} (argv : list (list Z)) : Run :=
  let '(mode, argH) := ParseArgs argv in
  if mode =? CHAR_c then RunSettings argH
  else if (mode =? CHAR_p) && negb (argH =? NULL) then RunPreview argH
  else RunFull.

(** The switch form of [argv[1]]: at least two characters, the first a
    slash or a dash. *)
Definition is_switch (a1 : list Z) : bool :=
  (2 <=? Z.of_nat (length a1))
  && ((nth 0 a1 0 =? SLASH) || (nth 0 a1 0 =? DASH)).

(** A run-time library for test vectors: the C locale on ASCII, and
    [_wcstoui64] on strings of decimal digits without a leading zero. *)
Definition ascii_digit (c : Z) : bool := (48 <=? c) && (c <=? 57).

Fixpoint decimal (acc : Z) (s : list Z) : Z :=
  match s with
  | [] => acc
  | c :: t => if ascii_digit c then decimal (10 * acc + (c - 48)) t else acc
  end.

Definition test_wcrt : Wcrt :=
  {| towlower := fun c => if (65 <=? c) && (c <=? 90) then c + 32 else c;
     iswdigit := ascii_digit;
     wcstoui64 := fun s => Z.min (decimal 0 s) (2 ^ 64 - 1) |}.

(** ["/p"], ["/P"], ["/s"], ["1234"], ["x.scr"] *)
Definition tv_slash_p : list Z := [47; 112].
Definition tv_slash_P : list Z := [47; 80].
Definition tv_slash_s : list Z := [47; 115].
Definition tv_1234 : list Z := [49; 50; 51; 52].
Definition tv_exe : list Z := [120; 46; 115; 99; 114].

End Cmd.

(* ------------------------------------------------------------------ *)
(** ** The settings in the registry

    [GetRegDWORD] and [SetRegDWORD] have the same text in the three
    files.  The registry is seen through the one key the program uses,
    [HKEY_CURRENT_USER\<REG_KEY>]: whether it exists, the DWORD values
    under it by name, and whether [RegCreateKeyExW(.., KEY_WRITE, ..)]
    succeeds.  Values of another size than a DWORD are outside the
    model. *)
(* ------------------------------------------------------------------ *)
Module Reg.

Record Registry := {
  key : option (String.string -> option Z);
  writable : bool
}.

(** [(DWORD)v] *)
Definition DWORD (v : Z) : Z := v mod 2 ^ 32.

(** [GetRegDWORD(name, def)]: [DWORD val = def;] is overwritten when the
    key opens and the value exists, and [(int)val] is returned. *)
Definition GetRegDWORD (reg : Registry) (name : String.string) (def : Z) : Z :=
  let val := DWORD def in
  let val :=
    match key reg with
    | Some values =>
        match values name with
        | Some data => DWORD data
        | None => val
        end
    | None => val
    end in
  wrap32 val.

(** [SetRegDWORD(name, v)]: creates the key when it is missing and sets
    the value; nothing happens when the key cannot be created or opened
    for writing. *)
Definition SetRegDWORD (reg : Registry) (name : String.string) (v : Z) : Registry :=
  if writable reg then
    let values := match key reg with
                  | Some values => values
                  | None => fun _ => None
                  end in
    {| key := Some (fun n => if String.eqb n name then Some (DWORD v) else values n);
       writable := writable reg |}
  else reg.

Definition REG_STARS : String.string := "StarCount"%string.
Definition REG_SPEED : String.string := "SpeedPercent"%string.
Definition REG_TWINKLE : String.string := "TwinklePercent"%string.
Definition REG_COLOR_R : String.string := "ColorR"%string.
Definition REG_COLOR_G : String.string := "ColorG"%string.
Definition REG_COLOR_B : String.string := "ColorB"%string.

(** A registry without the key, as on a machine where the settings were
    never saved. *)
Definition no_key : Registry := {| key := None; writable := true |}.

(** A registry whose key holds the one value [name = data]. *)
Definition one_value (name : String.string) (data : Z) : Registry :=
  {| key := Some (fun n => if String.eqb n name then Some data else None);
     writable := true |}.

End Reg.

(** [LoadSettings] and [SaveSettings] of Starfield/Starfield.cpp: the
    configuration globals after loading, the registry after saving. *)
Module GdiReg.

Definition LoadSettings (reg : Reg.Registry) (cfg : Gdi.Config) : Gdi.Config :=
  let g_starCount := Reg.GetRegDWORD reg Reg.REG_STARS (Gdi.g_starCount cfg) in
  let g_speed := Reg.GetRegDWORD reg Reg.REG_SPEED (Gdi.g_speed cfg) in
  {| Gdi.g_starCount := g_starCount; Gdi.g_speed := g_speed;
     Gdi.g_color := Gdi.g_color cfg |}.

Definition SaveSettings (reg : Reg.Registry) (cfg : Gdi.Config) : Reg.Registry :=
  let reg := Reg.SetRegDWORD reg Reg.REG_STARS (Reg.DWORD (Gdi.g_starCount cfg)) in
  Reg.SetRegDWORD reg Reg.REG_SPEED (Reg.DWORD (Gdi.g_speed cfg)).

(** The defaults compiled into the file. *)
Definition defaults : Gdi.Config :=
  {| Gdi.g_starCount := 600; Gdi.g_speed := 60; Gdi.g_color := RGB 255 255 255 |}.

End GdiReg.

(** [LoadSettings] and [SaveSettings] of MyStarfield.cpp and of the
    Direct2D Starfield.cpp (the same text, the same key and names). *)
Module D2DReg.

Definition LoadSettings (reg : Reg.Registry) (cfg : D2D.Config) : D2D.Config :=
  let g_starCount := Reg.GetRegDWORD reg Reg.REG_STARS (D2D.g_starCount cfg) in
  let g_speedPercent := Reg.GetRegDWORD reg Reg.REG_SPEED (D2D.g_speedPercent cfg) in
  let g_twinklePercent :=
    Reg.GetRegDWORD reg Reg.REG_TWINKLE (D2D.g_twinklePercent cfg) in
  let r := Reg.GetRegDWORD reg Reg.REG_COLOR_R (GetRValue (D2D.g_color cfg)) in
  let g := Reg.GetRegDWORD reg Reg.REG_COLOR_G (GetGValue (D2D.g_color cfg)) in
  let b := Reg.GetRegDWORD reg Reg.REG_COLOR_B (GetBValue (D2D.g_color cfg)) in
  {| D2D.g_starCount := g_starCount; D2D.g_speedPercent := g_speedPercent;
     D2D.g_twinklePercent := g_twinklePercent; D2D.g_color := RGB r g b |}.

Definition SaveSettings (reg : Reg.Registry) (cfg : D2D.Config) : Reg.Registry :=
  let reg := Reg.SetRegDWORD reg Reg.REG_STARS (Reg.DWORD (D2D.g_starCount cfg)) in
  let reg := Reg.SetRegDWORD reg Reg.REG_SPEED (Reg.DWORD (D2D.g_speedPercent cfg)) in
  let reg := Reg.SetRegDWORD reg Reg.REG_TWINKLE (Reg.DWORD (D2D.g_twinklePercent cfg)) in
  let reg := Reg.SetRegDWORD reg Reg.REG_COLOR_R (Reg.DWORD (GetRValue (D2D.g_color cfg))) in
  let reg := Reg.SetRegDWORD reg Reg.REG_COLOR_G (Reg.DWORD (GetGValue (D2D.g_color cfg))) in
  Reg.SetRegDWORD reg Reg.REG_COLOR_B (Reg.DWORD (GetBValue (D2D.g_color cfg))).

Definition defaults : D2D.Config :=
  {| D2D.g_starCount := 600; D2D.g_speedPercent := 60;
     D2D.g_twinklePercent := 30; D2D.g_color := RGB 255 255 240 |}.

End D2DReg.

(* ------------------------------------------------------------------ *)
(** ** The settings dialog on opening *)
(* ------------------------------------------------------------------ *)

(** [SetDlgItemInt(h, id, v, FALSE)] when the dialog opens, then
    [GetDlgItemInt(h, id, &ok, FALSE)] on the control nobody edited: the
    value is shown, and read back, as an unsigned number. *)
Definition unedited (v : Z) : DlgInt :=
  {| dlg_value := v mod 2 ^ 32; dlg_ok := true |}.

(** [CB_ERR], which [CB_GETCURSEL] returns while nothing is selected. *)
Definition CB_ERR : Z := -1.

(** [WM_INITDIALOG] of [SettingsDlgProc] (MyStarfield.cpp): the entry of
    the colour list selected for [g_color]; none for a colour that is no
    preset. *)
Definition initdialog_sel (g_color : Z) : Z :=
  if g_color =? RGB 255 255 240 then 0
  else if g_color =? RGB 200 200 255 then 1
  else if g_color =? RGB 160 180 255 then 2
  else if g_color =? RGB 255 240 180 then 3
  else CB_ERR.

(** [WM_CREATE] of [SettingsWndProc] (Starfield.cpp, Direct2D):
    [int sel = 0; if (g_color == ...) sel = ...; CB_SETCURSEL sel]. *)
Definition create_sel (g_color : Z) : Z :=
  let sel := 0 in
  if g_color =? RGB 255 255 240 then 0
  else if g_color =? RGB 200 200 255 then 1
  else if g_color =? RGB 160 180 255 then 2
  else if g_color =? RGB 255 240 180 then 3
  else sel.

(** A colour that is none of the four presets. *)
Definition tv_custom_color : Z := RGB 10 20 30.

Definition d2d_cfg_custom : D2D.Config :=
  {| D2D.g_starCount := 600; D2D.g_speedPercent := 60;
     D2D.g_twinklePercent := 30; D2D.g_color := tv_custom_color |}.

(* ------------------------------------------------------------------ *)
(** ** The backbuffer of the GDI variant

    [CreateBackbuffer] and [DestroyBackbuffer] of Starfield/Starfield.cpp
    over the GDI objects they create, select and delete.  A handle is a
    non-zero number, NULL is 0. *)
(* ------------------------------------------------------------------ *)
Module Backbuffer.

Definition NULL : Z := 0.

(** The bitmap a fresh memory DC has selected (the stock 1 x 1 bitmap). *)
Definition DEFAULT_BITMAP : Z := 1.

(** The GDI objects alive: the memory DCs with the bitmap selected into
    each, the bitmaps made by [CreateCompatibleBitmap] with their sizes,
    the number of window DCs obtained with [GetDC] and not released, and
    the value of the next handle. *)
Record Heap := {
  dcs : list (Z * Z);
  bitmaps : list (Z * (Z * Z));
  window_dcs : Z;
  next : Z
}.

(** Which of the calls that can fail succeed, for one run of
    [CreateBackbuffer]. *)
Record Outcome := {
  GetDC_ok : bool;
  CreateCompatibleDC_ok : bool;
  CreateCompatibleBitmap_ok : bool
}.

(** The fields of [RenderWindow] the two functions use. *)
Record Fields := {
  hwnd : Z;
  backHdc : Z;
  backBmp : Z;
  oldBackBmp : Z;
  rc : RECT
}.

Definition GetDC (h : Heap) : Heap :=
  {| dcs := dcs h; bitmaps := bitmaps h; window_dcs := window_dcs h + 1;
     next := next h |}.

Definition ReleaseDC (h : Heap) : Heap :=
  {| dcs := dcs h; bitmaps := bitmaps h; window_dcs := window_dcs h - 1;
     next := next h |}.

Definition CreateCompatibleDC (o : Outcome) (h : Heap) : Z * Heap :=
  if CreateCompatibleDC_ok o then
    (next h, {| dcs := (next h, DEFAULT_BITMAP) :: dcs h; bitmaps := bitmaps h;
                window_dcs := window_dcs h; next := next h + 1 |})
  else (NULL, h).

Definition CreateCompatibleBitmap (o : Outcome) (h : Heap) (w hh : Z) : Z * Heap :=
  if CreateCompatibleBitmap_ok o then
    (next h, {| dcs := dcs h; bitmaps := (next h, (w, hh)) :: bitmaps h;
                window_dcs := window_dcs h; next := next h + 1 |})
  else (NULL, h).

(** [SelectObject(dc, bmp)]: the bitmap selected before. *)
Definition SelectObject (h : Heap) (dc bmp : Z) : Z * Heap :=
  match find (fun e => fst e =? dc) (dcs h) with
  | Some (_, old) =>
      (old, {| dcs := map (fun e => if fst e =? dc then (dc, bmp) else e) (dcs h);
               bitmaps := bitmaps h; window_dcs := window_dcs h; next := next h |})
  | None => (NULL, h)
  end.

(** [DeleteObject(bmp)]: a bitmap selected into a DC is not deleted. *)
Definition DeleteObject (h : Heap) (bmp : Z) : Heap :=
  if existsb (fun e => snd e =? bmp) (dcs h) then h
  else {| dcs := dcs h;
          bitmaps := filter (fun e => negb (fst e =? bmp)) (bitmaps h);
          window_dcs := window_dcs h; next := next h |}.

Definition DeleteDC (h : Heap) (dc : Z) : Heap :=
  {| dcs := filter (fun e => negb (fst e =? dc)) (dcs h);
     bitmaps := bitmaps h; window_dcs := window_dcs h; next := next h |}.

(** [if (rw->backHdc) { SelectObject(rw->backHdc, rw->oldBackBmp);
    DeleteObject(rw->backBmp); DeleteDC(rw->backHdc);
    rw->backHdc = NULL; rw->backBmp = NULL; rw->oldBackBmp = NULL; }] *)
Definition release (f : Fields) (h : Heap) : Fields * Heap :=
  if negb (backHdc f =? NULL) then
    let '(_, h) := SelectObject h (backHdc f) (oldBackBmp f) in
    let h := DeleteObject h (backBmp f) in
    let h := DeleteDC h (backHdc f) in
    ({| hwnd := hwnd f; backHdc := NULL; backBmp := NULL; oldBackBmp := NULL;
        rc := rc f |}, h)
  else (f, h).

(** [CreateBackbuffer]: the value returned, the fields and the objects
    afterwards. *)
Definition CreateBackbuffer (o : Outcome) (f : Fields) (h : Heap)
  : bool * Fields * Heap :=
  if hwnd f =? NULL then (false, f, h)
  else if negb (GetDC_ok o) then (false, f, h)
  else
    let h := GetDC h in
    let '(f, h) := release f h in
    let w := Z.max 1 (wrap32 (right (rc f) - left (rc f))) in
    let hh := Z.max 1 (wrap32 (bottom (rc f) - top (rc f))) in
    let '(mem, h) := CreateCompatibleDC o h in
    let '(bmp, h) := CreateCompatibleBitmap o h w hh in
    if (mem =? NULL) || (bmp =? NULL) then
      let h := if negb (mem =? NULL) then DeleteDC h mem else h in
      let h := ReleaseDC h in
      (false, f, h)
    else
      let '(old, h) := SelectObject h mem bmp in
      let f := {| hwnd := hwnd f; backHdc := mem; backBmp := bmp;
                  oldBackBmp := old; rc := rc f |} in
      let h := ReleaseDC h in
      (true, f, h).

(** [DestroyBackbuffer] *)
Definition DestroyBackbuffer (f : Fields) (h : Heap) : Fields * Heap :=
  release f h.

(** The calls a window receives over its life: [CreateBackbuffer] from
    [MonEnumProc] or [RunPreview], the pair [DestroyBackbuffer],
    [CreateBackbuffer] of [WM_SIZE] after [GetClientRect] has stored the
    new rectangle, and [DestroyBackbuffer] at the end of the loop. *)
Inductive Call :=
| Create (o : Outcome)
| Resize (r : RECT) (o : Outcome)
| Destroy.

Definition call (c : Call) (s : Fields * Heap) : Fields * Heap :=
  let '(f, h) := s in
  match c with
  | Create o =>
      let '(_, f, h) := CreateBackbuffer o f h in (f, h)
  | Resize r o =>
      let f := {| hwnd := hwnd f; backHdc := backHdc f; backBmp := backBmp f;
                  oldBackBmp := oldBackBmp f; rc := r |} in
      let '(f, h) := DestroyBackbuffer f h in
      let '(_, f, h) := CreateBackbuffer o f h in (f, h)
  | Destroy => DestroyBackbuffer f h
  end.

Definition calls (cs : list Call) (s : Fields * Heap) : Fields * Heap :=
  fold_left (fun s c => call c s) cs s.

(** The outcome in which a bitmap is created and then forgotten: the
    window DC is there, the memory DC is not, the bitmap is. *)
Definition forgets_bitmap (o : Outcome) : bool :=
  GetDC_ok o && negb (CreateCompatibleDC_ok o) && CreateCompatibleBitmap_ok o.

Definition call_forgets (c : Call) : bool :=
  match c with
  | Create o | Resize _ o => forgets_bitmap o
  | Destroy => false
  end.

(** A window just made, with no backbuffer, and no GDI object alive. *)
Definition fresh_window (hw : Z) (r : RECT) : Fields * Heap :=
  ({| hwnd := hw; backHdc := NULL; backBmp := NULL; oldBackBmp := NULL; rc := r |},
   {| dcs := []; bitmaps := []; window_dcs := 0; next := 2 |}).

Definition all_ok : Outcome :=
  {| GetDC_ok := true; CreateCompatibleDC_ok := true;
     CreateCompatibleBitmap_ok := true |}.

Definition dc_fails : Outcome :=
  {| GetDC_ok := true; CreateCompatibleDC_ok := false;
     CreateCompatibleBitmap_ok := true |}.

End Backbuffer.

(** What holds of the fields and the objects between two calls, while [k]
    window DCs are held: either there is no backbuffer and the only
    bitmaps alive are the forgotten ones [lost], or the backbuffer is one
    memory DC with its own bitmap selected and the stock bitmap kept for
    the release. *)
Definition bb_inv (k : Z) (f : Backbuffer.Fields) (h : Backbuffer.Heap)
    (lost : list (Z * (Z * Z))) : Prop :=
  Backbuffer.window_dcs h = k
  /\ 2 <= Backbuffer.next h
  /\ Forall (fun e => 2 <= fst e < Backbuffer.next h) lost
  /\ ((Backbuffer.backHdc f = 0 /\ Backbuffer.backBmp f = 0
       /\ Backbuffer.oldBackBmp f = 0
       /\ Backbuffer.dcs h = [] /\ Backbuffer.bitmaps h = lost)
      \/ (exists sz,
             2 <= Backbuffer.backHdc f < Backbuffer.next h
             /\ 2 <= Backbuffer.backBmp f < Backbuffer.next h
             /\ Backbuffer.oldBackBmp f = Backbuffer.DEFAULT_BITMAP
             /\ Backbuffer.dcs h = [(Backbuffer.backHdc f, Backbuffer.backBmp f)]
             /\ Backbuffer.bitmaps h = (Backbuffer.backBmp f, sz) :: lost
             /\ Forall (fun e => fst e <> Backbuffer.backBmp f) lost)).

(** The window of [Gdi.RenderFrame] with the backbuffer fields [f]. *)
Definition gdi_window (f : Backbuffer.Fields) (ss : list Gdi.Star) (g : mt19937)
  : Gdi.RenderWindow :=
  {| Gdi.backHdc := negb (Backbuffer.backHdc f =? Backbuffer.NULL);
     Gdi.rc := Backbuffer.rc f; Gdi.stars := ss; Gdi.rng := g |}.

(* ------------------------------------------------------------------ *)
(** ** The clock of the render loops

    [RunFull] and [RunPreview] have the same clock in the three files:
    [[
    double dt = double(now.QuadPart - last.QuadPart) / double(g_perfFreq.QuadPart);
    last = now; total += dt;
    RenderFrame(rw, (float)dt, (float)total);
    ]] *)
(* ------------------------------------------------------------------ *)

(** [(float)d]: a double rounded to the nearest float. *)
Definition to_float (d : double) : float :=
  match d with
  | NaN => NaN
  | Inf s => Inf s
  | Fin n => rnd n (2 ^ (1074 - 149))
  end.

Module Clock.

Record State := { last : Z; total : double }.

(** [LARGE_INTEGER last; QueryPerformanceCounter(&last); double total = 0.0;] *)
Definition start (last : Z) : State := {| last := last; total := lit 0 1 |}.

(** One pass of the loop with the counter reading [now]: the clock
    afterwards and the arguments [(dt, totalTime)] of [RenderFrame]. *)
Definition tick (g_perfFreq : Z) (c : State) (now : Z) : State * (float * float) :=
  let dt : double := fdiv (of_int (now - last c)) (of_int g_perfFreq) in
  let total := fadd (total c) dt in
  ({| last := now; total := total |}, (to_float dt, to_float total)).

(** The arguments of the [RenderFrame] calls of the passes with the
    counter readings [nows]. *)
Fixpoint frames (g_perfFreq : Z) (c : State) (nows : list Z) : list (float * float) :=
  match nows with
  | [] => []
  | now :: rest =>
      let '(c', f) := tick g_perfFreq c now in
      f :: frames g_perfFreq c' rest
  end.

(** The readings of a counter that never runs backwards, as 64-bit
    values. *)
Fixpoint monotone (prev : Z) (nows : list Z) : Prop :=
  match nows with
  | [] => True
  | now :: rest => prev <= now < 2 ^ 63 /\ monotone now rest
  end.

(** Each element is at most the next. *)
Fixpoint ascending (l : list float) : Prop :=
  match l with
  | a :: ((b :: _) as t) => fle a b = true /\ ascending t
  | _ => True
  end.

(** Three readings of a 10 MHz counter, 1/60 s apart. *)
Definition tv_nows : list Z := [166667; 333334; 500000].

End Clock.

(* ------------------------------------------------------------------ *)
(** ** Message sequences *)
(* ------------------------------------------------------------------ *)

(** The globals after the window procedure [P] has handled the messages
    [msgs] in order, each with the system as it was when handled. *)
Definition dispatch_all (P : InputState -> Msg -> SysEnv -> InputState)
    (st : InputState) (msgs : list (Msg * SysEnv)) : InputState :=
  fold_left (fun st me => P st (fst me) (snd me)) msgs st.

(** An input message that the filtered window procedure (debounce [deb],
    threshold [thr]) takes as deliberate when the mouse was first seen at
    [start]: past the debounce window, with the focus, and, for a mouse
    move, displaced by [thr] pixels or more on one axis. *)
Definition deliberate (deb : double) (thr : Z) (st : InputState) (start : POINT)
    (me : Msg * SysEnv) : bool :=
  let '(msg, env) := me in
  is_input msg
  && negb (flt (elapsed_seconds st env) deb)
  && foreground_ours env
  && match msg with
     | WM_MOUSEMOVE =>
         negb ((abs_diff (pt_x (cursor_pos env)) (pt_x start) <? thr)
               && (abs_diff (pt_y (cursor_pos env)) (pt_y start) <? thr))
     | _ => true
     end.

(** A sequence without [WM_CREATE] and [WM_SIZE]. *)
Definition no_resize (msgs : list (Msg * SysEnv)) : bool :=
  forallb (fun me => match fst me with
                     | WM_CREATE | WM_SIZE => false
                     | _ => true
                     end) msgs.

(** Three mouse moves after the debounce window, each 5 pixels to the
    right of the one before: 5, 10 and 15 pixels from the start. *)
Definition tv_drift : list (Msg * SysEnv) :=
  [(WM_MOUSEMOVE, tv_env 30 5 true); (WM_MOUSEMOVE, tv_env 31 10 true);
   (WM_MOUSEMOVE, tv_env 32 15 true)].

(* ------------------------------------------------------------------ *)
(** ** Further test vectors *)
(* ------------------------------------------------------------------ *)

(** A window of the GDI variant with two stars. *)
Definition gdi_rw_two : Gdi.RenderWindow :=
  {| Gdi.backHdc := true; Gdi.rc := tv_rect;
     Gdi.stars := [gdi_low_star;
                   {| Gdi.x := lit 100 1; Gdi.y := lit 50 1; Gdi.z := lit 20 1;
                      Gdi.speed := lit 60 1 |}];
     Gdi.rng := const_rng 0 |}.

(* ------------------------------------------------------------------ *)
(** ** Where the stars are *)
(* ------------------------------------------------------------------ *)

(** A star of the GDI variant lies in the world box of a window of
    [w] x [h] pixels, [-w <= x <= w] and [-h <= y <= h], and its speed is
    the configured speed plus a whole jitter of at most half of it. *)
Definition gdi_in_world (w h g_speed : Z) (s : Gdi.Star) : Prop :=
  fle (fopp (of_int w)) (Gdi.x s) = true /\ fle (Gdi.x s) (of_int w) = true
  /\ fle (fopp (of_int h)) (Gdi.y s) = true /\ fle (Gdi.y s) (of_int h) = true
  /\ exists j, 0 <= j <= g_speed / 2 /\ Gdi.speed s = of_int (g_speed + j).

(** A star of the Direct2D variants as [InitStars] and the respawn make
    it: the depth in (0.05, 1], the base brightness in [0.6, 1] and the
    phase in [0, 2 pi]. *)
Definition d2d_well_formed (s : D2D.Star) : Prop :=
  D2D.in_band s = true
  /\ fle (lit 6 10) (D2D.base s) = true /\ fle (D2D.base s) (lit 1 1) = true
  /\ fle (lit 0 1) (D2D.phase s) = true /\ fle (D2D.phase s) D2D.TWO_PI = true.

(** What [sinf] promises on a finite argument: a value in [-1, 1]. *)
Definition sine_ok (L : Libc) : Prop :=
  forall k, fle (lit (-1) 1) (sinf (Fin k)) = true
            /\ fle (sinf (Fin k)) (lit 1 1) = true.

(** The radius of a [FillEllipse] lies between [lo] and [hi]. *)
Definition radius_between (lo hi : float) (c : D2D.FillCall) : Prop :=
  fle lo (D2D.radius c) = true /\ fle (D2D.radius c) hi = true.

(** Every channel of the colour of a [FillEllipse] is at least 0 and at
    most 2. *)
Definition color_ok (c : D2D.FillCall) : Prop :=
  D2D.channel_ok (fst (fst (D2D.color c)))
  /\ D2D.channel_ok (snd (fst (D2D.color c)))
  /\ D2D.channel_ok (snd (D2D.color c)).

(* ================================================================== *)
(** * Part II. Properties *)
(* ================================================================== *)

(** ** Rounding is monotone and exact on the numbers of the format *)

Lemma rne_div_mono a1 d1 a2 d2 :
  0 < d1 -> 0 < d2 -> a1 * d2 <= a2 * d1 -> rne_div a1 d1 <= rne_div a2 d2.
Proof.
  intros H1 H2 H. unfold rne_div.
  pose proof (Z.div_mod a1 d1 ltac:(lia)) as E1.
  pose proof (Z.div_mod a2 d2 ltac:(lia)) as E2.
  pose proof (Z.mod_pos_bound a1 d1 H1) as B1.
  pose proof (Z.mod_pos_bound a2 d2 H2) as B2.
  set (q1 := a1 / d1) in *. set (r1 := a1 mod d1) in *.
  set (q2 := a2 / d2) in *. set (r2 := a2 mod d2) in *.
  clearbody q1 r1 q2 r2. subst a1 a2.
  assert (Hq : q1 <= q2).
  { destruct (Z_le_gt_dec q1 q2) as [|G]; [assumption|exfalso].
    assert (d1 * d2 * (q2 + 1) <= d1 * d2 * q1)
      by (apply Z.mul_le_mono_nonneg_l; nia).
    nia. }
  destruct (Z.eq_dec q1 q2) as [Heq|Hne].
  - assert (Hr : r1 * d2 <= r2 * d1) by (subst q2; nia).
    rewrite <- Heq.
    destruct (Z.ltb_spec (2 * r1) d1), (Z.ltb_spec d1 (2 * r1)),
      (Z.ltb_spec (2 * r2) d2), (Z.ltb_spec d2 (2 * r2));
      destruct (Z.even q1); try lia; nia.
  - destruct (Z.ltb_spec (2 * r1) d1), (Z.ltb_spec d1 (2 * r1)),
      (Z.ltb_spec (2 * r2) d2), (Z.ltb_spec d2 (2 * r2));
      destruct (Z.even q1), (Z.even q2); lia.
Qed.

Lemma rne_div_exact k d : 0 < d -> rne_div (k * d) d = k.
Proof.
  intros Hd. unfold rne_div.
  rewrite Z.div_mul, Z.mod_mul by lia.
  destruct (Z.ltb_spec (2 * 0) d); [reflexivity | lia].
Qed.

Lemma rne_div_ge k a d : 0 < d -> k * d <= a -> k <= rne_div a d.
Proof.
  intros Hd H. apply Z.le_trans with (rne_div (k * 1) 1).
  - rewrite rne_div_exact; lia.
  - apply rne_div_mono; lia.
Qed.

Lemma rne_div_le k a d : 0 < d -> a <= k * d -> rne_div a d <= k.
Proof.
  intros Hd H. apply Z.le_trans with (rne_div (k * 1) 1).
  - apply rne_div_mono; lia.
  - rewrite rne_div_exact; lia.
Qed.

Section Rounding.
Context {F : Format}.

Lemma ulp_exp_nonneg a d : 0 <= ulp_exp a d.
Proof. unfold ulp_exp. lia. Qed.

Lemma round_mag_nonneg a d : 0 <= a -> 0 < d -> 0 <= round_mag a d.
Proof.
  intros Ha Hd. unfold round_mag.
  pose proof (ulp_exp_nonneg a d) as Hs.
  assert (0 < 2 ^ ulp_exp a d) by (apply Z.pow_pos_nonneg; lia).
  apply Z.mul_nonneg_nonneg; [|lia].
  apply rne_div_ge; nia.
Qed.

(** Below the exponent boundary the value has fewer than [prec + s] bits. *)
Lemma ulp_exp_upper a d :
  0 <= a -> 0 < d -> a < 2 ^ (ulp_exp a d + prec) * d.
Proof.
  intros Ha Hd. pose proof prec_pos as Hp.
  assert (Hx : 0 <= a / d) by (apply Z.div_pos; lia).
  assert (Hlt : a / d < 2 ^ (ulp_exp a d + prec)).
  { destruct (Z.eq_dec (a / d) 0) as [E|E].
    - rewrite E. apply Z.pow_pos_nonneg; [lia|]. pose proof (ulp_exp_nonneg a d). lia.
    - apply Z.log2_lt_pow2; [lia|]. unfold ulp_exp. lia. }
  pose proof (Z.div_mod a d ltac:(lia)) as E.
  pose proof (Z.mod_pos_bound a d Hd). nia.
Qed.

(** Above the first binades the value has at least [prec + s] bits. *)
Lemma ulp_exp_lower a d :
  0 <= a -> 0 < d -> 0 < ulp_exp a d -> 2 ^ (ulp_exp a d + prec - 1) * d <= a.
Proof.
  intros Ha Hd Hs. pose proof prec_pos as Hp.
  unfold ulp_exp in *.
  assert (Hl : 0 < Z.log2 (a / d)) by lia.
  assert (Hx : 0 < a / d).
  { destruct (Z_lt_le_dec 0 (a / d)) as [|N]; [assumption|].
    rewrite (Z.log2_nonpos _ N) in Hl. lia. }
  replace (Z.max 0 (Z.log2 (a / d) - (prec - 1)) + prec - 1)
    with (Z.log2 (a / d)) by lia.
  pose proof (Z.log2_spec (a / d) Hx) as [L _].
  pose proof (Z.div_mod a d ltac:(lia)) as E.
  pose proof (Z.mod_pos_bound a d Hd). nia.
Qed.

Lemma ulp_exp_mono a1 d1 a2 d2 :
  0 <= a1 -> 0 < d1 -> 0 < d2 -> a1 * d2 <= a2 * d1 ->
  ulp_exp a1 d1 <= ulp_exp a2 d2.
Proof.
  intros Ha Hd1 Hd2 H. unfold ulp_exp.
  assert (a1 / d1 <= a2 / d2).
  { apply Z.div_le_lower_bound; [lia|].
    pose proof (Z.div_mod a1 d1 ltac:(lia)) as E.
    pose proof (Z.mod_pos_bound a1 d1 Hd1).
    assert (d1 * (d2 * (a1 / d1)) <= d1 * a2) by nia.
    apply Z.mul_le_mono_pos_l in H1; lia. }
  pose proof (Z.log2_le_mono _ _ H0). lia.
Qed.

Lemma round_mag_mono a1 d1 a2 d2 :
  0 <= a1 -> 0 < d1 -> 0 < d2 -> a1 * d2 <= a2 * d1 ->
  round_mag a1 d1 <= round_mag a2 d2.
Proof.
  intros Ha Hd1 Hd2 H. pose proof prec_pos as Hp.
  assert (Ha2 : 0 <= a2) by nia.
  pose proof (ulp_exp_mono a1 d1 a2 d2 Ha Hd1 Hd2 H) as Hs.
  pose proof (ulp_exp_nonneg a1 d1) as Hs1.
  pose proof (ulp_exp_upper a1 d1 Ha Hd1) as U1.
  unfold round_mag.
  set (s1 := ulp_exp a1 d1) in *. set (s2 := ulp_exp a2 d2) in *.
  assert (P1 : 0 < 2 ^ s1) by (apply Z.pow_pos_nonneg; lia).
  assert (P2 : 0 < 2 ^ s2) by (apply Z.pow_pos_nonneg; lia).
  destruct (Z.eq_dec s1 s2) as [E|E].
  - rewrite <- E. apply Z.mul_le_mono_nonneg_r; [lia|].
    apply rne_div_mono; nia.
  - assert (Hlt : s1 < s2) by lia.
    pose proof (ulp_exp_lower a2 d2 Ha2 Hd2 ltac:(fold s2; lia)) as L2.
    fold s2 in L2.
    apply Z.le_trans with (2 ^ prec * 2 ^ s1).
    + apply Z.mul_le_mono_nonneg_r; [lia|].
      apply rne_div_le; [nia|].
      rewrite Z.pow_add_r in U1 by lia. nia.
    + apply Z.le_trans with (2 ^ (prec - 1) * 2 ^ s2).
      * rewrite <- !Z.pow_add_r by lia. apply Z.pow_le_mono_r; lia.
      * apply Z.mul_le_mono_nonneg_r; [lia|].
        apply rne_div_ge; [nia|].
        replace (s2 + prec - 1) with ((prec - 1) + s2) in L2 by lia.
        rewrite Z.pow_add_r in L2 by lia. nia.
Qed.

(** Rounding preserves the order of the exact values. *)
Lemma rnd_mono N1 D1 N2 D2 :
  0 < D1 -> 0 < D2 -> N1 * D2 <= N2 * D1 -> fle (rnd N1 D1) (rnd N2 D2) = true.
Proof.
  intros Hd1 Hd2 H. unfold rnd.
  pose proof (round_mag_nonneg (Z.abs N1) D1 ltac:(lia) Hd1) as M1.
  pose proof (round_mag_nonneg (Z.abs N2) D2 ltac:(lia) Hd2) as M2.
  assert (S1 : Z.sgn N1 = -1 \/ Z.sgn N1 = 0 \/ Z.sgn N1 = 1) by lia.
  assert (S2 : Z.sgn N2 = -1 \/ Z.sgn N2 = 0 \/ Z.sgn N2 = 1) by lia.
  destruct (Z.ltb_spec N1 0) as [n1|n1]; destruct (Z.ltb_spec N2 0) as [n2|n2].
  - (* both negative: the magnitudes are ordered the other way *)
    pose proof (round_mag_mono (Z.abs N2) D2 (Z.abs N1) D1 ltac:(lia) Hd2 Hd1
                  ltac:(nia)) as M.
    destruct (Z.leb_spec (2 ^ etop) (round_mag (Z.abs N1) D1));
      destruct (Z.leb_spec (2 ^ etop) (round_mag (Z.abs N2) D2));
      simpl; try reflexivity; try (exfalso; lia).
    apply Z.leb_le. rewrite !Z.sgn_neg by lia. lia.
  - destruct (Z.leb_spec (2 ^ etop) (round_mag (Z.abs N1) D1));
      destruct (Z.leb_spec (2 ^ etop) (round_mag (Z.abs N2) D2));
      simpl; try reflexivity.
    apply Z.leb_le. rewrite (Z.sgn_neg N1) by lia.
    assert (0 <= Z.sgn N2) by (apply Z.sgn_nonneg; lia). nia.
  - exfalso. nia.
  - pose proof (round_mag_mono (Z.abs N1) D1 (Z.abs N2) D2 ltac:(lia) Hd1 Hd2
                  ltac:(rewrite !Z.abs_eq by lia; lia)) as M.
    destruct (Z.leb_spec (2 ^ etop) (round_mag (Z.abs N1) D1));
      destruct (Z.leb_spec (2 ^ etop) (round_mag (Z.abs N2) D2));
      simpl; try reflexivity; try (exfalso; lia).
    apply Z.leb_le.
    destruct (Z.eq_dec N1 0) as [->|].
    + simpl. assert (0 <= Z.sgn N2) by (apply Z.sgn_nonneg; lia). nia.
    + rewrite !Z.sgn_pos by nia. lia.
Qed.

(** The working form: a value between two exact values whose roundings are
    finite rounds to a finite number between them. *)
Lemma rnd_between Nl Dl l Nh Dh h N D :
  0 < Dl -> 0 < Dh -> 0 < D ->
  rnd Nl Dl = Fin l -> rnd Nh Dh = Fin h ->
  Nl * D <= N * Dl -> N * Dh <= Nh * D ->
  exists k, rnd N D = Fin k /\ l <= k <= h.
Proof.
  intros Hl Hh Hd El Eh L H.
  pose proof (rnd_mono Nl Dl N D Hl Hd L) as A.
  pose proof (rnd_mono N D Nh Dh Hd Hh H) as B.
  rewrite El in A. rewrite Eh in B.
  destruct (rnd N D) as [|s|k] eqn:E; simpl in *; try discriminate.
  - destruct s; discriminate.
  - exists k. split; [reflexivity|]. apply Z.leb_le in A, B. lia.
Qed.

(** A number with at most [prec] significant bits is not changed. *)
Lemma rnd_exact m e :
  0 <= e -> Z.abs m < 2 ^ prec -> Z.abs m * 2 ^ e < 2 ^ etop ->
  rnd (m * 2 ^ e) 1 = Fin (m * 2 ^ e).
Proof.
  intros He Hm Hov. pose proof prec_pos as Hp.
  assert (Pe : 0 < 2 ^ e) by (apply Z.pow_pos_nonneg; lia).
  assert (Hmag : round_mag (Z.abs (m * 2 ^ e)) 1 = Z.abs m * 2 ^ e).
  { rewrite Z.abs_mul, (Z.abs_eq (2 ^ e)) by lia.
    unfold round_mag, ulp_exp. rewrite Z.div_1_r, Z.mul_1_l.
    set (s := Z.max 0 (Z.log2 (Z.abs m * 2 ^ e) - (prec - 1))).
    assert (Hs : 0 <= s <= e).
    { subst s. destruct (Z.eq_dec m 0) as [->|Hm0].
      - simpl. lia.
      - rewrite Z.log2_mul_pow2 by lia.
        assert (Z.log2 (Z.abs m) < prec) by (apply Z.log2_lt_pow2; lia).
        lia. }
    clearbody s.
    replace (Z.abs m * 2 ^ e) with ((Z.abs m * 2 ^ (e - s)) * 2 ^ s).
    - rewrite rne_div_exact by (apply Z.pow_pos_nonneg; lia). reflexivity.
    - rewrite <- Z.mul_assoc, <- Z.pow_add_r by lia. do 2 f_equal. lia. }
  unfold rnd. rewrite Hmag.
  destruct (Z.leb_spec (2 ^ etop) (Z.abs m * 2 ^ e)); [lia|].
  f_equal. rewrite Z.sgn_mul, (Z.sgn_pos (2 ^ e)) by lia.
  rewrite Z.mul_1_r, Z.mul_assoc. f_equal.
  rewrite Z.mul_comm. apply Z.abs_sgn.
Qed.

End Rounding.

(** ** Agreement with the Standard Library's IEEE 754 operations *)

Example binary32_agrees_with_SpecFloat : Ref.check32 = true.
Proof. vm_compute. reflexivity. Qed.

Example binary64_agrees_with_SpecFloat : Ref.check64 = true.
Proof. vm_compute. reflexivity. Qed.

(** ** Interval lemmas for the arithmetic operations *)

Section Intervals.
Context {F : Format}.

Lemma ushift_pow_pos : 0 < 2 ^ ushift.
Proof. apply Z.pow_pos_nonneg; [lia | apply ushift_nonneg]. Qed.

Lemma within_weaken lo hi lo' hi' (x : fp F) :
  within lo hi x -> lo' <= lo -> hi <= hi' -> within lo' hi' x.
Proof. intros (k & -> & Hk) Hl Hh. exists k. split; [reflexivity | lia]. Qed.

Lemma within_fle lo hi (x : fp F) :
  within lo hi x -> fle (Fin lo) x = true /\ fle x (Fin hi) = true.
Proof. intros (k & -> & Hk). simpl. split; apply Z.leb_le; lia. Qed.

Lemma fle_within lo hi (x : fp F) :
  is_nan x = false ->
  fle (Fin lo) x = true -> fle x (Fin hi) = true -> within lo hi x.
Proof.
  intros Hn Hl Hh. destruct x as [|s|k]; simpl in *; try discriminate.
  - destruct s; discriminate.
  - exists k. split; [reflexivity|]. apply Z.leb_le in Hl, Hh. lia.
Qed.

Lemma rnd_within Nl Dl rl Nh Dh rh N D :
  0 < Dl -> 0 < Dh -> 0 < D ->
  rnd Nl Dl = Fin rl -> rnd Nh Dh = Fin rh ->
  Nl * D <= N * Dl -> N * Dh <= Nh * D ->
  within rl rh (rnd N D : fp F).
Proof.
  intros. unfold within.
  apply rnd_between with (Nl := Nl) (Dl := Dl) (Nh := Nh) (Dh := Dh); assumption.
Qed.

Lemma fadd_within la ha lb hb rl rh (x y : fp F) :
  within la ha x -> within lb hb y ->
  rnd (la + lb) 1 = Fin rl -> rnd (ha + hb) 1 = Fin rh ->
  within rl rh (fadd x y).
Proof.
  intros (a & -> & Ha) (b & -> & Hb) El Eh. simpl.
  apply rnd_within with (Nl := la + lb) (Dl := 1) (Nh := ha + hb) (Dh := 1);
    auto; lia.
Qed.

Lemma fsub_within la ha lb hb rl rh (x y : fp F) :
  within la ha x -> within lb hb y ->
  rnd (la - hb) 1 = Fin rl -> rnd (ha - lb) 1 = Fin rh ->
  within rl rh (fsub x y).
Proof.
  intros (a & -> & Ha) (b & -> & Hb) El Eh. unfold fsub. simpl.
  apply rnd_within with (Nl := la - hb) (Dl := 1) (Nh := ha - lb) (Dh := 1);
    auto; lia.
Qed.

(** Product of two non-negative ranges. *)
Lemma fmul_within la ha lb hb rl rh (x y : fp F) :
  0 <= la -> 0 <= lb ->
  within la ha x -> within lb hb y ->
  rnd (la * lb) (2 ^ ushift) = Fin rl -> rnd (ha * hb) (2 ^ ushift) = Fin rh ->
  within rl rh (fmul x y).
Proof.
  intros Hla Hlb (a & -> & Ha) (b & -> & Hb) El Eh. simpl.
  pose proof ushift_pow_pos as HU.
  apply rnd_within with (Nl := la * lb) (Dl := 2 ^ ushift)
                        (Nh := ha * hb) (Dh := 2 ^ ushift); auto.
  - apply Z.mul_le_mono_nonneg_r; [lia|]. apply Z.mul_le_mono_nonneg; lia.
  - apply Z.mul_le_mono_nonneg_r; [lia|]. apply Z.mul_le_mono_nonneg; lia.
Qed.

(** Product of a range of any sign with a non-negative constant. *)
Lemma fmul_within_const la ha c rl rh (x : fp F) :
  0 <= c -> within la ha x ->
  rnd (la * c) (2 ^ ushift) = Fin rl -> rnd (ha * c) (2 ^ ushift) = Fin rh ->
  within rl rh (fmul x (Fin c)).
Proof.
  intros Hc (a & -> & Ha) El Eh. simpl.
  pose proof ushift_pow_pos as HU.
  apply rnd_within with (Nl := la * c) (Dl := 2 ^ ushift)
                        (Nh := ha * c) (Dh := 2 ^ ushift); auto.
  - apply Z.mul_le_mono_nonneg_r; [lia|]. apply Z.mul_le_mono_nonneg_r; lia.
  - apply Z.mul_le_mono_nonneg_r; [lia|]. apply Z.mul_le_mono_nonneg_r; lia.
Qed.

(** Quotient of a non-negative range by a positive range. *)
Lemma fdiv_within la ha lb hb rl rh (x y : fp F) :
  0 <= la -> 0 < lb ->
  within la ha x -> within lb hb y ->
  rnd (la * 2 ^ ushift) hb = Fin rl -> rnd (ha * 2 ^ ushift) lb = Fin rh ->
  within rl rh (fdiv x y).
Proof.
  intros Hla Hlb (a & -> & Ha) (b & -> & Hb) El Eh. simpl.
  pose proof ushift_pow_pos as HU.
  destruct (Z.eqb_spec b 0) as [|_]; [lia|].
  rewrite Z.sgn_pos, Z.abs_eq, Z.mul_1_l by lia.
  apply rnd_within with (Nl := la * 2 ^ ushift) (Dl := hb)
                        (Nh := ha * 2 ^ ushift) (Dh := lb); auto; try lia.
  - assert (la * 2 ^ ushift <= a * 2 ^ ushift) by (apply Z.mul_le_mono_nonneg_r; lia).
    apply Z.mul_le_mono_nonneg; try lia; apply Z.mul_nonneg_nonneg; lia.
  - assert (a * 2 ^ ushift <= ha * 2 ^ ushift) by (apply Z.mul_le_mono_nonneg_r; lia).
    apply Z.mul_le_mono_nonneg; try lia; apply Z.mul_nonneg_nonneg; lia.
Qed.

Lemma of_int_within lo hi rl rh n :
  lo <= n <= hi ->
  rnd (lo * 2 ^ ushift) 1 = Fin rl -> rnd (hi * 2 ^ ushift) 1 = Fin rh ->
  within rl rh (of_int n : fp F).
Proof.
  intros Hn El Eh. unfold of_int. pose proof ushift_pow_pos as HU.
  apply rnd_within with (Nl := lo * 2 ^ ushift) (Dl := 1)
                        (Nh := hi * 2 ^ ushift) (Dh := 1); auto; try lia.
  - rewrite !Z.mul_1_r. apply Z.mul_le_mono_nonneg_r; lia.
  - rewrite !Z.mul_1_r. apply Z.mul_le_mono_nonneg_r; lia.
Qed.

Lemma rnd_nonneg N D : 0 <= N -> 0 < D -> nonneg (rnd N D : fp F).
Proof.
  intros HN HD. unfold rnd.
  pose proof (round_mag_nonneg (Z.abs N) D ltac:(lia) HD).
  destruct (Z.leb_spec (2 ^ etop) (round_mag (Z.abs N) D)); simpl.
  - apply Z.ltb_ge. lia.
  - assert (0 <= Z.sgn N) by (apply Z.sgn_nonneg; lia). nia.
Qed.

Lemma fmul_fin_nonneg a b : 0 <= a -> 0 <= b -> nonneg (fmul (Fin a) (Fin b) : fp F).
Proof.
  intros Ha Hb. simpl. apply rnd_nonneg; [nia | apply ushift_pow_pos].
Qed.

Lemma fmul_nonneg_pos (x : fp F) c : nonneg x -> 0 < c -> nonneg (fmul x (Fin c)).
Proof.
  intros Hx Hc. destruct x as [|s|a]; simpl in *; try contradiction.
  - subst s. destruct (Z.eqb_spec c 0); [lia|]. simpl.
    apply Z.ltb_ge. lia.
  - apply rnd_nonneg; [nia | apply ushift_pow_pos].
Qed.

(** Subtracting a non-negative amount never raises a finite value; the
    result may be minus infinity, it is never NaN. *)
Lemma fsub_nonneg_le zz (d : fp F) hi rh :
  nonneg d -> zz <= hi -> rnd hi 1 = Fin rh ->
  fle (fsub (Fin zz) d) (Fin rh) = true.
Proof.
  intros Hd Hz Eh. destruct d as [|s|k]; simpl in *; try contradiction.
  - subst s. reflexivity.
  - unfold fsub. simpl. rewrite <- Eh. apply rnd_mono; lia.
Qed.

End Intervals.

(** ** Constants of binary32, in units of 2^-149 *)

Lemma f32_0 : (lit 0 1 : float) = Fin 0.
Proof. vm_compute. reflexivity. Qed.

Lemma f32_1 : (lit 1 1 : float) = Fin (2 ^ 149).
Proof. vm_compute. reflexivity. Qed.

Lemma f32_half : (lit 5 10 : float) = Fin (2 ^ 148).
Proof. vm_compute. reflexivity. Qed.

(** ** Draws of the random engine *)

Lemma canonical_within (L : Libc) :
  canonical_ok L ->
  forall r, 0 <= r < 2 ^ 32 -> within 0 (2 ^ 149 - 1) (generate_canonical r).
Proof.
  intros H r Hr. destruct (H r Hr) as [H0 H1]. revert H0 H1.
  rewrite f32_0, f32_1.
  destruct (generate_canonical r) as [|s|k]; cbn [fle flt]; intros H0 H1;
    try discriminate.
  - destruct s; discriminate.
  - exists k. split; [reflexivity|].
    apply Z.leb_le in H0. apply Z.ltb_lt in H1. lia.
Qed.

Lemma f32_1_minus_0 : fsub (lit 1 1) (lit 0 1) = (Fin (2 ^ 149) : float).
Proof. vm_compute. reflexivity. Qed.

(** [ud01(rng)] lies in [0, 1]. *)
Lemma ud01_within (L : Libc) (g : mt19937) :
  canonical_ok L ->
  within 0 (2 ^ 149) (fst (uniform_real (lit 0 1) (lit 1 1) g)).
Proof.
  intros H. unfold uniform_real, rng_next. cbn [fst].
  pose proof (canonical_within L H (outputs g (cursor g) mod 2 ^ 32)
                ltac:(apply Z.mod_pos_bound; lia)) as Hc.
  rewrite f32_1_minus_0, f32_0.
  apply fadd_within with (la := 0) (ha := 2 ^ 149) (lb := 0) (hb := 0);
    [ | exists 0; split; [reflexivity | lia]
      | vm_compute; reflexivity | vm_compute; reflexivity ].
  apply fmul_within with (la := 0) (ha := 2 ^ 149 - 1)
                         (lb := 2 ^ 149) (hb := 2 ^ 149);
    [ lia | lia | exact Hc | exists (2 ^ 149); split; [reflexivity | lia]
    | vm_compute; reflexivity | vm_compute; reflexivity ].
Qed.

(** ** GDI variant: the depth band *)

Lemma gdi_Z_MIN : Gdi.Z_MIN = Fin (2 * 2 ^ 149).
Proof. vm_compute. reflexivity. Qed.

Lemma gdi_Z_MAX : Gdi.Z_MAX = Fin (33 * 2 ^ 149).
Proof. vm_compute. reflexivity. Qed.

Lemma gdi_Z_RANGE : fsub Gdi.Z_MAX Gdi.Z_MIN = Fin (31 * 2 ^ 149).
Proof. vm_compute. reflexivity. Qed.

(** [fz * (Z_MAX - Z_MIN) + Z_MIN] for [fz] in [0, 1] lies in [2, 33]. *)
Lemma gdi_respawn_depth (fz : float) :
  within 0 (2 ^ 149) fz ->
  within (2 * 2 ^ 149) (33 * 2 ^ 149)
         (fadd (fmul fz (fsub Gdi.Z_MAX Gdi.Z_MIN)) Gdi.Z_MIN).
Proof.
  intros Hfz. rewrite gdi_Z_RANGE, gdi_Z_MIN.
  apply fadd_within with (la := 0) (ha := 31 * 2 ^ 149)
                         (lb := 2 * 2 ^ 149) (hb := 2 * 2 ^ 149);
    [ | exists (2 * 2 ^ 149); split; [reflexivity | lia]
      | vm_compute; reflexivity | vm_compute; reflexivity ].
  apply fmul_within with (la := 0) (ha := 2 ^ 149)
                         (lb := 31 * 2 ^ 149) (hb := 31 * 2 ^ 149);
    [ lia | lia | exact Hfz | exists (31 * 2 ^ 149); split; [reflexivity | lia]
    | vm_compute; reflexivity | vm_compute; reflexivity ].
Qed.

Lemma gdi_jitterMax_bounds g_speed :
  0 <= g_speed < 2 ^ 31 -> 1 <= Gdi.jitterMax g_speed <= 2 ^ 30.
Proof.
  intros H. unfold Gdi.jitterMax.
  assert (0 <= Z.quot g_speed 2 < 2 ^ 30).
  { rewrite Z.quot_div_nonneg by lia.
    split; [apply Z.div_pos; lia | apply Z.div_lt_upper_bound; lia]. }
  lia.
Qed.

(** [(float)g_speed + float(rng() % jitterMax)] is finite and not negative. *)
Lemma gdi_speed_ok g_speed r :
  0 <= g_speed < 2 ^ 31 ->
  within 0 (2 ^ 32 * 2 ^ 149)
    (fadd (of_int g_speed) (of_int (r mod Gdi.jitterMax g_speed)) : float).
Proof.
  intros H. pose proof (gdi_jitterMax_bounds g_speed H) as J.
  pose proof (Z.mod_pos_bound r (Gdi.jitterMax g_speed) ltac:(lia)) as M.
  apply fadd_within with (la := 0) (ha := 2 ^ 31 * 2 ^ 149)
                         (lb := 0) (hb := 2 ^ 31 * 2 ^ 149);
    [ | | vm_compute; reflexivity | vm_compute; reflexivity ].
  - apply of_int_within with (lo := 0) (hi := 2 ^ 31);
      [ lia | vm_compute; reflexivity | vm_compute; reflexivity ].
  - apply of_int_within with (lo := 0) (hi := 2 ^ 31);
      [ lia | vm_compute; reflexivity | vm_compute; reflexivity ].
Qed.

(** The amount subtracted from the depth is zero, positive or +infinity. *)
Lemma gdi_step_nonneg (sp dt : float) :
  finite_nonneg sp -> finite_nonneg dt ->
  nonneg (fmul (fmul sp dt) (lit 5 10)).
Proof.
  intros (a & -> & Ha) (b & -> & Hb). rewrite f32_half.
  apply fmul_nonneg_pos; [apply fmul_fin_nonneg; assumption | lia].
Qed.

(** A depth in the band, lowered by a non-negative amount, has either
    crossed the threshold [t] or is still in the band above it. *)
Lemma lowered_depth {F : Format} (zz hi t : Z) (d : fp F) :
  nonneg d -> zz <= hi -> rnd hi 1 = Fin hi ->
  fle (fsub (Fin zz) d) (Fin t) = true
  \/ (fle (fsub (Fin zz) d) (Fin t) = false
      /\ within (t + 1) hi (fsub (Fin zz) d)).
Proof.
  intros Hd Hz Eh.
  pose proof (fsub_nonneg_le zz d hi hi Hd Hz Eh) as Hle.
  destruct (fsub (Fin zz) d) as [|s|k] eqn:E; cbn [fle] in *; try discriminate.
  - destruct s; [left; reflexivity | discriminate].
  - destruct (Z.leb_spec k t); [left; reflexivity | right].
    split; [reflexivity|]. exists k. split; [reflexivity|].
    apply Z.leb_le in Hle. lia.
Qed.

Lemma gdi_advance_band (L : Libc) w h g_speed (dt : float) s g :
  canonical_ok L ->
  0 <= g_speed < 2 ^ 31 ->
  finite_nonneg dt ->
  within (2 * 2 ^ 149) (33 * 2 ^ 149) (Gdi.z s) ->
  finite_nonneg (Gdi.speed s) ->
  within (2 * 2 ^ 149) (33 * 2 ^ 149) (Gdi.z (fst (Gdi.advance w h g_speed dt s g)))
  /\ finite_nonneg (Gdi.speed (fst (Gdi.advance w h g_speed dt s g))).
Proof.
  intros HL Hsp Hdt (zz & Ez & Hz) Hs.
  pose proof (gdi_step_nonneg _ _ Hs Hdt) as Hd.
  set (res := Gdi.advance w h g_speed dt s g).
  assert (R : res = Gdi.advance w h g_speed dt s g) by reflexivity.
  clearbody res. unfold Gdi.advance in R. rewrite Ez in R.
  destruct (lowered_depth zz (33 * 2 ^ 149) (2 * 2 ^ 149) _ Hd ltac:(lia)
              ltac:(vm_compute; reflexivity)) as [C | [C W]];
    rewrite <- gdi_Z_MIN in C; rewrite C in R.
  - (* respawn *)
    destruct (uniform_real (lit 0 1) (lit 1 1) g) as [fx g1].
    destruct (uniform_real (lit 0 1) (lit 1 1) g1) as [fy g2].
    pose proof (ud01_within L g2 HL) as Hfz.
    destruct (uniform_real (lit 0 1) (lit 1 1) g2) as [fz g3].
    destruct (rng_next g3) as [r g4]. subst res.
    cbn [fst Gdi.z Gdi.speed] in *. split.
    + apply gdi_respawn_depth. exact Hfz.
    + destruct (gdi_speed_ok g_speed r Hsp) as (k & E & Hk).
      exists k. split; [exact E | lia].
  - subst res. cbn [fst Gdi.z Gdi.speed]. split; [|exact Hs].
    eapply within_weaken; [exact W | lia | lia].
Qed.

(** ** Fixed-size arrays *)

Lemma length_list_set {A} (a : list A) i v : length (list_set a i v) = length a.
Proof.
  revert i. induction a as [|h t IH]; intros [|i]; simpl; auto.
Qed.

Lemma nth_error_list_set {A} (a : list A) i v :
  (i < length a)%nat -> nth_error (list_set a i v) i = Some v.
Proof.
  revert i. induction a as [|h t IH]; intros [|i] H; simpl in *; try lia; auto.
  apply IH. lia.
Qed.

Lemma array_get_in_bounds {A} (a : list A) i :
  0 <= i < Z.of_nat (length a) -> exists v, array_get a i = Some v.
Proof.
  intros H. unfold array_get.
  destruct (Z.leb_spec 0 i); [|lia].
  destruct (Z.ltb_spec i (Z.of_nat (length a))); [|lia]. simpl.
  destruct (nth_error a (Z.to_nat i)) eqn:E; [eauto|].
  apply nth_error_None in E. lia.
Qed.

Lemma array_set_in_bounds {A} (a : list A) i v :
  0 <= i < Z.of_nat (length a) ->
  exists a', array_set a i v = Some a' /\ length a' = length a
             /\ array_get a' i = Some v.
Proof.
  intros H. unfold array_set, array_get.
  destruct (Z.leb_spec 0 i); [|lia].
  destruct (Z.ltb_spec i (Z.of_nat (length a))); [|lia]. simpl.
  eexists. split; [reflexivity|]. rewrite length_list_set. split; [reflexivity|].
  destruct (Z.leb_spec 0 i); [|lia].
  destruct (Z.ltb_spec i (Z.of_nat (length a))); [|lia]. simpl.
  apply nth_error_list_set. lia.
Qed.

(** ** GDI variant: the loop of [RenderFrame] *)

Lemma gdi_bucket_bounds intensity : 0 <= Gdi.star_bucket intensity <= 5.
Proof. unfold Gdi.star_bucket, Gdi.BUCKETS. lia. Qed.

(** One pass of the loop body: it never leaves the brush array, the star
    becomes its advanced self, and an [Ellipse] is issued exactly when the
    advanced star is not off screen. *)
Lemma gdi_render_star_spec (L : Libc) cfg w h dt pulse s st :
  length (Gdi.ls_brushes st) = 6%nat ->
  exists st',
    Gdi.render_star cfg w h dt pulse s st
      = Some (fst (Gdi.advance w h (Gdi.g_speed cfg) dt s (Gdi.ls_rng st)), st')
    /\ length (Gdi.ls_brushes st') = 6%nat
    /\ Gdi.ls_rng st' = snd (Gdi.advance w h (Gdi.g_speed cfg) dt s (Gdi.ls_rng st))
    /\ (let s' := fst (Gdi.advance w h (Gdi.g_speed cfg) dt s (Gdi.ls_rng st)) in
        if Gdi.star_offscreen w h s'
        then Gdi.ls_calls st' = Gdi.ls_calls st
        else exists c, Gdi.ls_calls st' = c :: Gdi.ls_calls st
                       /\ Gdi.call_rect c = Gdi.star_rect w h s').
Proof.
  intros Hlen. unfold Gdi.render_star.
  destruct (Gdi.advance w h (Gdi.g_speed cfg) dt s (Gdi.ls_rng st)) as [s' g'].
  cbn [fst snd].
  set (intensity := Gdi.star_intensity (Gdi.z s') pulse).
  pose proof (gdi_bucket_bounds intensity) as Hb.
  set (bucket := Gdi.star_bucket intensity) in *.
  assert (Hin : 0 <= bucket < Z.of_nat (length (Gdi.ls_brushes st)))
    by (rewrite Hlen; lia).
  destruct (array_get_in_bounds _ _ Hin) as [slot Hslot]. rewrite Hslot.
  assert (Hbr : exists brushes b,
             match slot with
             | Some _ => Some (Gdi.ls_brushes st)
             | None => array_set (Gdi.ls_brushes st) bucket
                         (Some (Gdi.make_brush (Gdi.g_color cfg) intensity bucket))
             end = Some brushes
             /\ length brushes = 6%nat
             /\ array_get brushes bucket = Some (Some b)).
  { destruct slot as [b|].
    - exists (Gdi.ls_brushes st), b. auto.
    - destruct (array_set_in_bounds (Gdi.ls_brushes st) bucket
                  (Some (Gdi.make_brush (Gdi.g_color cfg) intensity bucket)) Hin)
        as (a' & E1 & E2 & E3).
      exists a'. eexists. rewrite E1, E2, E3. auto. }
  destruct Hbr as (brushes & b & E1 & E2 & E3). rewrite E1.
  unfold Gdi.star_offscreen, Gdi.star_rect.
  destruct (Gdi.offscreen _ _ _ w h).
  - eexists. split; [reflexivity|]. cbn. auto.
  - rewrite E3. eexists. split; [reflexivity|]. cbn [Gdi.ls_brushes Gdi.ls_rng Gdi.ls_calls].
    split; [assumption|]. split; [reflexivity|].
    eexists. split; reflexivity.
Qed.

(** The whole loop: it ends normally, every star is replaced by its
    advanced self, and the rectangles drawn are those of the stars that are
    not off screen, in order. *)
Lemma gdi_render_loop_spec (L : Libc) cfg w h dt pulse ss :
  forall st,
    length (Gdi.ls_brushes st) = 6%nat ->
    exists ss' st',
      Gdi.render_loop cfg w h dt pulse ss st = Some (ss', st')
      /\ length (Gdi.ls_brushes st') = 6%nat
      /\ Forall2 (fun s s' => exists g, s' = fst (Gdi.advance w h (Gdi.g_speed cfg) dt s g))
                 ss ss'
      /\ map Gdi.call_rect (Gdi.ls_calls st')
         = rev (map (Gdi.star_rect w h)
                    (filter (fun s' => negb (Gdi.star_offscreen w h s')) ss'))
           ++ map Gdi.call_rect (Gdi.ls_calls st).
Proof.
  induction ss as [|s rest IH]; intros st Hlen.
  - exists [], st. simpl. auto.
  - destruct (gdi_render_star_spec L cfg w h dt pulse s st Hlen)
      as (st1 & E1 & Hlen1 & Hrng & Hcalls).
    destruct (IH st1 Hlen1) as (rest' & st2 & E2 & Hlen2 & HF & Hc2).
    eexists (_ :: rest'), st2. cbn [Gdi.render_loop]. rewrite E1, E2.
    split; [reflexivity|]. split; [assumption|]. split.
    + constructor; [eauto | assumption].
    + rewrite Hc2. cbn [filter].
      cbv zeta in Hcalls.
      destruct (Gdi.star_offscreen w h _).
      * cbn [negb]. rewrite Hcalls. reflexivity.
      * cbn [negb]. destruct Hcalls as (c & -> & Hr).
        cbn [map rev]. rewrite Hr, <- app_assoc. reflexivity.
Qed.

Lemma forall2_forall {A} (R : A -> A -> Prop) (P Q : A -> Prop) l l' :
  (forall a b, R a b -> P a -> Q b) -> Forall2 R l l' -> Forall P l -> Forall Q l'.
Proof.
  intros H F. induction F as [|a b l l' Hab F IH]; intros HP; constructor.
  - inversion HP; subst. eauto.
  - inversion HP; subst. auto.
Qed.

(** [RenderFrame] of the GDI variant always completes; a property of the
    stars that the advance preserves holds afterwards, and the number of
    stars is unchanged. *)
Lemma gdi_RenderFrame_inv (L : Libc) (P : Gdi.Star -> Prop) cfg rw dt total :
  (forall s g, P s ->
     P (fst (Gdi.advance (Gdi.extent (left (Gdi.rc rw)) (right (Gdi.rc rw)))
                         (Gdi.extent (top (Gdi.rc rw)) (bottom (Gdi.rc rw)))
                         (Gdi.g_speed cfg) dt s g))) ->
  Forall P (Gdi.stars rw) ->
  exists rw' calls,
    Gdi.RenderFrame cfg rw dt total = Some (rw', calls)
    /\ Forall P (Gdi.stars rw')
    /\ length (Gdi.stars rw') = length (Gdi.stars rw)
    /\ Gdi.rc rw' = Gdi.rc rw.
Proof.
  intros Hstep HP. unfold Gdi.RenderFrame.
  destruct (Gdi.backHdc rw); cbn [negb].
  - match goal with
    | |- context [Gdi.render_loop ?c ?w ?h ?d ?p ?ss ?st] =>
        destruct (gdi_render_loop_spec L c w h d p ss st eq_refl)
          as (ss' & st' & E & _ & HF & _)
    end.
    rewrite E. eexists _, _. split; [reflexivity|]. cbn [Gdi.stars Gdi.rc].
    split; [|split; [|reflexivity]].
    + eapply forall2_forall; [|exact HF|exact HP].
      intros a b (g & ->) Ha. apply Hstep. exact Ha.
    + symmetry. eapply Forall2_length. exact HF.
  - exists rw, []. auto.
Qed.

Lemma gdi_run_frames_inv (L : Libc) (P : Gdi.Star -> Prop) cfg frames :
  forall rw,
    (forall s g dt, In dt (map fst frames) -> P s ->
       P (fst (Gdi.advance (Gdi.extent (left (Gdi.rc rw)) (right (Gdi.rc rw)))
                           (Gdi.extent (top (Gdi.rc rw)) (bottom (Gdi.rc rw)))
                           (Gdi.g_speed cfg) dt s g))) ->
    Forall P (Gdi.stars rw) ->
    exists rw',
      Gdi.run_frames cfg rw frames = Some rw'
      /\ Forall P (Gdi.stars rw')
      /\ length (Gdi.stars rw') = length (Gdi.stars rw).
Proof.
  induction frames as [|[dt total] rest IH]; intros rw Hstep HP.
  - exists rw. simpl. auto.
  - destruct (gdi_RenderFrame_inv L P cfg rw dt total) as (rw1 & calls & E & HP1 & Hl & Hrc).
    + intros s g. apply Hstep. simpl. auto.
    + exact HP.
    + destruct (IH rw1) as (rw2 & E2 & HP2 & Hl2).
      * rewrite Hrc. intros s g d Hd. apply Hstep. simpl. auto.
      * exact HP1.
      * exists rw2. cbn [Gdi.run_frames]. rewrite E, E2.
        split; [reflexivity|]. split; [assumption | lia].
Qed.

(** [InitStars] of the GDI variant. *)
Lemma gdi_init_loop_spec (L : Libc) (P : Gdi.Star -> Prop) w h gs n :
  (forall g, P (fst (Gdi.init_star w h gs g))) ->
  forall g, length (fst (Gdi.init_loop n w h gs g)) = n
            /\ Forall P (fst (Gdi.init_loop n w h gs g)).
Proof.
  intros HP. induction n as [|n IH]; intros g; cbn [Gdi.init_loop].
  - simpl. auto.
  - pose proof (HP g) as H1.
    destruct (Gdi.init_star w h gs g) as [s g1].
    destruct (IH g1) as [Hl HF].
    destruct (Gdi.init_loop n w h gs g1) as [rest g2].
    cbn [fst length] in *. split; [lia | constructor; assumption].
Qed.

Lemma gdi_init_star_band (L : Libc) w h gs g :
  canonical_ok L -> 0 <= gs < 2 ^ 31 ->
  within (2 * 2 ^ 149) (33 * 2 ^ 149) (Gdi.z (fst (Gdi.init_star w h gs g)))
  /\ finite_nonneg (Gdi.speed (fst (Gdi.init_star w h gs g))).
Proof.
  intros HL Hs. unfold Gdi.init_star.
  destruct (uniform_real (lit 0 1) (lit 1 1) g) as [fx g1].
  destruct (uniform_real (lit 0 1) (lit 1 1) g1) as [fy g2].
  pose proof (ud01_within L g2 HL) as Hfz.
  destruct (uniform_real (lit 0 1) (lit 1 1) g2) as [fz g3].
  destruct (rng_next g3) as [r g4]. cbn [fst Gdi.z Gdi.speed] in *. split.
  - apply gdi_respawn_depth. exact Hfz.
  - destruct (gdi_speed_ok gs r Hs) as (k & E & Hk).
    exists k. split; [exact E | lia].
Qed.

(** ** Direct2D variants: the depth band *)

Lemma d2d_NEAR : D2D.NEAR = Fin (13421773 * 2 ^ 121).
Proof. vm_compute. reflexivity. Qed.

Lemma f32_1_minus_02 : fsub (lit 1 1) (lit 2 10) = (Fin (13421773 * 2 ^ 125) : float).
Proof. vm_compute. reflexivity. Qed.

Lemma f32_02 : (lit 2 10 : float) = Fin (13421773 * 2 ^ 123).
Proof. vm_compute. reflexivity. Qed.

Lemma f32_1_minus_05 : fsub (lit 1 1) (lit 5 10) = (Fin (2 ^ 148) : float).
Proof. vm_compute. reflexivity. Qed.

(** A draw of [uniform_real_distribution<float>(a, b)] with [a <= b]:
    between [a] and the rounded [a + (b - a)]. *)
Lemma uniform_real_within (L : Libc) (a b : float) ka kd rh1 rl rh g :
  canonical_ok L ->
  a = Fin ka -> fsub b a = Fin kd -> 0 <= kd ->
  rnd ((2 ^ 149 - 1) * kd) (2 ^ 149) = (Fin rh1 : float) ->
  rnd (0 + ka) 1 = (Fin rl : float) ->
  rnd (rh1 + ka) 1 = (Fin rh : float) ->
  within rl rh (fst (uniform_real a b g)).
Proof.
  intros HL Ea Ed Hkd E1 El Eh. unfold uniform_real, rng_next. cbn [fst].
  pose proof (canonical_within L HL (outputs g (cursor g) mod 2 ^ 32)
                ltac:(apply Z.mod_pos_bound; lia)) as Hc.
  rewrite Ed, Ea.
  apply fadd_within with (la := 0) (ha := rh1) (lb := ka) (hb := ka);
    [ | exists ka; split; [reflexivity | lia] | exact El | exact Eh ].
  apply fmul_within with (la := 0) (ha := 2 ^ 149 - 1) (lb := kd) (hb := kd);
    [ lia | exact Hkd | exact Hc | exists kd; split; [reflexivity | lia]
    | rewrite Z.mul_0_l; vm_compute; reflexivity | exact E1 ].
Qed.

(** [uz(0.2f, 1.0f)] of [InitStars]: within [0.2, 1]. *)
Lemma d2d_init_depth (L : Libc) g :
  canonical_ok L ->
  within (13421773 * 2 ^ 123) (2 ^ 149)
         (fst (uniform_real (lit 2 10) (lit 1 1) g)).
Proof.
  intros HL.
  eapply within_weaken;
    [ eapply (uniform_real_within L _ _ _ _ _ _ _ g HL f32_02 f32_1_minus_02);
      [ lia | vm_compute; reflexivity | vm_compute; reflexivity
      | vm_compute; reflexivity ]
    | vm_compute; discriminate | vm_compute; discriminate ].
Qed.

(** [uz(0.5f, 1.0f)] of the respawn: within [0.5, 1]. *)
Lemma d2d_respawn_depth (L : Libc) g :
  canonical_ok L ->
  within (2 ^ 148) (2 ^ 149) (fst (uniform_real (lit 5 10) (lit 1 1) g)).
Proof.
  intros HL.
  eapply within_weaken;
    [ eapply (uniform_real_within L _ _ _ _ _ _ _ g HL f32_half f32_1_minus_05);
      [ lia | vm_compute; reflexivity | vm_compute; reflexivity
      | vm_compute; reflexivity ]
    | vm_compute; discriminate | vm_compute; discriminate ].
Qed.

(** [speed = g_speedPercent / 100.0f] *)
Lemma d2d_speed_ok pct :
  0 <= pct < 2 ^ 31 ->
  within 0 (2 ^ 31 * 2 ^ 149) (fdiv (of_int pct) (lit 100 1) : float).
Proof.
  intros H.
  eapply within_weaken.
  - apply fdiv_within with (la := 0) (ha := 2 ^ 31 * 2 ^ 149)
                           (lb := 100 * 2 ^ 149) (hb := 100 * 2 ^ 149);
      [ lia | lia
      | apply of_int_within with (lo := 0) (hi := 2 ^ 31);
        [ lia | vm_compute; reflexivity | vm_compute; reflexivity ]
      | exists (100 * 2 ^ 149); split; [vm_compute; reflexivity | lia]
      | vm_compute; reflexivity | vm_compute; reflexivity ].
  - lia.
  - vm_compute. discriminate.
Qed.

Lemma d2d_step_nonneg (sp dt : float) :
  within 0 (2 ^ 31 * 2 ^ 149) sp -> finite_nonneg dt ->
  nonneg (fmul (fmul (lit 5 10) sp) dt).
Proof.
  intros Hsp (b & -> & Hb). rewrite f32_half.
  assert (H : within 0 (2 ^ 30 * 2 ^ 149) (fmul (Fin (2 ^ 148)) sp : float)).
  { apply fmul_within with (la := 2 ^ 148) (ha := 2 ^ 148)
                           (lb := 0) (hb := 2 ^ 31 * 2 ^ 149);
      [ lia | lia | exists (2 ^ 148); split; [reflexivity | lia] | exact Hsp
      | vm_compute; reflexivity | vm_compute; reflexivity ]. }
  destruct H as (k & -> & Hk). apply fmul_fin_nonneg; lia.
Qed.

Lemma d2d_advance_band (L : Libc) sw sh (speed dt : float) s g :
  canonical_ok L ->
  within 0 (2 ^ 31 * 2 ^ 149) speed ->
  finite_nonneg dt ->
  within (13421773 * 2 ^ 121 + 1) (2 ^ 149) (D2D.z s) ->
  within (13421773 * 2 ^ 121 + 1) (2 ^ 149)
         (D2D.z (fst (D2D.advance sw sh speed dt s g))).
Proof.
  intros HL Hsp Hdt (zz & Ez & Hz).
  pose proof (d2d_step_nonneg _ _ Hsp Hdt) as Hd.
  set (res := D2D.advance sw sh speed dt s g).
  assert (R : res = D2D.advance sw sh speed dt s g) by reflexivity.
  clearbody res. unfold D2D.advance in R. rewrite Ez in R.
  destruct (lowered_depth zz (2 ^ 149) (13421773 * 2 ^ 121) _ Hd ltac:(lia)
              ltac:(vm_compute; reflexivity)) as [C | [C W]];
    rewrite <- d2d_NEAR in C; rewrite C in R.
  - destruct (uniform_real (lit 0 1) sw g) as [fx g1].
    destruct (uniform_real (lit 0 1) sh g1) as [fy g2].
    pose proof (d2d_respawn_depth L g2 HL) as Hfz.
    destruct (uniform_real (lit 5 10) (lit 1 1) g2) as [fz g3].
    destruct (uniform_real (lit 6 10) (lit 1 1) g3) as [fb g4].
    destruct (uniform_real (lit 0 1) D2D.TWO_PI g4) as [fp g5].
    subst res. cbn [fst D2D.z] in *.
    eapply within_weaken; [exact Hfz | vm_compute; discriminate | lia].
  - subst res. cbn [fst D2D.z]. exact W.
Qed.

Lemma d2d_init_star_band (L : Libc) w h g :
  canonical_ok L ->
  within (13421773 * 2 ^ 121 + 1) (2 ^ 149) (D2D.z (fst (D2D.init_star w h g))).
Proof.
  intros HL. unfold D2D.init_star.
  destruct (uniform_real (lit 0 1) (of_int w) g) as [fx g1].
  destruct (uniform_real (lit 0 1) (of_int h) g1) as [fy g2].
  pose proof (d2d_init_depth L g2 HL) as Hfz.
  destruct (uniform_real (lit 2 10) (lit 1 1) g2) as [fz g3].
  destruct (uniform_real (lit 6 10) (lit 1 1) g3) as [fb g4].
  destruct (uniform_real (lit 0 1) D2D.TWO_PI g4) as [fp g5].
  cbn [fst D2D.z] in *.
  eapply within_weaken; [exact Hfz | vm_compute; discriminate | lia].
Qed.

(** ** Direct2D variants: the loop of [RenderFrame] *)

Lemma d2d_render_loop_spec (L : Libc) cfg t dt total ss :
  forall g,
    Forall2 (fun s s' => exists g', s' = fst (D2D.advance (D2D.width t) (D2D.height t)
                                               (D2D.frame_speed cfg) dt s g'))
            ss (fst (fst (D2D.render_loop cfg t dt total ss g)))
    /\ length (snd (D2D.render_loop cfg t dt total ss g)) = length ss.
Proof.
  induction ss as [|s rest IH]; intros g; cbn [D2D.render_loop].
  - simpl. auto.
  - unfold D2D.render_star.
    destruct (D2D.advance (D2D.width t) (D2D.height t) (D2D.frame_speed cfg) dt s g)
      as [s1 g1] eqn:E.
    destruct (IH g1) as [HF Hl].
    destruct (D2D.render_loop cfg t dt total rest g1) as [[rest' g2] cs].
    cbn [fst snd length] in *. split; [|lia].
    constructor; [|exact HF]. exists g. rewrite E. reflexivity.
Qed.

Lemma d2dp_render_loop_spec (L : Libc) cfg t dt total ss :
  forall g,
    Forall2 (fun s s' => exists g', s' = fst (D2D.advance (D2D.width t) (D2D.height t)
                                               (D2D.frame_speed cfg) dt s g'))
            ss (fst (fst (D2Dp.render_loop cfg t dt total ss g)))
    /\ length (snd (D2Dp.render_loop cfg t dt total ss g)) = length ss.
Proof.
  induction ss as [|s rest IH]; intros g; cbn [D2Dp.render_loop].
  - simpl. auto.
  - unfold D2Dp.render_star.
    destruct (D2D.advance (D2D.width t) (D2D.height t) (D2D.frame_speed cfg) dt s g)
      as [s1 g1] eqn:E.
    destruct (IH g1) as [HF Hl].
    destruct (D2Dp.render_loop cfg t dt total rest g1) as [[rest' g2] cs].
    cbn [fst snd length] in *. split; [|lia].
    constructor; [|exact HF]. exists g. rewrite E. reflexivity.
Qed.

(** A property of the stars that the advance preserves holds after
    [RenderFrame], and the number of stars is unchanged. *)
Lemma d2d_RenderFrame_inv (L : Libc) (P : D2D.Star -> Prop) cfg rw dt total :
  (forall sw sh s g, P s ->
     P (fst (D2D.advance sw sh (D2D.frame_speed cfg) dt s g))) ->
  Forall P (D2D.stars rw) ->
  Forall P (D2D.stars (fst (D2D.RenderFrame cfg rw dt total)))
  /\ length (D2D.stars (fst (D2D.RenderFrame cfg rw dt total)))
     = length (D2D.stars rw).
Proof.
  intros Hstep HP. unfold D2D.RenderFrame.
  destruct (D2D.rt rw) as [t|]; [|simpl; auto].
  destruct (d2d_render_loop_spec L cfg t dt total (D2D.stars rw) (D2D.rng rw))
    as [HF _].
  destruct (D2D.render_loop cfg t dt total (D2D.stars rw) (D2D.rng rw))
    as [[ss g] calls].
  cbn [fst D2D.stars] in *. split.
  - eapply forall2_forall; [|exact HF|exact HP].
    intros a b (g' & ->) Ha. apply Hstep. exact Ha.
  - symmetry. eapply Forall2_length. exact HF.
Qed.

Lemma d2dp_RenderFrame_inv (L : Libc) (P : D2D.Star -> Prop) cfg rw dt total :
  (forall sw sh s g, P s ->
     P (fst (D2D.advance sw sh (D2D.frame_speed cfg) dt s g))) ->
  Forall P (D2D.stars rw) ->
  Forall P (D2D.stars (fst (D2Dp.RenderFrame cfg rw dt total)))
  /\ length (D2D.stars (fst (D2Dp.RenderFrame cfg rw dt total)))
     = length (D2D.stars rw).
Proof.
  intros Hstep HP. unfold D2Dp.RenderFrame.
  destruct (D2D.rt rw) as [t|]; [|simpl; auto].
  destruct (d2dp_render_loop_spec L cfg t dt total (D2D.stars rw) (D2D.rng rw))
    as [HF _].
  destruct (D2Dp.render_loop cfg t dt total (D2D.stars rw) (D2D.rng rw))
    as [[ss g] calls].
  cbn [fst D2D.stars] in *. split.
  - eapply forall2_forall; [|exact HF|exact HP].
    intros a b (g' & ->) Ha. apply Hstep. exact Ha.
  - symmetry. eapply Forall2_length. exact HF.
Qed.

Lemma d2d_run_frames_inv (L : Libc) (P : D2D.Star -> Prop) cfg frames :
  (forall sw sh s g dt, In dt (map fst frames) -> P s ->
     P (fst (D2D.advance sw sh (D2D.frame_speed cfg) dt s g))) ->
  forall rw,
    Forall P (D2D.stars rw) ->
    Forall P (D2D.stars (D2D.run_frames cfg rw frames))
    /\ length (D2D.stars (D2D.run_frames cfg rw frames)) = length (D2D.stars rw).
Proof.
  induction frames as [|[dt total] rest IH]; intros Hstep rw HP.
  - simpl. auto.
  - cbn [D2D.run_frames].
    destruct (d2d_RenderFrame_inv L P cfg rw dt total) as [H1 Hl1].
    + intros sw sh s g. apply Hstep. simpl. auto.
    + exact HP.
    + destruct (IH ltac:(intros sw sh s g d Hd; apply Hstep; simpl; auto) _ H1)
        as [H2 Hl2].
      split; [exact H2 | lia].
Qed.

Lemma d2dp_run_frames_inv (L : Libc) (P : D2D.Star -> Prop) cfg frames :
  (forall sw sh s g dt, In dt (map fst frames) -> P s ->
     P (fst (D2D.advance sw sh (D2D.frame_speed cfg) dt s g))) ->
  forall rw,
    Forall P (D2D.stars rw) ->
    Forall P (D2D.stars (D2Dp.run_frames cfg rw frames))
    /\ length (D2D.stars (D2Dp.run_frames cfg rw frames)) = length (D2D.stars rw).
Proof.
  induction frames as [|[dt total] rest IH]; intros Hstep rw HP.
  - simpl. auto.
  - cbn [D2Dp.run_frames].
    destruct (d2dp_RenderFrame_inv L P cfg rw dt total) as [H1 Hl1].
    + intros sw sh s g. apply Hstep. simpl. auto.
    + exact HP.
    + destruct (IH ltac:(intros sw sh s g d Hd; apply Hstep; simpl; auto) _ H1)
        as [H2 Hl2].
      split; [exact H2 | lia].
Qed.

Lemma d2d_init_loop_spec (L : Libc) (P : D2D.Star -> Prop) w h n :
  (forall g, P (fst (D2D.init_star w h g))) ->
  forall g, length (fst (D2D.init_loop n w h g)) = n
            /\ Forall P (fst (D2D.init_loop n w h g)).
Proof.
  intros HP. induction n as [|n IH]; intros g; cbn [D2D.init_loop].
  - simpl. auto.
  - pose proof (HP g) as H1.
    destruct (D2D.init_star w h g) as [s g1].
    destruct (IH g1) as [Hl HF].
    destruct (D2D.init_loop n w h g1) as [rest g2].
    cbn [fst length] in *. split; [lia | constructor; assumption].
Qed.

(** ** The test library satisfies the library contract *)

Lemma test_libc_canonical_ok : canonical_ok test_libc.
Proof.
  intros r Hr. rewrite f32_0, f32_1. cbn [generate_canonical test_libc fle flt].
  assert (0 <= r / 2 ^ 8 < 2 ^ 24).
  { split; [apply Z.div_pos; lia | apply Z.div_lt_upper_bound; lia]. }
  split; [apply Z.leb_le | apply Z.ltb_lt]; nia.
Qed.

(** ** Depth band, per variant *)

Lemma gdi_in_band_within s :
  Gdi.in_band s = true <-> within (2 * 2 ^ 149) (33 * 2 ^ 149) (Gdi.z s).
Proof.
  unfold Gdi.in_band. rewrite gdi_Z_MIN, gdi_Z_MAX. split.
  - intros H. apply andb_prop in H. destruct H as [H1 H2].
    apply fle_within; auto.
    destruct (Gdi.z s); [discriminate | reflexivity | reflexivity].
  - intros H. apply within_fle in H. destruct H as [-> ->]. reflexivity.
Qed.

Lemma d2d_in_band_within s :
  D2D.in_band s = true <-> within (13421773 * 2 ^ 121 + 1) (2 ^ 149) (D2D.z s).
Proof.
  unfold D2D.in_band. rewrite d2d_NEAR, f32_1. split.
  - intros H. apply andb_prop in H. destruct H as [H1 H2].
    destruct (D2D.z s) as [|b|k]; cbn [flt fle] in *; try discriminate.
    + destruct b; discriminate.
    + exists k. split; [reflexivity|].
      apply Z.ltb_lt in H1. apply Z.leb_le in H2. lia.
  - intros (k & -> & Hk). cbn [flt fle]. apply andb_true_intro.
    split; [apply Z.ltb_lt | apply Z.leb_le]; lia.
Qed.

Lemma gdi_band_frames (L : Libc) cfg rw frames :
  canonical_ok L ->
  0 <= Gdi.g_speed cfg < 2 ^ 31 ->
  Forall finite_nonneg (map fst frames) ->
  Forall (fun s => Gdi.in_band s = true /\ finite_nonneg (Gdi.speed s)) (Gdi.stars rw) ->
  exists rw',
    Gdi.run_frames cfg rw frames = Some rw'
    /\ Forall (fun s => Gdi.in_band s = true /\ finite_nonneg (Gdi.speed s))
              (Gdi.stars rw').
Proof.
  intros HL Hs Hdt HP.
  destruct (gdi_run_frames_inv L
              (fun s => Gdi.in_band s = true /\ finite_nonneg (Gdi.speed s))
              cfg frames rw) as (rw' & E & HF & _).
  - intros s g dt Hin [Hb Hsp]. rewrite Forall_forall in Hdt.
    apply gdi_in_band_within in Hb.
    split.
    + apply gdi_in_band_within.
      apply (gdi_advance_band L _ _ _ dt s g HL Hs (Hdt _ Hin) Hb Hsp).
    + apply (gdi_advance_band L _ _ _ dt s g HL Hs (Hdt _ Hin) Hb Hsp).
  - exact HP.
  - exists rw'. auto.
Qed.

Lemma gdi_band_init (L : Libc) cfg rw :
  canonical_ok L ->
  0 <= Gdi.g_starCount cfg ->
  0 <= Gdi.g_speed cfg < 2 ^ 31 ->
  exists rw1,
    Gdi.InitStars cfg rw = Some rw1
    /\ length (Gdi.stars rw1) = Z.to_nat (Gdi.g_starCount cfg)
    /\ Forall (fun s => Gdi.in_band s = true /\ finite_nonneg (Gdi.speed s))
              (Gdi.stars rw1).
Proof.
  intros HL Hc Hs. unfold Gdi.InitStars.
  destruct (Z.ltb_spec (Gdi.g_starCount cfg) 0); [lia|].
  match goal with
  | |- context [Gdi.init_loop ?n ?w ?h ?gs ?g0] =>
      assert (HI : forall g, Gdi.in_band (fst (Gdi.init_star w h gs g)) = true
                             /\ finite_nonneg (Gdi.speed (fst (Gdi.init_star w h gs g))));
        [ | destruct (gdi_init_loop_spec L
                        (fun s => Gdi.in_band s = true /\ finite_nonneg (Gdi.speed s))
                        w h gs n HI g0) as [Hl HF];
            destruct (Gdi.init_loop n w h gs g0) as [ss g'] ]
  end.
  - intros g. split.
    + apply gdi_in_band_within. apply (gdi_init_star_band L _ _ _ g HL Hs).
    + apply (gdi_init_star_band L _ _ _ g HL Hs).
  - eexists. split; [reflexivity|]. cbn [Gdi.stars fst] in *. auto.
Qed.

(** The respawn alone: whatever the star was, a depth that has dropped to
    [Z_MIN] or below is replaced by one in the band. *)
Lemma gdi_band_respawn (L : Libc) w h gs dt s g :
  canonical_ok L ->
  fle (fsub (Gdi.z s) (fmul (fmul (Gdi.speed s) dt) (lit 5 10))) Gdi.Z_MIN = true ->
  Gdi.in_band (fst (Gdi.advance w h gs dt s g)) = true.
Proof.
  intros HL C. apply gdi_in_band_within. unfold Gdi.advance. rewrite C.
  destruct (uniform_real (lit 0 1) (lit 1 1) g) as [fx g1].
  destruct (uniform_real (lit 0 1) (lit 1 1) g1) as [fy g2].
  pose proof (ud01_within L g2 HL) as Hfz.
  destruct (uniform_real (lit 0 1) (lit 1 1) g2) as [fz g3].
  destruct (rng_next g3) as [r g4]. cbn [fst Gdi.z] in *.
  apply gdi_respawn_depth. exact Hfz.
Qed.

Lemma d2d_band_step (L : Libc) cfg sw sh dt s g :
  canonical_ok L ->
  0 <= D2D.g_speedPercent cfg < 2 ^ 31 ->
  finite_nonneg dt ->
  D2D.in_band s = true ->
  D2D.in_band (fst (D2D.advance sw sh (D2D.frame_speed cfg) dt s g)) = true.
Proof.
  intros HL Hs Hdt Hb. apply d2d_in_band_within. apply d2d_in_band_within in Hb.
  apply d2d_advance_band; auto. apply d2d_speed_ok. exact Hs.
Qed.

Lemma d2d_band_init (L : Libc) cfg rw :
  canonical_ok L ->
  0 <= D2D.g_starCount cfg ->
  exists rw1,
    D2D.InitStars cfg rw = Some rw1
    /\ length (D2D.stars rw1) = Z.to_nat (D2D.g_starCount cfg)
    /\ Forall (fun s => D2D.in_band s = true) (D2D.stars rw1).
Proof.
  intros HL Hc. unfold D2D.InitStars.
  destruct (Z.ltb_spec (D2D.g_starCount cfg) 0); [lia|].
  match goal with
  | |- context [D2D.init_loop ?n ?w ?h ?g0] =>
      assert (HI : forall g, D2D.in_band (fst (D2D.init_star w h g)) = true);
        [ | destruct (d2d_init_loop_spec L (fun s => D2D.in_band s = true)
                        w h n HI g0) as [Hl HF];
            destruct (D2D.init_loop n w h g0) as [ss g'] ]
  end.
  - intros g. apply d2d_in_band_within. apply d2d_init_star_band. exact HL.
  - eexists. split; [reflexivity|]. cbn [D2D.stars fst] in *. auto.
Qed.

(** The respawn alone in the Direct2D variants: the new depth lies in
    [0.5, 1]. *)
Lemma d2d_band_respawn (L : Libc) sw sh speed dt s g :
  canonical_ok L ->
  fle (fsub (D2D.z s) (fmul (fmul (lit 5 10) speed) dt)) D2D.NEAR = true ->
  fle (lit 5 10) (D2D.z (fst (D2D.advance sw sh speed dt s g))) = true
  /\ fle (D2D.z (fst (D2D.advance sw sh speed dt s g))) (lit 1 1) = true.
Proof.
  intros HL C. unfold D2D.advance. rewrite C.
  destruct (uniform_real (lit 0 1) sw g) as [fx g1].
  destruct (uniform_real (lit 0 1) sh g1) as [fy g2].
  pose proof (d2d_respawn_depth L g2 HL) as Hfz.
  destruct (uniform_real (lit 5 10) (lit 1 1) g2) as [fz g3].
  destruct (uniform_real (lit 6 10) (lit 1 1) g3) as [fb g4].
  destruct (uniform_real (lit 0 1) D2D.TWO_PI g4) as [fp g5].
  cbn [fst D2D.z] in *. rewrite f32_half, f32_1.
  apply within_fle. exact Hfz.
Qed.

(** A depth in either band is not zero. *)
Lemma gdi_in_band_nonzero s : Gdi.in_band s = true -> Gdi.z s <> Fin 0.
Proof.
  intros H. apply gdi_in_band_within in H. destruct H as (k & E & Hk).
  rewrite E. intros [=]. lia.
Qed.

Lemma d2d_in_band_nonzero s : D2D.in_band s = true -> D2D.z s <> Fin 0.
Proof.
  intros H. apply d2d_in_band_within in H. destruct H as (k & E & Hk).
  rewrite E. intros [=]. lia.
Qed.

(* ================================================================== *)
(** * The claims *)
(* ================================================================== *)

Lemma tv_frames_ok : Forall finite_nonneg (map fst tv_frames).
Proof.
  repeat constructor;
    (eexists; split; [vm_compute; reflexivity | vm_compute; discriminate]).
Qed.

(** C1, refuted as stated: in the GDI variant a star whose advance drops
    it to [Z_MIN] or below is given the depth [Z_MIN] itself when the
    canonical draw is 0 (engine word 0), which is not in (near, far]; and
    it is given [Z_MAX] itself when the draw is the largest float below 1
    (engine word 0xFFFFFF00: [(1 - 2^-24) * 31 + 2] rounds to 33), which
    is not in [near, far). *)
Lemma C1_reassigned_depth_reaches_both_bounds :
  let dt : float := lit 1 60 in
  fle (fsub (Gdi.z gdi_low_star)
            (fmul (fmul (Gdi.speed gdi_low_star) dt) (lit 5 10))) Gdi.Z_MIN = true
  /\ Gdi.z (fst (@Gdi.advance test_libc 1920 1080 60 dt gdi_low_star (const_rng 0)))
     = Gdi.Z_MIN
  /\ flt Gdi.Z_MIN
         (Gdi.z (fst (@Gdi.advance test_libc 1920 1080 60 dt gdi_low_star
                                   (const_rng 0)))) = false
  /\ Gdi.z (fst (@Gdi.advance test_libc 1920 1080 60 dt gdi_low_star
                              (const_rng 4294967040)))
     = Gdi.Z_MAX
  /\ flt (Gdi.z (fst (@Gdi.advance test_libc 1920 1080 60 dt gdi_low_star
                                   (const_rng 4294967040))))
         Gdi.Z_MAX = false.
Proof. vm_compute. repeat split; reflexivity. Qed.

(** C1, as amended: with a finite, non-negative [dt] in every frame and a
    non-negative configured speed, the depth of every star produced by
    [InitStars] stays, after any number of [RenderFrame] calls, within the
    closed band [Z_MIN, Z_MAX] = [2, 33] in the GDI variant and within
    (0.05, 1] in the Direct2D variants; a star whose advance drops it to
    the near bound or below is at once given a depth in [2, 33] (GDI) or
    in [0.5, 1] (Direct2D); the depth is never zero when the projection
    divides by it. *)
Theorem C1_depth_stays_in_closed_band (L : Libc) (frames : list (float * float)) :
  canonical_ok L ->
  Forall finite_nonneg (map fst frames) ->
  (forall cfg rw,
      0 <= Gdi.g_starCount cfg -> 0 <= Gdi.g_speed cfg < 2 ^ 31 ->
      exists rw1 rw',
        Gdi.InitStars cfg rw = Some rw1
        /\ Gdi.run_frames cfg rw1 frames = Some rw'
        /\ Forall (fun s => Gdi.in_band s = true /\ Gdi.z s <> Fin 0)
                  (Gdi.stars rw'))
  /\ (forall w h gs dt s g,
         fle (fsub (Gdi.z s) (fmul (fmul (Gdi.speed s) dt) (lit 5 10)))
             Gdi.Z_MIN = true ->
         Gdi.in_band (fst (Gdi.advance w h gs dt s g)) = true)
  /\ (forall cfg rw,
         0 <= D2D.g_starCount cfg -> 0 <= D2D.g_speedPercent cfg < 2 ^ 31 ->
         exists rw1,
           D2D.InitStars cfg rw = Some rw1
           /\ Forall (fun s => D2D.in_band s = true /\ D2D.z s <> Fin 0)
                     (D2D.stars (D2D.run_frames cfg rw1 frames))
           /\ Forall (fun s => D2D.in_band s = true /\ D2D.z s <> Fin 0)
                     (D2D.stars (D2Dp.run_frames cfg rw1 frames)))
  /\ (forall sw sh speed dt s g,
         fle (fsub (D2D.z s) (fmul (fmul (lit 5 10) speed) dt)) D2D.NEAR = true ->
         fle (lit 5 10) (D2D.z (fst (D2D.advance sw sh speed dt s g))) = true
         /\ fle (D2D.z (fst (D2D.advance sw sh speed dt s g))) (lit 1 1) = true).
Proof.
  intros HL Hdt. repeat split.
  - intros cfg rw Hc Hs.
    destruct (gdi_band_init L cfg rw HL Hc Hs) as (rw1 & E1 & _ & H1).
    destruct (gdi_band_frames L cfg rw1 frames HL Hs Hdt H1) as (rw' & E2 & H2).
    exists rw1, rw'. split; [exact E1|]. split; [exact E2|].
    eapply Forall_impl; [|exact H2]. intros s [Hb _].
    split; [exact Hb | apply gdi_in_band_nonzero; exact Hb].
  - intros. apply gdi_band_respawn; assumption.
  - intros cfg rw Hc Hs.
    destruct (d2d_band_init L cfg rw HL Hc) as (rw1 & E1 & _ & H1).
    exists rw1. split; [exact E1|].
    assert (Hstep : forall sw sh s g dt, In dt (map fst frames) ->
              D2D.in_band s = true ->
              D2D.in_band (fst (D2D.advance sw sh (D2D.frame_speed cfg) dt s g)) = true).
    { intros sw sh s g dt Hin Hb. rewrite Forall_forall in Hdt.
      apply d2d_band_step; auto. }
    split.
    + destruct (d2d_run_frames_inv L (fun s => D2D.in_band s = true) cfg frames
                  Hstep rw1 H1) as [H2 _].
      eapply Forall_impl; [|exact H2]. intros s Hb.
      split; [exact Hb | apply d2d_in_band_nonzero; exact Hb].
    + destruct (d2dp_run_frames_inv L (fun s => D2D.in_band s = true) cfg frames
                  Hstep rw1 H1) as [H2 _].
      eapply Forall_impl; [|exact H2]. intros s Hb.
      split; [exact Hb | apply d2d_in_band_nonzero; exact Hb].
  - apply (d2d_band_respawn L sw sh speed dt s g HL H).
  - apply (d2d_band_respawn L sw sh speed dt s g HL H).
Qed.

Lemma C1_witness :
  (exists rw1 rw',
      @Gdi.InitStars test_libc gdi_cfg0 gdi_rw0 = Some rw1
      /\ @Gdi.run_frames test_libc gdi_cfg0 rw1 tv_frames = Some rw'
      /\ Forall (fun s => Gdi.in_band s = true /\ Gdi.z s <> Fin 0)
                (Gdi.stars rw'))
  /\ Gdi.in_band (fst (@Gdi.advance test_libc 1920 1080 60 (lit 1 60)
                                    gdi_low_star (const_rng 0))) = true
  /\ (exists rw1,
         @D2D.InitStars test_libc d2d_cfg0 d2d_rw0 = Some rw1
         /\ Forall (fun s => D2D.in_band s = true /\ D2D.z s <> Fin 0)
                   (D2D.stars (@D2D.run_frames test_libc d2d_cfg0 rw1 tv_frames))
         /\ Forall (fun s => D2D.in_band s = true /\ D2D.z s <> Fin 0)
                   (D2D.stars (@D2Dp.run_frames test_libc d2d_cfg0 rw1 tv_frames)))
  /\ (fle (lit 5 10)
          (D2D.z (fst (@D2D.advance test_libc (lit 1920 1) (lit 1080 1) (lit 6 10)
                                    (lit 1 60) d2d_low_star (const_rng 0)))) = true
      /\ fle (D2D.z (fst (@D2D.advance test_libc (lit 1920 1) (lit 1080 1) (lit 6 10)
                                       (lit 1 60) d2d_low_star (const_rng 0))))
             (lit 1 1) = true).
Proof.
  destruct (C1_depth_stays_in_closed_band test_libc tv_frames
              test_libc_canonical_ok tv_frames_ok) as (G & GR & D & DR).
  split; [|split; [|split]].
  - apply (G gdi_cfg0 gdi_rw0); vm_compute; repeat split;
      (discriminate || reflexivity).
  - apply GR. vm_compute. reflexivity.
  - apply (D d2d_cfg0 d2d_rw0); vm_compute; repeat split;
      (discriminate || reflexivity).
  - apply DR. vm_compute. reflexivity.
Defined.

(** C6: the star population is constant.  [InitStars] leaves exactly
    [g_starCount] stars, and any number of [RenderFrame] calls, whatever
    the [dt] and whatever the library draws, leaves the number of stars
    of a window unchanged, in each of the three variants. *)
Theorem C6_star_count_constant (L : Libc)
    (gcfg : Gdi.Config) (grw : Gdi.RenderWindow)
    (dcfg : D2D.Config) (drw : D2D.RenderWindow)
    (frames : list (float * float)) :
  0 <= Gdi.g_starCount gcfg ->
  0 <= D2D.g_starCount dcfg ->
  (exists rw1, Gdi.InitStars gcfg grw = Some rw1
               /\ Z.of_nat (length (Gdi.stars rw1)) = Gdi.g_starCount gcfg)
  /\ (exists rw', Gdi.run_frames gcfg grw frames = Some rw'
                  /\ length (Gdi.stars rw') = length (Gdi.stars grw))
  /\ (exists rw1, D2D.InitStars dcfg drw = Some rw1
                  /\ Z.of_nat (length (D2D.stars rw1)) = D2D.g_starCount dcfg)
  /\ length (D2D.stars (D2D.run_frames dcfg drw frames)) = length (D2D.stars drw)
  /\ length (D2D.stars (D2Dp.run_frames dcfg drw frames)) = length (D2D.stars drw).
Proof.
  intros Hg Hd. repeat split.
  - unfold Gdi.InitStars.
    destruct (Z.ltb_spec (Gdi.g_starCount gcfg) 0); [lia|].
    match goal with
    | |- context [Gdi.init_loop ?n ?w ?h ?gs ?g0] =>
        destruct (gdi_init_loop_spec L (fun _ => True) w h gs n (fun _ => I) g0)
          as [Hl _];
          destruct (Gdi.init_loop n w h gs g0) as [ss g']
    end.
    eexists. split; [reflexivity|]. cbn [Gdi.stars fst] in *. lia.
  - destruct (gdi_run_frames_inv L (fun _ => True) gcfg frames grw)
      as (rw' & E & _ & Hl).
    + auto.
    + apply Forall_forall. auto.
    + exists rw'. auto.
  - unfold D2D.InitStars.
    destruct (Z.ltb_spec (D2D.g_starCount dcfg) 0); [lia|].
    match goal with
    | |- context [D2D.init_loop ?n ?w ?h ?g0] =>
        destruct (d2d_init_loop_spec L (fun _ => True) w h n (fun _ => I) g0)
          as [Hl _];
          destruct (D2D.init_loop n w h g0) as [ss g']
    end.
    eexists. split; [reflexivity|]. cbn [D2D.stars fst] in *. lia.
  - apply (d2d_run_frames_inv L (fun _ => True) dcfg frames); auto.
    apply Forall_forall. auto.
  - apply (d2dp_run_frames_inv L (fun _ => True) dcfg frames); auto.
    apply Forall_forall. auto.
Qed.

Lemma C6_witness :
  (exists rw1, @Gdi.InitStars test_libc gdi_cfg0 gdi_rw0 = Some rw1
               /\ Z.of_nat (length (Gdi.stars rw1)) = 3)
  /\ (exists rw', @Gdi.run_frames test_libc gdi_cfg0 gdi_rw0 tv_frames = Some rw'
                  /\ length (Gdi.stars rw') = 0%nat)
  /\ (exists rw1, @D2D.InitStars test_libc d2d_cfg0 d2d_rw0 = Some rw1
                  /\ Z.of_nat (length (D2D.stars rw1)) = 3)
  /\ length (D2D.stars (@D2D.run_frames test_libc d2d_cfg0 d2d_rw0 tv_frames)) = 0%nat
  /\ length (D2D.stars (@D2Dp.run_frames test_libc d2d_cfg0 d2d_rw0 tv_frames)) = 0%nat.
Proof.
  apply (C6_star_count_constant test_libc gdi_cfg0 gdi_rw0 d2d_cfg0 d2d_rw0
           tv_frames); vm_compute; discriminate.
Defined.

(** C10: in the GDI variant the bucket index of every star lies in
    [0, BUCKETS - 1] = [0, 5], and [RenderFrame] never reads or writes
    outside [brushes[BUCKETS]]: it completes for every window, every [dt],
    every [totalTime] and every library behaviour ([None] stands for an
    access outside the array). *)
Theorem C10_brush_bucket_in_bounds :
  (forall zz pulse,
      0 <= Gdi.star_bucket (Gdi.star_intensity zz pulse) <= Gdi.BUCKETS - 1)
  /\ (forall (L : Libc) cfg rw dt total,
         exists r, Gdi.RenderFrame cfg rw dt total = Some r).
Proof.
  split.
  - intros. apply gdi_bucket_bounds.
  - intros L cfg rw dt total.
    destruct (gdi_RenderFrame_inv L (fun _ => True) cfg rw dt total)
      as (rw' & calls & E & _).
    + auto.
    + apply Forall_forall. auto.
    + eexists. exact E.
Qed.

(** ** Off-screen stars *)

Lemma gdi_RenderFrame_calls (L : Libc) cfg rw dt total :
  exists rw' calls,
    Gdi.RenderFrame cfg rw dt total = Some (rw', calls)
    /\ map Gdi.call_rect calls
       = if Gdi.backHdc rw
         then map (Gdi.star_rect (Gdi.extent (left (Gdi.rc rw)) (right (Gdi.rc rw)))
                                 (Gdi.extent (top (Gdi.rc rw)) (bottom (Gdi.rc rw))))
                  (filter (fun s' => negb (Gdi.star_offscreen
                                             (Gdi.extent (left (Gdi.rc rw)) (right (Gdi.rc rw)))
                                             (Gdi.extent (top (Gdi.rc rw)) (bottom (Gdi.rc rw)))
                                             s'))
                          (Gdi.stars rw'))
         else [].
Proof.
  unfold Gdi.RenderFrame. destruct (Gdi.backHdc rw); cbn [negb].
  - match goal with
    | |- context [Gdi.render_loop ?c ?w ?h ?d ?p ?ss ?st] =>
        destruct (gdi_render_loop_spec L c w h d p ss st eq_refl)
          as (ss' & st' & E & _ & _ & Hc)
    end.
    rewrite E. eexists _, _. split; [reflexivity|]. cbn [Gdi.stars].
    rewrite map_rev, Hc. cbn [Gdi.ls_calls map]. rewrite app_nil_r.
    apply rev_involutive.
  - exists rw, []. auto.
Qed.

(** C7, refuted as stated: the Direct2D variants have no off-screen test.
    A near star at the corner of a 1920 x 1080 target projects to
    x = -9145 with radius 26.3 (MyStarfield.cpp) or 8 (Starfield.cpp,
    Direct2D), entirely left of the viewport, and [FillEllipse] is issued
    for it all the same. *)
Lemma C7_direct2d_draws_offscreen_star :
  (length (snd (@D2D.RenderFrame test_libc d2d_cfg0 d2d_rw1 (lit 1 60) (lit 0 1)))
   = 1%nat
   /\ forallb fill_left_of_viewport
        (snd (@D2D.RenderFrame test_libc d2d_cfg0 d2d_rw1 (lit 1 60) (lit 0 1)))
      = true)
  /\ (length (snd (@D2Dp.RenderFrame test_libc d2d_cfg0 d2d_rw1 (lit 1 60) (lit 0 1)))
      = 1%nat
      /\ forallb fill_left_of_viewport
           (snd (@D2Dp.RenderFrame test_libc d2d_cfg0 d2d_rw1 (lit 1 60) (lit 0 1)))
         = true).
Proof. vm_compute. repeat split; reflexivity. Qed.

(** C7, as amended: in the GDI variant a star whose projected bounding
    box, as [RenderFrame] computes its edges [px - psz], [px + psz],
    [py - psz], [py + psz], lies entirely outside the viewport gets no
    [Ellipse] call: the rectangles drawn in a frame are exactly those of
    the stars that are not off screen, in the order of the stars.  The
    Direct2D variants issue one [FillEllipse] per star. *)
Theorem C7_gdi_skips_offscreen_stars (L : Libc) :
  (forall cfg rw dt total,
      exists rw' calls,
        Gdi.RenderFrame cfg rw dt total = Some (rw', calls)
        /\ map Gdi.call_rect calls
           = if Gdi.backHdc rw
             then map (Gdi.star_rect (Gdi.extent (left (Gdi.rc rw)) (right (Gdi.rc rw)))
                                     (Gdi.extent (top (Gdi.rc rw)) (bottom (Gdi.rc rw))))
                      (filter (fun s' => negb (Gdi.star_offscreen
                                                 (Gdi.extent (left (Gdi.rc rw)) (right (Gdi.rc rw)))
                                                 (Gdi.extent (top (Gdi.rc rw)) (bottom (Gdi.rc rw)))
                                                 s'))
                              (Gdi.stars rw'))
             else [])
  /\ (forall cfg rw dt total,
         length (snd (D2D.RenderFrame cfg rw dt total))
         = match D2D.rt rw with
           | Some _ => length (D2D.stars rw)
           | None => 0%nat
           end)
  /\ (forall cfg rw dt total,
         length (snd (D2Dp.RenderFrame cfg rw dt total))
         = match D2D.rt rw with
           | Some _ => length (D2D.stars rw)
           | None => 0%nat
           end).
Proof.
  split; [|split].
  - intros. apply gdi_RenderFrame_calls.
  - intros cfg rw dt total. unfold D2D.RenderFrame.
    destruct (D2D.rt rw) as [t|]; [|reflexivity].
    pose proof (d2d_render_loop_spec L cfg t dt total (D2D.stars rw) (D2D.rng rw))
      as [_ Hl].
    destruct (D2D.render_loop cfg t dt total (D2D.stars rw) (D2D.rng rw))
      as [[ss g] calls]. exact Hl.
  - intros cfg rw dt total. unfold D2Dp.RenderFrame.
    destruct (D2D.rt rw) as [t|]; [|reflexivity].
    pose proof (d2dp_render_loop_spec L cfg t dt total (D2D.stars rw) (D2D.rng rw))
      as [_ Hl].
    destruct (D2Dp.render_loop cfg t dt total (D2D.stars rw) (D2D.rng rw))
      as [[ss g] calls]. exact Hl.
Qed.

(** ** Projected size *)

Lemma flt_false_fle {F : Format} (x y : fp F) :
  is_nan x = false -> is_nan y = false -> flt x y = false -> fle y x = true.
Proof.
  destruct x as [|a|a], y as [|b|b]; cbn [is_nan flt fle]; try discriminate;
    intros _ _ H.
  - destruct a, b; try discriminate; reflexivity.
  - destruct a; [discriminate | reflexivity].
  - destruct b; [reflexivity | discriminate].
  - apply Z.ltb_ge in H. apply Z.leb_le. lia.
Qed.

Lemma f32_SIZE_SCALE : Gdi.SIZE_SCALE = Fin (2 ^ 149).
Proof. vm_compute. reflexivity. Qed.

(** The size from the scaled inverse depth [v = SIZE_SCALE * inv], for a
    [v] below 2^31. *)
Lemma gdi_size_of_scaled (k : Z) :
  k <= (2 ^ 31 - 1) * 2 ^ 149 ->
  let psz := to_int (fceil (MAX (lit 1 1) (Fin k : float))) in
  1 <= (if 128 <? psz then 128 else psz) <= 128.
Proof.
  intros Hk. rewrite f32_1. unfold MAX. cbn [flt].
  destruct (Z.ltb_spec k (2 ^ 149)) as [Hlt|Hge].
  - vm_compute. split; discriminate.
  - cbn [fceil to_int]. change (@ushift binary32) with 149.
    set (c := - (- k / 2 ^ 149)).
    assert (Hc : 1 <= c <= 2 ^ 31 - 1).
    { subst c.
      pose proof (Z.div_mod (- k) (2 ^ 149) ltac:(lia)) as E.
      pose proof (Z.mod_pos_bound (- k) (2 ^ 149) ltac:(lia)) as B.
      split; nia. }
    rewrite Z.quot_mul by lia.
    unfold in_int32.
    destruct (Z.leb_spec (- 2 ^ 31) c); [|lia].
    destruct (Z.ltb_spec c (2 ^ 31)); [|lia]. cbn [andb].
    destruct (Z.ltb_spec 128 c); lia.
Qed.

Lemma gdi_star_size_bounds (zz : float) :
  within (2 ^ 120) (2 ^ 277 - 1) zz -> 1 <= Gdi.star_size zz <= 128.
Proof.
  intros Hz. unfold Gdi.star_size.
  assert (H : within 0 (2 ^ 30 * 2 ^ 149)
                     (fmul Gdi.SIZE_SCALE (fdiv Gdi.Z_MIN zz))).
  { rewrite f32_SIZE_SCALE, gdi_Z_MIN.
    eapply within_weaken.
    - apply fmul_within with (la := 2 ^ 149) (ha := 2 ^ 149)
                             (lb := 0) (hb := 2 ^ 30 * 2 ^ 149);
        [ lia | lia | exists (2 ^ 149); split; [reflexivity | lia] |
        | vm_compute; reflexivity | vm_compute; reflexivity ].
      eapply within_weaken.
      + apply fdiv_within with (la := 2 * 2 ^ 149) (ha := 2 * 2 ^ 149)
                               (lb := 2 ^ 120) (hb := 2 ^ 277 - 1);
          [ lia | lia | exists (2 * 2 ^ 149); split; [reflexivity | lia]
          | exact Hz | vm_compute; reflexivity | vm_compute; reflexivity ].
      + lia.
      + vm_compute. discriminate.
    - lia.
    - lia. }
  destruct H as (k & -> & Hk). apply gdi_size_of_scaled. lia.
Qed.

(** In the band the GDI size is always 1: [Z_MIN / z <= 1]. *)
Lemma gdi_star_size_in_band (zz : float) :
  within (2 * 2 ^ 149) (33 * 2 ^ 149) zz -> Gdi.star_size zz = 1.
Proof.
  intros Hz. unfold Gdi.star_size.
  assert (H : within 0 (2 ^ 149) (fmul Gdi.SIZE_SCALE (fdiv Gdi.Z_MIN zz))).
  { rewrite f32_SIZE_SCALE, gdi_Z_MIN.
    eapply within_weaken.
    - apply fmul_within with (la := 2 ^ 149) (ha := 2 ^ 149)
                             (lb := 0) (hb := 2 ^ 149);
        [ lia | lia | exists (2 ^ 149); split; [reflexivity | lia] |
        | vm_compute; reflexivity | vm_compute; reflexivity ].
      eapply within_weaken.
      + apply fdiv_within with (la := 2 * 2 ^ 149) (ha := 2 * 2 ^ 149)
                               (lb := 2 * 2 ^ 149) (hb := 33 * 2 ^ 149);
          [ lia | lia | exists (2 * 2 ^ 149); split; [reflexivity | lia]
          | exact Hz | vm_compute; reflexivity | vm_compute; reflexivity ].
      + vm_compute. discriminate.
      + lia.
    - lia.
    - lia. }
  destruct H as (k & -> & Hk). rewrite f32_1. unfold MAX. cbn [flt].
  destruct (Z.ltb_spec k (2 ^ 149)) as [Hlt|Hge].
  - vm_compute. reflexivity.
  - replace k with (2 ^ 149) by lia. vm_compute. reflexivity.
Qed.

Lemma rnd_is_nan {F : Format} N D : is_nan (rnd N D : fp F) = false.
Proof. unfold rnd. destruct (_ <=? _); reflexivity. Qed.

Lemma fdiv_fin_not_nan {F : Format} a (y : fp F) :
  a <> 0 -> is_nan y = false -> is_nan (fdiv (Fin a) y) = false.
Proof.
  intros Ha Hy. destruct y as [|b|b]; [discriminate | reflexivity |].
  cbn [fdiv]. destruct (Z.eqb_spec b 0).
  - destruct (Z.eqb_spec a 0); [contradiction | reflexivity].
  - apply rnd_is_nan.
Qed.

Lemma d2d_star_size_min (zz : float) :
  is_nan zz = false -> fle (lit 1 1) (D2D.star_size zz) = true.
Proof.
  intros Hn. unfold D2D.star_size.
  assert (Hq : is_nan (fdiv (lit 25 10) zz) = false).
  { change (lit 25 10 : float) with (Fin (5 * 2 ^ 148) : float).
    apply fdiv_fin_not_nan; [lia | exact Hn]. }
  destruct (flt (fdiv (lit 25 10) zz) (lit 1 1)) eqn:E.
  - vm_compute. reflexivity.
  - apply flt_false_fle; auto.
Qed.

Lemma d2dp_clamp_bounds (s : D2D.Star) :
  is_nan (D2Dp.raw_size s) = false ->
  fle D2Dp.g_starMin (D2Dp.clamped_size s) = true
  /\ fle (D2Dp.clamped_size s) D2Dp.g_starMax = true.
Proof.
  intros Hn. unfold D2Dp.clamped_size, D2Dp.clamp.
  destruct (flt (D2Dp.raw_size s) D2Dp.g_starMin) eqn:E1.
  - vm_compute. split; reflexivity.
  - destruct (flt D2Dp.g_starMax (D2Dp.raw_size s)) eqn:E2.
    + vm_compute. split; reflexivity.
    + split; apply flt_false_fle; auto.
Qed.

(** C2, refuted as stated: in the Direct2D variant with size parameters
    the clamp to [g_starMin, g_starMax] = [0.5, 8] comes before the
    multiplication by [dpiX / 96]: at 192 dpi a star in the band (depth
    0.1) is drawn with radius 16, above the maximum 8; and the minimum of
    the clamp is 0.5, so a depth of 4 gives a size of 0.5, below 1. *)
Lemma C2_size_leaves_configured_bounds :
  D2D.in_band d2d_corner_star = true
  /\ D2Dp.star_size d2d_corner_star (lit 192 1) = lit 16 1
  /\ flt D2Dp.g_starMax (D2Dp.star_size d2d_corner_star (lit 192 1)) = true
  /\ D2Dp.star_size d2d_far_star (lit 96 1) = lit 5 10
  /\ flt (D2Dp.star_size d2d_far_star (lit 96 1)) (lit 1 1) = true.
Proof. vm_compute. repeat split; reflexivity. Qed.

(** C2, as amended: the projected size has the bounds each variant
    writes.  GDI: an [int] in [1, 128] for every finite depth of at least
    2^-29, and exactly 1 for every depth in the band.  MyStarfield.cpp: at
    least 1 for every depth that is not NaN, with no upper clamp.
    Starfield.cpp (Direct2D): clamped into [g_starMin, g_starMax] =
    [0.5, 8] whenever the unclamped size is not NaN, and the radius drawn
    is that value times [dpiX / 96]. *)
Theorem C2_projected_size_bounds (gz : float) (gs : Gdi.Star) (dz : float)
    (ps : D2D.Star) (dpiX : float) :
  fle (lit 1 536870912) gz = true ->
  fle gz (Fin (2 ^ 277 - 1)) = true ->
  Gdi.in_band gs = true ->
  is_nan dz = false ->
  is_nan (D2Dp.raw_size ps) = false ->
  1 <= Gdi.star_size gz <= 128
  /\ Gdi.star_size (Gdi.z gs) = 1
  /\ fle (lit 1 1) (D2D.star_size dz) = true
  /\ fle D2Dp.g_starMin (D2Dp.clamped_size ps) = true
  /\ fle (D2Dp.clamped_size ps) D2Dp.g_starMax = true
  /\ D2Dp.star_size ps dpiX = fmul (D2Dp.clamped_size ps) (fdiv dpiX (lit 96 1)).
Proof.
  intros H1 H2 Hb Hd Hp.
  change (lit 1 536870912 : float) with (Fin (2 ^ 120) : float) in H1.
  destruct (d2dp_clamp_bounds ps Hp) as [A B].
  split; [|split; [|split; [|split; [|split]]]].
  - apply gdi_star_size_bounds. apply fle_within; auto.
    clear - H2. destruct gz; [discriminate H2 | reflexivity | reflexivity].
  - apply gdi_star_size_in_band. apply gdi_in_band_within. exact Hb.
  - apply d2d_star_size_min. exact Hd.
  - exact A.
  - exact B.
  - reflexivity.
Qed.

Lemma C2_witness :
  1 <= Gdi.star_size (lit 1 100) <= 128
  /\ Gdi.star_size (Gdi.z gdi_low_star) = 1
  /\ fle (lit 1 1) (D2D.star_size (lit 1 10)) = true
  /\ fle D2Dp.g_starMin (D2Dp.clamped_size d2d_corner_star) = true
  /\ fle (D2Dp.clamped_size d2d_corner_star) D2Dp.g_starMax = true
  /\ D2Dp.star_size d2d_corner_star (lit 192 1)
     = fmul (D2Dp.clamped_size d2d_corner_star) (fdiv (lit 192 1) (lit 96 1)).
Proof.
  apply (C2_projected_size_bounds (lit 1 100) gdi_low_star (lit 1 10)
           d2d_corner_star (lit 192 1)); vm_compute; reflexivity.
Defined.

(** ** Colour channels *)

Lemma lround_range (n hi : Z) :
  0 <= n <= hi * 2 ^ 149 -> hi < 2 ^ 31 ->
  0 <= lround (Fin n : float) <= hi.
Proof.
  intros Hn Hhi. cbn [lround]. change (@ushift binary32) with 149.
  set (t := (2 * Z.abs n + 2 ^ 149) / 2 ^ (149 + 1)).
  assert (Ht : 0 <= t <= hi).
  { subst t. rewrite Z.abs_eq by lia. split.
    - apply Z.div_pos; lia.
    - cut ((2 * n + 2 ^ 149) / 2 ^ (149 + 1) < hi + 1); [lia|].
      apply Z.div_lt_upper_bound; [lia|].
      change (2 ^ (149 + 1)) with (2 * 2 ^ 149). lia. }
  assert (Hs : 0 <= Z.sgn n * t <= hi).
  { destruct (Z.eq_dec n 0) as [->|]; [simpl; lia|].
    rewrite Z.sgn_pos by lia. lia. }
  unfold in_int32.
  destruct (Z.leb_spec (- 2 ^ 31) (Z.sgn n * t)); [|lia].
  destruct (Z.ltb_spec (Z.sgn n * t) (2 ^ 31)); [|lia].
  cbn [andb]. exact Hs.
Qed.

(** The whitening for a given weight [w] and offset [c]: the sum
    [br * whiten + 255 * (1 - whiten)] is not negative and stays below
    1000, so [lroundf] is in range and the [min] caps it at 255. *)
Lemma gdi_whiten_mix_range br w c hi1 lo2 hi2 :
  0 <= br <= 255 -> 0 <= w ->
  rnd (255 * 2 ^ 149 * w) (2 ^ 149) = (Fin hi1 : float) ->
  rnd (0 + c) 1 = (Fin lo2 : float) ->
  rnd (hi1 + c) 1 = (Fin hi2 : float) ->
  0 <= lo2 -> hi2 <= 1000 * 2 ^ 149 ->
  0 <= Z.min 255 (lround (fadd (fmul (of_int br) (Fin w)) (Fin c) : float)) <= 255.
Proof.
  intros Hbr Hw E1 El Eh Hlo Hhi.
  assert (H : within lo2 hi2 (fadd (fmul (of_int br) (Fin w)) (Fin c) : float)).
  { apply fadd_within with (la := 0) (ha := hi1) (lb := c) (hb := c);
      [ | exists c; split; [reflexivity | lia] | exact El | exact Eh ].
    apply fmul_within with (la := 0) (ha := 255 * 2 ^ 149) (lb := w) (hb := w);
      [ lia | exact Hw
      | apply of_int_within with (lo := 0) (hi := 255);
        [ lia | vm_compute; reflexivity | vm_compute; reflexivity ]
      | exists w; split; [reflexivity | lia]
      | rewrite Z.mul_0_l; vm_compute; reflexivity | exact E1 ]. }
  destruct H as (k & -> & Hk).
  pose proof (lround_range k 1000 ltac:(lia) ltac:(lia)). lia.
Qed.

Lemma gdi_whiten_range br bucket :
  0 <= br <= 255 -> 0 <= bucket <= 5 ->
  0 <= Gdi.whiten_channel br bucket <= 255.
Proof.
  intros Hbr Hb. unfold Gdi.whiten_channel.
  assert (C : bucket = 0 \/ bucket = 1 \/ bucket = 2 \/ bucket = 3
              \/ bucket = 4 \/ bucket = 5) by lia.
  destruct C as [-> | [-> | [-> | [-> | [-> | ->]]]]];
    match goal with
    | |- context [fmul (of_int br) ?w] =>
        let W := fresh "W" in
        let EW := fresh "EW" in
        set (W := w);
        match goal with
        | |- context [fadd _ ?c] =>
            let C := fresh "C" in
            let EC := fresh "EC" in
            set (C := c);
            eassert (EW : W = Fin _) by (vm_compute; reflexivity);
            eassert (EC : C = Fin _) by (vm_compute; reflexivity);
            rewrite EW, EC
        end
    end;
    (eapply gdi_whiten_mix_range;
     [ exact Hbr | vm_compute; discriminate | vm_compute; reflexivity
     | vm_compute; reflexivity | vm_compute; reflexivity
     | vm_compute; discriminate | vm_compute; discriminate ]).
Qed.

Lemma gdi_intensity_range zz pulse : 0 <= Gdi.star_intensity zz pulse <= 255.
Proof. unfold Gdi.star_intensity. lia. Qed.

Lemma gdi_brush_channel_range base intensity bucket :
  0 <= base <= 255 -> 0 <= intensity <= 255 -> 0 <= bucket <= 5 ->
  0 <= Gdi.brush_channel base intensity bucket <= 255.
Proof.
  intros Hb Hi Hk. unfold Gdi.brush_channel. apply gdi_whiten_range; [|exact Hk].
  rewrite Z.quot_div_nonneg by nia.
  split; [apply Z.div_pos; nia | apply Z.div_le_upper_bound; nia].
Qed.

Lemma byte_range c : 0 <= c mod 256 <= 255.
Proof. pose proof (Z.mod_pos_bound c 256 ltac:(lia)). lia. Qed.

Lemma gdi_make_brush_ok g_color zz pulse :
  Gdi.rgb_ok (Gdi.make_brush g_color (Gdi.star_intensity zz pulse)
                (Gdi.star_bucket (Gdi.star_intensity zz pulse))).
Proof.
  pose proof (gdi_intensity_range zz pulse) as Hi.
  pose proof (gdi_bucket_bounds (Gdi.star_intensity zz pulse)) as Hb.
  unfold Gdi.make_brush, Gdi.rgb_ok, GetRValue, GetGValue, GetBValue.
  repeat split; apply gdi_brush_channel_range; auto using byte_range.
Qed.

Lemma slots_ok_get l i b :
  Gdi.slots_ok l -> array_get l i = Some (Some b) -> Gdi.rgb_ok b.
Proof.
  unfold Gdi.slots_ok, array_get. intros HF H.
  destruct ((0 <=? i) && (i <? Z.of_nat (length l))); [|discriminate].
  apply nth_error_In in H. rewrite Forall_forall in HF.
  apply (HF _ H).
Qed.

Lemma slots_ok_set l i c l' :
  Gdi.slots_ok l -> Gdi.rgb_ok c -> array_set l i (Some c) = Some l' ->
  Gdi.slots_ok l'.
Proof.
  unfold Gdi.slots_ok, array_set. intros HF Hc H.
  destruct ((0 <=? i) && (i <? Z.of_nat (length l))); [|discriminate].
  injection H as <-. clear - HF Hc. revert HF. generalize (Z.to_nat i).
  induction l as [|h t IH]; intros n HF; destruct n; simpl; auto.
  - inversion HF; subst. constructor; auto.
  - inversion HF; subst. constructor; auto.
Qed.

(** The loop body keeps every cached brush and every brush drawn with
    inside [0, 255] per channel. *)
Lemma gdi_render_star_colors (L : Libc) cfg w h dt pulse s st s' st' :
  Gdi.render_star cfg w h dt pulse s st = Some (s', st') ->
  Gdi.slots_ok (Gdi.ls_brushes st) ->
  Forall (fun c => Gdi.rgb_ok (Gdi.brush c)) (Gdi.ls_calls st) ->
  Gdi.slots_ok (Gdi.ls_brushes st')
  /\ Forall (fun c => Gdi.rgb_ok (Gdi.brush c)) (Gdi.ls_calls st').
Proof.
  unfold Gdi.render_star.
  destruct (Gdi.advance w h (Gdi.g_speed cfg) dt s (Gdi.ls_rng st)) as [s1 g1].
  set (intensity := Gdi.star_intensity (Gdi.z s1) pulse).
  set (bucket := Gdi.star_bucket intensity).
  destruct (array_get (Gdi.ls_brushes st) bucket) as [slot|] eqn:Eg;
    [|intros H; discriminate H].
  intros H Hs Hc.
  assert (Hbr : forall brushes,
             match slot with
             | Some _ => Some (Gdi.ls_brushes st)
             | None => array_set (Gdi.ls_brushes st) bucket
                         (Some (Gdi.make_brush (Gdi.g_color cfg) intensity bucket))
             end = Some brushes -> Gdi.slots_ok brushes).
  { intros brushes E. destruct slot as [b|].
    - injection E as <-. exact Hs.
    - eapply slots_ok_set; [exact Hs | | exact E].
      apply gdi_make_brush_ok. }
  destruct (match slot with
            | Some _ => Some (Gdi.ls_brushes st)
            | None => _
            end) as [brushes|] eqn:Eb; [|discriminate H].
  specialize (Hbr brushes eq_refl).
  destruct (Gdi.offscreen _ _ _ w h).
  - injection H as _ <-. cbn [Gdi.ls_brushes Gdi.ls_calls]. auto.
  - destruct (array_get brushes bucket) as [[b|]|] eqn:Eg2;
      [ | discriminate H | discriminate H ].
    injection H as _ <-. cbn [Gdi.ls_brushes Gdi.ls_calls]. split; [exact Hbr|].
    constructor; [|exact Hc]. cbn [Gdi.brush].
    eapply slots_ok_get; [exact Hbr | exact Eg2].
Qed.

Lemma gdi_render_loop_colors (L : Libc) cfg w h dt pulse ss :
  forall st ss' st',
    Gdi.render_loop cfg w h dt pulse ss st = Some (ss', st') ->
    Gdi.slots_ok (Gdi.ls_brushes st) ->
    Forall (fun c => Gdi.rgb_ok (Gdi.brush c)) (Gdi.ls_calls st) ->
    Forall (fun c => Gdi.rgb_ok (Gdi.brush c)) (Gdi.ls_calls st').
Proof.
  induction ss as [|s rest IH]; intros st ss' st' H Hs Hc; cbn [Gdi.render_loop] in H.
  - injection H as _ <-. exact Hc.
  - destruct (Gdi.render_star cfg w h dt pulse s st) as [[s1 st1]|] eqn:E1;
      [|discriminate].
    destruct (gdi_render_star_colors L _ _ _ _ _ _ _ _ _ E1 Hs Hc) as [Hs1 Hc1].
    destruct (Gdi.render_loop cfg w h dt pulse rest st1) as [[rest' st2]|] eqn:E2;
      [|discriminate].
    injection H as _ <-. eapply IH; eauto.
Qed.

Lemma gdi_RenderFrame_colors (L : Libc) cfg rw dt total rw' calls :
  Gdi.RenderFrame cfg rw dt total = Some (rw', calls) ->
  Forall (fun c => Gdi.rgb_ok (Gdi.brush c)) calls.
Proof.
  unfold Gdi.RenderFrame. destruct (Gdi.backHdc rw); cbn [negb].
  - match goal with
    | |- context [Gdi.render_loop ?c ?w ?h ?d ?p ?ss ?st] =>
        destruct (Gdi.render_loop c w h d p ss st) as [[ss' st']|] eqn:E;
          [|discriminate];
          pose proof (gdi_render_loop_colors L c w h d p ss st ss' st' E) as HC
    end.
    intros H. injection H as _ <-.
    apply Forall_rev. apply HC.
    + cbn [Gdi.ls_brushes]. unfold Gdi.slots_ok. repeat constructor.
    + constructor.
  - intros H. injection H as _ <-. constructor.
Qed.

Lemma f32_06 : (lit 6 10 : float) = Fin (10066330 * 2 ^ 125).
Proof. vm_compute. reflexivity. Qed.

Lemma f32_m1 : (lit (-1) 1 : float) = Fin (- 2 ^ 149).
Proof. vm_compute. reflexivity. Qed.

Lemma f32_2 : (lit 2 1 : float) = Fin (2 * 2 ^ 149).
Proof. vm_compute. reflexivity. Qed.

(** [tw] lies in [0.6, 2] when the star's base lies in [0.6, 1], the sine
    in [-1, 1] and the twinkle percentage in [0, 100]. *)
Lemma d2d_twinkle_factor_range (L : Libc) s totalTime pct :
  0 <= pct <= 100 ->
  within (10066330 * 2 ^ 125) (2 ^ 149) (D2D.base s) ->
  within (- 2 ^ 149) (2 ^ 149)
         (sinf (fadd (D2D.phase s) (fmul totalTime (lit 5 1)))) ->
  within (10066330 * 2 ^ 125) (2 * 2 ^ 149)
         (D2D.twinkle_factor s totalTime (fdiv (of_int pct) (lit 100 1))).
Proof.
  intros Hp Hb Hs. unfold D2D.twinkle_factor. rewrite f32_half.
  apply fadd_within with (la := 10066330 * 2 ^ 125) (ha := 2 ^ 149)
                         (lb := 0) (hb := 2 ^ 149);
    [ exact Hb | | vm_compute; reflexivity | vm_compute; reflexivity ].
  apply fmul_within with (la := 0) (ha := 2 ^ 149) (lb := 0) (hb := 2 ^ 149);
    [ lia | lia | | | vm_compute; reflexivity | vm_compute; reflexivity ].
  - apply fadd_within with (la := - 2 ^ 148) (ha := 2 ^ 148)
                           (lb := 2 ^ 148) (hb := 2 ^ 148);
      [ | exists (2 ^ 148); split; [reflexivity | lia]
        | vm_compute; reflexivity | vm_compute; reflexivity ].
    apply fmul_within_const with (la := - 2 ^ 149) (ha := 2 ^ 149);
      [ lia | exact Hs | vm_compute; reflexivity | vm_compute; reflexivity ].
  - apply fdiv_within with (la := 0) (ha := 100 * 2 ^ 149)
                           (lb := 100 * 2 ^ 149) (hb := 100 * 2 ^ 149);
      [ lia | lia
      | apply of_int_within with (lo := 0) (hi := 100);
        [ lia | vm_compute; reflexivity | vm_compute; reflexivity ]
      | exists (100 * 2 ^ 149); split; [vm_compute; reflexivity | lia]
      | vm_compute; reflexivity | vm_compute; reflexivity ].
Qed.

Lemma d2d_channel_range c (tw : float) :
  0 <= c <= 255 ->
  within (10066330 * 2 ^ 125) (2 * 2 ^ 149) tw ->
  D2D.channel_ok (D2D.channel c tw).
Proof.
  intros Hc Ht. unfold D2D.channel_ok, D2D.channel. rewrite f32_0, f32_2.
  apply within_fle.
  apply fmul_within with (la := 0) (ha := 2 ^ 149)
                         (lb := 10066330 * 2 ^ 125) (hb := 2 * 2 ^ 149);
    [ lia | lia | | exact Ht | vm_compute; reflexivity | vm_compute; reflexivity ].
  apply fdiv_within with (la := 0) (ha := 255 * 2 ^ 149)
                         (lb := 255 * 2 ^ 149) (hb := 255 * 2 ^ 149);
    [ lia | lia
    | apply of_int_within with (lo := 0) (hi := 255);
      [ lia | vm_compute; reflexivity | vm_compute; reflexivity ]
    | exists (255 * 2 ^ 149); split; [vm_compute; reflexivity | lia]
    | vm_compute; reflexivity | vm_compute; reflexivity ].
Qed.

(** C3, refuted as stated: the Direct2D variants do not clamp the colour.
    With the default configuration (twinkle 30 %, colour 255, 255, 240), a
    star of base 0.9 and a sine of 0 ([sinf(0)], phase 0 at time 0) gives
    [tw = 0.9 + 0.5 * 0.3 = 1.05] and a red channel of 1.05, above 1.0. *)
Lemma C3_direct2d_channel_exceeds_one :
  flt (lit 1 1)
      (fst (fst (@D2D.star_color test_libc d2d_cfg0 d2d_bright_star (lit 0 1))))
  = true
  /\ flt (lit 1 1)
         (D2D.channel 255 (@D2D.twinkle_factor test_libc d2d_bright_star (lit 0 1)
                                               (lit 3 10)))
     = true.
Proof. vm_compute. split; reflexivity. Qed.

(** C3, as amended: in the GDI variant every channel of every brush that
    [RenderFrame] draws with lies within [0, 255], whatever the depth, the
    pulse and the configured colour.  In the Direct2D variants a channel
    is [c / 255 * tw] and is not clamped: for a star base in [0.6, 1], a
    twinkle percentage in [0, 100] and a sine in [-1, 1] it lies within
    [0.0, 2.0], and it exceeds 1.0 as soon as [c / 255 * tw] does. *)
Theorem C3_color_channels (L : Libc) (cfg : D2D.Config) (s : D2D.Star)
    (totalTime : float) :
  0 <= D2D.g_twinklePercent cfg <= 100 ->
  fle (lit 6 10) (D2D.base s) = true ->
  fle (D2D.base s) (lit 1 1) = true ->
  fle (lit (-1) 1) (sinf (fadd (D2D.phase s) (fmul totalTime (lit 5 1)))) = true ->
  fle (sinf (fadd (D2D.phase s) (fmul totalTime (lit 5 1)))) (lit 1 1) = true ->
  (forall gcfg rw dt total,
      exists rw' calls,
        Gdi.RenderFrame gcfg rw dt total = Some (rw', calls)
        /\ Forall (fun c => Gdi.rgb_ok (Gdi.brush c)) calls)
  /\ (forall g_color zz pulse,
         Gdi.rgb_ok (Gdi.make_brush g_color (Gdi.star_intensity zz pulse)
                       (Gdi.star_bucket (Gdi.star_intensity zz pulse))))
  /\ D2D.channel_ok (fst (fst (D2D.star_color cfg s totalTime)))
  /\ D2D.channel_ok (snd (fst (D2D.star_color cfg s totalTime)))
  /\ D2D.channel_ok (snd (D2D.star_color cfg s totalTime)).
Proof.
  intros Hp Hb1 Hb2 Hs1 Hs2.
  rewrite f32_06 in Hb1. rewrite f32_1 in Hb2, Hs2. rewrite f32_m1 in Hs1.
  assert (Hb : within (10066330 * 2 ^ 125) (2 ^ 149) (D2D.base s)).
  { apply fle_within; auto. clear - Hb2.
    destruct (D2D.base s); [discriminate Hb2 | reflexivity | reflexivity]. }
  assert (Hs : within (- 2 ^ 149) (2 ^ 149)
                      (sinf (fadd (D2D.phase s) (fmul totalTime (lit 5 1))))).
  { apply fle_within; auto. clear - Hs2.
    destruct (sinf _); [discriminate Hs2 | reflexivity | reflexivity]. }
  pose proof (d2d_twinkle_factor_range L s totalTime _ Hp Hb Hs) as Ht.
  split; [|split; [|split; [|split]]].
  - intros gcfg rw dt total.
    destruct (gdi_RenderFrame_inv L (fun _ => True) gcfg rw dt total)
      as (rw' & calls & E & _); [auto | apply Forall_forall; auto |].
    exists rw', calls. split; [exact E|].
    eapply gdi_RenderFrame_colors. exact E.
  - intros. apply gdi_make_brush_ok.
  - cbn [D2D.star_color fst snd]. apply d2d_channel_range; [apply byte_range | exact Ht].
  - cbn [D2D.star_color fst snd]. apply d2d_channel_range; [apply byte_range | exact Ht].
  - cbn [D2D.star_color fst snd]. apply d2d_channel_range; [apply byte_range | exact Ht].
Qed.

Lemma C3_witness :
  (forall gcfg rw dt total,
      exists rw' calls,
        @Gdi.RenderFrame test_libc gcfg rw dt total = Some (rw', calls)
        /\ Forall (fun c => Gdi.rgb_ok (Gdi.brush c)) calls)
  /\ (forall g_color zz pulse,
         Gdi.rgb_ok (Gdi.make_brush g_color (Gdi.star_intensity zz pulse)
                       (Gdi.star_bucket (Gdi.star_intensity zz pulse))))
  /\ D2D.channel_ok (fst (fst (@D2D.star_color test_libc d2d_cfg0 d2d_bright_star (lit 0 1))))
  /\ D2D.channel_ok (snd (fst (@D2D.star_color test_libc d2d_cfg0 d2d_bright_star (lit 0 1))))
  /\ D2D.channel_ok (snd (@D2D.star_color test_libc d2d_cfg0 d2d_bright_star (lit 0 1))).
Proof.
  apply (C3_color_channels test_libc d2d_cfg0 d2d_bright_star (lit 0 1));
    vm_compute; repeat split; (discriminate || reflexivity).
Defined.

(** ** Respawn and initialisation *)

Lemma uniform_real_snd (L : Libc) a b g :
  snd (uniform_real a b g) = snd (rng_next g).
Proof. reflexivity. Qed.

(** C4, refuted as stated: in the Direct2D variants the respawn draws the
    depth from [uz(0.5f, 1.0f)], [InitStars] from [uz(0.2f, 1.0f)].  From
    the same generator state (all words 0) the respawned star gets depth
    0.5 and the initialised star depth 0.2. *)
Lemma C4_direct2d_respawn_depth_differs :
  let speed : float := lit 6 10 in
  let dt : float := lit 1 60 in
  fle (fsub (D2D.z d2d_low_star) (fmul (fmul (lit 5 10) speed) dt)) D2D.NEAR = true
  /\ D2D.z (fst (@D2D.advance test_libc (of_int 1920) (of_int 1080) speed dt
                              d2d_low_star (const_rng 0)))
     = lit 5 10
  /\ D2D.z (fst (@D2D.init_star test_libc 1920 1080 (const_rng 0))) = lit 2 10
  /\ fst (@D2D.advance test_libc (of_int 1920) (of_int 1080) speed dt
                       d2d_low_star (const_rng 0))
     <> fst (@D2D.init_star test_libc 1920 1080 (const_rng 0)).
Proof.
  vm_compute. repeat split; try reflexivity. intros H. discriminate H.
Qed.

(** C4, as amended: in the GDI variant a star whose advanced depth is at
    or below [Z_MIN] is resampled exactly as [InitStars] samples a star:
    same draws, same formulas, same generator state afterwards.  In the
    Direct2D variants (with the render-target size equal to the client
    size [InitStars] uses) position, base and phase are drawn as in
    [InitStars] and the generator ends in the same state, but the depth is
    drawn from [uz(0.5f, 1.0f)], not from [uz(0.2f, 1.0f)]. *)
Theorem C4_respawn_resamples (L : Libc) (w h g_speed : Z) (dt : float)
    (gs : Gdi.Star) (speed : float) (ds : D2D.Star) (g : mt19937) :
  fle (fsub (Gdi.z gs) (fmul (fmul (Gdi.speed gs) dt) (lit 5 10))) Gdi.Z_MIN = true ->
  fle (fsub (D2D.z ds) (fmul (fmul (lit 5 10) speed) dt)) D2D.NEAR = true ->
  Gdi.advance w h g_speed dt gs g = Gdi.init_star w h g_speed g
  /\ (let r := D2D.advance (of_int w) (of_int h) speed dt ds g in
      let i := D2D.init_star w h g in
      D2D.x (fst r) = D2D.x (fst i)
      /\ D2D.y (fst r) = D2D.y (fst i)
      /\ D2D.base (fst r) = D2D.base (fst i)
      /\ D2D.phase (fst r) = D2D.phase (fst i)
      /\ snd r = snd i
      /\ D2D.z (fst r)
         = fst (uniform_real (lit 5 10) (lit 1 1)
                  (snd (uniform_real (lit 0 1) (of_int h)
                          (snd (uniform_real (lit 0 1) (of_int w) g)))))).
Proof.
  intros HG HD. split.
  - unfold Gdi.advance, Gdi.init_star. rewrite HG. reflexivity.
  - cbv zeta. unfold D2D.advance, D2D.init_star. rewrite HD.
    destruct (uniform_real (lit 0 1) (of_int w) g) as [sx g1]. cbn [snd].
    destruct (uniform_real (lit 0 1) (of_int h) g1) as [sy g2]. cbn [snd].
    pose proof (uniform_real_snd L (lit 5 10) (lit 1 1) g2) as E5.
    pose proof (uniform_real_snd L (lit 2 10) (lit 1 1) g2) as E2.
    destruct (uniform_real (lit 5 10) (lit 1 1) g2) as [sz g3].
    destruct (uniform_real (lit 2 10) (lit 1 1) g2) as [sz' g3'].
    cbn [snd] in E5, E2. subst g3 g3'.
    destruct (uniform_real (lit 6 10) (lit 1 1) (snd (rng_next g2))) as [sb g4].
    destruct (uniform_real (lit 0 1) D2D.TWO_PI g4) as [sp g5].
    cbn [fst snd D2D.x D2D.y D2D.z D2D.base D2D.phase].
    repeat split; reflexivity.
Qed.

Lemma C4_witness :
  @Gdi.advance test_libc 1920 1080 60 (lit 1 60) gdi_low_star (const_rng 0)
  = @Gdi.init_star test_libc 1920 1080 60 (const_rng 0)
  /\ (let r := @D2D.advance test_libc (of_int 1920) (of_int 1080) (lit 6 10)
                            (lit 1 60) d2d_low_star (const_rng 0) in
      let i := @D2D.init_star test_libc 1920 1080 (const_rng 0) in
      D2D.x (fst r) = D2D.x (fst i)
      /\ D2D.y (fst r) = D2D.y (fst i)
      /\ D2D.base (fst r) = D2D.base (fst i)
      /\ D2D.phase (fst r) = D2D.phase (fst i)
      /\ snd r = snd i
      /\ D2D.z (fst r)
         = fst (@uniform_real test_libc (lit 5 10) (lit 1 1)
                  (snd (@uniform_real test_libc (lit 0 1) (of_int 1080)
                          (snd (@uniform_real test_libc (lit 0 1) (of_int 1920)
                                              (const_rng 0))))))).
Proof.
  apply (C4_respawn_resamples test_libc 1920 1080 60 (lit 1 60) gdi_low_star
           (lit 6 10) d2d_low_star (const_rng 0)); vm_compute; reflexivity.
Defined.

(** ** The input gate *)

Lemma wrap32_small v : - 2 ^ 31 <= v < 2 ^ 31 -> wrap32 v = v.
Proof.
  intros H. unfold wrap32. rewrite Z.mod_small by lia. lia.
Qed.

Lemma abs_diff_small a b :
  - 2 ^ 31 < a - b < 2 ^ 31 -> abs_diff a b = Z.abs (a - b).
Proof.
  intros H. unfold abs_diff. rewrite (wrap32_small (a - b)) by lia.
  apply wrap32_small. lia.
Qed.

(** The filter of the GDI file and of the Direct2D file with size
    parameters, for any debounce constant and threshold. *)
Lemma filtered_gate deb thr st msg env :
  is_input msg = true ->
  filtered_gate_spec (FullWndProc_filtered deb thr) deb thr st msg env.
Proof.
  intros Hin. repeat split.
  - intros Hd. destruct msg; try discriminate Hin;
      cbn [FullWndProc_filtered]; rewrite Hd; reflexivity.
  - intros Hf. destruct msg; try discriminate Hin;
      cbn [FullWndProc_filtered]; rewrite Hf;
      destruct (flt (elapsed_seconds st env) deb); reflexivity.
  - intros -> Hx Hy. cbn [FullWndProc_filtered].
    destruct (flt (elapsed_seconds st env) deb); [reflexivity|].
    destruct (foreground_ours env); [|reflexivity]. cbn [negb].
    destruct (g_startMouseInit st); [|reflexivity]. cbn [negb].
    apply Z.ltb_lt in Hx, Hy. rewrite Hx, Hy. reflexivity.
  - intros Hd Hf Hm. destruct msg; try discriminate Hin; try congruence;
      cbn [FullWndProc_filtered]; rewrite Hd, Hf; reflexivity.
  - intros Hd Hf -> Hi Hmove. cbn [FullWndProc_filtered].
    rewrite Hd, Hf, Hi. cbn [negb].
    destruct Hmove as [H|H]; apply Z.ltb_ge in H; rewrite H;
      rewrite ?andb_false_r; reflexivity.
Qed.

(** C5, refuted as stated: [FullWndProc] of MyStarfield.cpp has the
    debounce as its only gate.  Three seconds after the start, with the
    foreground window belonging to another process, a mouse move of one
    pixel ends the loop. *)
Lemma C5_mystarfield_ignores_focus_and_threshold :
  fle D2D.g_inputDebounceSeconds (elapsed_seconds tv_input (tv_env 30 1 false)) = true
  /\ foreground_ours (tv_env 30 1 false) = false
  /\ abs_diff (pt_x (cursor_pos (tv_env 30 1 false))) (pt_x (g_startMouse tv_input)) = 1
  /\ g_running tv_input = true
  /\ g_running (D2D.FullWndProc tv_input WM_MOUSEMOVE (tv_env 30 1 false)) = false.
Proof. vm_compute. repeat split; reflexivity. Qed.

(** C5, as amended: in the GDI variant (debounce 0.66 s) and in the
    Direct2D variant with size parameters (debounce 2.5 s) an input message
    inside the debounce window, or while the foreground window is not the
    screensaver's, changes nothing; a mouse move whose displacement from
    the recorded start position is below 12 pixels on both axes does not
    end the loop; after the debounce window and with the focus, a key or
    button message ends it, and so does a mouse move of at least 12 pixels
    on one axis once a start position is recorded.  In MyStarfield.cpp the
    debounce window is the only gate: input inside it changes nothing, and
    any key, button or mouse-move message after it ends the loop whatever
    the focus and the displacement. *)
Theorem C5_input_gate (st : InputState) (msg : Msg) (env : SysEnv) :
  is_input msg = true ->
  filtered_gate_spec Gdi.FullWndProc Gdi.g_inputDebounceSeconds 12 st msg env
  /\ filtered_gate_spec D2Dp.FullWndProc D2Dp.g_inputDebounceSeconds 12 st msg env
  /\ (fle D2D.g_inputDebounceSeconds (elapsed_seconds st env) = false ->
      D2D.FullWndProc st msg env = st)
  /\ (fle D2D.g_inputDebounceSeconds (elapsed_seconds st env) = true ->
      g_running (D2D.FullWndProc st msg env) = false).
Proof.
  intros Hin. split; [|split; [|split]].
  - apply (filtered_gate Gdi.g_inputDebounceSeconds 12 st msg env Hin).
  - apply (filtered_gate D2Dp.g_inputDebounceSeconds 12 st msg env Hin).
  - intros Hd. destruct msg; try discriminate Hin;
      cbn [D2D.FullWndProc]; rewrite Hd; reflexivity.
  - intros Hd. destruct msg; try discriminate Hin;
      cbn [D2D.FullWndProc]; rewrite Hd; reflexivity.
Qed.

(** The scenario of the specification on the GDI variant and on the
    Direct2D variant with size parameters: 5 pixels inside the debounce
    window, 5 pixels after it, any input without the focus, and 20 pixels
    after the window with the focus. *)
Lemma C5_witness :
  (Gdi.FullWndProc tv_input WM_MOUSEMOVE (tv_env 3 5 true) = tv_input
   /\ Gdi.FullWndProc tv_input WM_KEYDOWN (tv_env 30 0 false) = tv_input
   /\ g_running (Gdi.FullWndProc tv_input WM_MOUSEMOVE (tv_env 30 5 true)) = true
   /\ g_running (Gdi.FullWndProc tv_input WM_MOUSEMOVE (tv_env 30 20 true)) = false)
  /\ (D2Dp.FullWndProc tv_input WM_MOUSEMOVE (tv_env 3 5 true) = tv_input
      /\ D2Dp.FullWndProc tv_input WM_KEYDOWN (tv_env 30 0 false) = tv_input
      /\ g_running (D2Dp.FullWndProc tv_input WM_MOUSEMOVE (tv_env 30 5 true)) = true
      /\ g_running (D2Dp.FullWndProc tv_input WM_MOUSEMOVE (tv_env 30 20 true)) = false)
  /\ D2D.FullWndProc tv_input WM_MOUSEMOVE (tv_env 3 5 true) = tv_input
  /\ g_running (D2D.FullWndProc tv_input WM_MOUSEMOVE (tv_env 30 5 true)) = false.
Proof.
  pose proof (C5_input_gate tv_input WM_MOUSEMOVE (tv_env 3 5 true) eq_refl)
    as (G1 & P1 & D1 & _).
  pose proof (C5_input_gate tv_input WM_KEYDOWN (tv_env 30 0 false) eq_refl)
    as (G2 & P2 & _).
  pose proof (C5_input_gate tv_input WM_MOUSEMOVE (tv_env 30 5 true) eq_refl)
    as (G3 & P3 & _ & D3).
  pose proof (C5_input_gate tv_input WM_MOUSEMOVE (tv_env 30 20 true) eq_refl)
    as (G4 & P4 & _).
  destruct G1 as (G1 & _). destruct P1 as (P1 & _).
  destruct G2 as (_ & G2 & _). destruct P2 as (_ & P2 & _).
  destruct G3 as (_ & _ & G3 & _). destruct P3 as (_ & _ & P3 & _).
  destruct G4 as (_ & _ & _ & _ & G4). destruct P4 as (_ & _ & _ & _ & P4).
  split; [split; [|split; [|split]] | split; [split; [|split; [|split]] | split]].
  - apply G1. vm_compute. reflexivity.
  - apply G2. reflexivity.
  - apply G3; [reflexivity | vm_compute; reflexivity | vm_compute; reflexivity].
  - apply G4; [vm_compute; reflexivity | reflexivity | reflexivity | reflexivity
              | left; vm_compute; discriminate].
  - apply P1. vm_compute. reflexivity.
  - apply P2. reflexivity.
  - apply P3; [reflexivity | vm_compute; reflexivity | vm_compute; reflexivity].
  - apply P4; [vm_compute; reflexivity | reflexivity | reflexivity | reflexivity
              | left; vm_compute; discriminate].
  - apply D1. vm_compute. reflexivity.
  - apply D3. vm_compute. reflexivity.
Defined.

(** ** The settings dialog *)

Lemma wrap32_range v : - 2 ^ 31 <= wrap32 v < 2 ^ 31.
Proof.
  unfold wrap32. pose proof (Z.mod_pos_bound (v + 2 ^ 31) (2 ^ 32) ltac:(lia)).
  lia.
Qed.

(** An [int] converts to [double] exactly. *)
Lemma of_int64_exact n :
  - 2 ^ 31 <= n < 2 ^ 31 -> (of_int n : double) = Fin (n * 2 ^ 1074).
Proof.
  intros H. unfold of_int. change (@ushift binary64) with 1074.
  apply (rnd_exact (F := binary64) n 1074); [lia | |].
  - change (@prec binary64) with 53. lia.
  - change (@etop binary64) with 2098.
    apply Z.le_lt_trans with (2 ^ 31 * 2 ^ 1074).
    + apply Z.mul_le_mono_nonneg_r; lia.
    + vm_compute. reflexivity.
Qed.

Lemma to_int64_exact n :
  - 2 ^ 31 <= n < 2 ^ 31 -> to_int (Fin (n * 2 ^ 1074) : double) = n.
Proof.
  intros H. cbn [to_int]. change (@ushift binary64) with 1074.
  rewrite Z.quot_mul by lia. unfold in_int32.
  destruct (Z.leb_spec (- 2 ^ 31) n); [|lia].
  destruct (Z.ltb_spec n (2 ^ 31)); [|lia]. reflexivity.
Qed.

(** [std::fmax(lo, std::fmin(hi, v))] on [int]s is the integer clamp. *)
Lemma clamp_fm_spec lo hi v :
  - 2 ^ 31 <= lo < 2 ^ 31 -> - 2 ^ 31 <= hi < 2 ^ 31 -> - 2 ^ 31 <= v < 2 ^ 31 ->
  Gdi.clamp_fm lo hi v = Z.max lo (Z.min hi v).
Proof.
  intros Hlo Hhi Hv. unfold Gdi.clamp_fm.
  rewrite !of_int64_exact by assumption.
  assert (P : 0 < 2 ^ 1074) by lia.
  cbn [fmin flt].
  destruct (Z.ltb_spec (v * 2 ^ 1074) (hi * 2 ^ 1074)) as [A|A].
  - assert (v < hi) by nia. cbn [fmax flt].
    destruct (Z.ltb_spec (lo * 2 ^ 1074) (v * 2 ^ 1074)) as [B|B].
    + assert (lo < v) by nia. rewrite to_int64_exact by lia. lia.
    + assert (v <= lo) by nia. rewrite to_int64_exact by lia. lia.
  - assert (hi <= v) by nia. cbn [fmax flt].
    destruct (Z.ltb_spec (lo * 2 ^ 1074) (hi * 2 ^ 1074)) as [B|B].
    + assert (lo < hi) by nia. rewrite to_int64_exact by lia. lia.
    + assert (hi <= lo) by nia. rewrite to_int64_exact by lia. lia.
Qed.

Lemma read_field_range f current :
  - 2 ^ 31 <= current < 2 ^ 31 -> - 2 ^ 31 <= read_field f current < 2 ^ 31.
Proof.
  intros H. unfold read_field. destruct (dlg_ok f); [apply wrap32_range | exact H].
Qed.

(** C8: confirming the settings dialog never rejects input.  A field that
    does not parse falls back to the current configuration value, and the
    values committed are clamped: star count into [10, 5000], speed into
    [10, 300] and, in the Direct2D variants, which have the field,
    twinkle into [0, 100].  (In the GDI variant the clamp is computed with
    [std::fmax] and [std::fmin] in [double]; the configuration values are
    [int]s.) *)
Theorem C8_settings_clamped (gcfg : Gdi.Config) (dcfg : D2D.Config)
    (stars_field speed_field tw_field : DlgInt) (sel : Z) :
  - 2 ^ 31 <= Gdi.g_starCount gcfg < 2 ^ 31 ->
  - 2 ^ 31 <= Gdi.g_speed gcfg < 2 ^ 31 ->
  (let c := Gdi.SettingsOK gcfg stars_field speed_field in
   10 <= Gdi.g_starCount c <= 5000
   /\ 10 <= Gdi.g_speed c <= 300
   /\ (dlg_ok stars_field = false ->
       Gdi.g_starCount c = Z.max 10 (Z.min 5000 (Gdi.g_starCount gcfg)))
   /\ (dlg_ok speed_field = false ->
       Gdi.g_speed c = Z.max 10 (Z.min 300 (Gdi.g_speed gcfg))))
  /\ (let c := D2D.SettingsOK dcfg stars_field speed_field tw_field sel in
      10 <= D2D.g_starCount c <= 5000
      /\ 10 <= D2D.g_speedPercent c <= 300
      /\ 0 <= D2D.g_twinklePercent c <= 100
      /\ (dlg_ok stars_field = false ->
          D2D.g_starCount c = Z.max 10 (Z.min 5000 (D2D.g_starCount dcfg)))
      /\ (dlg_ok speed_field = false ->
          D2D.g_speedPercent c = Z.max 10 (Z.min 300 (D2D.g_speedPercent dcfg)))
      /\ (dlg_ok tw_field = false ->
          D2D.g_twinklePercent c = Z.max 0 (Z.min 100 (D2D.g_twinklePercent dcfg)))).
Proof.
  intros Hs Hp. split.
  - cbv zeta. unfold Gdi.SettingsOK. cbn [Gdi.g_starCount Gdi.g_speed].
    pose proof (read_field_range stars_field _ Hs) as R1.
    pose proof (read_field_range speed_field _ Hp) as R2.
    rewrite !clamp_fm_spec by (assumption || lia).
    repeat split; try lia.
    + intros E. unfold read_field. rewrite E. reflexivity.
    + intros E. unfold read_field. rewrite E. reflexivity.
  - cbv zeta. unfold D2D.SettingsOK.
    cbn [D2D.g_starCount D2D.g_speedPercent D2D.g_twinklePercent].
    repeat split; try lia.
    + intros E. unfold read_field. rewrite E. reflexivity.
    + intros E. unfold read_field. rewrite E. reflexivity.
    + intros E. unfold read_field. rewrite E. reflexivity.
Qed.

Lemma C8_witness :
  (let c := Gdi.SettingsOK gdi_cfg0 tv_big_field tv_bad_field in
   10 <= Gdi.g_starCount c <= 5000
   /\ 10 <= Gdi.g_speed c <= 300
   /\ (dlg_ok tv_big_field = false ->
       Gdi.g_starCount c = Z.max 10 (Z.min 5000 (Gdi.g_starCount gdi_cfg0)))
   /\ (dlg_ok tv_bad_field = false ->
       Gdi.g_speed c = Z.max 10 (Z.min 300 (Gdi.g_speed gdi_cfg0))))
  /\ (let c := D2D.SettingsOK d2d_cfg0 tv_big_field tv_bad_field tv_bad_field 2 in
      10 <= D2D.g_starCount c <= 5000
      /\ 10 <= D2D.g_speedPercent c <= 300
      /\ 0 <= D2D.g_twinklePercent c <= 100
      /\ (dlg_ok tv_big_field = false ->
          D2D.g_starCount c = Z.max 10 (Z.min 5000 (D2D.g_starCount d2d_cfg0)))
      /\ (dlg_ok tv_bad_field = false ->
          D2D.g_speedPercent c = Z.max 10 (Z.min 300 (D2D.g_speedPercent d2d_cfg0)))
      /\ (dlg_ok tv_bad_field = false ->
          D2D.g_twinklePercent c = Z.max 0 (Z.min 100 (D2D.g_twinklePercent d2d_cfg0)))).
Proof.
  apply (C8_settings_clamped gdi_cfg0 d2d_cfg0 tv_big_field tv_bad_field
           tv_bad_field 2); vm_compute; split; (discriminate || reflexivity).
Defined.

(** ** Determinism of [InitStars] *)

(** C9, refuted as stated: in the GDI variant [InitStars] also reads the
    configured speed ([speed = (float)g_speed + jitter]).  Two runs with
    the same generator state, the same rectangle and the same star count
    (3), but speeds 60 and 100, produce different stars. *)
Lemma C9_gdi_init_depends_on_speed :
  Gdi.g_starCount gdi_cfg0 = Gdi.g_starCount gdi_cfg_fast
  /\ option_map Gdi.stars (@Gdi.InitStars test_libc gdi_cfg0 gdi_rw0)
     <> option_map Gdi.stars (@Gdi.InitStars test_libc gdi_cfg_fast gdi_rw0).
Proof.
  split; [reflexivity|]. vm_compute. intros H. discriminate H.
Qed.

(** C9, as amended: [InitStars] is a function of the generator state, the
    rectangle, the configured star count and, in the GDI variant, the
    configured speed: two runs that agree on these produce element-wise
    identical star collections and leave the generator in the same state. *)
Theorem C9_init_deterministic (L : Libc)
    (gc1 gc2 : Gdi.Config) (gw1 gw2 : Gdi.RenderWindow)
    (dc1 dc2 : D2D.Config) (dw1 dw2 : D2D.RenderWindow) :
  Gdi.rng gw1 = Gdi.rng gw2 -> Gdi.rc gw1 = Gdi.rc gw2 ->
  Gdi.g_starCount gc1 = Gdi.g_starCount gc2 ->
  Gdi.g_speed gc1 = Gdi.g_speed gc2 ->
  D2D.rng dw1 = D2D.rng dw2 -> D2D.rc dw1 = D2D.rc dw2 ->
  D2D.g_starCount dc1 = D2D.g_starCount dc2 ->
  (option_map Gdi.stars (Gdi.InitStars gc1 gw1)
   = option_map Gdi.stars (Gdi.InitStars gc2 gw2)
   /\ option_map Gdi.rng (Gdi.InitStars gc1 gw1)
      = option_map Gdi.rng (Gdi.InitStars gc2 gw2))
  /\ (option_map D2D.stars (D2D.InitStars dc1 dw1)
      = option_map D2D.stars (D2D.InitStars dc2 dw2)
      /\ option_map D2D.rng (D2D.InitStars dc1 dw1)
         = option_map D2D.rng (D2D.InitStars dc2 dw2)).
Proof.
  intros G1 G2 G3 G4 D1 D2 D3. split.
  - unfold Gdi.InitStars. rewrite G1, G2, G3, G4.
    destruct (Gdi.g_starCount gc2 <? 0); [split; reflexivity|].
    destruct (Gdi.init_loop _ _ _ _ _) as [ss g]. split; reflexivity.
  - unfold D2D.InitStars. rewrite D1, D2, D3.
    destruct (D2D.g_starCount dc2 <? 0); [split; reflexivity|].
    destruct (D2D.init_loop _ _ _ _) as [ss g]. split; reflexivity.
Qed.

Lemma C9_witness :
  (option_map Gdi.stars (@Gdi.InitStars test_libc gdi_cfg0 gdi_rw0)
   = option_map Gdi.stars (@Gdi.InitStars test_libc gdi_cfg_blue gdi_rw_nobuf)
   /\ option_map Gdi.rng (@Gdi.InitStars test_libc gdi_cfg0 gdi_rw0)
      = option_map Gdi.rng (@Gdi.InitStars test_libc gdi_cfg_blue gdi_rw_nobuf))
  /\ (option_map D2D.stars (@D2D.InitStars test_libc d2d_cfg0 d2d_rw0)
      = option_map D2D.stars (@D2D.InitStars test_libc d2d_cfg0 d2d_rw1)
      /\ option_map D2D.rng (@D2D.InitStars test_libc d2d_cfg0 d2d_rw0)
         = option_map D2D.rng (@D2D.InitStars test_libc d2d_cfg0 d2d_rw1)).
Proof.
  apply (C9_init_deterministic test_libc gdi_cfg0 gdi_cfg_blue gdi_rw0 gdi_rw_nobuf
           d2d_cfg0 d2d_cfg0 d2d_rw0 d2d_rw1); reflexivity.
Defined.

(* ================================================================== *)
(** ** The command line *)
(* ================================================================== *)

Lemma cmd_find_app (s t : list Z) c :
  Cmd.find s c = None -> Cmd.find (s ++ c :: t) c = Some (length s).
Proof.
  induction s as [|h s IH]; simpl.
  - rewrite Z.eqb_refl. reflexivity.
  - destruct (h =? c); [discriminate|].
    destruct (Cmd.find s c); [discriminate|].
    intros _. rewrite IH; reflexivity.
Qed.

Lemma cmd_find_bound (s : list Z) c i :
  Cmd.find s c = Some i -> (i < length s)%nat.
Proof.
  revert i. induction s as [|h s IH]; simpl; intros i; [discriminate|].
  destruct (h =? c).
  - intros [= <-]. lia.
  - destruct (Cmd.find s c) as [j|]; [|discriminate].
    intros [= <-]. specialize (IH j eq_refl). lia.
Qed.

Lemma cmd_substr_app (s t : list Z) c :
  Cmd.substr (s ++ c :: t) (length s + 1) = t.
Proof.
  unfold Cmd.substr. induction s as [|h s IH]; simpl; [reflexivity|exact IH].
Qed.

Lemma cmd_digits_loop_true (W : Cmd.Wcrt) b s :
  Cmd.digits_loop b s = true <-> b = true /\ forallb Cmd.iswdigit s = true.
Proof.
  induction s as [|ch s IH]; simpl.
  - intuition.
  - destruct (Cmd.iswdigit ch); simpl; [exact IH|]. intuition discriminate.
Qed.

Lemma cmd_is_switch_app (sw t : list Z) :
  (2 <= length sw)%nat ->
  Cmd.is_switch (sw ++ t) = Cmd.is_switch sw
  /\ nth 1 (sw ++ t) 0 = nth 1 sw 0.
Proof.
  intros H. destruct sw as [|c0 [|c1 sw]]; simpl in H; try lia.
  unfold Cmd.is_switch. cbn [nth app].
  split; [|reflexivity].
  f_equal. cbn [length].
  destruct (Z.leb_spec 2 (Z.of_nat (S (S (length (sw ++ t))))));
  destruct (Z.leb_spec 2 (Z.of_nat (S (S (length sw))))); try reflexivity; lia.
Qed.

Lemma cmd_ParseArgs_switch (W : Cmd.Wcrt) exe a1 rest :
  Cmd.ParseArgs (exe :: a1 :: rest)
  = if Cmd.is_switch a1 then
      (Cmd.towlower (nth 1 a1 0),
       match Cmd.find a1 Cmd.COLON with
       | Some colon =>
           if negb (Cmd.empty (Cmd.substr a1 (colon + 1)))
           then Cmd.to_HWND (Cmd.wcstoui64 (Cmd.substr a1 (colon + 1)))
           else Cmd.NULL
       | None =>
           match rest with
           | a2 :: _ =>
               if Cmd.digits_loop (negb (Cmd.empty a2)) a2
               then Cmd.to_HWND (Cmd.wcstoui64 a2) else Cmd.NULL
           | [] => Cmd.NULL
           end
       end)
    else (0, Cmd.NULL).
Proof.
  unfold Cmd.ParseArgs, Cmd.is_switch. cbn [length nth].
  destruct (Z.leb_spec (Z.of_nat (S (S (length rest)))) 1); [lia|].
  destruct ((2 <=? Z.of_nat (length a1))
            && ((nth 0 a1 0 =? Cmd.SLASH) || (nth 0 a1 0 =? Cmd.DASH)));
    [|reflexivity].
  destruct (Cmd.find a1 Cmd.COLON); [reflexivity|].
  destruct rest as [|a2 rest]; cbn [length nth].
  - reflexivity.
  - destruct (Z.leb_spec 3 (Z.of_nat (S (S (S (length rest)))))); [reflexivity|lia].
Qed.

Lemma cmd_ParseArgs_short (W : Cmd.Wcrt) argv :
  (length argv <= 1)%nat -> Cmd.ParseArgs argv = (0, Cmd.NULL).
Proof.
  intros H. unfold Cmd.ParseArgs.
  destruct (Z.leb_spec (Z.of_nat (length argv)) 1); [reflexivity|lia].
Qed.

(** X1.  The two ways of passing the window handle agree: for a switch
    [sw] of at least two characters without a colon and a non-empty text
    [num] made of digits only, ["sw:num"] as one argument and ["sw"]
    followed by ["num"] give the same mode and the same handle, whatever
    arguments follow. *)
Theorem X1_colon_form_equals_space_form (W : Cmd.Wcrt)
    (exe sw num : list Z) (rest rest' : list (list Z)) :
  (2 <= length sw)%nat ->
  Cmd.find sw Cmd.COLON = None ->
  Cmd.digits_loop (negb (Cmd.empty num)) num = true ->
  Cmd.ParseArgs (exe :: (sw ++ Cmd.COLON :: num) :: rest)
  = Cmd.ParseArgs (exe :: sw :: num :: rest')
  /\ snd (Cmd.ParseArgs (exe :: sw :: num :: rest'))
     = (if Cmd.is_switch sw then Cmd.to_HWND (Cmd.wcstoui64 num) else Cmd.NULL).
Proof.
  intros Hlen Hnc Hd.
  rewrite !cmd_ParseArgs_switch.
  destruct (cmd_is_switch_app sw (Cmd.COLON :: num) Hlen) as [-> ->].
  rewrite (cmd_find_app sw num Cmd.COLON Hnc), Hnc, Hd.
  rewrite cmd_substr_app.
  assert (E : Cmd.empty num = false).
  { apply cmd_digits_loop_true in Hd. destruct Hd as [Hd _].
    destruct (Cmd.empty num); [discriminate|reflexivity]. }
  rewrite E. cbn [negb].
  destruct (Cmd.is_switch sw); split; reflexivity.
Qed.

Lemma X1_witness :
  @Cmd.ParseArgs Cmd.test_wcrt
     [Cmd.tv_exe; Cmd.tv_slash_p ++ Cmd.COLON :: Cmd.tv_1234]
  = @Cmd.ParseArgs Cmd.test_wcrt [Cmd.tv_exe; Cmd.tv_slash_p; Cmd.tv_1234]
  /\ snd (@Cmd.ParseArgs Cmd.test_wcrt [Cmd.tv_exe; Cmd.tv_slash_p; Cmd.tv_1234])
     = 1234.
Proof.
  apply (X1_colon_form_equals_space_form Cmd.test_wcrt Cmd.tv_exe Cmd.tv_slash_p
           Cmd.tv_1234 [] []).
  - simpl. lia.
  - reflexivity.
  - reflexivity.
Defined.

(** X2.  What [ParseArgs] reads.  The result depends on [argv[1]] and
    [argv[2]] only, and on [argv[1]] alone when it contains a colon.  A
    handle other than NULL comes from a switch argument, and in the form
    with a separate argument only from a text made of digits: a text with
    any other character (a sign, a blank, the x of a hexadecimal prefix)
    leaves the handle NULL, while the text after a colon is handed to
    [_wcstoui64] unchecked. *)
Theorem X2_arguments_read (W : Cmd.Wcrt) (exe a1 a2 : list Z)
    (rest : list (list Z)) :
  Cmd.ParseArgs (exe :: a1 :: a2 :: rest) = Cmd.ParseArgs [exe; a1; a2]
  /\ (forall colon, Cmd.find a1 Cmd.COLON = Some colon ->
        Cmd.ParseArgs (exe :: a1 :: a2 :: rest) = Cmd.ParseArgs [exe; a1]
        /\ (Cmd.is_switch a1 = true ->
            Cmd.substr a1 (colon + 1) <> [] ->
            snd (Cmd.ParseArgs [exe; a1])
            = Cmd.to_HWND (Cmd.wcstoui64 (Cmd.substr a1 (colon + 1)))))
  /\ (Cmd.find a1 Cmd.COLON = None ->
      snd (Cmd.ParseArgs (exe :: a1 :: a2 :: rest)) <> Cmd.NULL ->
      Cmd.is_switch a1 = true /\ a2 <> []
      /\ forallb Cmd.iswdigit a2 = true)
  /\ (Cmd.find a1 Cmd.COLON = None ->
      forallb Cmd.iswdigit a2 = false ->
      snd (Cmd.ParseArgs (exe :: a1 :: a2 :: rest)) = Cmd.NULL).
Proof.
  rewrite !cmd_ParseArgs_switch.
  split; [reflexivity|]. split; [|split].
  - intros colon E. rewrite E. split; [reflexivity|].
    intros -> Hne. cbn [snd].
    destruct (Cmd.substr a1 (colon + 1)); [contradiction|reflexivity].
  - intros E. rewrite E.
    destruct (Cmd.is_switch a1); cbn [snd]; [|intros H; contradiction].
    destruct (Cmd.digits_loop (negb (Cmd.empty a2)) a2) eqn:D;
      [|intros H; contradiction].
    intros _. apply cmd_digits_loop_true in D. destruct D as [D1 D2].
    split; [reflexivity|]. split; [|exact D2].
    destruct a2; [discriminate|discriminate].
  - intros E D. rewrite E.
    destruct (Cmd.is_switch a1); cbn [snd]; [|reflexivity].
    destruct (Cmd.digits_loop (negb (Cmd.empty a2)) a2) eqn:D'; [|reflexivity].
    apply cmd_digits_loop_true in D'. destruct D' as [_ D'].
    rewrite D' in D. discriminate.
Qed.

Lemma X2_witness :
  @Cmd.ParseArgs Cmd.test_wcrt
     [Cmd.tv_exe; Cmd.tv_slash_p ++ Cmd.COLON :: Cmd.tv_1234; Cmd.tv_1234; Cmd.tv_exe]
  = @Cmd.ParseArgs Cmd.test_wcrt
      [Cmd.tv_exe; Cmd.tv_slash_p ++ Cmd.COLON :: Cmd.tv_1234]
  /\ snd (@Cmd.ParseArgs Cmd.test_wcrt
            [Cmd.tv_exe; Cmd.tv_slash_p; Cmd.tv_exe; Cmd.tv_1234]) = Cmd.NULL.
Proof.
  split.
  - apply (X2_arguments_read Cmd.test_wcrt Cmd.tv_exe
             (Cmd.tv_slash_p ++ Cmd.COLON :: Cmd.tv_1234) Cmd.tv_1234 [Cmd.tv_exe])
      with (colon := 2%nat).
    reflexivity.
  - apply (X2_arguments_read Cmd.test_wcrt Cmd.tv_exe Cmd.tv_slash_p Cmd.tv_exe
             [Cmd.tv_1234]); reflexivity.
Defined.

(** X3.  The dispatch of [wWinMain].  The settings dialog runs exactly
    when [argv[1]] is a switch whose second character lowercases to c; the
    preview runs exactly when it lowercases to p and the parsed handle is
    not NULL, and is never given a NULL parent; every other command line
    runs the full-screen saver: no argument, an argument that is no
    switch, another switch letter, and a p switch whose handle is missing,
    not numeric or zero. *)
Theorem X3_wWinMain_dispatch (W : Cmd.Wcrt) (argv : list (list Z)) :
  let a1 := nth 1 argv [] in
  let c := Cmd.towlower (nth 1 a1 0) in
  let switch := (2 <=? Z.of_nat (length argv)) && Cmd.is_switch a1 in
  match Cmd.wWinMain argv with
  | Cmd.RunSettings h =>
      switch = true /\ c = Cmd.CHAR_c /\ h = snd (Cmd.ParseArgs argv)
  | Cmd.RunPreview h =>
      switch = true /\ c = Cmd.CHAR_p /\ h = snd (Cmd.ParseArgs argv)
      /\ h <> Cmd.NULL
  | Cmd.RunFull =>
      switch = false
      \/ (c <> Cmd.CHAR_c /\ (c <> Cmd.CHAR_p \/ snd (Cmd.ParseArgs argv) = Cmd.NULL))
  end.
Proof.
  intros a1 c switch. subst a1 c switch.
  destruct argv as [|exe [|a1 rest]].
  - rewrite andb_false_l. cbv. left; reflexivity.
  - rewrite andb_false_l. cbv. left; reflexivity.
  - unfold Cmd.wWinMain. rewrite cmd_ParseArgs_switch.
    cbn [nth length].
    replace (2 <=? Z.of_nat (S (S (length rest)))) with true
      by (symmetry; apply Z.leb_le; lia).
    rewrite andb_true_l.
    destruct (Cmd.is_switch a1).
    + set (h := match Cmd.find a1 Cmd.COLON with Some _ => _ | None => _ end).
      clearbody h. cbn [snd].
      destruct (Z.eqb_spec (Cmd.towlower (nth 1 a1 0)) Cmd.CHAR_c) as [Ec|Ec].
      * auto.
      * destruct (Z.eqb_spec (Cmd.towlower (nth 1 a1 0)) Cmd.CHAR_p) as [Ep|Ep];
          cbn [andb].
        -- destruct (Z.eqb_spec h Cmd.NULL) as [En|En]; cbn [negb]; auto.
        -- right. auto.
    + cbv. left; reflexivity.
Qed.

(* ================================================================== *)
(** ** The settings in the registry *)
(* ================================================================== *)

Lemma wrap32_id v : - 2 ^ 31 <= v < 2 ^ 31 -> wrap32 v = v.
Proof. intros H. unfold wrap32. rewrite Z.mod_small; lia. Qed.

Lemma wrap32_DWORD v : wrap32 (Reg.DWORD v) = wrap32 v.
Proof.
  unfold wrap32, Reg.DWORD. f_equal.
  rewrite Zplus_mod_idemp_l. reflexivity.
Qed.

Lemma DWORD_idem v : Reg.DWORD (Reg.DWORD v) = Reg.DWORD v.
Proof. unfold Reg.DWORD. apply Zmod_mod. Qed.

Lemma reg_get_missing reg name def :
  match Reg.key reg with
  | Some values => values name = None
  | None => True
  end ->
  Reg.GetRegDWORD reg name def = wrap32 def.
Proof.
  unfold Reg.GetRegDWORD. destruct (Reg.key reg) as [values|].
  - intros ->. apply wrap32_DWORD.
  - intros _. apply wrap32_DWORD.
Qed.

Lemma reg_get_set_same reg name v def :
  Reg.writable reg = true ->
  Reg.GetRegDWORD (Reg.SetRegDWORD reg name v) name def = wrap32 v.
Proof.
  intros Hw. unfold Reg.GetRegDWORD, Reg.SetRegDWORD. rewrite Hw.
  cbn [Reg.key]. rewrite String.eqb_refl, DWORD_idem. apply wrap32_DWORD.
Qed.

Lemma reg_get_set_other reg name name' v def :
  String.eqb name' name = false ->
  Reg.GetRegDWORD (Reg.SetRegDWORD reg name v) name' def
  = Reg.GetRegDWORD reg name' def.
Proof.
  intros Hn. unfold Reg.GetRegDWORD, Reg.SetRegDWORD.
  destruct (Reg.writable reg); [|reflexivity].
  cbn [Reg.key]. rewrite Hn. destruct (Reg.key reg); reflexivity.
Qed.

Lemma reg_set_writable reg name v :
  Reg.writable (Reg.SetRegDWORD reg name v) = Reg.writable reg.
Proof.
  unfold Reg.SetRegDWORD. destruct (Reg.writable reg) eqn:E; [reflexivity|exact E].
Qed.

Lemma reg_set_readonly reg name v :
  Reg.writable reg = false -> Reg.SetRegDWORD reg name v = reg.
Proof. intros H. unfold Reg.SetRegDWORD. rewrite H. reflexivity. Qed.

Lemma byte_mod c : 0 <= c mod 256 < 256.
Proof. apply Z.mod_pos_bound. lia. Qed.

Lemma RGB_of_channels c :
  RGB (GetRValue c) (GetGValue c) (GetBValue c) = c mod 2 ^ 24.
Proof.
  unfold RGB, GetRValue, GetGValue, GetBValue.
  rewrite !Zmod_mod.
  change (2 ^ 24) with (256 * (256 * 256)).
  rewrite (Z.rem_mul_r c 256 (256 * 256)) by lia.
  rewrite (Z.rem_mul_r (c / 256) 256 256) by lia.
  rewrite Z.div_div by lia. change (256 * 256) with 65536. lia.
Qed.

Lemma RGB_byte_wrap r g b :
  RGB (wrap32 r) (wrap32 g) (wrap32 b) = RGB r g b.
Proof.
  assert (E : forall v, wrap32 v mod 256 = v mod 256).
  { intros v. unfold wrap32.
    rewrite Zminus_mod. change (2 ^ 31 mod 256) with 0. rewrite Z.sub_0_r, Zmod_mod.
    change (2 ^ 32) with (256 * 2 ^ 24).
    rewrite Z.rem_mul_r by lia.
    rewrite Z.mul_comm, Z_mod_plus_full, Zmod_mod.
    rewrite Zplus_mod. change (2 ^ 31 mod 256) with 0. rewrite Z.add_0_r, Zmod_mod.
    reflexivity. }
  unfold RGB. rewrite !E. reflexivity.
Qed.

(** X4.  Saving and loading the settings of the GDI variant is a round
    trip: after [SaveSettings] to a registry that can be written,
    [LoadSettings] in a later run yields exactly the saved star count and
    speed, whatever the registry held before and whatever the defaults of
    that run; the colour is not stored.  When the key cannot be written,
    the save changes nothing and a later load sees the old registry. *)
Theorem X4_gdi_settings_round_trip (reg : Reg.Registry) (cfg cfg0 : Gdi.Config) :
  - 2 ^ 31 <= Gdi.g_starCount cfg < 2 ^ 31 ->
  - 2 ^ 31 <= Gdi.g_speed cfg < 2 ^ 31 ->
  (Reg.writable reg = true ->
   GdiReg.LoadSettings (GdiReg.SaveSettings reg cfg) cfg0
   = {| Gdi.g_starCount := Gdi.g_starCount cfg; Gdi.g_speed := Gdi.g_speed cfg;
        Gdi.g_color := Gdi.g_color cfg0 |})
  /\ (Reg.writable reg = false ->
      GdiReg.LoadSettings (GdiReg.SaveSettings reg cfg) cfg0
      = GdiReg.LoadSettings reg cfg0).
Proof.
  intros Hc Hs. split; intros Hw.
  - unfold GdiReg.LoadSettings, GdiReg.SaveSettings. cbv zeta.
    rewrite (reg_get_set_other _ Reg.REG_SPEED Reg.REG_STARS) by reflexivity.
    rewrite !reg_get_set_same by (rewrite ?reg_set_writable; exact Hw).
    rewrite !wrap32_DWORD, !wrap32_id by assumption. reflexivity.
  - unfold GdiReg.SaveSettings. cbv zeta.
    rewrite !reg_set_readonly by (rewrite ?reg_set_readonly; exact Hw).
    reflexivity.
Qed.

Lemma X4_witness :
  GdiReg.LoadSettings (GdiReg.SaveSettings Reg.no_key gdi_cfg_fast) GdiReg.defaults
  = {| Gdi.g_starCount := 3; Gdi.g_speed := 100;
       Gdi.g_color := RGB 255 255 255 |}.
Proof.
  apply (X4_gdi_settings_round_trip Reg.no_key gdi_cfg_fast GdiReg.defaults);
    try reflexivity; vm_compute; split; (discriminate || reflexivity).
Defined.

(** X5.  Saving and loading the settings of the Direct2D variants is a
    round trip on star count, speed and twinkle, and on the low 24 bits of
    the colour, which is stored as three byte values: a COLORREF
    0x00bbggrr comes back unchanged. *)
Theorem X5_d2d_settings_round_trip (reg : Reg.Registry) (cfg cfg0 : D2D.Config) :
  Reg.writable reg = true ->
  - 2 ^ 31 <= D2D.g_starCount cfg < 2 ^ 31 ->
  - 2 ^ 31 <= D2D.g_speedPercent cfg < 2 ^ 31 ->
  - 2 ^ 31 <= D2D.g_twinklePercent cfg < 2 ^ 31 ->
  D2DReg.LoadSettings (D2DReg.SaveSettings reg cfg) cfg0
  = {| D2D.g_starCount := D2D.g_starCount cfg;
       D2D.g_speedPercent := D2D.g_speedPercent cfg;
       D2D.g_twinklePercent := D2D.g_twinklePercent cfg;
       D2D.g_color := D2D.g_color cfg mod 2 ^ 24 |}
  /\ (0 <= D2D.g_color cfg < 2 ^ 24 ->
      D2DReg.LoadSettings (D2DReg.SaveSettings reg cfg) cfg0 = cfg).
Proof.
  intros Hw Hc Hs Ht.
  assert (E : D2DReg.LoadSettings (D2DReg.SaveSettings reg cfg) cfg0
              = {| D2D.g_starCount := D2D.g_starCount cfg;
                   D2D.g_speedPercent := D2D.g_speedPercent cfg;
                   D2D.g_twinklePercent := D2D.g_twinklePercent cfg;
                   D2D.g_color := D2D.g_color cfg mod 2 ^ 24 |}).
  { unfold D2DReg.LoadSettings, D2DReg.SaveSettings. cbv zeta.
    repeat first
      [ rewrite reg_get_set_same by (rewrite ?reg_set_writable; exact Hw)
      | rewrite reg_get_set_other by reflexivity ].
    rewrite !wrap32_DWORD, RGB_byte_wrap, RGB_of_channels.
    rewrite !wrap32_id by assumption. reflexivity. }
  split; [exact E|].
  intros Hcol. rewrite E. rewrite Z.mod_small by exact Hcol.
  destruct cfg; reflexivity.
Qed.

Lemma X5_witness :
  D2DReg.LoadSettings (D2DReg.SaveSettings Reg.no_key d2d_cfg_custom) D2DReg.defaults
  = d2d_cfg_custom.
Proof.
  apply (X5_d2d_settings_round_trip Reg.no_key d2d_cfg_custom D2DReg.defaults);
    try reflexivity; vm_compute; split; (discriminate || reflexivity).
Defined.

(** X6.  Missing settings.  When the key does not exist, or exists
    without the values, [LoadSettings] leaves every setting at the value
    it had: the compiled-in defaults on a first run.  Value by value:
    only the settings whose value is present change. *)
Theorem X6_missing_settings_keep_values (reg : Reg.Registry)
    (gcfg : Gdi.Config) (dcfg : D2D.Config) :
  - 2 ^ 31 <= Gdi.g_starCount gcfg < 2 ^ 31 ->
  - 2 ^ 31 <= Gdi.g_speed gcfg < 2 ^ 31 ->
  - 2 ^ 31 <= D2D.g_starCount dcfg < 2 ^ 31 ->
  - 2 ^ 31 <= D2D.g_speedPercent dcfg < 2 ^ 31 ->
  - 2 ^ 31 <= D2D.g_twinklePercent dcfg < 2 ^ 31 ->
  0 <= D2D.g_color dcfg < 2 ^ 24 ->
  (forall name def,
      - 2 ^ 31 <= def < 2 ^ 31 ->
      match Reg.key reg with
      | Some values => values name = None
      | None => True
      end ->
      Reg.GetRegDWORD reg name def = def)
  /\ (match Reg.key reg with
      | Some values => forall name, values name = None
      | None => True
      end ->
      GdiReg.LoadSettings reg gcfg = gcfg
      /\ D2DReg.LoadSettings reg dcfg = dcfg).
Proof.
  intros G1 G2 D1 D2 D3 D4. split.
  - intros name def Hd Hm. rewrite reg_get_missing by exact Hm.
    apply wrap32_id. exact Hd.
  - intros Hm.
    assert (M : forall name,
               match Reg.key reg with
               | Some values => values name = None
               | None => True
               end).
    { intros name. destruct (Reg.key reg); [apply Hm | exact I]. }
    split.
    + unfold GdiReg.LoadSettings. cbv zeta.
      rewrite !reg_get_missing by apply M.
      rewrite !wrap32_id by assumption. destruct gcfg; reflexivity.
    + unfold D2DReg.LoadSettings. cbv zeta.
      rewrite !reg_get_missing by apply M.
      rewrite RGB_byte_wrap, RGB_of_channels.
      rewrite !wrap32_id by assumption.
      rewrite Z.mod_small by assumption. destruct dcfg; reflexivity.
Qed.

Lemma X6_witness :
  GdiReg.LoadSettings Reg.no_key GdiReg.defaults = GdiReg.defaults
  /\ D2DReg.LoadSettings Reg.no_key D2DReg.defaults = D2DReg.defaults.
Proof.
  apply (X6_missing_settings_keep_values Reg.no_key GdiReg.defaults D2DReg.defaults);
    try exact I; vm_compute; split; (discriminate || reflexivity).
Defined.

Lemma gdi_InitStars_count (L : Libc) cfg rw :
  0 <= Gdi.g_starCount cfg ->
  exists rw1, Gdi.InitStars cfg rw = Some rw1
              /\ length (Gdi.stars rw1) = Z.to_nat (Gdi.g_starCount cfg).
Proof.
  intros Hc. unfold Gdi.InitStars.
  destruct (Z.ltb_spec (Gdi.g_starCount cfg) 0); [lia|].
  match goal with
  | |- context [Gdi.init_loop ?n ?w ?h ?gs ?g0] =>
      destruct (gdi_init_loop_spec L (fun _ => True) w h gs n (fun _ => I) g0)
        as [Hl _];
      destruct (Gdi.init_loop n w h gs g0) as [ss g']
  end.
  eexists. split; [reflexivity|]. exact Hl.
Qed.

Lemma d2d_InitStars_count (L : Libc) cfg rw :
  0 <= D2D.g_starCount cfg ->
  exists rw1, D2D.InitStars cfg rw = Some rw1
              /\ length (D2D.stars rw1) = Z.to_nat (D2D.g_starCount cfg).
Proof.
  intros Hc. unfold D2D.InitStars.
  destruct (Z.ltb_spec (D2D.g_starCount cfg) 0); [lia|].
  match goal with
  | |- context [D2D.init_loop ?n ?w ?h ?g0] =>
      destruct (d2d_init_loop_spec L (fun _ => True) w h n (fun _ => I) g0)
        as [Hl _];
      destruct (D2D.init_loop n w h g0) as [ss g']
  end.
  eexists. split; [reflexivity|]. exact Hl.
Qed.

Lemma reg_get_present reg values name data def :
  Reg.key reg = Some values -> values name = Some data ->
  Reg.GetRegDWORD reg name def = wrap32 data.
Proof.
  intros Hk Hv. unfold Reg.GetRegDWORD. rewrite Hk, Hv. apply wrap32_DWORD.
Qed.

(** X7.  [LoadSettings] applies no range check.  Whatever DWORD the
    registry holds under StarCount becomes the star count, reinterpreted
    as an [int]: the limits of the settings dialog do not apply.  A value
    below 2^31 asks [InitStars] for that many stars; a value of 2^31 or
    more is a negative count, on which [InitStars] fails
    ([std::length_error] from [resize] or [reserve]). *)
Theorem X7_loaded_count_unchecked (L : Libc) (reg : Reg.Registry)
    (values : String.string -> option Z) (v : Z)
    (gcfg : Gdi.Config) (dcfg : D2D.Config)
    (grw : Gdi.RenderWindow) (drw : D2D.RenderWindow) :
  Reg.key reg = Some values ->
  values Reg.REG_STARS = Some v ->
  0 <= v < 2 ^ 32 ->
  Gdi.g_starCount (GdiReg.LoadSettings reg gcfg) = wrap32 v
  /\ D2D.g_starCount (D2DReg.LoadSettings reg dcfg) = wrap32 v
  /\ (2 ^ 31 <= v ->
      Gdi.InitStars (GdiReg.LoadSettings reg gcfg) grw = None
      /\ D2D.InitStars (D2DReg.LoadSettings reg dcfg) drw = None)
  /\ (v < 2 ^ 31 ->
      (exists grw1, Gdi.InitStars (GdiReg.LoadSettings reg gcfg) grw = Some grw1
                    /\ length (Gdi.stars grw1) = Z.to_nat v)
      /\ (exists drw1, D2D.InitStars (D2DReg.LoadSettings reg dcfg) drw = Some drw1
                       /\ length (D2D.stars drw1) = Z.to_nat v)).
Proof.
  intros Hk Hv Hr.
  assert (G : Gdi.g_starCount (GdiReg.LoadSettings reg gcfg) = wrap32 v).
  { unfold GdiReg.LoadSettings. cbv zeta. cbn [Gdi.g_starCount].
    apply (reg_get_present reg values); assumption. }
  assert (D : D2D.g_starCount (D2DReg.LoadSettings reg dcfg) = wrap32 v).
  { unfold D2DReg.LoadSettings. cbv zeta. cbn [D2D.g_starCount].
    apply (reg_get_present reg values); assumption. }
  split; [exact G|]. split; [exact D|]. split.
  - intros Hneg.
    assert (W : wrap32 v = v - 2 ^ 32).
    { unfold wrap32.
      replace (v + 2 ^ 31) with ((v - 2 ^ 31) + 1 * 2 ^ 32) by lia.
      rewrite Z_mod_plus_full, Z.mod_small by lia. lia. }
    split.
    + unfold Gdi.InitStars. rewrite G, W.
      destruct (Z.ltb_spec (v - 2 ^ 32) 0); [reflexivity|lia].
    + unfold D2D.InitStars. rewrite D, W.
      destruct (Z.ltb_spec (v - 2 ^ 32) 0); [reflexivity|lia].
  - intros Hpos.
    assert (W : wrap32 v = v) by (apply wrap32_id; lia).
    split.
    + destruct (gdi_InitStars_count L (GdiReg.LoadSettings reg gcfg) grw)
        as (rw1 & E & Hl); [rewrite G, W; lia|].
      exists rw1. split; [exact E|]. rewrite Hl, G, W. reflexivity.
    + destruct (d2d_InitStars_count L (D2DReg.LoadSettings reg dcfg) drw)
        as (rw1 & E & Hl); [rewrite D, W; lia|].
      exists rw1. split; [exact E|]. rewrite Hl, D, W. reflexivity.
Qed.

Lemma X7_witness :
  Gdi.g_starCount (GdiReg.LoadSettings (Reg.one_value Reg.REG_STARS 4294967295)
                                       GdiReg.defaults) = -1
  /\ @Gdi.InitStars test_libc
       (GdiReg.LoadSettings (Reg.one_value Reg.REG_STARS 4294967295) GdiReg.defaults)
       gdi_rw0 = None
  /\ @D2D.InitStars test_libc
       (D2DReg.LoadSettings (Reg.one_value Reg.REG_STARS 4294967295) D2DReg.defaults)
       d2d_rw0 = None.
Proof.
  destruct (X7_loaded_count_unchecked test_libc
              (Reg.one_value Reg.REG_STARS 4294967295)
              (fun n => if String.eqb n Reg.REG_STARS then Some 4294967295 else None)
              4294967295 GdiReg.defaults D2DReg.defaults gdi_rw0 d2d_rw0
              eq_refl eq_refl ltac:(lia)) as (A & _ & B & _).
  split; [exact A|]. apply B. lia.
Defined.

(** X8.  From the dialog to the next run.  What the OK button commits
    and [SaveSettings] writes is what [LoadSettings] finds at the next
    start, whatever that run's defaults: a star count in [10, 5000] and a
    speed in [10, 300] (and a twinkle in [0, 100] in the Direct2D
    variants), on which [InitStars] succeeds with exactly that many
    stars. *)
Theorem X8_dialog_save_load_init (L : Libc) (reg : Reg.Registry)
    (gcfg gcfg0 : Gdi.Config) (dcfg dcfg0 : D2D.Config)
    (stars_field speed_field tw_field : DlgInt) (sel : Z)
    (grw : Gdi.RenderWindow) (drw : D2D.RenderWindow) :
  Reg.writable reg = true ->
  - 2 ^ 31 <= Gdi.g_starCount gcfg < 2 ^ 31 ->
  - 2 ^ 31 <= Gdi.g_speed gcfg < 2 ^ 31 ->
  (let saved := Gdi.SettingsOK gcfg stars_field speed_field in
   let loaded := GdiReg.LoadSettings (GdiReg.SaveSettings reg saved) gcfg0 in
   Gdi.g_starCount loaded = Gdi.g_starCount saved
   /\ Gdi.g_speed loaded = Gdi.g_speed saved
   /\ 10 <= Gdi.g_starCount loaded <= 5000
   /\ 10 <= Gdi.g_speed loaded <= 300
   /\ exists rw1, Gdi.InitStars loaded grw = Some rw1
                  /\ length (Gdi.stars rw1) = Z.to_nat (Gdi.g_starCount loaded))
  /\ (let saved := D2D.SettingsOK dcfg stars_field speed_field tw_field sel in
      let loaded := D2DReg.LoadSettings (D2DReg.SaveSettings reg saved) dcfg0 in
      D2D.g_starCount loaded = D2D.g_starCount saved
      /\ D2D.g_speedPercent loaded = D2D.g_speedPercent saved
      /\ D2D.g_twinklePercent loaded = D2D.g_twinklePercent saved
      /\ 10 <= D2D.g_starCount loaded <= 5000
      /\ 10 <= D2D.g_speedPercent loaded <= 300
      /\ 0 <= D2D.g_twinklePercent loaded <= 100
      /\ exists rw1, D2D.InitStars loaded drw = Some rw1
                     /\ length (D2D.stars rw1) = Z.to_nat (D2D.g_starCount loaded)).
Proof.
  intros Hw Hc Hs. split.
  - cbv zeta.
    set (saved := Gdi.SettingsOK gcfg stars_field speed_field).
    assert (R : 10 <= Gdi.g_starCount saved <= 5000 /\ 10 <= Gdi.g_speed saved <= 300).
    { subst saved. unfold Gdi.SettingsOK. cbn [Gdi.g_starCount Gdi.g_speed].
      pose proof (read_field_range stars_field _ Hc) as R1.
      pose proof (read_field_range speed_field _ Hs) as R2.
      rewrite !clamp_fm_spec by (assumption || lia). lia. }
    destruct R as [R1 R2].
    assert (E : GdiReg.LoadSettings (GdiReg.SaveSettings reg saved) gcfg0
                = {| Gdi.g_starCount := Gdi.g_starCount saved;
                     Gdi.g_speed := Gdi.g_speed saved;
                     Gdi.g_color := Gdi.g_color gcfg0 |}).
    { unfold GdiReg.LoadSettings, GdiReg.SaveSettings. cbv zeta.
      rewrite (reg_get_set_other _ Reg.REG_SPEED Reg.REG_STARS) by reflexivity.
      rewrite !reg_get_set_same by (rewrite ?reg_set_writable; exact Hw).
      rewrite !wrap32_DWORD, !wrap32_id by lia. reflexivity. }
    rewrite E. cbn [Gdi.g_starCount Gdi.g_speed].
    split; [reflexivity|]. split; [reflexivity|].
    split; [exact R1|]. split; [exact R2|].
    destruct (gdi_InitStars_count L
                {| Gdi.g_starCount := Gdi.g_starCount saved;
                   Gdi.g_speed := Gdi.g_speed saved;
                   Gdi.g_color := Gdi.g_color gcfg0 |} grw) as (rw1 & E1 & Hl).
    + cbn [Gdi.g_starCount]. lia.
    + exists rw1. split; [exact E1 | exact Hl].
  - cbv zeta.
    set (saved := D2D.SettingsOK dcfg stars_field speed_field tw_field sel).
    assert (R : 10 <= D2D.g_starCount saved <= 5000
                /\ 10 <= D2D.g_speedPercent saved <= 300
                /\ 0 <= D2D.g_twinklePercent saved <= 100).
    { subst saved. unfold D2D.SettingsOK.
      cbn [D2D.g_starCount D2D.g_speedPercent D2D.g_twinklePercent]. lia. }
    destruct R as (R1 & R2 & R3).
    assert (E : D2DReg.LoadSettings (D2DReg.SaveSettings reg saved) dcfg0
                = {| D2D.g_starCount := D2D.g_starCount saved;
                     D2D.g_speedPercent := D2D.g_speedPercent saved;
                     D2D.g_twinklePercent := D2D.g_twinklePercent saved;
                     D2D.g_color := D2D.g_color saved mod 2 ^ 24 |}).
    { unfold D2DReg.LoadSettings, D2DReg.SaveSettings. cbv zeta.
      repeat first
        [ rewrite reg_get_set_same by (rewrite ?reg_set_writable; exact Hw)
        | rewrite reg_get_set_other by reflexivity ].
      rewrite !wrap32_DWORD, RGB_byte_wrap, RGB_of_channels.
      rewrite !wrap32_id by lia. reflexivity. }
    rewrite E. cbn [D2D.g_starCount D2D.g_speedPercent D2D.g_twinklePercent].
    split; [reflexivity|]. split; [reflexivity|]. split; [reflexivity|].
    split; [exact R1|]. split; [exact R2|]. split; [exact R3|].
    match goal with
    | |- exists rw1, D2D.InitStars ?c drw = _ /\ _ =>
        destruct (d2d_InitStars_count L c drw) as (rw1 & E1 & Hl)
    end.
    + cbn [D2D.g_starCount]. lia.
    + exists rw1. split; [exact E1 | exact Hl].
Qed.

Lemma X8_witness :
  let saved := Gdi.SettingsOK gdi_cfg0 tv_big_field tv_bad_field in
  let loaded := GdiReg.LoadSettings (GdiReg.SaveSettings Reg.no_key saved)
                                    GdiReg.defaults in
  Gdi.g_starCount loaded = 5000 /\ Gdi.g_speed loaded = 60.
Proof.
  destruct (X8_dialog_save_load_init test_libc Reg.no_key gdi_cfg0 GdiReg.defaults
              d2d_cfg0 D2DReg.defaults tv_big_field tv_bad_field tv_bad_field 2
              gdi_rw0 d2d_rw0 eq_refl) as [(A & B & _) _].
  - vm_compute. split; (discriminate || reflexivity).
  - vm_compute. split; (discriminate || reflexivity).
  - cbv zeta. split; [rewrite A | rewrite B]; vm_compute; reflexivity.
Defined.

(* ================================================================== *)
(** ** The settings dialog confirmed without an edit *)
(* ================================================================== *)

Lemma read_unedited v current :
  - 2 ^ 31 <= v < 2 ^ 31 -> read_field (unedited v) current = v.
Proof.
  intros H. unfold read_field, unedited. cbn [dlg_ok dlg_value].
  change (v mod 2 ^ 32) with (Reg.DWORD v).
  rewrite wrap32_DWORD. apply wrap32_id. exact H.
Qed.

Lemma preset_initdialog_sel c : D2D.preset (initdialog_sel c) c = c.
Proof.
  unfold initdialog_sel.
  destruct (Z.eqb_spec c (RGB 255 255 240)) as [->|]; [reflexivity|].
  destruct (Z.eqb_spec c (RGB 200 200 255)) as [->|]; [reflexivity|].
  destruct (Z.eqb_spec c (RGB 160 180 255)) as [->|]; [reflexivity|].
  destruct (Z.eqb_spec c (RGB 255 240 180)) as [->|]; reflexivity.
Qed.

(** X9.  Opening the settings window of the GDI variant and pressing OK
    without an edit commits the current values clamped: a configuration
    within the limits of the dialog is left exactly as it was, and one
    outside them, as [LoadSettings] can produce, is brought to the nearest
    limit (a negative value, shown as a large unsigned number, to the
    lower limit). *)
Theorem X9_gdi_ok_without_edit (cfg : Gdi.Config) :
  - 2 ^ 31 <= Gdi.g_starCount cfg < 2 ^ 31 ->
  - 2 ^ 31 <= Gdi.g_speed cfg < 2 ^ 31 ->
  Gdi.SettingsOK cfg (unedited (Gdi.g_starCount cfg)) (unedited (Gdi.g_speed cfg))
  = {| Gdi.g_starCount := Z.max 10 (Z.min 5000 (Gdi.g_starCount cfg));
       Gdi.g_speed := Z.max 10 (Z.min 300 (Gdi.g_speed cfg));
       Gdi.g_color := Gdi.g_color cfg |}
  /\ (10 <= Gdi.g_starCount cfg <= 5000 -> 10 <= Gdi.g_speed cfg <= 300 ->
      Gdi.SettingsOK cfg (unedited (Gdi.g_starCount cfg)) (unedited (Gdi.g_speed cfg))
      = cfg).
Proof.
  intros Hc Hs.
  assert (E : Gdi.SettingsOK cfg (unedited (Gdi.g_starCount cfg))
                             (unedited (Gdi.g_speed cfg))
              = {| Gdi.g_starCount := Z.max 10 (Z.min 5000 (Gdi.g_starCount cfg));
                   Gdi.g_speed := Z.max 10 (Z.min 300 (Gdi.g_speed cfg));
                   Gdi.g_color := Gdi.g_color cfg |}).
  { unfold Gdi.SettingsOK. rewrite !read_unedited by assumption.
    rewrite !clamp_fm_spec by (assumption || lia). reflexivity. }
  split; [exact E|].
  intros Rc Rs. rewrite E.
  rewrite (Z.min_r 5000), (Z.min_r 300), !Z.max_r by lia.
  destruct cfg; reflexivity.
Qed.

Lemma X9_witness :
  Gdi.SettingsOK GdiReg.defaults (unedited 600) (unedited 60) = GdiReg.defaults.
Proof.
  apply (X9_gdi_ok_without_edit GdiReg.defaults);
    vm_compute; split; (discriminate || reflexivity).
Defined.

(** X10.  In MyStarfield.cpp the dialog confirmed without an edit keeps
    the colour, whatever it is: a preset is selected in the list and
    committed again, and for any other colour nothing is selected
    ([CB_GETCURSEL] gives [CB_ERR]) and [g_color] stays.  A configuration
    within the limits is left exactly as it was. *)
Theorem X10_resource_dialog_ok_without_edit (cfg : D2D.Config)
    (stars_field speed_field tw_field : DlgInt) :
  D2D.g_color (D2D.SettingsOK cfg stars_field speed_field tw_field
                              (initdialog_sel (D2D.g_color cfg)))
  = D2D.g_color cfg
  /\ (10 <= D2D.g_starCount cfg <= 5000 ->
      10 <= D2D.g_speedPercent cfg <= 300 ->
      0 <= D2D.g_twinklePercent cfg <= 100 ->
      D2D.SettingsOK cfg (unedited (D2D.g_starCount cfg))
                     (unedited (D2D.g_speedPercent cfg))
                     (unedited (D2D.g_twinklePercent cfg))
                     (initdialog_sel (D2D.g_color cfg))
      = cfg).
Proof.
  split.
  - unfold D2D.SettingsOK. cbn [D2D.g_color]. apply preset_initdialog_sel.
  - intros Rc Rs Rt. unfold D2D.SettingsOK.
    rewrite !read_unedited by lia. rewrite preset_initdialog_sel.
    rewrite (Z.min_r 5000), (Z.min_r 300), (Z.min_r 100), !Z.max_r by lia.
    destruct cfg; reflexivity.
Qed.

Lemma X10_witness :
  D2D.SettingsOK d2d_cfg_custom (unedited 600) (unedited 60) (unedited 30)
                 (initdialog_sel tv_custom_color)
  = d2d_cfg_custom.
Proof.
  apply (X10_resource_dialog_ok_without_edit d2d_cfg_custom
           (unedited 600) (unedited 60) (unedited 30));
    vm_compute; split; discriminate.
Defined.

(** X11.  In the Direct2D Starfield.cpp the settings window preselects
    the first entry of the colour list when the colour is no preset
    ([int sel = 0]), so confirming it without an edit keeps a preset
    colour and replaces every other colour by the first preset,
    RGB(255, 255, 240). *)
Theorem X11_settings_window_ok_without_edit (cfg : D2D.Config)
    (stars_field speed_field tw_field : DlgInt) :
  let c := D2D.g_color (D2D.SettingsOK cfg stars_field speed_field tw_field
                                       (create_sel (D2D.g_color cfg))) in
  (In (D2D.g_color cfg)
      [RGB 255 255 240; RGB 200 200 255; RGB 160 180 255; RGB 255 240 180] ->
   c = D2D.g_color cfg)
  /\ (~ In (D2D.g_color cfg)
        [RGB 255 255 240; RGB 200 200 255; RGB 160 180 255; RGB 255 240 180] ->
      c = RGB 255 255 240).
Proof.
  cbv zeta. unfold D2D.SettingsOK. cbn [D2D.g_color]. unfold create_sel.
  split.
  - intros [<-|[<-|[<-|[<-|[]]]]]; reflexivity.
  - intros Hn.
    destruct (Z.eqb_spec (D2D.g_color cfg) (RGB 255 255 240)) as [E|_];
      [exfalso; apply Hn; rewrite E; simpl; auto|].
    destruct (Z.eqb_spec (D2D.g_color cfg) (RGB 200 200 255)) as [E|_];
      [exfalso; apply Hn; rewrite E; simpl; auto|].
    destruct (Z.eqb_spec (D2D.g_color cfg) (RGB 160 180 255)) as [E|_];
      [exfalso; apply Hn; rewrite E; simpl; auto|].
    destruct (Z.eqb_spec (D2D.g_color cfg) (RGB 255 240 180)) as [E|_];
      [exfalso; apply Hn; rewrite E; simpl; auto|].
    reflexivity.
Qed.

Lemma X11_witness :
  D2D.g_color (D2D.SettingsOK d2d_cfg_custom tv_bad_field tv_bad_field tv_bad_field
                              (create_sel (D2D.g_color d2d_cfg_custom)))
  = RGB 255 255 240.
Proof.
  apply (X11_settings_window_ok_without_edit d2d_cfg_custom
           tv_bad_field tv_bad_field tv_bad_field).
  vm_compute. intros [H|[H|[H|[H|[]]]]]; discriminate H.
Defined.

(* ================================================================== *)
(** ** The backbuffer of the GDI variant *)
(* ================================================================== *)

Lemma bb_filter_others (lost : list (Z * (Z * Z))) b :
  Forall (fun e => fst e <> b) lost ->
  filter (fun e => negb (fst e =? b)) lost = lost.
Proof.
  induction 1 as [|e l He _ IH]; simpl; [reflexivity|].
  destruct (Z.eqb_spec (fst e) b); [contradiction|]. simpl. rewrite IH. reflexivity.
Qed.

Lemma bb_release_inv k f h lost :
  bb_inv k f h lost ->
  exists f' h',
    Backbuffer.release f h = (f', h')
    /\ Backbuffer.backHdc f' = 0 /\ Backbuffer.backBmp f' = 0
    /\ Backbuffer.oldBackBmp f' = 0
    /\ Backbuffer.hwnd f' = Backbuffer.hwnd f /\ Backbuffer.rc f' = Backbuffer.rc f
    /\ Backbuffer.dcs h' = [] /\ Backbuffer.bitmaps h' = lost
    /\ Backbuffer.window_dcs h' = k
    /\ Backbuffer.next h' = Backbuffer.next h.
Proof.
  intros (Hw & Hn & Hl & [(A & B & C & D & E)|(sz & A & B & C & D & E & G)]).
  - exists f, h. unfold Backbuffer.release. rewrite A.
    cbn [Z.eqb negb Backbuffer.NULL]. repeat split; assumption.
  - unfold Backbuffer.release.
    destruct (Z.eqb_spec (Backbuffer.backHdc f) Backbuffer.NULL) as [Z0|_];
      [unfold Backbuffer.NULL in Z0; lia|].
    cbn [negb]. unfold Backbuffer.SelectObject. rewrite D.
    cbn [find fst]. rewrite Z.eqb_refl. cbn [map fst]. rewrite Z.eqb_refl.
    unfold Backbuffer.DeleteObject. cbn [Backbuffer.dcs existsb snd].
    rewrite C.
    destruct (Z.eqb_spec Backbuffer.DEFAULT_BITMAP (Backbuffer.backBmp f)) as [Z1|_];
      [unfold Backbuffer.DEFAULT_BITMAP in Z1; lia|].
    cbn [orb]. unfold Backbuffer.DeleteDC.
    cbn [Backbuffer.dcs Backbuffer.bitmaps Backbuffer.window_dcs Backbuffer.next
         filter fst].
    rewrite Z.eqb_refl. cbn [negb]. rewrite E. cbn [filter fst].
    rewrite Z.eqb_refl. cbn [negb]. rewrite bb_filter_others by exact G.
    eexists _, _. split; [reflexivity|].
    cbn [Backbuffer.dcs Backbuffer.bitmaps Backbuffer.window_dcs Backbuffer.next
         Backbuffer.backHdc Backbuffer.backBmp Backbuffer.oldBackBmp
         Backbuffer.hwnd Backbuffer.rc].
    repeat split; (reflexivity || assumption).
Qed.

Lemma bb_forall_lt (lost : list (Z * (Z * Z))) n m :
  n <= m -> Forall (fun e => 2 <= fst e < n) lost ->
  Forall (fun e => 2 <= fst e < m) lost.
Proof.
  intros H F. eapply Forall_impl; [|exact F]. cbv beta. intros e He. lia.
Qed.

Lemma bb_forall_ne (lost : list (Z * (Z * Z))) n b :
  n <= b -> Forall (fun e => 2 <= fst e < n) lost ->
  Forall (fun e => fst e <> b) lost.
Proof.
  intros H F. eapply Forall_impl; [|exact F]. cbv beta. intros e He. lia.
Qed.

Lemma bb_inv_GetDC k f h lost :
  bb_inv k f h lost -> bb_inv (k + 1) f (Backbuffer.GetDC h) lost.
Proof.
  intros (Hw & R). split; [cbn [Backbuffer.GetDC Backbuffer.window_dcs]; lia|exact R].
Qed.

(** One [CreateBackbuffer]. *)
Lemma bb_create_spec o f h lost :
  Backbuffer.hwnd f <> 0 ->
  bb_inv 0 f h lost ->
  exists ok f' h' lost',
    Backbuffer.CreateBackbuffer o f h = (ok, f', h')
    /\ Backbuffer.hwnd f' = Backbuffer.hwnd f
    /\ Backbuffer.rc f' = Backbuffer.rc f
    /\ (ok = true <->
        Backbuffer.GetDC_ok o = true /\ Backbuffer.CreateCompatibleDC_ok o = true
        /\ Backbuffer.CreateCompatibleBitmap_ok o = true)
    /\ (ok = true -> Backbuffer.backHdc f' <> 0)
    /\ (ok = false -> Backbuffer.GetDC_ok o = true -> Backbuffer.backHdc f' = 0)
    /\ (Backbuffer.GetDC_ok o = false -> f' = f /\ h' = h)
    /\ bb_inv 0 f' h' lost'
    /\ length lost' = (length lost
                       + (if Backbuffer.forgets_bitmap o then 1 else 0))%nat.
Proof.
  intros Hh Hinv.
  unfold Backbuffer.CreateBackbuffer.
  destruct (Z.eqb_spec (Backbuffer.hwnd f) Backbuffer.NULL) as [Z0|_];
    [contradiction|].
  unfold Backbuffer.forgets_bitmap.
  destruct (Backbuffer.GetDC_ok o) eqn:Og; cbn [negb andb].
  2:{ exists false, f, h, lost. split; [reflexivity|].
      split; [reflexivity|]. split; [reflexivity|].
      split; [split; [discriminate | intros (X & _); discriminate X]|].
      split; [discriminate|]. split; [discriminate|]. split; [auto|].
      split; [exact Hinv|lia]. }
  destruct (bb_release_inv 1 f (Backbuffer.GetDC h) lost
              (bb_inv_GetDC 0 f h lost Hinv))
    as (f1 & h1 & -> & F1 & F2 & F3 & F4 & F5 & H1 & H2 & H3 & H4).
  cbn [Backbuffer.GetDC Backbuffer.next] in H4.
  destruct Hinv as (_ & Hn & Hl & _).
  unfold Backbuffer.CreateCompatibleDC, Backbuffer.CreateCompatibleBitmap.
  destruct (Backbuffer.CreateCompatibleDC_ok o) eqn:Od;
    destruct (Backbuffer.CreateCompatibleBitmap_ok o) eqn:Om;
    cbn [Backbuffer.dcs Backbuffer.bitmaps Backbuffer.window_dcs Backbuffer.next
         negb andb].
  - (* both objects made *)
    destruct (Z.eqb_spec (Backbuffer.next h1) Backbuffer.NULL) as [Z1|_];
      [unfold Backbuffer.NULL in Z1; lia|].
    destruct (Z.eqb_spec (Backbuffer.next h1 + 1) Backbuffer.NULL) as [Z2|_];
      [unfold Backbuffer.NULL in Z2; lia|].
    cbn [orb]. unfold Backbuffer.SelectObject.
    cbn [Backbuffer.dcs find fst]. rewrite Z.eqb_refl.
    cbn [map fst Backbuffer.bitmaps Backbuffer.window_dcs Backbuffer.next].
    rewrite Z.eqb_refl. unfold Backbuffer.ReleaseDC.
    cbn [Backbuffer.dcs Backbuffer.bitmaps Backbuffer.window_dcs Backbuffer.next].
    eexists true, _, _, lost. split; [reflexivity|].
    cbn [Backbuffer.hwnd Backbuffer.rc Backbuffer.backHdc].
    split; [exact F4|]. split; [exact F5|].
    split; [split; auto|].
    split; [intros _; lia|]. split; [discriminate|]. split; [discriminate|].
    split; [|lia].
    split; [cbn [Backbuffer.window_dcs]; lia|].
    split; [cbn [Backbuffer.next]; lia|].
    split; [cbn [Backbuffer.next];
            apply (bb_forall_lt lost (Backbuffer.next h)); [lia|exact Hl]|].
    right. eexists.
    cbn [Backbuffer.backHdc Backbuffer.backBmp Backbuffer.oldBackBmp
         Backbuffer.dcs Backbuffer.bitmaps Backbuffer.next].
    rewrite H1, H2.
    split; [lia|]. split; [lia|]. split; [reflexivity|].
    split; [reflexivity|]. split; [reflexivity|].
    apply (bb_forall_ne lost (Backbuffer.next h)); [lia|exact Hl].
  - (* the DC is made, the bitmap is not: the DC is deleted *)
    destruct (Z.eqb_spec (Backbuffer.next h1) Backbuffer.NULL) as [Z1|_];
      [unfold Backbuffer.NULL in Z1; lia|].
    cbn [orb Z.eqb Backbuffer.NULL negb].
    unfold Backbuffer.DeleteDC, Backbuffer.ReleaseDC.
    cbn [Backbuffer.dcs Backbuffer.bitmaps Backbuffer.window_dcs Backbuffer.next
         filter fst].
    rewrite Z.eqb_refl. cbn [negb].
    eexists false, f1, _, lost. split; [reflexivity|].
    split; [exact F4|]. split; [exact F5|].
    split; [split; [discriminate | intros (_ & _ & X); discriminate X]|].
    split; [discriminate|]. split; [auto|]. split; [discriminate|].
    split; [|lia].
    split; [cbn [Backbuffer.window_dcs]; lia|].
    split; [cbn [Backbuffer.next]; lia|].
    split; [cbn [Backbuffer.next];
            apply (bb_forall_lt lost (Backbuffer.next h)); [lia|exact Hl]|].
    left. cbn [Backbuffer.dcs Backbuffer.bitmaps]. rewrite H1, H2.
    repeat split; auto.
  - (* the DC is not made, the bitmap is: nothing deletes it *)
    cbn [Z.eqb Backbuffer.NULL orb negb].
    unfold Backbuffer.ReleaseDC.
    cbn [Backbuffer.dcs Backbuffer.bitmaps Backbuffer.window_dcs Backbuffer.next].
    eexists false, f1, _, ((Backbuffer.next h1, _) :: lost).
    split; [reflexivity|].
    split; [exact F4|]. split; [exact F5|].
    split; [split; [discriminate | intros (_ & X & _); discriminate X]|].
    split; [discriminate|]. split; [auto|]. split; [discriminate|].
    split; [|cbn [length]; lia].
    split; [cbn [Backbuffer.window_dcs]; lia|].
    split; [cbn [Backbuffer.next]; lia|].
    split.
    + cbn [Backbuffer.next]. constructor; [cbn [fst]; lia|].
      apply (bb_forall_lt lost (Backbuffer.next h)); [lia|exact Hl].
    + left. cbn [Backbuffer.dcs Backbuffer.bitmaps]. rewrite H2.
      repeat split; auto.
  - (* neither is made *)
    cbn [Z.eqb Backbuffer.NULL orb negb].
    unfold Backbuffer.ReleaseDC.
    cbn [Backbuffer.dcs Backbuffer.bitmaps Backbuffer.window_dcs Backbuffer.next].
    eexists false, f1, _, lost. split; [reflexivity|].
    split; [exact F4|]. split; [exact F5|].
    split; [split; [discriminate | intros (_ & X & _); discriminate X]|].
    split; [discriminate|]. split; [auto|]. split; [discriminate|].
    split; [|lia].
    split; [cbn [Backbuffer.window_dcs]; lia|].
    split; [cbn [Backbuffer.next]; lia|]. split; [rewrite H4; exact Hl|].
    left. cbn [Backbuffer.dcs Backbuffer.bitmaps]. repeat split; auto.
Qed.

Lemma bb_inv_set_rc k f h lost r :
  bb_inv k f h lost ->
  bb_inv k {| Backbuffer.hwnd := Backbuffer.hwnd f;
              Backbuffer.backHdc := Backbuffer.backHdc f;
              Backbuffer.backBmp := Backbuffer.backBmp f;
              Backbuffer.oldBackBmp := Backbuffer.oldBackBmp f;
              Backbuffer.rc := r |} h lost.
Proof. intros H. exact H. Qed.

Lemma bb_inv_released k f h lost :
  Backbuffer.backHdc f = 0 -> Backbuffer.backBmp f = 0 ->
  Backbuffer.oldBackBmp f = 0 ->
  Backbuffer.dcs h = [] -> Backbuffer.bitmaps h = lost ->
  Backbuffer.window_dcs h = k -> 2 <= Backbuffer.next h ->
  Forall (fun e => 2 <= fst e < Backbuffer.next h) lost ->
  bb_inv k f h lost.
Proof.
  intros. split; [assumption|]. split; [assumption|]. split; [assumption|].
  left. auto.
Qed.

(** One call of the life of a window keeps the invariant and forgets at
    most one bitmap. *)
Lemma bb_call_spec c f h lost :
  Backbuffer.hwnd f <> 0 ->
  bb_inv 0 f h lost ->
  exists f' h' lost',
    Backbuffer.call c (f, h) = (f', h')
    /\ Backbuffer.hwnd f' = Backbuffer.hwnd f
    /\ bb_inv 0 f' h' lost'
    /\ length lost' = (length lost
                       + (if Backbuffer.call_forgets c then 1 else 0))%nat
    /\ (c = Backbuffer.Destroy -> Backbuffer.backHdc f' = 0).
Proof.
  intros Hh Hinv. destruct c as [o|r o|]; cbn [Backbuffer.call Backbuffer.call_forgets].
  - destruct (bb_create_spec o f h lost Hh Hinv)
      as (ok & f' & h' & lost' & E & Hw & _ & _ & _ & _ & _ & I' & Hl).
    rewrite E. exists f', h', lost'.
    split; [reflexivity|]. split; [exact Hw|]. split; [exact I'|].
    split; [exact Hl|discriminate].
  - unfold Backbuffer.DestroyBackbuffer.
    pose proof (bb_inv_set_rc 0 f h lost r Hinv) as Hinv1.
    destruct (bb_release_inv 0 _ h lost Hinv1)
      as (f1 & h1 & -> & F1 & F2 & F3 & F4 & F5 & H1 & H2 & H3 & H4).
    cbn [Backbuffer.hwnd] in F4.
    assert (I1 : bb_inv 0 f1 h1 lost).
    { destruct Hinv as (_ & Hn & Hl & _).
      apply bb_inv_released; auto; rewrite H4; assumption. }
    destruct (bb_create_spec o f1 h1 lost ltac:(rewrite F4; exact Hh) I1)
      as (ok & f' & h' & lost' & E & Hw & _ & _ & _ & _ & _ & I' & Hl).
    rewrite E. exists f', h', lost'.
    split; [reflexivity|]. split; [rewrite Hw; exact F4|]. split; [exact I'|].
    split; [exact Hl|discriminate].
  - unfold Backbuffer.DestroyBackbuffer.
    destruct (bb_release_inv 0 f h lost Hinv)
      as (f1 & h1 & -> & F1 & F2 & F3 & F4 & F5 & H1 & H2 & H3 & H4).
    exists f1, h1, lost. split; [reflexivity|]. split; [exact F4|].
    split.
    + destruct Hinv as (_ & Hn & Hl & _).
      apply bb_inv_released; auto; rewrite H4; assumption.
    + split; [lia|]. intros _. exact F1.
Qed.

Lemma bb_calls_spec cs :
  forall f h lost,
    Backbuffer.hwnd f <> 0 ->
    bb_inv 0 f h lost ->
    exists f' h' lost',
      Backbuffer.calls cs (f, h) = (f', h')
      /\ Backbuffer.hwnd f' = Backbuffer.hwnd f
      /\ bb_inv 0 f' h' lost'
      /\ length lost'
         = (length lost + length (filter Backbuffer.call_forgets cs))%nat.
Proof.
  induction cs as [|c cs IH]; intros f h lost Hh Hinv.
  - exists f, h, lost. cbn. split; [reflexivity|]. split; [reflexivity|].
    split; [exact Hinv|lia].
  - destruct (bb_call_spec c f h lost Hh Hinv)
      as (f1 & h1 & lost1 & E1 & Hw1 & I1 & L1 & _).
    destruct (IH f1 h1 lost1 ltac:(rewrite Hw1; exact Hh) I1)
      as (f2 & h2 & lost2 & E2 & Hw2 & I2 & L2).
    exists f2, h2, lost2. unfold Backbuffer.calls in *. cbn [fold_left].
    rewrite E1, E2. split; [reflexivity|]. split; [congruence|].
    split; [exact I2|]. rewrite L2, L1. cbn [filter].
    destruct (Backbuffer.call_forgets c); cbn [length]; lia.
Qed.

Lemma bb_fresh_inv hw r :
  bb_inv 0 (fst (Backbuffer.fresh_window hw r)) (snd (Backbuffer.fresh_window hw r)) [].
Proof.
  unfold bb_inv, Backbuffer.fresh_window.
  cbn [fst snd Backbuffer.window_dcs Backbuffer.next Backbuffer.backHdc
       Backbuffer.backBmp Backbuffer.oldBackBmp Backbuffer.dcs Backbuffer.bitmaps].
  split; [reflexivity|]. split; [lia|]. split; [constructor|].
  left. repeat split; reflexivity.
Qed.

Lemma bb_inv_facts f h lost :
  bb_inv 0 f h lost ->
  Backbuffer.window_dcs h = 0
  /\ Backbuffer.dcs h
     = (if Backbuffer.backHdc f =? Backbuffer.NULL then []
        else [(Backbuffer.backHdc f, Backbuffer.backBmp f)])
  /\ length (Backbuffer.bitmaps h)
     = ((if (Backbuffer.backHdc f =? Backbuffer.NULL)%Z then 0 else 1) + length lost)%nat
  /\ (Backbuffer.backHdc f <> Backbuffer.NULL ->
      In (Backbuffer.backBmp f) (map fst (Backbuffer.bitmaps h))).
Proof.
  intros (Hw & Hn & Hl & [(A & B & C & D & E)|(sz & A & B & C & D & E & G)]).
  - rewrite A, D, E. cbn [Z.eqb Backbuffer.NULL].
    split; [exact Hw|]. split; [reflexivity|]. split; [reflexivity|].
    unfold Backbuffer.NULL. intros X. contradiction.
  - destruct (Z.eqb_spec (Backbuffer.backHdc f) Backbuffer.NULL) as [Z0|_];
      [unfold Backbuffer.NULL in Z0; lia|].
    rewrite D, E. split; [exact Hw|]. split; [reflexivity|].
    split; [reflexivity|]. intros _. cbn [map fst In]. left. reflexivity.
Qed.

(** X12.  The GDI objects of the backbuffer are accounted for.  After any
    sequence of [CreateBackbuffer], resize ([DestroyBackbuffer] then
    [CreateBackbuffer], as [WM_SIZE] does) and [DestroyBackbuffer] on a
    window, whichever of [GetDC], [CreateCompatibleDC] and
    [CreateCompatibleBitmap] fail along the way: every window DC obtained
    has been released; the only memory DC alive is the backbuffer, with
    the backbuffer bitmap selected; and the bitmaps alive are the
    backbuffer bitmap and one bitmap for every call in which the memory
    DC could not be made while the bitmap could: that bitmap is never
    deleted.  After [DestroyBackbuffer] there is no backbuffer. *)
Theorem X12_backbuffer_objects_accounted (hw : Z) (r : RECT)
    (cs : list Backbuffer.Call) :
  hw <> 0 ->
  let '(f, h) := Backbuffer.calls cs (Backbuffer.fresh_window hw r) in
  Backbuffer.window_dcs h = 0
  /\ Backbuffer.dcs h
     = (if Backbuffer.backHdc f =? Backbuffer.NULL then []
        else [(Backbuffer.backHdc f, Backbuffer.backBmp f)])
  /\ length (Backbuffer.bitmaps h)
     = ((if (Backbuffer.backHdc f =? Backbuffer.NULL)%Z then 0 else 1)
        + length (filter Backbuffer.call_forgets cs))%nat
  /\ (Backbuffer.backHdc f <> Backbuffer.NULL ->
      In (Backbuffer.backBmp f) (map fst (Backbuffer.bitmaps h)))
  /\ (forall cs', cs = cs' ++ [Backbuffer.Destroy] ->
      Backbuffer.backHdc f = Backbuffer.NULL).
Proof.
  intros Hh.
  destruct (bb_calls_spec cs (fst (Backbuffer.fresh_window hw r))
              (snd (Backbuffer.fresh_window hw r)) [] Hh (bb_fresh_inv hw r))
    as (f & h & lost & E & Hw & Hinv & Hl).
  change (fst (Backbuffer.fresh_window hw r), snd (Backbuffer.fresh_window hw r))
    with (Backbuffer.fresh_window hw r) in E.
  rewrite E.
  destruct (bb_inv_facts f h lost Hinv) as (A & B & C & D).
  split; [exact A|]. split; [exact B|]. split; [rewrite C, Hl; reflexivity|].
  split; [exact D|].
  intros cs' ->. unfold Backbuffer.calls in E. rewrite fold_left_app in E.
  cbn [fold_left] in E.
  destruct (bb_calls_spec cs' (fst (Backbuffer.fresh_window hw r))
              (snd (Backbuffer.fresh_window hw r)) [] Hh (bb_fresh_inv hw r))
    as (f1 & h1 & lost1 & E1 & Hw1 & Hinv1 & _).
  change (fst (Backbuffer.fresh_window hw r), snd (Backbuffer.fresh_window hw r))
    with (Backbuffer.fresh_window hw r) in E1.
  unfold Backbuffer.calls in E1. rewrite E1 in E.
  destruct (bb_call_spec Backbuffer.Destroy f1 h1 lost1
              ltac:(rewrite Hw1; exact Hh) Hinv1)
    as (f2 & h2 & lost2 & E2 & _ & _ & _ & Hd).
  rewrite E2 in E. injection E as <- <-. apply Hd. reflexivity.
Qed.

Lemma X12_witness :
  let '(f, h) :=
    Backbuffer.calls [Backbuffer.Create Backbuffer.all_ok;
                      Backbuffer.Resize tv_rect Backbuffer.dc_fails;
                      Backbuffer.Create Backbuffer.all_ok;
                      Backbuffer.Destroy]
                     (Backbuffer.fresh_window 7 tv_rect) in
  Backbuffer.window_dcs h = 0
  /\ Backbuffer.dcs h = []
  /\ length (Backbuffer.bitmaps h) = 1%nat.
Proof.
  pose proof (X12_backbuffer_objects_accounted 7 tv_rect
                [Backbuffer.Create Backbuffer.all_ok;
                 Backbuffer.Resize tv_rect Backbuffer.dc_fails;
                 Backbuffer.Create Backbuffer.all_ok;
                 Backbuffer.Destroy] ltac:(discriminate)) as H.
  destruct (Backbuffer.calls _ _) as [f h].
  destruct H as (A & B & C & _ & D).
  rewrite (D [Backbuffer.Create Backbuffer.all_ok;
              Backbuffer.Resize tv_rect Backbuffer.dc_fails;
              Backbuffer.Create Backbuffer.all_ok] eq_refl) in B, C.
  split; [exact A|]. split; [exact B|exact C].
Defined.

(** X13.  [CreateBackbuffer] returns true exactly when the window DC, the
    memory DC and the bitmap are all obtained.  When it returns false
    after [GetDC] succeeded the window has no backbuffer, also where it
    had one before the call (the old one is released first), and
    [RenderFrame] then returns at once: no star moves, no random number
    is drawn, nothing is drawn, for as many frames as follow. *)
Theorem X13_failed_backbuffer_freezes (L : Libc) (cfg : Gdi.Config)
    (hw : Z) (r : RECT) (cs : list Backbuffer.Call) (o : Backbuffer.Outcome)
    (ss : list Gdi.Star) (g : mt19937) (frames : list (float * float)) :
  hw <> 0 ->
  let '(f, h) := Backbuffer.calls cs (Backbuffer.fresh_window hw r) in
  let '(ok, f', _) := Backbuffer.CreateBackbuffer o f h in
  (ok = true <->
   Backbuffer.GetDC_ok o = true /\ Backbuffer.CreateCompatibleDC_ok o = true
   /\ Backbuffer.CreateCompatibleBitmap_ok o = true)
  /\ (ok = true -> Backbuffer.backHdc f' <> Backbuffer.NULL)
  /\ (ok = false -> Backbuffer.GetDC_ok o = true ->
      Backbuffer.backHdc f' = Backbuffer.NULL
      /\ (forall dt total,
             Gdi.RenderFrame cfg (gdi_window f' ss g) dt total
             = Some (gdi_window f' ss g, []))
      /\ Gdi.run_frames cfg (gdi_window f' ss g) frames
         = Some (gdi_window f' ss g)).
Proof.
  intros Hh.
  destruct (bb_calls_spec cs (fst (Backbuffer.fresh_window hw r))
              (snd (Backbuffer.fresh_window hw r)) [] Hh (bb_fresh_inv hw r))
    as (f & h & lost & E & Hw & Hinv & _).
  change (fst (Backbuffer.fresh_window hw r), snd (Backbuffer.fresh_window hw r))
    with (Backbuffer.fresh_window hw r) in E.
  rewrite E.
  destruct (bb_create_spec o f h lost ltac:(rewrite Hw; exact Hh) Hinv)
    as (ok & f' & h' & lost' & E' & _ & _ & Hok & Ht & Hf & _).
  rewrite E'. split; [exact Hok|]. split; [exact Ht|].
  intros Eok Og. specialize (Hf Eok Og).
  split; [exact Hf|].
  assert (R : forall dt total,
             Gdi.RenderFrame cfg (gdi_window f' ss g) dt total
             = Some (gdi_window f' ss g, [])).
  { intros dt total. unfold Gdi.RenderFrame, gdi_window.
    cbn [Gdi.backHdc]. rewrite Hf. reflexivity. }
  split; [exact R|].
  induction frames as [|[dt total] rest IH]; cbn [Gdi.run_frames].
  - reflexivity.
  - rewrite R. exact IH.
Qed.

Lemma X13_witness :
  let '(f, h) := Backbuffer.calls [Backbuffer.Create Backbuffer.all_ok]
                                  (Backbuffer.fresh_window 7 tv_rect) in
  let '(ok, f', _) := Backbuffer.CreateBackbuffer Backbuffer.dc_fails f h in
  ok = false
  /\ Backbuffer.backHdc f <> Backbuffer.NULL
  /\ @Gdi.run_frames test_libc gdi_cfg0 (gdi_window f' [gdi_low_star] (const_rng 0))
                     tv_frames
     = Some (gdi_window f' [gdi_low_star] (const_rng 0)).
Proof.
  pose proof (X13_failed_backbuffer_freezes test_libc gdi_cfg0 7 tv_rect
                [Backbuffer.Create Backbuffer.all_ok] Backbuffer.dc_fails
                [gdi_low_star] (const_rng 0) tv_frames ltac:(discriminate)) as H.
  destruct (Backbuffer.calls _ _) as [f h] eqn:E.
  assert (Hb : Backbuffer.backHdc f <> Backbuffer.NULL).
  { vm_compute in E. injection E as <- <-. discriminate. }
  destruct (Backbuffer.CreateBackbuffer Backbuffer.dc_fails f h) as [[ok f'] h'] eqn:E'.
  destruct H as (A & _ & C).
  assert (Eok : ok = false).
  { destruct ok; [|reflexivity].
    destruct (proj1 A eq_refl) as (_ & X & _). discriminate X. }
  split; [exact Eok|]. split; [exact Hb|].
  apply (C Eok eq_refl).
Defined.

(* ================================================================== *)
(** ** The clock of the render loops *)
(* ================================================================== *)

Section Representable.
Context {F : Format}.

(** The result of a rounding is a number of the format: rounding it again
    changes nothing. *)
Lemma rnd_idem N D k : 0 < D -> rnd N D = Fin k -> (rnd k 1 : fp F) = Fin k.
Proof.
  intros HD E. pose proof prec_pos as Hp. unfold rnd in E.
  destruct (Z.leb_spec (2 ^ etop) (round_mag (Z.abs N) D)) as [|Hfin];
    [discriminate|].
  injection E as <-.
  unfold round_mag in *.
  pose proof (ulp_exp_nonneg (Z.abs N) D) as Hs.
  pose proof (ulp_exp_upper (Z.abs N) D ltac:(lia) HD) as U.
  set (s := ulp_exp (Z.abs N) D) in *.
  assert (Ps : 0 < 2 ^ s) by (apply Z.pow_pos_nonneg; lia).
  assert (Pp : 0 < 2 ^ prec) by (apply Z.pow_pos_nonneg; lia).
  set (q := rne_div (Z.abs N) (D * 2 ^ s)) in *.
  assert (Hq0 : 0 <= q) by (apply (rne_div_ge 0); nia).
  assert (Hq : q <= 2 ^ prec).
  { apply rne_div_le; [nia|]. rewrite Z.pow_add_r in U by lia. nia. }
  assert (Sg : Z.sgn N = -1 \/ Z.sgn N = 0 \/ Z.sgn N = 1) by lia.
  destruct (Z.eq_dec q (2 ^ prec)) as [Eq|Nq].
  - replace (Z.sgn N * (q * 2 ^ s)) with ((Z.sgn N * 2 ^ (prec - 1)) * 2 ^ (s + 1)).
    + assert (Pp1 : 0 < 2 ^ (prec - 1)) by (apply Z.pow_pos_nonneg; lia).
      assert (Lt : 2 ^ (prec - 1) < 2 ^ prec) by (apply Z.pow_lt_mono_r; lia).
      apply rnd_exact; [lia| |].
      * rewrite Z.abs_mul, (Z.abs_eq (2 ^ (prec - 1))) by lia.
        destruct Sg as [-> | [-> | ->]]; simpl Z.abs; lia.
      * rewrite Z.abs_mul, (Z.abs_eq (2 ^ (prec - 1))) by lia.
        assert (2 ^ (prec - 1) * 2 ^ (s + 1) = q * 2 ^ s).
        { rewrite Eq, <- !Z.pow_add_r by lia. f_equal. lia. }
        destruct Sg as [-> | [-> | ->]]; simpl Z.abs; nia.
    + rewrite Eq, <- !Z.mul_assoc, <- !Z.pow_add_r by lia.
      do 2 f_equal. lia.
  - rewrite Z.mul_assoc. apply rnd_exact; [lia| |].
    + rewrite Z.abs_mul, (Z.abs_eq q) by lia.
      destruct Sg as [-> | [-> | ->]]; simpl Z.abs; lia.
    + rewrite Z.abs_mul, (Z.abs_eq q) by lia.
      destruct Sg as [-> | [-> | ->]]; simpl Z.abs; nia.
Qed.

(** Adding a non-negative amount never lowers a number of the format. *)
Lemma fadd_nonneg_ge t (x : fp F) :
  rnd t 1 = Fin t -> nonneg x -> fle (Fin t : fp F) (fadd (Fin t) x) = true.
Proof.
  intros Et Hx. destruct x as [|s|k]; cbn [nonneg fadd] in *; try contradiction.
  - subst s. reflexivity.
  - pose proof (rnd_mono (F := F) t 1 (t + k) 1 ltac:(lia) ltac:(lia) ltac:(lia)) as M.
    rewrite Et in M. exact M.
Qed.

End Representable.

Lemma to_float_mono (x y : double) :
  is_nan x = false -> is_nan y = false ->
  fle x y = true -> fle (to_float x) (to_float y) = true.
Proof.
  intros Hx Hy H.
  assert (P : 0 < 2 ^ (1074 - 149)) by (vm_compute; reflexivity).
  destruct x as [|a|a]; destruct y as [|b|b]; cbn [is_nan fle to_float] in *;
    try discriminate; try exact H.
  - pose proof (rnd_is_nan (F := binary32) b (2 ^ (1074 - 149))) as N.
    destruct (rnd b (2 ^ (1074 - 149)) : float) as [|s|k]; cbn [is_nan fle] in *;
      [discriminate | rewrite H; reflexivity | exact H].
  - pose proof (rnd_is_nan (F := binary32) a (2 ^ (1074 - 149))) as N.
    destruct (rnd a (2 ^ (1074 - 149)) : float) as [|s|k]; cbn [is_nan fle] in *;
      [discriminate | rewrite H; apply orb_true_r | exact H].
  - apply rnd_mono; try exact P. apply Z.leb_le in H.
    apply Z.mul_le_mono_nonneg_r; lia.
Qed.

(** The [dt] of one pass: a double within [0, 2^63] and a float within
    [0, 2^63]. *)
Lemma clock_dt_range freq last now :
  0 < freq < 2 ^ 63 -> 0 <= last -> last <= now < 2 ^ 63 ->
  within 0 (2 ^ 63 * 2 ^ 1074)
         (fdiv (of_int (now - last)) (of_int freq) : double)
  /\ within 0 (2 ^ 63 * 2 ^ 149)
            (to_float (fdiv (of_int (now - last)) (of_int freq))).
Proof.
  intros Hf Hl Hn.
  assert (A : within 0 (2 ^ 63 * 2 ^ 1074) (of_int (now - last) : double)).
  { apply (of_int_within (F := binary64) 0 (2 ^ 63)); [lia| |];
      vm_compute; reflexivity. }
  assert (B : within (2 ^ 1074) (2 ^ 63 * 2 ^ 1074) (of_int freq : double)).
  { apply (of_int_within (F := binary64) 1 (2 ^ 63)); [lia| |];
      vm_compute; reflexivity. }
  assert (C : within 0 (2 ^ 63 * 2 ^ 1074)
                     (fdiv (of_int (now - last)) (of_int freq) : double)).
  { apply (fdiv_within (F := binary64) 0 (2 ^ 63 * 2 ^ 1074)
                       (2 ^ 1074) (2 ^ 63 * 2 ^ 1074));
      [lia | vm_compute; reflexivity | exact A | exact B | |];
      vm_compute; reflexivity. }
  split; [exact C|].
  destruct C as (k & -> & Hk). cbn [to_float].
  apply (rnd_within (F := binary32) 0 1 0 (2 ^ 63 * 2 ^ 1074) (2 ^ (1074 - 149))
                    (2 ^ 63 * 2 ^ 149)).
  - lia.
  - vm_compute; reflexivity.
  - vm_compute; reflexivity.
  - vm_compute; reflexivity.
  - vm_compute; reflexivity.
  - lia.
  - assert (P : 0 < 2 ^ (1074 - 149)) by (vm_compute; reflexivity).
    apply Z.mul_le_mono_nonneg_r; lia.
Qed.

Lemma to_float_nonneg (x : double) : nonneg x -> nonneg (to_float x).
Proof.
  destruct x as [|s|n]; cbn [nonneg to_float]; auto.
  intros H. apply rnd_nonneg; [exact H|]. vm_compute. reflexivity.
Qed.

Lemma nonneg_not_nan {F : Format} (x : fp F) : nonneg x -> is_nan x = false.
Proof. destruct x; cbn [nonneg is_nan]; [contradiction|reflexivity|reflexivity]. Qed.

(** One pass of the loop: [dt] is finite and not negative, and the total
    does not decrease. *)
Lemma clock_tick_spec freq c now :
  0 < freq < 2 ^ 63 -> 0 <= Clock.last c -> Clock.last c <= now < 2 ^ 63 ->
  nonneg (Clock.total c) ->
  (forall t, Clock.total c = Fin t -> (rnd t 1 : double) = Fin t) ->
  let '(c', (dt, total)) := Clock.tick freq c now in
  Clock.last c' = now
  /\ nonneg (Clock.total c')
  /\ (forall t, Clock.total c' = Fin t -> (rnd t 1 : double) = Fin t)
  /\ total = to_float (Clock.total c')
  /\ finite_nonneg dt
  /\ nonneg total
  /\ fle (to_float (Clock.total c)) total = true.
Proof.
  intros Hf Hl Hn Ht Hr. unfold Clock.tick. cbv zeta.
  destruct (clock_dt_range freq (Clock.last c) now Hf Hl Hn) as [D1 D2].
  cbn [Clock.last Clock.total].
  set (dt := fdiv (of_int (now - Clock.last c)) (of_int freq)) in *.
  destruct D1 as (k & Ek & Hk). rewrite Ek.
  assert (N : nonneg (fadd (Clock.total c) (Fin k))
              /\ (forall t, fadd (Clock.total c) (Fin k) = Fin t ->
                            (rnd t 1 : double) = Fin t)
              /\ fle (Clock.total c) (fadd (Clock.total c) (Fin k)) = true).
  { destruct (Clock.total c) as [|s|t] eqn:Et; cbn [nonneg] in Ht.
    - contradiction.
    - subst s. cbn [fadd nonneg fle]. split; [reflexivity|].
      split; [intros t X; discriminate X | reflexivity].
    - split; [cbn [fadd]; apply rnd_nonneg; lia|].
      split.
      + cbn [fadd]. intros t' X. apply (rnd_idem (t + k) 1 t'); [lia|exact X].
      + apply fadd_nonneg_ge; [apply Hr; reflexivity | cbn [nonneg]; lia]. }
  destruct N as (N1 & N2 & N3).
  split; [reflexivity|]. split; [exact N1|]. split; [exact N2|].
  split; [reflexivity|].
  split.
  - destruct D2 as (j & Ej & Hj). rewrite Ek in Ej. exists j. split; [exact Ej|lia].
  - split; [apply to_float_nonneg; exact N1|].
    apply to_float_mono;
      [apply nonneg_not_nan; exact Ht | apply nonneg_not_nan; exact N1 | exact N3].
Qed.

Lemma clock_frames_spec freq nows :
  0 < freq < 2 ^ 63 ->
  forall c,
    0 <= Clock.last c -> Clock.monotone (Clock.last c) nows ->
    nonneg (Clock.total c) ->
    (forall t, Clock.total c = Fin t -> (rnd t 1 : double) = Fin t) ->
    length (Clock.frames freq c nows) = length nows
    /\ Forall finite_nonneg (map fst (Clock.frames freq c nows))
    /\ Forall nonneg (map snd (Clock.frames freq c nows))
    /\ Clock.ascending (to_float (Clock.total c)
                        :: map snd (Clock.frames freq c nows)).
Proof.
  intros Hf. induction nows as [|now rest IH]; intros c Hl Hm Ht Hr.
  - cbn. auto.
  - destruct Hm as [Hn Hm]. cbn [Clock.frames].
    pose proof (clock_tick_spec freq c now Hf Hl Hn Ht Hr) as S.
    destruct (Clock.tick freq c now) as [c' [dt total]].
    destruct S as (S1 & S2 & S3 & S4 & S5 & S6 & S7).
    destruct (IH c' ltac:(rewrite S1; lia) ltac:(rewrite S1; exact Hm) S2 S3)
      as (I1 & I2 & I3 & I4).
    cbn [length map fst snd]. split; [rewrite I1; reflexivity|].
    split; [constructor; assumption|]. split; [constructor; assumption|].
    cbn [Clock.ascending]. split; [exact S7|].
    rewrite S4. exact I4.
Qed.

Lemma clock_start_ok last :
  nonneg (Clock.total (Clock.start last))
  /\ (forall t, Clock.total (Clock.start last) = Fin t -> (rnd t 1 : double) = Fin t).
Proof.
  assert (E : Clock.total (Clock.start last) = Fin 0) by (vm_compute; reflexivity).
  rewrite E. split; [cbn; lia|].
  intros t [= <-]. vm_compute. reflexivity.
Qed.

Lemma clock_frames_ok freq last nows :
  0 < freq < 2 ^ 63 -> 0 <= last -> Clock.monotone last nows ->
  Forall finite_nonneg (map fst (Clock.frames freq (Clock.start last) nows)).
Proof.
  intros Hf Hl Hm. destruct (clock_start_ok last) as [A B].
  apply (clock_frames_spec freq nows Hf (Clock.start last) Hl Hm A B).
Qed.

(** X14.  The clock of the render loops.  With a counter frequency above
    zero and counter readings that never run backwards, every pass of the
    loop of [RunFull] or [RunPreview] hands [RenderFrame] a [dt] that is
    finite and not negative, and a total time that is not NaN, not
    negative and never smaller than in the pass before: the animation
    clock does not run backwards. *)
Theorem X14_loop_clock (g_perfFreq last : Z) (nows : list Z) :
  0 < g_perfFreq < 2 ^ 63 ->
  0 <= last ->
  Clock.monotone last nows ->
  length (Clock.frames g_perfFreq (Clock.start last) nows) = length nows
  /\ Forall finite_nonneg (map fst (Clock.frames g_perfFreq (Clock.start last) nows))
  /\ Forall nonneg (map snd (Clock.frames g_perfFreq (Clock.start last) nows))
  /\ Clock.ascending (map snd (Clock.frames g_perfFreq (Clock.start last) nows)).
Proof.
  intros Hf Hl Hm. destruct (clock_start_ok last) as [A B].
  destruct (clock_frames_spec g_perfFreq nows Hf (Clock.start last) Hl Hm A B)
    as (I1 & I2 & I3 & I4).
  split; [exact I1|]. split; [exact I2|]. split; [exact I3|].
  cbn [Clock.ascending] in I4.
  destruct (map snd (Clock.frames g_perfFreq (Clock.start last) nows)) as [|b t];
    [exact I | apply I4].
Qed.

Lemma X14_witness :
  length (Clock.frames 10000000 (Clock.start 0) Clock.tv_nows) = 3%nat
  /\ Forall finite_nonneg (map fst (Clock.frames 10000000 (Clock.start 0) Clock.tv_nows))
  /\ Forall nonneg (map snd (Clock.frames 10000000 (Clock.start 0) Clock.tv_nows))
  /\ Clock.ascending (map snd (Clock.frames 10000000 (Clock.start 0) Clock.tv_nows)).
Proof.
  apply (X14_loop_clock 10000000 0 Clock.tv_nows).
  - lia.
  - lia.
  - cbn. lia.
Defined.

(** X15.  A whole session keeps the depth band.  Driven by the clock of
    the render loop, with a counter that never runs backwards, the stars
    made by [InitStars] stay for as many passes as the loop makes within
    [Z_MIN, Z_MAX] in the GDI variant and within (0.05, 1] in the two
    Direct2D variants, and their number stays the configured one. *)
Theorem X15_session_keeps_depth_band (L : Libc) (g_perfFreq last : Z)
    (nows : list Z) :
  canonical_ok L ->
  0 < g_perfFreq < 2 ^ 63 ->
  0 <= last ->
  Clock.monotone last nows ->
  let frames := Clock.frames g_perfFreq (Clock.start last) nows in
  (forall cfg rw,
      0 <= Gdi.g_starCount cfg -> 0 <= Gdi.g_speed cfg < 2 ^ 31 ->
      exists rw1 rw',
        Gdi.InitStars cfg rw = Some rw1
        /\ Gdi.run_frames cfg rw1 frames = Some rw'
        /\ Forall (fun s => Gdi.in_band s = true) (Gdi.stars rw')
        /\ length (Gdi.stars rw') = Z.to_nat (Gdi.g_starCount cfg))
  /\ (forall cfg rw,
         0 <= D2D.g_starCount cfg -> 0 <= D2D.g_speedPercent cfg < 2 ^ 31 ->
         exists rw1,
           D2D.InitStars cfg rw = Some rw1
           /\ Forall (fun s => D2D.in_band s = true)
                     (D2D.stars (D2D.run_frames cfg rw1 frames))
           /\ length (D2D.stars (D2D.run_frames cfg rw1 frames))
              = Z.to_nat (D2D.g_starCount cfg)
           /\ Forall (fun s => D2D.in_band s = true)
                     (D2D.stars (D2Dp.run_frames cfg rw1 frames))
           /\ length (D2D.stars (D2Dp.run_frames cfg rw1 frames))
              = Z.to_nat (D2D.g_starCount cfg)).
Proof.
  intros HL Hf Hl Hm frames.
  pose proof (clock_frames_ok g_perfFreq last nows Hf Hl Hm) as Hdt.
  fold frames in Hdt. clearbody frames. split.
  - intros cfg rw Hc Hs.
    destruct (gdi_band_init L cfg rw HL Hc Hs) as (rw1 & E1 & Hl1 & H1).
    set (P := fun s => Gdi.in_band s = true /\ finite_nonneg (Gdi.speed s)).
    destruct (gdi_run_frames_inv L P cfg frames rw1) as (rw' & E2 & H2 & Hl2).
    + intros s g dt Hin [Hb Hsp]. rewrite Forall_forall in Hdt.
      apply gdi_in_band_within in Hb.
      split.
      * apply gdi_in_band_within.
        apply (gdi_advance_band L _ _ _ dt s g HL Hs (Hdt _ Hin) Hb Hsp).
      * apply (gdi_advance_band L _ _ _ dt s g HL Hs (Hdt _ Hin) Hb Hsp).
    + exact H1.
    + exists rw1, rw'. split; [exact E1|]. split; [exact E2|].
      split; [|rewrite Hl2; exact Hl1].
      eapply Forall_impl; [|exact H2]. intros s [Hb _]. exact Hb.
  - intros cfg rw Hc Hs.
    destruct (d2d_band_init L cfg rw HL Hc) as (rw1 & E1 & Hl1 & H1).
    exists rw1. split; [exact E1|].
    assert (Hstep : forall sw sh s g dt, In dt (map fst frames) ->
              D2D.in_band s = true ->
              D2D.in_band (fst (D2D.advance sw sh (D2D.frame_speed cfg) dt s g)) = true).
    { intros sw sh s g dt Hin Hb. rewrite Forall_forall in Hdt.
      apply d2d_band_step; auto. }
    destruct (d2d_run_frames_inv L (fun s => D2D.in_band s = true) cfg frames
                Hstep rw1 H1) as [A1 A2].
    destruct (d2dp_run_frames_inv L (fun s => D2D.in_band s = true) cfg frames
                Hstep rw1 H1) as [B1 B2].
    split; [exact A1|]. split; [rewrite A2; exact Hl1|].
    split; [exact B1|]. rewrite B2. exact Hl1.
Qed.

Lemma X15_witness :
  exists rw1 rw',
    @Gdi.InitStars test_libc gdi_cfg0 gdi_rw0 = Some rw1
    /\ @Gdi.run_frames test_libc gdi_cfg0 rw1
         (Clock.frames 10000000 (Clock.start 0) Clock.tv_nows) = Some rw'
    /\ Forall (fun s => Gdi.in_band s = true) (Gdi.stars rw')
    /\ length (Gdi.stars rw') = 3%nat.
Proof.
  destruct (X15_session_keeps_depth_band test_libc 10000000 0 Clock.tv_nows
              test_libc_canonical_ok) as [G _].
  - lia.
  - lia.
  - cbn. lia.
  - apply (G gdi_cfg0 gdi_rw0); vm_compute;
      first [discriminate | split; (discriminate || reflexivity)].
Defined.

(* ================================================================== *)
(** ** Message sequences *)
(* ================================================================== *)

(** One message changes at most [g_running] (to false) and the mouse
    baseline. *)
Lemma filtered_step_frame deb thr st msg env :
  let st' := FullWndProc_filtered deb thr st msg env in
  g_perfFreq st' = g_perfFreq st
  /\ g_startCounter st' = g_startCounter st
  /\ (g_running st = false -> g_running st' = false).
Proof.
  cbv zeta. unfold FullWndProc_filtered, stop, set_mouse.
  destruct msg; cbn [g_perfFreq g_startCounter g_running];
    repeat match goal with
           | |- context [if ?b then _ else _] => destruct b
           end;
    cbn [g_perfFreq g_startCounter g_running]; auto.
Qed.

Lemma d2d_step_frame st msg env :
  let st' := D2D.FullWndProc st msg env in
  g_perfFreq st' = g_perfFreq st
  /\ g_startCounter st' = g_startCounter st
  /\ g_startMouse st' = g_startMouse st
  /\ g_startMouseInit st' = g_startMouseInit st
  /\ (g_running st = false -> g_running st' = false).
Proof.
  cbv zeta. unfold D2D.FullWndProc, stop.
  destruct msg;
    repeat match goal with
           | |- context [if ?b then _ else _] => destruct b
           end;
    cbn [g_perfFreq g_startCounter g_running g_startMouse g_startMouseInit]; auto.
Qed.

Lemma elapsed_seconds_frame st st' env :
  g_perfFreq st' = g_perfFreq st -> g_startCounter st' = g_startCounter st ->
  elapsed_seconds st' env = elapsed_seconds st env.
Proof. intros A B. unfold elapsed_seconds. rewrite A, B. reflexivity. Qed.

Lemma dispatch_all_cons P st m e rest :
  dispatch_all P st ((m, e) :: rest) = dispatch_all P (P st m e) rest.
Proof. reflexivity. Qed.

(** X16.  What the window procedures never do.  In each of the three
    files, after any sequence of messages: a loop that was told to stop
    stays stopped ([g_running] is never set back to true), the counter
    frequency and the start of the debounce window are untouched, and a
    sequence without a key, button or mouse-move message leaves
    [g_running] as it was.  In MyStarfield.cpp the mouse baseline is
    never touched either. *)
Theorem X16_window_procedures_never (st : InputState) (msgs : list (Msg * SysEnv)) :
  (forall P, In P [Gdi.FullWndProc; D2Dp.FullWndProc; D2D.FullWndProc] ->
     let st' := dispatch_all P st msgs in
     g_perfFreq st' = g_perfFreq st
     /\ g_startCounter st' = g_startCounter st
     /\ (g_running st = false -> g_running st' = false)
     /\ (forallb (fun me => negb (is_input (fst me))) msgs = true ->
         g_running st' = g_running st))
  /\ g_startMouse (dispatch_all D2D.FullWndProc st msgs) = g_startMouse st
  /\ g_startMouseInit (dispatch_all D2D.FullWndProc st msgs) = g_startMouseInit st.
Proof.
  split.
  - intros P HP. cbv zeta. revert st.
    induction msgs as [|[m e] rest IH]; intros st.
    + cbn. auto.
    + rewrite dispatch_all_cons.
      destruct (IH (P st m e)) as (A & B & C & D).
      assert (S : g_perfFreq (P st m e) = g_perfFreq st
                  /\ g_startCounter (P st m e) = g_startCounter st
                  /\ (g_running st = false -> g_running (P st m e) = false)
                  /\ (is_input m = false -> g_running (P st m e) = g_running st)).
      { destruct HP as [<-|[<-|[<-|[]]]].
        - destruct (filtered_step_frame Gdi.g_inputDebounceSeconds
                      Gdi.g_mouseMoveThreshold st m e) as (X & Y & Z').
          split; [exact X|]. split; [exact Y|]. split; [exact Z'|].
          intros Hi. unfold Gdi.FullWndProc, FullWndProc_filtered, set_mouse.
          destruct m; try discriminate Hi; cbn [g_running];
            try destruct (has_rw e); reflexivity.
        - destruct (filtered_step_frame D2Dp.g_inputDebounceSeconds
                      D2Dp.g_mouseMoveThreshold st m e) as (X & Y & Z').
          split; [exact X|]. split; [exact Y|]. split; [exact Z'|].
          intros Hi. unfold D2Dp.FullWndProc, FullWndProc_filtered, set_mouse.
          destruct m; try discriminate Hi; cbn [g_running];
            try destruct (has_rw e); reflexivity.
        - destruct (d2d_step_frame st m e) as (X & Y & _ & _ & Z').
          split; [exact X|]. split; [exact Y|]. split; [exact Z'|].
          intros Hi. unfold D2D.FullWndProc.
          destruct m; try discriminate Hi; reflexivity. }
      destruct S as (S1 & S2 & S3 & S4).
      split; [congruence|]. split; [congruence|]. split; [auto|].
      cbn [forallb fst]. intros Hall. apply andb_prop in Hall.
      destruct Hall as [H1 H2]. rewrite (D H2). apply S4.
      destruct (is_input m); [discriminate H1|reflexivity].
  - revert st. induction msgs as [|[m e] rest IH]; intros st.
    + cbn. auto.
    + rewrite dispatch_all_cons.
      destruct (IH (D2D.FullWndProc st m e)) as [A B].
      destruct (d2d_step_frame st m e) as (_ & _ & X & Y & _).
      split; congruence.
Qed.

Lemma X16_witness :
  g_perfFreq (dispatch_all Gdi.FullWndProc tv_input tv_drift) = 10000000
  /\ g_startMouse (dispatch_all D2D.FullWndProc tv_input tv_drift)
     = g_startMouse tv_input.
Proof.
  destruct (X16_window_procedures_never tv_input tv_drift) as [A [B _]].
  split.
  - destruct (A Gdi.FullWndProc (or_introl eq_refl)) as [E _]. exact E.
  - exact B.
Defined.

(** One message of a sequence without [WM_CREATE] and [WM_SIZE], once the
    mouse baseline is set. *)
Lemma filtered_step_baseline deb thr st0 st m e :
  g_perfFreq st = g_perfFreq st0 -> g_startCounter st = g_startCounter st0 ->
  g_startMouseInit st = true ->
  match m with WM_CREATE | WM_SIZE => false | _ => true end = true ->
  let st' := FullWndProc_filtered deb thr st m e in
  g_startMouse st' = g_startMouse st
  /\ g_startMouseInit st' = true
  /\ g_running st'
     = g_running st && negb (deliberate deb thr st0 (g_startMouse st) (m, e)).
Proof.
  intros Hf Hc Hi Hm. cbv zeta.
  unfold deliberate. rewrite <- (elapsed_seconds_frame st0 st e) by congruence.
  unfold FullWndProc_filtered, stop, set_mouse. rewrite Hi.
  set (late := flt (elapsed_seconds st e) deb). clearbody late.
  set (near := (abs_diff (pt_x (cursor_pos e)) (pt_x (g_startMouse st)) <? thr)
            && (abs_diff (pt_y (cursor_pos e)) (pt_y (g_startMouse st)) <? thr)).
  clearbody near.
  destruct m; try discriminate Hm; cbn [is_input andb negb];
    destruct late; cbn [negb andb];
    destruct (foreground_ours e); cbn [negb andb];
    try destruct near;
    cbn [negb g_startMouse g_startMouseInit g_running];
    rewrite ?andb_true_r, ?andb_false_r; repeat split; assumption || reflexivity.
Qed.

(** X17.  The mouse threshold is measured from where the mouse was first
    seen, not from its last position.  In the GDI file and in the
    Direct2D Starfield.cpp (both are [FullWndProc_filtered]), over any
    sequence of messages without [WM_CREATE] and [WM_SIZE], once the
    baseline is set: the baseline never moves, and the loop is stopped at
    the end exactly when it was stopped before or some message of the
    sequence came after the debounce window, with the focus, and was a
    key or button message or a mouse move displaced from the baseline by
    the threshold or more on one axis.  So a slow drift of small moves
    ends the saver as soon as their sum reaches the threshold. *)
Theorem X17_threshold_from_first_position (deb : double) (thr : Z)
    (st : InputState) (msgs : list (Msg * SysEnv)) :
  g_startMouseInit st = true ->
  no_resize msgs = true ->
  let st' := dispatch_all (FullWndProc_filtered deb thr) st msgs in
  g_startMouse st' = g_startMouse st
  /\ g_startMouseInit st' = true
  /\ g_running st'
     = g_running st && negb (existsb (deliberate deb thr st (g_startMouse st)) msgs).
Proof.
  intros Hi Hn. cbv zeta.
  assert (G : forall s,
             g_perfFreq s = g_perfFreq st -> g_startCounter s = g_startCounter st ->
             g_startMouseInit s = true ->
             g_startMouse (dispatch_all (FullWndProc_filtered deb thr) s msgs)
             = g_startMouse s
             /\ g_startMouseInit (dispatch_all (FullWndProc_filtered deb thr) s msgs)
                = true
             /\ g_running (dispatch_all (FullWndProc_filtered deb thr) s msgs)
                = g_running s
                  && negb (existsb (deliberate deb thr st (g_startMouse s)) msgs)).
  { clear Hi. induction msgs as [|[m e] rest IH]; intros s Hf Hc Hs.
    - cbn. rewrite andb_true_r. auto.
    - rewrite dispatch_all_cons. cbn [no_resize forallb fst] in Hn.
      apply andb_prop in Hn. destruct Hn as [Hm Hrest].
      destruct (filtered_step_baseline deb thr st s m e Hf Hc Hs Hm) as (A & B & C).
      destruct (filtered_step_frame deb thr s m e) as (X & Y & _).
      destruct (IH Hrest (FullWndProc_filtered deb thr s m e)
                  ltac:(congruence) ltac:(congruence) B) as (I1 & I2 & I3).
      split; [congruence|]. split; [exact I2|].
      rewrite I3, C, A. cbn [existsb].
      rewrite negb_orb, andb_assoc. reflexivity. }
  apply G; auto.
Qed.

Lemma X17_witness :
  g_running (dispatch_all Gdi.FullWndProc tv_input tv_drift) = false
  /\ g_running (dispatch_all Gdi.FullWndProc tv_input (firstn 2 tv_drift)) = true.
Proof.
  split.
  - destruct (X17_threshold_from_first_position Gdi.g_inputDebounceSeconds
                Gdi.g_mouseMoveThreshold tv_input tv_drift eq_refl eq_refl)
      as (_ & _ & R).
    unfold Gdi.FullWndProc. rewrite R. vm_compute. reflexivity.
  - destruct (X17_threshold_from_first_position Gdi.g_inputDebounceSeconds
                Gdi.g_mouseMoveThreshold tv_input (firstn 2 tv_drift)
                eq_refl eq_refl) as (_ & _ & R).
    unfold Gdi.FullWndProc. rewrite R. vm_compute. reflexivity.
Defined.

(** X18.  A resize re-arms the mouse baseline.  After [WM_CREATE], or
    after [WM_SIZE] on a window that has its [RenderWindow], the next
    mouse move never ends the saver, however far the cursor is from the
    old baseline: when it passes the debounce and focus tests it only
    records the cursor position as the new baseline, from which later
    moves are measured. *)
Theorem X18_resize_rearms_baseline (deb : double) (thr : Z)
    (st : InputState) (resize : Msg) (env0 env : SysEnv) :
  resize = WM_CREATE \/ (resize = WM_SIZE /\ has_rw env0 = true) ->
  let st1 := FullWndProc_filtered deb thr st resize env0 in
  let st2 := FullWndProc_filtered deb thr st1 WM_MOUSEMOVE env in
  g_running st2 = g_running st
  /\ (flt (elapsed_seconds st env) deb = false -> foreground_ours env = true ->
      g_startMouse st2 = cursor_pos env /\ g_startMouseInit st2 = true
      /\ forall env',
           deliberate deb thr st (cursor_pos env) (WM_MOUSEMOVE, env') = false ->
           g_running (FullWndProc_filtered deb thr st2 WM_MOUSEMOVE env')
           = g_running st).
Proof.
  intros Hr. cbv zeta.
  assert (E1 : FullWndProc_filtered deb thr st resize env0
               = set_mouse st (g_startMouse st) false).
  { destruct Hr as [->|[-> H]]; unfold FullWndProc_filtered;
      [reflexivity | rewrite H; reflexivity]. }
  rewrite E1.
  assert (Es : forall p b e, elapsed_seconds (set_mouse st p b) e
                         = elapsed_seconds st e).
  { intros. apply elapsed_seconds_frame; reflexivity. }
  assert (E2 : FullWndProc_filtered deb thr (set_mouse st (g_startMouse st) false)
                                    WM_MOUSEMOVE env
               = if flt (elapsed_seconds st env) deb
                 then set_mouse st (g_startMouse st) false
                 else if negb (foreground_ours env)
                      then set_mouse st (g_startMouse st) false
                      else set_mouse st (cursor_pos env) true).
  { unfold FullWndProc_filtered. rewrite Es.
    set (late := flt (elapsed_seconds st env) deb). clearbody late.
    destruct late; [reflexivity|]. destruct (foreground_ours env); reflexivity. }
  rewrite E2. clear E2.
  split.
  - set (late := flt (elapsed_seconds st env) deb). clearbody late.
    destruct late; [reflexivity|]. destruct (foreground_ours env); reflexivity.
  - intros Hd Hfg. rewrite Hd, Hfg. cbn [negb].
    split; [reflexivity|]. split; [reflexivity|].
    intros env' Hn. unfold deliberate in Hn. cbn [is_input andb] in Hn.
    unfold FullWndProc_filtered. rewrite Es.
    set (late := flt (elapsed_seconds st env') deb) in *. clearbody late.
    cbn [set_mouse g_startMouseInit g_startMouse negb].
    set (near := (abs_diff (pt_x (cursor_pos env')) (pt_x (cursor_pos env)) <? thr)
              && (abs_diff (pt_y (cursor_pos env')) (pt_y (cursor_pos env)) <? thr))
      in *.
    clearbody near.
    destruct late; [reflexivity|]. destruct (foreground_ours env'); [|reflexivity].
    destruct near; [reflexivity | discriminate Hn].
Qed.

Lemma X18_witness :
  g_running (FullWndProc_filtered Gdi.g_inputDebounceSeconds Gdi.g_mouseMoveThreshold
               (FullWndProc_filtered Gdi.g_inputDebounceSeconds
                  Gdi.g_mouseMoveThreshold tv_input WM_SIZE (tv_env 30 0 true))
               WM_MOUSEMOVE (tv_env 31 500 true))
  = g_running tv_input.
Proof.
  destruct (X18_resize_rearms_baseline Gdi.g_inputDebounceSeconds
              Gdi.g_mouseMoveThreshold tv_input WM_SIZE (tv_env 30 0 true)
              (tv_env 31 500 true) (or_intror (conj eq_refl eq_refl))) as [H _].
  exact H.
Defined.

(* ================================================================== *)
(** ** The brush cache of the GDI [RenderFrame] *)
(* ================================================================== *)

Lemma list_set_keeps {A} (a : list (option A)) i v x :
  nth_error a i = Some None -> In (Some x) a -> In (Some x) (list_set a i v).
Proof.
  revert i. induction a as [|h t IH]; intros [|i] Hn Hin; simpl in *; auto.
  - injection Hn as ->. destruct Hin as [E|Hin]; [discriminate E | auto].
  - destruct Hin as [E|Hin]; [left; exact E | right; apply IH; assumption].
Qed.

Lemma array_get_In {A} (a : list A) i v : array_get a i = Some v -> In v a.
Proof.
  unfold array_get. destruct ((0 <=? i) && (i <? Z.of_nat (length a))); [|discriminate].
  apply nth_error_In.
Qed.

(** One pass of the loop body: the brushes made so far stay as they are,
    and an [Ellipse] issued is drawn with a brush of the cache. *)
Lemma gdi_render_star_cache (L : Libc) cfg w h dt pulse s st s' st' :
  Gdi.render_star cfg w h dt pulse s st = Some (s', st') ->
  (forall x, In (Some x) (Gdi.ls_brushes st) -> In (Some x) (Gdi.ls_brushes st'))
  /\ length (Gdi.ls_brushes st') = length (Gdi.ls_brushes st)
  /\ (Gdi.ls_calls st' = Gdi.ls_calls st
      \/ exists c, Gdi.ls_calls st' = c :: Gdi.ls_calls st
                   /\ In (Some (Gdi.brush c)) (Gdi.ls_brushes st')).
Proof.
  unfold Gdi.render_star.
  destruct (Gdi.advance w h (Gdi.g_speed cfg) dt s (Gdi.ls_rng st)) as [s1 g1].
  set (intensity := Gdi.star_intensity (Gdi.z s1) pulse). clearbody intensity.
  set (bucket := Gdi.star_bucket intensity). clearbody bucket.
  set (newb := Gdi.make_brush (Gdi.g_color cfg) intensity bucket). clearbody newb.
  set (off := Gdi.offscreen _ _ _ w h). clearbody off.
  set (rect_l := to_int _). clearbody rect_l.
  set (rect_t := to_int _). clearbody rect_t.
  set (rect_r := to_int _). clearbody rect_r.
  set (rect_b := to_int _). clearbody rect_b.
  destruct (array_get (Gdi.ls_brushes st) bucket) as [slot|] eqn:Eg;
    [|intros X; discriminate X].
  assert (Hbr : forall brushes,
             match slot with
             | Some _ => Some (Gdi.ls_brushes st)
             | None => array_set (Gdi.ls_brushes st) bucket (Some newb)
             end = Some brushes ->
             (forall x, In (Some x) (Gdi.ls_brushes st) -> In (Some x) brushes)
             /\ length brushes = length (Gdi.ls_brushes st)).
  { intros brushes. destruct slot as [b|].
    - intros [= <-]. auto.
    - unfold array_set.
      destruct ((0 <=? bucket) && (bucket <? Z.of_nat (length (Gdi.ls_brushes st))))
        eqn:Eb; [|intros X; discriminate X].
      intros [= <-]. split; [|apply length_list_set].
      intros x Hx. apply list_set_keeps; [|exact Hx].
      unfold array_get in Eg. rewrite Eb in Eg. exact Eg. }
  destruct (match slot with
            | Some _ => Some (Gdi.ls_brushes st)
            | None => _
            end) as [brushes|] eqn:Ec; [|intros X; discriminate X].
  destruct (Hbr brushes eq_refl) as [Hk Hl].
  destruct off.
  - intros [= <- <-]. cbn [Gdi.ls_brushes Gdi.ls_calls]. auto.
  - destruct (array_get brushes bucket) as [[b|]|] eqn:Eg2;
      try (intros X; discriminate X).
    intros [= <- <-]. cbn [Gdi.ls_brushes Gdi.ls_calls].
    split; [exact Hk|]. split; [exact Hl|]. right.
    eexists. split; [reflexivity|]. cbn [Gdi.brush].
    apply array_get_In in Eg2. exact Eg2.
Qed.

Lemma gdi_render_loop_cache (L : Libc) cfg w h dt pulse ss :
  forall st ss' st',
    Gdi.render_loop cfg w h dt pulse ss st = Some (ss', st') ->
    Forall (fun c => In (Some (Gdi.brush c)) (Gdi.ls_brushes st)) (Gdi.ls_calls st) ->
    (forall x, In (Some x) (Gdi.ls_brushes st) -> In (Some x) (Gdi.ls_brushes st'))
    /\ length (Gdi.ls_brushes st') = length (Gdi.ls_brushes st)
    /\ Forall (fun c => In (Some (Gdi.brush c)) (Gdi.ls_brushes st')) (Gdi.ls_calls st').
Proof.
  induction ss as [|s rest IH]; intros st ss' st' E Hinv; cbn [Gdi.render_loop] in E.
  - injection E as <- <-. auto.
  - destruct (Gdi.render_star cfg w h dt pulse s st) as [[s1 st1]|] eqn:E1;
      [|discriminate E].
    destruct (Gdi.render_loop cfg w h dt pulse rest st1) as [[rest' st2]|] eqn:E2;
      [|discriminate E].
    injection E as <- <-.
    destruct (gdi_render_star_cache L cfg w h dt pulse s st s1 st1 E1)
      as (K1 & L1 & C1).
    assert (Hinv1 : Forall (fun c => In (Some (Gdi.brush c)) (Gdi.ls_brushes st1))
                           (Gdi.ls_calls st1)).
    { destruct C1 as [->|(c & -> & Hc)].
      - eapply Forall_impl; [|exact Hinv]. cbv beta. intros c Hc. apply K1. exact Hc.
      - constructor; [exact Hc|].
        eapply Forall_impl; [|exact Hinv]. cbv beta. intros c' Hc'. apply K1. exact Hc'. }
    destruct (IH st1 rest' st2 E2 Hinv1) as (K2 & L2 & C2).
    split; [intros x Hx; apply K2, K1; exact Hx|].
    split; [congruence | exact C2].
Qed.

(** X19.  At most six brush colours per frame.  [RenderFrame] of the GDI
    variant always completes, and every [Ellipse] of a frame is drawn
    with one of the at most [BUCKETS] = 6 brushes of the frame's cache:
    a frame shows at most six different colours, however many stars it
    has. *)
Theorem X19_six_brush_colours (L : Libc) (cfg : Gdi.Config) (rw : Gdi.RenderWindow)
    (dt totalTime : float) :
  exists rw' calls cache,
    Gdi.RenderFrame cfg rw dt totalTime = Some (rw', calls)
    /\ length cache = Z.to_nat Gdi.BUCKETS
    /\ Forall (fun c => In (Some (Gdi.brush c)) cache) calls.
Proof.
  unfold Gdi.RenderFrame. destruct (Gdi.backHdc rw); cbn [negb].
  - match goal with
    | |- context [Gdi.render_loop ?c ?w ?h ?d ?p ?ss ?st] =>
        destruct (gdi_render_loop_spec L c w h d p ss st eq_refl)
          as (ss' & st' & E & _);
        destruct (gdi_render_loop_cache L c w h d p ss st ss' st' E
                    ltac:(constructor)) as (_ & Hl & Hc)
    end.
    rewrite E. eexists _, _, (Gdi.ls_brushes st').
    split; [reflexivity|]. split; [rewrite Hl; reflexivity|].
    apply Forall_forall. intros c Hc'. apply in_rev in Hc'.
    rewrite Forall_forall in Hc. apply Hc. exact Hc'.
  - exists rw, [], (repeat None (Z.to_nat Gdi.BUCKETS)).
    split; [reflexivity|]. split; [apply repeat_length | constructor].
Qed.

(* ================================================================== *)
(** ** Where the stars are *)
(* ================================================================== *)

(** An [int] of fewer than 24 bits converts to [float] exactly. *)
Lemma of_int32_exact n :
  - 2 ^ 24 < n < 2 ^ 24 -> (of_int n : float) = Fin (n * 2 ^ 149).
Proof.
  intros H. unfold of_int. change (@ushift binary32) with 149.
  apply (rnd_exact (F := binary32) n 149); [lia | |].
  - change (@prec binary32) with 24. lia.
  - change (@etop binary32) with 277.
    apply Z.le_lt_trans with (2 ^ 24 * 2 ^ 149).
    + apply Z.mul_le_mono_nonneg_r; lia.
    + vm_compute. reflexivity.
Qed.

Lemma rnd32_exact m e :
  0 <= e <= 200 -> - 2 ^ 24 < m < 2 ^ 24 ->
  (rnd (m * 2 ^ e) 1 : float) = Fin (m * 2 ^ e).
Proof.
  intros He Hm. apply (rnd_exact (F := binary32) m e); [lia | |].
  - change (@prec binary32) with 24. lia.
  - change (@etop binary32) with 277.
    assert (P : 0 < 2 ^ e) by (apply Z.pow_pos_nonneg; lia).
    apply Z.le_lt_trans with (2 ^ 24 * 2 ^ e).
    + apply Z.mul_le_mono_nonneg_r; lia.
    + rewrite <- Z.pow_add_r by lia. apply Z.pow_lt_mono_r; lia.
Qed.

(** [(f - 0.5f) * (float)w * 2.0f] for [f] in [0, 1] lies in [-w, w]. *)
Lemma gdi_spawn_coordinate (f : float) w :
  1 <= w < 2 ^ 24 ->
  within 0 (2 ^ 149) f ->
  within (- (w * 2 ^ 149)) (w * 2 ^ 149)
         (fmul (fmul (fsub f (lit 5 10)) (of_int w)) (lit 2 1)).
Proof.
  intros Hw Hf. rewrite f32_half, f32_2, of_int32_exact by lia.
  assert (P149 : 0 < 2 ^ 149) by lia.
  assert (P148 : 0 < 2 ^ 148) by lia.
  assert (A : within (- 2 ^ 148) (2 ^ 148) (fsub f (Fin (2 ^ 148)) : float)).
  { apply fsub_within with (la := 0) (ha := 2 ^ 149) (lb := 2 ^ 148) (hb := 2 ^ 148);
      [ exact Hf | exists (2 ^ 148); split; [reflexivity | lia]
      | vm_compute; reflexivity | vm_compute; reflexivity ]. }
  destruct A as (a & -> & Ha). cbn [fmul]. change (@ushift binary32) with 149.
  assert (B : within (- (w * 2 ^ 148)) (w * 2 ^ 148)
                     (rnd (a * (w * 2 ^ 149)) (2 ^ 149) : float)).
  { apply (rnd_within (F := binary32) (- (w * 2 ^ 148)) 1 (- (w * 2 ^ 148))
                      (w * 2 ^ 148) 1 (w * 2 ^ 148));
      [ lia | lia | lia
      | replace (- (w * 2 ^ 148)) with ((- w) * 2 ^ 148) by lia;
        apply rnd32_exact; lia
      | apply rnd32_exact; lia
      | replace (2 ^ 149) with (2 * 2 ^ 148) by reflexivity; nia
      | replace (2 ^ 149) with (2 * 2 ^ 148) by reflexivity; nia ]. }
  destruct B as (b & -> & Hb). cbn [fmul]. change (@ushift binary32) with 149.
  apply (rnd_within (F := binary32) (- (w * 2 ^ 149)) 1 (- (w * 2 ^ 149))
                    (w * 2 ^ 149) 1 (w * 2 ^ 149));
    [ lia | lia | lia
    | replace (- (w * 2 ^ 149)) with ((- w) * 2 ^ 149) by lia;
      apply rnd32_exact; lia
    | apply rnd32_exact; lia
    | replace (2 ^ 149) with (2 * 2 ^ 148) in * by reflexivity; nia
    | replace (2 ^ 149) with (2 * 2 ^ 148) in * by reflexivity; nia ].
Qed.

(** [(float)g_speed + float(rng() % jitterMax)] is the whole number
    [g_speed + j] with [0 <= j <= g_speed / 2]. *)
Lemma gdi_spawn_speed g_speed r :
  0 <= g_speed < 2 ^ 23 ->
  exists j, 0 <= j <= g_speed / 2
            /\ (fadd (of_int g_speed) (of_int (r mod Gdi.jitterMax g_speed)) : float)
               = of_int (g_speed + j).
Proof.
  intros H.
  assert (Q : Z.quot g_speed 2 = g_speed / 2) by (apply Z.quot_div_nonneg; lia).
  assert (D : 0 <= g_speed / 2 < 2 ^ 22).
  { split; [apply Z.div_pos; lia | apply Z.div_lt_upper_bound; lia]. }
  assert (J : Gdi.jitterMax g_speed = g_speed / 2 + 1).
  { unfold Gdi.jitterMax. rewrite Q. lia. }
  pose proof (Z.mod_pos_bound r (Gdi.jitterMax g_speed) ltac:(lia)) as M.
  exists (r mod Gdi.jitterMax g_speed). split; [lia|].
  rewrite !of_int32_exact by lia. cbn [fadd].
  replace (g_speed * 2 ^ 149 + r mod Gdi.jitterMax g_speed * 2 ^ 149)
    with ((g_speed + r mod Gdi.jitterMax g_speed) * 2 ^ 149) by lia.
  apply rnd32_exact; lia.
Qed.

Lemma within_sym_fle (x : float) k :
  - 2 ^ 24 < k < 2 ^ 24 ->
  within (- (k * 2 ^ 149)) (k * 2 ^ 149) x ->
  fle (fopp (of_int k)) x = true /\ fle x (of_int k) = true.
Proof.
  intros Hk W. rewrite of_int32_exact by lia. cbn [fopp].
  apply within_fle. exact W.
Qed.

(** The star that [InitStars] and the respawn make from three draws in
    [0, 1] and an engine word. *)
Lemma gdi_spawn_in_world w h g_speed (fx fy fz : float) r :
  1 <= w < 2 ^ 24 -> 1 <= h < 2 ^ 24 -> 0 <= g_speed < 2 ^ 23 ->
  within 0 (2 ^ 149) fx -> within 0 (2 ^ 149) fy ->
  gdi_in_world w h g_speed
    {| Gdi.x := fmul (fmul (fsub fx (lit 5 10)) (of_int w)) (lit 2 1);
       Gdi.y := fmul (fmul (fsub fy (lit 5 10)) (of_int h)) (lit 2 1);
       Gdi.z := fadd (fmul fz (fsub Gdi.Z_MAX Gdi.Z_MIN)) Gdi.Z_MIN;
       Gdi.speed := fadd (of_int g_speed) (of_int (r mod Gdi.jitterMax g_speed)) |}.
Proof.
  intros Hw Hh Hs Hx Hy. unfold gdi_in_world. cbn [Gdi.x Gdi.y Gdi.speed].
  destruct (within_sym_fle _ w ltac:(lia) (gdi_spawn_coordinate fx w Hw Hx)) as [X1 X2].
  destruct (within_sym_fle _ h ltac:(lia) (gdi_spawn_coordinate fy h Hh Hy)) as [Y1 Y2].
  split; [exact X1|]. split; [exact X2|]. split; [exact Y1|]. split; [exact Y2|].
  apply gdi_spawn_speed. exact Hs.
Qed.

Lemma gdi_init_star_in_world (L : Libc) w h g_speed g :
  canonical_ok L ->
  1 <= w < 2 ^ 24 -> 1 <= h < 2 ^ 24 -> 0 <= g_speed < 2 ^ 23 ->
  gdi_in_world w h g_speed (fst (Gdi.init_star w h g_speed g)).
Proof.
  intros HL Hw Hh Hs. unfold Gdi.init_star.
  pose proof (ud01_within L g HL) as Hfx.
  destruct (uniform_real (lit 0 1) (lit 1 1) g) as [fx g1].
  pose proof (ud01_within L g1 HL) as Hfy.
  destruct (uniform_real (lit 0 1) (lit 1 1) g1) as [fy g2].
  destruct (uniform_real (lit 0 1) (lit 1 1) g2) as [fz g3].
  destruct (rng_next g3) as [r g4]. cbn [fst] in *.
  apply gdi_spawn_in_world; assumption.
Qed.

Lemma gdi_advance_in_world (L : Libc) w h g_speed dt s g :
  canonical_ok L ->
  1 <= w < 2 ^ 24 -> 1 <= h < 2 ^ 24 -> 0 <= g_speed < 2 ^ 23 ->
  gdi_in_world w h g_speed s ->
  gdi_in_world w h g_speed (fst (Gdi.advance w h g_speed dt s g)).
Proof.
  intros HL Hw Hh Hs HP. unfold Gdi.advance.
  set (c := fle _ Gdi.Z_MIN). clearbody c. destruct c.
  - pose proof (ud01_within L g HL) as Hfx.
    destruct (uniform_real (lit 0 1) (lit 1 1) g) as [fx g1].
    pose proof (ud01_within L g1 HL) as Hfy.
    destruct (uniform_real (lit 0 1) (lit 1 1) g1) as [fy g2].
    destruct (uniform_real (lit 0 1) (lit 1 1) g2) as [fz g3].
    destruct (rng_next g3) as [r g4]. cbn [fst] in *.
    apply gdi_spawn_in_world; assumption.
  - cbn [fst]. exact HP.
Qed.

(** X20.  Where the stars of the GDI variant are.  For a window of
    [width] x [height] pixels (each below 2^24) and a configured speed
    from 0 to below 2^23, every star that [InitStars] makes, and every
    star after any number of [RenderFrame] calls whatever their [dt],
    has its world position within [-width, width] x [-height, height] and
    a speed that is exactly the configured speed plus a whole jitter of
    at most half the configured speed. *)
Theorem X20_gdi_stars_in_world (L : Libc) (cfg : Gdi.Config) (rw : Gdi.RenderWindow)
    (frames : list (float * float)) :
  canonical_ok L ->
  0 <= Gdi.g_starCount cfg ->
  0 <= Gdi.g_speed cfg < 2 ^ 23 ->
  Gdi.extent (left (Gdi.rc rw)) (right (Gdi.rc rw)) < 2 ^ 24 ->
  Gdi.extent (top (Gdi.rc rw)) (bottom (Gdi.rc rw)) < 2 ^ 24 ->
  let width := Gdi.extent (left (Gdi.rc rw)) (right (Gdi.rc rw)) in
  let height := Gdi.extent (top (Gdi.rc rw)) (bottom (Gdi.rc rw)) in
  exists rw1 rw',
    Gdi.InitStars cfg rw = Some rw1
    /\ Gdi.run_frames cfg rw1 frames = Some rw'
    /\ Forall (gdi_in_world width height (Gdi.g_speed cfg)) (Gdi.stars rw1)
    /\ Forall (gdi_in_world width height (Gdi.g_speed cfg)) (Gdi.stars rw').
Proof.
  intros HL Hc Hs Hw Hh width height.
  assert (W1 : 1 <= width < 2 ^ 24) by (subst width; unfold Gdi.extent in *; lia).
  assert (H1 : 1 <= height < 2 ^ 24) by (subst height; unfold Gdi.extent in *; lia).
  assert (I : exists rw1, Gdi.InitStars cfg rw = Some rw1
                          /\ Gdi.rc rw1 = Gdi.rc rw
                          /\ Forall (gdi_in_world width height (Gdi.g_speed cfg))
                                    (Gdi.stars rw1)).
  { unfold Gdi.InitStars.
    destruct (Z.ltb_spec (Gdi.g_starCount cfg) 0); [lia|].
    fold width height.
    destruct (gdi_init_loop_spec L (gdi_in_world width height (Gdi.g_speed cfg))
                width height (Gdi.g_speed cfg) (Z.to_nat (Gdi.g_starCount cfg))
                (fun g => gdi_init_star_in_world L width height (Gdi.g_speed cfg) g
                            HL W1 H1 Hs) (Gdi.rng rw)) as [_ HF].
    destruct (Gdi.init_loop _ width height (Gdi.g_speed cfg) (Gdi.rng rw)) as [ss g'].
    eexists. split; [reflexivity|]. cbn [Gdi.rc Gdi.stars fst] in *. auto. }
  destruct I as (rw1 & E1 & Hrc & HF1).
  destruct (gdi_run_frames_inv L (gdi_in_world width height (Gdi.g_speed cfg))
              cfg frames rw1) as (rw' & E2 & HF2 & _).
  - intros s g dt _ HP. rewrite Hrc. fold width height.
    apply gdi_advance_in_world; assumption.
  - exact HF1.
  - exists rw1, rw'. auto.
Qed.

Lemma X20_witness :
  exists rw1 rw',
    @Gdi.InitStars test_libc gdi_cfg0 gdi_rw0 = Some rw1
    /\ @Gdi.run_frames test_libc gdi_cfg0 rw1 tv_frames = Some rw'
    /\ Forall (gdi_in_world 1920 1080 60) (Gdi.stars rw1)
    /\ Forall (gdi_in_world 1920 1080 60) (Gdi.stars rw').
Proof.
  apply (X20_gdi_stars_in_world test_libc gdi_cfg0 gdi_rw0 tv_frames
           test_libc_canonical_ok);
    vm_compute; first [reflexivity | discriminate
                      | split; (discriminate || reflexivity)].
Defined.

(* ================================================================== *)
(** ** What the Direct2D variants draw *)
(* ================================================================== *)

Lemma f32_TWO_PI : D2D.TWO_PI = Fin 4483830991031987340671877210333886209872363520.
Proof. vm_compute. reflexivity. Qed.

Lemma f32_TWO_PI_minus_0 :
  fsub D2D.TWO_PI (lit 0 1)
  = (Fin 4483830991031987340671877210333886209872363520 : float).
Proof. vm_compute. reflexivity. Qed.

Lemma f32_1_minus_06 :
  fsub (lit 1 1) (lit 6 10)
  = (Fin 285449521527073630164734020721168655688138752 : float).
Proof. vm_compute. reflexivity. Qed.

(** [ub(0.6f, 1.0f)]: within [0.6, 1]. *)
Lemma d2d_base_draw (L : Libc) g :
  canonical_ok L ->
  within (10066330 * 2 ^ 125) (2 ^ 149) (fst (uniform_real (lit 6 10) (lit 1 1) g)).
Proof.
  intros HL.
  eapply within_weaken;
    [ eapply (uniform_real_within L _ _ _ _ _ _ _ g HL f32_06 f32_1_minus_06);
      [ lia | vm_compute; reflexivity | vm_compute; reflexivity
      | vm_compute; reflexivity ]
    | vm_compute; discriminate | vm_compute; discriminate ].
Qed.

(** [uph(0.0f, 6.28318530718f)]: within [0, 2 pi]. *)
Lemma d2d_phase_draw (L : Libc) g :
  canonical_ok L ->
  within 0 4483830991031987340671877210333886209872363520
         (fst (uniform_real (lit 0 1) D2D.TWO_PI g)).
Proof.
  intros HL.
  eapply within_weaken;
    [ eapply (uniform_real_within L _ _ _ _ _ _ _ g HL f32_0 f32_TWO_PI_minus_0);
      [ lia | vm_compute; reflexivity | vm_compute; reflexivity
      | vm_compute; reflexivity ]
    | vm_compute; discriminate | vm_compute; discriminate ].
Qed.

Lemma d2d_well_formed_within s :
  d2d_well_formed s <->
  within (13421773 * 2 ^ 121 + 1) (2 ^ 149) (D2D.z s)
  /\ within (10066330 * 2 ^ 125) (2 ^ 149) (D2D.base s)
  /\ within 0 4483830991031987340671877210333886209872363520 (D2D.phase s).
Proof.
  unfold d2d_well_formed. rewrite d2d_in_band_within, f32_06, f32_1, f32_0, f32_TWO_PI.
  split.
  - intros (Z & B1 & B2 & P1 & P2). split; [exact Z|]. split.
    + apply fle_within; auto. clear - B2.
      destruct (D2D.base s); [discriminate B2 | reflexivity | reflexivity].
    + apply fle_within; auto. clear - P2.
      destruct (D2D.phase s); [discriminate P2 | reflexivity | reflexivity].
  - intros (Z & B & P). apply within_fle in B, P.
    destruct B as [B1 B2], P as [P1 P2]. auto.
Qed.

Lemma d2d_init_star_well_formed (L : Libc) w h g :
  canonical_ok L -> d2d_well_formed (fst (D2D.init_star w h g)).
Proof.
  intros HL. apply d2d_well_formed_within.
  split; [apply d2d_init_star_band; exact HL|].
  unfold D2D.init_star.
  destruct (uniform_real (lit 0 1) (of_int w) g) as [fx g1].
  destruct (uniform_real (lit 0 1) (of_int h) g1) as [fy g2].
  destruct (uniform_real (lit 2 10) (lit 1 1) g2) as [fz g3].
  pose proof (d2d_base_draw L g3 HL) as Hb.
  destruct (uniform_real (lit 6 10) (lit 1 1) g3) as [fb g4].
  pose proof (d2d_phase_draw L g4 HL) as Hp.
  destruct (uniform_real (lit 0 1) D2D.TWO_PI g4) as [fp g5].
  cbn [fst D2D.base D2D.phase] in *. auto.
Qed.

Lemma d2d_advance_well_formed (L : Libc) cfg sw sh dt s g :
  canonical_ok L ->
  0 <= D2D.g_speedPercent cfg < 2 ^ 31 ->
  finite_nonneg dt ->
  d2d_well_formed s ->
  d2d_well_formed (fst (D2D.advance sw sh (D2D.frame_speed cfg) dt s g)).
Proof.
  intros HL Hs Hdt HP. apply d2d_well_formed_within.
  apply d2d_well_formed_within in HP. destruct HP as (Z & B & P).
  split.
  - apply d2d_advance_band; auto. apply d2d_speed_ok. exact Hs.
  - unfold D2D.advance.
    set (c := fle _ D2D.NEAR). clearbody c. destruct c.
    + destruct (uniform_real (lit 0 1) sw g) as [fx g1].
      destruct (uniform_real (lit 0 1) sh g1) as [fy g2].
      destruct (uniform_real (lit 5 10) (lit 1 1) g2) as [fz g3].
      pose proof (d2d_base_draw L g3 HL) as Hb.
      destruct (uniform_real (lit 6 10) (lit 1 1) g3) as [fb g4].
      pose proof (d2d_phase_draw L g4 HL) as Hp.
      destruct (uniform_real (lit 0 1) D2D.TWO_PI g4) as [fp g5].
      cbn [fst D2D.base D2D.phase] in *. auto.
    + cbn [fst D2D.base D2D.phase]. auto.
Qed.

(** The calls of the loop of [RenderFrame], star by star. *)
Lemma d2d_render_loop_calls (L : Libc) cfg t dt total ss :
  forall g,
    Forall2 (fun s' c => D2D.radius c = D2D.star_size (D2D.z s')
                         /\ D2D.color c = D2D.star_color cfg s' total)
            (fst (fst (D2D.render_loop cfg t dt total ss g)))
            (snd (D2D.render_loop cfg t dt total ss g)).
Proof.
  induction ss as [|s rest IH]; intros g; cbn [D2D.render_loop].
  - constructor.
  - unfold D2D.render_star.
    destruct (D2D.advance (D2D.width t) (D2D.height t) (D2D.frame_speed cfg) dt s g)
      as [s1 g1].
    specialize (IH g1).
    destruct (D2D.render_loop cfg t dt total rest g1) as [[rest' g2] cs].
    cbn [fst snd] in *. constructor; [|exact IH].
    cbn [D2D.radius D2D.color]. auto.
Qed.

Lemma d2dp_render_loop_calls (L : Libc) cfg t dt total ss :
  forall g,
    Forall2 (fun s' c => D2D.radius c = D2Dp.star_size s' (D2D.dpiX t)
                         /\ D2D.color c = D2D.star_color cfg s' total)
            (fst (fst (D2Dp.render_loop cfg t dt total ss g)))
            (snd (D2Dp.render_loop cfg t dt total ss g)).
Proof.
  induction ss as [|s rest IH]; intros g; cbn [D2Dp.render_loop].
  - constructor.
  - unfold D2Dp.render_star.
    destruct (D2D.advance (D2D.width t) (D2D.height t) (D2D.frame_speed cfg) dt s g)
      as [s1 g1].
    specialize (IH g1).
    destruct (D2Dp.render_loop cfg t dt total rest g1) as [[rest' g2] cs].
    cbn [fst snd] in *. constructor; [|exact IH].
    cbn [D2D.radius D2D.color]. auto.
Qed.

Lemma forall2_forall_r {A B} (R : A -> B -> Prop) (P : A -> Prop) (Q : B -> Prop) l l' :
  (forall a b, R a b -> P a -> Q b) -> Forall2 R l l' -> Forall P l -> Forall Q l'.
Proof.
  intros H F. induction F as [|a b l l' Hab F IH]; intros HP; constructor.
  - inversion HP; subst. eauto.
  - inversion HP; subst. auto.
Qed.

(** [2.5f / z], not below 1: between 2.5 and 50 for a depth in the band. *)
Lemma d2d_star_size_band (zz : float) :
  within (13421773 * 2 ^ 121 + 1) (2 ^ 149) zz ->
  within (5 * 2 ^ 148) (50 * 2 ^ 149) (D2D.star_size zz).
Proof.
  intros Hz. unfold D2D.star_size.
  assert (A : within (5 * 2 ^ 148) (50 * 2 ^ 149) (fdiv (lit 25 10) zz : float)).
  { apply fdiv_within with (la := 5 * 2 ^ 148) (ha := 5 * 2 ^ 148)
                           (lb := 13421773 * 2 ^ 121 + 1) (hb := 2 ^ 149);
      [ lia | lia | exists (5 * 2 ^ 148); split; [vm_compute; reflexivity | lia]
      | exact Hz | vm_compute; reflexivity | vm_compute; reflexivity ]. }
  destruct A as (k & E & Hk). rewrite E, f32_1. cbn [flt].
  destruct (Z.ltb_spec k (2 ^ 149)); [lia|].
  exists k. split; [reflexivity | exact Hk].
Qed.

Lemma f32_8 : (lit 8 1 : float) = Fin (8 * 2 ^ 149).
Proof. vm_compute. reflexivity. Qed.

(** [(g_starBase / z) * (0.6f + 0.8f * base) * g_starSizeMultiplier] for a
    depth in the band and a base in [0.6, 1]: between 1 and 32. *)
Lemma d2dp_raw_size_range (s : D2D.Star) :
  within (13421773 * 2 ^ 121 + 1) (2 ^ 149) (D2D.z s) ->
  within (10066330 * 2 ^ 125) (2 ^ 149) (D2D.base s) ->
  within (2 ^ 149) (32 * 2 ^ 149) (D2Dp.raw_size s).
Proof.
  intros Hz Hb. unfold D2Dp.raw_size, D2Dp.g_starBase, D2Dp.g_starSizeMultiplier.
  rewrite f32_1.
  assert (A : within (2 ^ 149) (20 * 2 ^ 149)
                     (fdiv (Fin (2 ^ 149)) (D2D.z s) : float)).
  { apply fdiv_within with (la := 2 ^ 149) (ha := 2 ^ 149)
                           (lb := 13421773 * 2 ^ 121 + 1) (hb := 2 ^ 149);
      [ lia | lia | exists (2 ^ 149); split; [reflexivity | lia]
      | exact Hz | vm_compute; reflexivity | vm_compute; reflexivity ]. }
  assert (B : within (2 ^ 149) (3 * 2 ^ 148)
                     (fadd (lit 6 10) (fmul (lit 8 10) (D2D.base s)) : float)).
  { eapply within_weaken.
    - eapply fadd_within with (la := 10066330 * 2 ^ 125) (ha := 10066330 * 2 ^ 125);
        [ exists (10066330 * 2 ^ 125); split; [vm_compute; reflexivity | lia]
        | eapply fmul_within with (la := 570899085589443125446775974364163240347303936)
                                  (ha := 570899085589443125446775974364163240347303936)
                                  (lb := 10066330 * 2 ^ 125) (hb := 2 ^ 149);
          [ lia | lia
          | exists 570899085589443125446775974364163240347303936;
            split; [vm_compute; reflexivity | lia]
          | exact Hb | vm_compute; reflexivity | vm_compute; reflexivity ]
        | vm_compute; reflexivity | vm_compute; reflexivity ].
    - vm_compute. discriminate.
    - vm_compute. discriminate. }
  assert (C : within (2 ^ 149) (30 * 2 ^ 149)
                     (fmul (fdiv (Fin (2 ^ 149)) (D2D.z s))
                           (fadd (lit 6 10) (fmul (lit 8 10) (D2D.base s))) : float)).
  { apply fmul_within with (la := 2 ^ 149) (ha := 20 * 2 ^ 149)
                           (lb := 2 ^ 149) (hb := 3 * 2 ^ 148);
      [ lia | lia | exact A | exact B | vm_compute; reflexivity
      | vm_compute; reflexivity ]. }
  eapply within_weaken.
  - apply fmul_within with (la := 2 ^ 149) (ha := 30 * 2 ^ 149)
                           (lb := 2 ^ 149) (hb := 2 ^ 149);
      [ lia | lia | exact C | exists (2 ^ 149); split; [reflexivity | lia]
      | vm_compute; reflexivity | vm_compute; reflexivity ].
  - lia.
  - lia.
Qed.

(** The clamp to [g_starMin, g_starMax] only ever lowers such a size: the
    result lies between 1 and 8. *)
Lemma d2dp_clamped_size_range (s : D2D.Star) :
  within (13421773 * 2 ^ 121 + 1) (2 ^ 149) (D2D.z s) ->
  within (10066330 * 2 ^ 125) (2 ^ 149) (D2D.base s) ->
  within (2 ^ 149) (8 * 2 ^ 149) (D2Dp.clamped_size s).
Proof.
  intros Hz Hb. unfold D2Dp.clamped_size, D2Dp.clamp, D2Dp.g_starMin, D2Dp.g_starMax.
  destruct (d2dp_raw_size_range s Hz Hb) as (k & -> & Hk).
  rewrite f32_half, f32_8. cbn [flt].
  destruct (Z.ltb_spec k (2 ^ 148)); [lia|].
  destruct (Z.ltb_spec (8 * 2 ^ 149) k).
  - exists (8 * 2 ^ 149). split; [reflexivity | lia].
  - exists k. split; [reflexivity | lia].
Qed.

Lemma d2d_RenderFrame_calls (L : Libc) (Q : D2D.FillCall -> Prop) cfg rw dt total :
  canonical_ok L ->
  0 <= D2D.g_speedPercent cfg < 2 ^ 31 ->
  finite_nonneg dt ->
  Forall d2d_well_formed (D2D.stars rw) ->
  (forall s' c, d2d_well_formed s' ->
                D2D.radius c = D2D.star_size (D2D.z s') ->
                D2D.color c = D2D.star_color cfg s' total -> Q c) ->
  Forall Q (snd (D2D.RenderFrame cfg rw dt total)).
Proof.
  intros HL Hs Hdt HW HQ. unfold D2D.RenderFrame.
  destruct (D2D.rt rw) as [t|]; [|constructor].
  pose proof (d2d_render_loop_spec L cfg t dt total (D2D.stars rw) (D2D.rng rw))
    as [HF _].
  pose proof (d2d_render_loop_calls L cfg t dt total (D2D.stars rw) (D2D.rng rw))
    as HC.
  destruct (D2D.render_loop cfg t dt total (D2D.stars rw) (D2D.rng rw))
    as [[ss g] calls].
  cbn [fst snd] in *.
  assert (HW' : Forall d2d_well_formed ss).
  { eapply forall2_forall; [|exact HF|exact HW].
    intros a b (g' & ->) Ha. apply d2d_advance_well_formed; assumption. }
  eapply forall2_forall_r; [|exact HC|exact HW'].
  intros s' c [R C] W. apply (HQ s' c W R C).
Qed.

Lemma d2dp_RenderFrame_calls (L : Libc) (Q : D2D.FillCall -> Prop) cfg rw dt total :
  canonical_ok L ->
  0 <= D2D.g_speedPercent cfg < 2 ^ 31 ->
  finite_nonneg dt ->
  Forall d2d_well_formed (D2D.stars rw) ->
  (forall t s' c, D2D.rt rw = Some t -> d2d_well_formed s' ->
                  D2D.radius c = D2Dp.star_size s' (D2D.dpiX t) ->
                  D2D.color c = D2D.star_color cfg s' total -> Q c) ->
  Forall Q (snd (D2Dp.RenderFrame cfg rw dt total)).
Proof.
  intros HL Hs Hdt HW HQ. unfold D2Dp.RenderFrame.
  destruct (D2D.rt rw) as [t|]; [|constructor].
  pose proof (d2dp_render_loop_spec L cfg t dt total (D2D.stars rw) (D2D.rng rw))
    as [HF _].
  pose proof (d2dp_render_loop_calls L cfg t dt total (D2D.stars rw) (D2D.rng rw))
    as HC.
  destruct (D2Dp.render_loop cfg t dt total (D2D.stars rw) (D2D.rng rw))
    as [[ss g] calls].
  cbn [fst snd] in *.
  assert (HW' : Forall d2d_well_formed ss).
  { eapply forall2_forall; [|exact HF|exact HW].
    intros a b (g' & ->) Ha. apply d2d_advance_well_formed; assumption. }
  eapply forall2_forall_r; [|exact HC|exact HW'].
  intros s' c [R C] W. apply (HQ t s' c eq_refl W R C).
Qed.

(** The stars of a session stay as [InitStars] and the respawn make
    them. *)
Lemma d2d_session_well_formed (L : Libc) cfg rw frames :
  canonical_ok L ->
  0 <= D2D.g_starCount cfg ->
  0 <= D2D.g_speedPercent cfg < 2 ^ 31 ->
  Forall finite_nonneg (map fst frames) ->
  exists rw1,
    D2D.InitStars cfg rw = Some rw1
    /\ Forall d2d_well_formed (D2D.stars (D2D.run_frames cfg rw1 frames))
    /\ Forall d2d_well_formed (D2D.stars (D2Dp.run_frames cfg rw1 frames)).
Proof.
  intros HL Hc Hs Hdt.
  assert (I : exists rw1, D2D.InitStars cfg rw = Some rw1
                          /\ Forall d2d_well_formed (D2D.stars rw1)).
  { unfold D2D.InitStars.
    destruct (Z.ltb_spec (D2D.g_starCount cfg) 0); [lia|].
    match goal with
    | |- context [D2D.init_loop ?n ?w ?h ?g0] =>
        destruct (d2d_init_loop_spec L d2d_well_formed w h n
                    (fun g => d2d_init_star_well_formed L w h g HL) g0) as [_ HF];
        destruct (D2D.init_loop n w h g0) as [ss g']
    end.
    eexists. split; [reflexivity|]. cbn [D2D.stars fst] in *. exact HF. }
  destruct I as (rw1 & E1 & H1). exists rw1. split; [exact E1|].
  assert (Hstep : forall sw sh s g dt, In dt (map fst frames) ->
            d2d_well_formed s ->
            d2d_well_formed (fst (D2D.advance sw sh (D2D.frame_speed cfg) dt s g))).
  { intros sw sh s g dt Hin Hb. rewrite Forall_forall in Hdt.
    apply d2d_advance_well_formed; auto. }
  split.
  - apply (d2d_run_frames_inv L d2d_well_formed cfg frames Hstep rw1 H1).
  - apply (d2dp_run_frames_inv L d2d_well_formed cfg frames Hstep rw1 H1).
Qed.

Lemma f32_2_5 : (lit 25 10 : float) = Fin (5 * 2 ^ 148).
Proof. vm_compute. reflexivity. Qed.

Lemma f32_50 : (lit 50 1 : float) = Fin (50 * 2 ^ 149).
Proof. vm_compute. reflexivity. Qed.

(** X21.  The size of what the Direct2D variants draw.  In a session
    ([InitStars], then any number of frames with a finite [dt] that is
    not negative), every ellipse of the next frame has, in
    MyStarfield.cpp, a radius between 2.5 and 50: the lower limit 1 of
    the code never applies to a star of a session.  In the Direct2D
    Starfield.cpp the radius is a size between 1 and 8 multiplied by
    [dpiX / 96]: the lower limit [g_starMin] never applies, the upper
    limit [g_starMax] holds before the DPI scale. *)
Theorem X21_direct2d_radius_bounds (L : Libc) (cfg : D2D.Config)
    (rw : D2D.RenderWindow) (frames : list (float * float)) (dt total : float) :
  canonical_ok L ->
  0 <= D2D.g_starCount cfg ->
  0 <= D2D.g_speedPercent cfg < 2 ^ 31 ->
  Forall finite_nonneg (map fst frames) ->
  finite_nonneg dt ->
  exists rw1,
    D2D.InitStars cfg rw = Some rw1
    /\ Forall (radius_between (lit 25 10) (lit 50 1))
              (snd (D2D.RenderFrame cfg (D2D.run_frames cfg rw1 frames) dt total))
    /\ Forall (fun c => exists k t,
                   D2D.rt (D2Dp.run_frames cfg rw1 frames) = Some t
                   /\ fle (lit 1 1) k = true /\ fle k (lit 8 1) = true
                   /\ D2D.radius c = fmul k (fdiv (D2D.dpiX t) (lit 96 1)))
              (snd (D2Dp.RenderFrame cfg (D2Dp.run_frames cfg rw1 frames) dt total)).
Proof.
  intros HL Hc Hs Hdts Hdt.
  destruct (d2d_session_well_formed L cfg rw frames HL Hc Hs Hdts)
    as (rw1 & E1 & W1 & W2).
  exists rw1. split; [exact E1|]. split.
  - apply (d2d_RenderFrame_calls L); auto.
    intros s' c W R _. apply d2d_well_formed_within in W. destruct W as (Z & _).
    unfold radius_between. rewrite R, f32_2_5, f32_50.
    apply within_fle. apply d2d_star_size_band. exact Z.
  - apply (d2dp_RenderFrame_calls L); auto.
    intros t s' c Et W R _. apply d2d_well_formed_within in W.
    destruct W as (Z & B & _).
    exists (D2Dp.clamped_size s'), t. split; [exact Et|].
    rewrite f32_1, f32_8.
    destruct (within_fle _ _ _ (d2dp_clamped_size_range s' Z B)) as [A1 A2].
    split; [exact A1|]. split; [exact A2|]. exact R.
Qed.

Lemma X21_witness :
  exists rw1,
    @D2D.InitStars test_libc d2d_cfg0 d2d_rw0 = Some rw1
    /\ Forall (radius_between (lit 25 10) (lit 50 1))
              (snd (@D2D.RenderFrame test_libc d2d_cfg0
                      (@D2D.run_frames test_libc d2d_cfg0 rw1 tv_frames)
                      (lit 1 60) (lit 3 60))).
Proof.
  destruct (X21_direct2d_radius_bounds test_libc d2d_cfg0 d2d_rw0 tv_frames
              (lit 1 60) (lit 3 60) test_libc_canonical_ok)
    as (rw1 & E & R & _).
  - vm_compute. discriminate.
  - vm_compute. split; (discriminate || reflexivity).
  - exact tv_frames_ok.
  - eexists. split; [vm_compute; reflexivity | vm_compute; discriminate].
  - exists rw1. split; [exact E | exact R].
Defined.

(** The argument of the sine, [phase + totalTime * 5.0f], is finite while
    the total time is finite and below 2^100 seconds. *)
Lemma d2d_sine_argument_finite (phase total : float) :
  within 0 4483830991031987340671877210333886209872363520 phase ->
  within 0 (2 ^ 100 * 2 ^ 149) total ->
  exists k, fadd phase (fmul total (lit 5 1)) = (Fin k : float).
Proof.
  intros Hp Ht.
  assert (A : within 0 (5 * 2 ^ 100 * 2 ^ 149) (fmul total (lit 5 1) : float)).
  { apply fmul_within with (la := 0) (ha := 2 ^ 100 * 2 ^ 149)
                           (lb := 5 * 2 ^ 149) (hb := 5 * 2 ^ 149);
      [ lia | lia | exact Ht
      | exists (5 * 2 ^ 149); split; [vm_compute; reflexivity | lia]
      | vm_compute; reflexivity | vm_compute; reflexivity ]. }
  destruct A as (a & -> & Ha). destruct Hp as (p & -> & Hp). cbn [fadd].
  destruct (rnd_within (F := binary32) 0 1 0
              (4483830991031987340671877210333886209872363520 + 5 * 2 ^ 100 * 2 ^ 149)
              1 (5 * 2 ^ 100 * 2 ^ 149) (p + a) 1) as (k & E & _);
    [ lia | lia | lia | vm_compute; reflexivity | vm_compute; reflexivity
    | lia | lia | ].
  exists k. exact E.
Qed.

Lemma d2d_star_color_ok (L : Libc) cfg s total :
  sine_ok L ->
  0 <= D2D.g_twinklePercent cfg <= 100 ->
  within 0 (2 ^ 100 * 2 ^ 149) total ->
  d2d_well_formed s ->
  D2D.channel_ok (fst (fst (D2D.star_color cfg s total)))
  /\ D2D.channel_ok (snd (fst (D2D.star_color cfg s total)))
  /\ D2D.channel_ok (snd (D2D.star_color cfg s total)).
Proof.
  intros HS Hp Ht W. apply d2d_well_formed_within in W. destruct W as (_ & B & P).
  destruct (d2d_sine_argument_finite (D2D.phase s) total P Ht) as (k & Ek).
  assert (Hs : within (- 2 ^ 149) (2 ^ 149)
                      (sinf (fadd (D2D.phase s) (fmul total (lit 5 1))))).
  { rewrite Ek. destruct (HS k) as [S1 S2].
    rewrite f32_m1 in S1. rewrite f32_1 in S2.
    apply fle_within; auto. clear - S2.
    destruct (sinf (Fin k)); [discriminate S2 | reflexivity | reflexivity]. }
  pose proof (d2d_twinkle_factor_range L s total _ Hp B Hs) as Htw.
  cbn [D2D.star_color fst snd].
  split; [|split]; (apply d2d_channel_range; [apply byte_range | exact Htw]).
Qed.

Lemma test_libc_sine_ok : sine_ok test_libc.
Proof. intros k. vm_compute. split; reflexivity. Qed.

(** X22.  The colours the Direct2D variants draw with.  In a session,
    with a twinkle setting within [0, 100], a sine that stays within
    [-1, 1] on finite arguments and a total time from 0 to 2^100
    seconds,
    every channel of the colour of every ellipse of the next frame is at
    least 0 and at most 2, in both Direct2D files: never negative, never
    NaN, never infinite, although nothing clamps it. *)
Theorem X22_direct2d_colours_bounded (L : Libc) (cfg : D2D.Config)
    (rw : D2D.RenderWindow) (frames : list (float * float)) (dt total : float) :
  canonical_ok L ->
  sine_ok L ->
  0 <= D2D.g_starCount cfg ->
  0 <= D2D.g_speedPercent cfg < 2 ^ 31 ->
  0 <= D2D.g_twinklePercent cfg <= 100 ->
  Forall finite_nonneg (map fst frames) ->
  finite_nonneg dt ->
  fle (lit 0 1) total = true ->
  fle total (lit (2 ^ 100) 1) = true ->
  exists rw1,
    D2D.InitStars cfg rw = Some rw1
    /\ Forall color_ok
              (snd (D2D.RenderFrame cfg (D2D.run_frames cfg rw1 frames) dt total))
    /\ Forall color_ok
              (snd (D2Dp.RenderFrame cfg (D2Dp.run_frames cfg rw1 frames) dt total)).
Proof.
  intros HL HS Hc Hs Hp Hdts Hdt T1 T2.
  assert (Ht : within 0 (2 ^ 100 * 2 ^ 149) total).
  { assert (E : (lit (2 ^ 100) 1 : float) = Fin (2 ^ 100 * 2 ^ 149))
      by (vm_compute; reflexivity).
    rewrite f32_0 in T1. rewrite E in T2. apply fle_within; auto. clear - T2.
    destruct total; [discriminate T2 | reflexivity | reflexivity]. }
  destruct (d2d_session_well_formed L cfg rw frames HL Hc Hs Hdts)
    as (rw1 & E1 & W1 & W2).
  exists rw1. split; [exact E1|]. split.
  - apply (d2d_RenderFrame_calls L); auto.
    intros s' c W _ C. unfold color_ok. rewrite C.
    apply d2d_star_color_ok; assumption.
  - apply (d2dp_RenderFrame_calls L); auto.
    intros t s' c _ W _ C. unfold color_ok. rewrite C.
    apply d2d_star_color_ok; assumption.
Qed.

Lemma X22_witness :
  exists rw1,
    @D2D.InitStars test_libc d2d_cfg0 d2d_rw0 = Some rw1
    /\ Forall color_ok
              (snd (@D2D.RenderFrame test_libc d2d_cfg0
                      (@D2D.run_frames test_libc d2d_cfg0 rw1 tv_frames)
                      (lit 1 60) (lit 3 60))).
Proof.
  destruct (X22_direct2d_colours_bounded test_libc d2d_cfg0 d2d_rw0 tv_frames
              (lit 1 60) (lit 3 60) test_libc_canonical_ok test_libc_sine_ok)
    as (rw1 & E & R & _).
  - vm_compute. discriminate.
  - vm_compute. split; (discriminate || reflexivity).
  - vm_compute. split; discriminate.
  - exact tv_frames_ok.
  - eexists. split; [vm_compute; reflexivity | vm_compute; discriminate].
  - vm_compute. reflexivity.
  - vm_compute. reflexivity.
  - exists rw1. split; [exact E | exact R].
Defined.

(* ================================================================== *)
(** ** Nearer is larger, brighter and further from the centre *)
(* ================================================================== *)

Section Monotone.
Context {F : Format}.

(** Two roundings that come out finite are ordered as the exact values. *)
Lemma rnd_mono_fin N1 D1 N2 D2 k1 k2 :
  0 < D1 -> 0 < D2 -> N1 * D2 <= N2 * D1 ->
  rnd N1 D1 = (Fin k1 : fp F) -> rnd N2 D2 = (Fin k2 : fp F) -> k1 <= k2.
Proof.
  intros H1 H2 H E1 E2. pose proof (rnd_mono (F := F) N1 D1 N2 D2 H1 H2 H) as M.
  rewrite E1, E2 in M. apply Z.leb_le. exact M.
Qed.

(** Adding to a finite number preserves the order. *)
Lemma fadd_fin_mono c (y1 y2 : fp F) :
  is_nan y1 = false -> is_nan y2 = false -> fle y1 y2 = true ->
  fle (fadd (Fin c) y1) (fadd (Fin c) y2) = true.
Proof.
  intros N1 N2 H.
  destruct y1 as [|s1|m1]; destruct y2 as [|s2|m2]; cbn [is_nan fle fadd] in *;
    try discriminate; try exact H.
  - pose proof (rnd_is_nan (F := F) (c + m2) 1) as N.
    destruct (rnd (c + m2) 1 : fp F) as [|s|k]; cbn [is_nan fle] in *;
      [discriminate N | rewrite H; reflexivity | exact H].
  - pose proof (rnd_is_nan (F := F) (c + m1) 1) as N.
    destruct (rnd (c + m1) 1 : fp F) as [|s|k]; cbn [is_nan fle] in *;
      [discriminate N | rewrite H; apply orb_true_r | exact H].
  - apply Z.leb_le in H. apply rnd_mono; lia.
Qed.

Lemma fadd_fin_mono_l c (y1 y2 : fp F) :
  is_nan y1 = false -> is_nan y2 = false -> fle y1 y2 = true ->
  fle (fadd y1 (Fin c)) (fadd y2 (Fin c)) = true.
Proof.
  intros N1 N2 H.
  destruct y1 as [|s1|m1]; destruct y2 as [|s2|m2]; cbn [is_nan fle fadd] in *;
    try discriminate; try exact H.
  - pose proof (rnd_is_nan (F := F) (m2 + c) 1) as N.
    destruct (rnd (m2 + c) 1 : fp F) as [|s|k]; cbn [is_nan fle] in *;
      [discriminate N | rewrite H; reflexivity | exact H].
  - pose proof (rnd_is_nan (F := F) (m1 + c) 1) as N.
    destruct (rnd (m1 + c) 1 : fp F) as [|s|k]; cbn [is_nan fle] in *;
      [discriminate N | rewrite H; apply orb_true_r | exact H].
  - apply Z.leb_le in H. apply rnd_mono; lia.
Qed.

(** A finite number of the format is not raised by adding a number that
    is zero, negative or minus infinity. *)
Lemma fadd_nonpos_le t (x : fp F) :
  rnd t 1 = Fin t -> nonneg (fopp x) -> fle (fadd (Fin t) x) (Fin t : fp F) = true.
Proof.
  intros Et Hx. destruct x as [|s|k]; cbn [nonneg fopp fadd] in *; try contradiction.
  - destruct s; [reflexivity | discriminate Hx].
  - pose proof (rnd_mono (F := F) (t + k) 1 t 1 ltac:(lia) ltac:(lia) ltac:(lia)) as M.
    rewrite Et in M. exact M.
Qed.

End Monotone.

(** [if (psz < 1.0f) psz = 1.0f] and the clamp of the Direct2D
    Starfield.cpp preserve the order. *)
Lemma floor_at_one_mono (p q : float) :
  is_nan p = false -> is_nan q = false -> fle p q = true ->
  fle (if flt p (lit 1 1) then lit 1 1 else p)
      (if flt q (lit 1 1) then lit 1 1 else q) = true.
Proof.
  intros Np Nq H. rewrite f32_1.
  destruct p as [|s|a]; destruct q as [|t|b]; cbn [is_nan fle flt] in *;
    try discriminate.
  - destruct s, t; try discriminate; reflexivity.
  - subst s. destruct (Z.ltb_spec b (2 ^ 149)); cbn [fle]; [apply Z.leb_refl|].
    apply Z.leb_le. lia.
  - destruct t; [discriminate|]. cbn [negb].
    destruct (Z.ltb_spec a (2 ^ 149)); reflexivity.
  - apply Z.leb_le in H.
    destruct (Z.ltb_spec a (2 ^ 149)); destruct (Z.ltb_spec b (2 ^ 149));
      cbn [fle]; apply Z.leb_le; lia.
Qed.

Lemma d2dp_clamp_mono (p q : float) :
  fle p q = true ->
  fle (D2Dp.clamp p D2Dp.g_starMin D2Dp.g_starMax)
      (D2Dp.clamp q D2Dp.g_starMin D2Dp.g_starMax) = true.
Proof.
  intros H. unfold D2Dp.clamp, D2Dp.g_starMin, D2Dp.g_starMax.
  rewrite f32_half, f32_8.
  destruct p as [|s|a]; destruct q as [|t|b]; cbn [fle flt] in *;
    try discriminate.
  - destruct s, t; try discriminate; reflexivity.
  - subst s. destruct (Z.ltb_spec b (2 ^ 148)); [reflexivity|].
    destruct (Z.ltb_spec (8 * 2 ^ 149) b); cbn [fle]; apply Z.leb_le; lia.
  - destruct t; [discriminate|]. cbn [negb].
    destruct (Z.ltb_spec a (2 ^ 148)); [reflexivity|].
    destruct (Z.ltb_spec (8 * 2 ^ 149) a); cbn [fle]; [reflexivity|].
    apply Z.leb_le. lia.
  - apply Z.leb_le in H.
    destruct (Z.ltb_spec a (2 ^ 148)); destruct (Z.ltb_spec b (2 ^ 148));
      try destruct (Z.ltb_spec (8 * 2 ^ 149) a);
      try destruct (Z.ltb_spec (8 * 2 ^ 149) b);
      cbn [fle]; apply Z.leb_le; lia.
Qed.

(** X23.  Nearer is at least as large.  Of two stars of a Direct2D
    session, the one with the smaller depth is drawn with a radius that
    is at least the radius of the other: in MyStarfield.cpp whatever
    their brightness, in the Direct2D Starfield.cpp when they have the
    same base brightness (the radius there also grows with the base),
    at any DPI. *)
Theorem X23_nearer_is_larger (s1 s2 : D2D.Star) (dpiX : float) :
  d2d_well_formed s1 -> d2d_well_formed s2 ->
  fle (D2D.z s1) (D2D.z s2) = true ->
  fle (D2D.star_size (D2D.z s2)) (D2D.star_size (D2D.z s1)) = true
  /\ (D2D.base s1 = D2D.base s2 -> finite_nonneg dpiX ->
      fle (D2Dp.star_size s2 dpiX) (D2Dp.star_size s1 dpiX) = true).
Proof.
  intros W1 W2 H.
  apply d2d_well_formed_within in W1, W2.
  destruct W1 as ((a & Ea & Ha) & B1 & _), W2 as ((b & Eb & Hb) & B2 & _).
  rewrite Ea, Eb in H. cbn [fle] in H. apply Z.leb_le in H.
  assert (Pa : 0 < a) by lia. assert (Pb : 0 < b) by lia.
  assert (PU : 0 < 2 ^ 149) by lia.
  split.
  - rewrite Ea, Eb. unfold D2D.star_size. cbv zeta.
    apply floor_at_one_mono.
    + rewrite f32_2_5. cbn [fdiv]. destruct (Z.eqb_spec b 0); [lia|]. apply rnd_is_nan.
    + rewrite f32_2_5. cbn [fdiv]. destruct (Z.eqb_spec a 0); [lia|]. apply rnd_is_nan.
    + rewrite f32_2_5. cbn [fdiv].
      destruct (Z.eqb_spec a 0); [lia|]. destruct (Z.eqb_spec b 0); [lia|].
      change (@ushift binary32) with 149.
      rewrite !Z.sgn_pos, !Z.abs_eq by lia.
      apply rnd_mono; [lia | lia |].
      apply Z.mul_le_mono_nonneg_l; [lia | exact H].
  - intros EB (d & Ed & Hd).
    assert (R : fle (D2Dp.raw_size s2) (D2Dp.raw_size s1) = true).
    { pose proof (d2dp_raw_size_range s1 ltac:(exists a; auto) B1) as (r1 & E1 & _).
      pose proof (d2dp_raw_size_range s2 ltac:(exists b; auto) B2) as (r2 & E2 & _).
      rewrite E1, E2. cbn [fle]. apply Z.leb_le.
      revert E1 E2. unfold D2Dp.raw_size, D2Dp.g_starBase, D2Dp.g_starSizeMultiplier.
      rewrite <- EB, Ea, Eb, f32_1.
      destruct B1 as (bb & Ebb & Hbb). rewrite Ebb.
      set (k := fadd (lit 6 10) (fmul (lit 8 10) (Fin bb)) : float).
      assert (Nk : exists kv, k = Fin kv /\ 0 <= kv).
      { assert (M : within 0 570899085589443125446775974364163240347303936
                           (fmul (lit 8 10) (Fin bb) : float)).
        { apply fmul_within with (la := 570899085589443125446775974364163240347303936)
                                 (ha := 570899085589443125446775974364163240347303936)
                                 (lb := 0) (hb := 2 ^ 149);
            [ lia | lia
            | exists 570899085589443125446775974364163240347303936;
              split; [vm_compute; reflexivity | lia]
            | exists bb; split; [reflexivity | lia]
            | vm_compute; reflexivity | vm_compute; reflexivity ]. }
        destruct M as (m & Em & Hm). subst k. rewrite Em, f32_06. cbn [fadd].
        pose proof (rnd_nonneg (F := binary32) (10066330 * 2 ^ 125 + m) 1
                      ltac:(lia) ltac:(lia)) as X.
        destruct (rnd_within (F := binary32) 0 1 0 (3 * 2 ^ 149) 1 (3 * 2 ^ 149)
                    (10066330 * 2 ^ 125 + m) 1) as (kv & Ekv & Hkv);
          [ lia | lia | lia | vm_compute; reflexivity | vm_compute; reflexivity
          | lia | lia | ].
        exists kv. split; [exact Ekv | lia]. }
      destruct Nk as (kv & Ek & Hkv). rewrite Ek. clear Ek k.
      cbn [fdiv]. destruct (Z.eqb_spec a 0); [lia|]. destruct (Z.eqb_spec b 0); [lia|].
      change (@ushift binary32) with 149.
      rewrite !Z.sgn_pos, !Z.abs_eq, !Z.mul_1_l by lia.
      destruct (rnd (2 ^ 149 * 2 ^ 149) a : float) as [|sa|qa] eqn:Qa;
        destruct (rnd (2 ^ 149 * 2 ^ 149) b : float) as [|sb|qb] eqn:Qb;
        cbn [fmul]; try (intros X; discriminate X);
        try (destruct (kv =? 0); intros X; discriminate X);
        try (intros _ X; discriminate X);
        try (destruct (kv =? 0); intros _ X; discriminate X).
      assert (Hq : qb <= qa).
      { apply (rnd_mono_fin (F := binary32) (2 ^ 149 * 2 ^ 149) b (2 ^ 149 * 2 ^ 149) a qb qa);
          auto. apply Z.mul_le_mono_nonneg_l; lia. }
      assert (Hqb : 0 <= qb).
      { pose proof (rnd_nonneg (F := binary32) (2 ^ 149 * 2 ^ 149) b ltac:(lia) Pb) as X.
        rewrite Qb in X. exact X. }
      change (@ushift binary32) with 149.
      destruct (rnd (qa * kv) (2 ^ 149) : float) as [|sa|ma] eqn:Ma;
        destruct (rnd (qb * kv) (2 ^ 149) : float) as [|sb|mb] eqn:Mb;
        cbn [fmul]; try (intros X; discriminate X);
        try (intros _ X; discriminate X).
      assert (Hm : mb <= ma).
      { apply (rnd_mono_fin (F := binary32) (qb * kv) (2 ^ 149) (qa * kv) (2 ^ 149) mb ma); auto.
        apply Z.mul_le_mono_nonneg_r; [lia|].
        apply Z.mul_le_mono_nonneg_r; lia. }
      change (@ushift binary32) with 149.
      intros E1 E2.
      apply (rnd_mono_fin (F := binary32) (mb * 2 ^ 149) (2 ^ 149) (ma * 2 ^ 149) (2 ^ 149) r2 r1);
        auto.
      apply Z.mul_le_mono_nonneg_r; [lia|].
      apply Z.mul_le_mono_nonneg_r; lia. }
    unfold D2Dp.star_size, D2Dp.clamped_size.
    pose proof (d2dp_clamp_mono _ _ R) as C.
    pose proof (d2dp_clamped_size_range s1 ltac:(exists a; auto) B1) as (c1 & E1 & H1).
    pose proof (d2dp_clamped_size_range s2 ltac:(exists b; auto) B2) as (c2 & E2 & H2).
    unfold D2Dp.clamped_size in E1, E2. rewrite E1, E2 in *.
    cbn [fle] in C. apply Z.leb_le in C.
    rewrite Ed. assert (E96 : (lit 96 1 : float) = Fin (96 * 2 ^ 149))
      by (vm_compute; reflexivity).
    rewrite E96. cbn [fdiv]. change (@ushift binary32) with 149.
    rewrite Z.sgn_pos, Z.abs_eq, Z.mul_1_l by lia.
    pose proof (rnd_nonneg (F := binary32) (d * 2 ^ 149) (96 * 2 ^ 149)
                  ltac:(nia) ltac:(lia)) as Nsc.
    destruct (rnd (d * 2 ^ 149) (96 * 2 ^ 149) : float) as [|ss|sc];
      cbn [nonneg] in Nsc; [contradiction | |].
    + subst ss. cbn [fmul].
      destruct (Z.eqb_spec c2 0); [lia|]. destruct (Z.eqb_spec c1 0); [lia|].
      destruct (Z.ltb_spec c2 0); [lia|]. destruct (Z.ltb_spec c1 0); [lia|].
      reflexivity.
    + cbn [fmul]. change (@ushift binary32) with 149.
      apply rnd_mono; [lia | lia |].
      apply Z.mul_le_mono_nonneg_r; [lia|].
      apply Z.mul_le_mono_nonneg_r; lia.
Qed.

Lemma X23_witness :
  fle (D2D.star_size (D2D.z d2d_bright_star))
      (D2D.star_size (D2D.z d2d_low_star)) = true
  /\ fle (D2Dp.star_size d2d_bright_star (lit 96 1))
         (D2Dp.star_size d2d_low_star (lit 96 1)) = true.
Proof.
  destruct (X23_nearer_is_larger d2d_low_star d2d_bright_star (lit 96 1))
    as [A B].
  - vm_compute. repeat split; reflexivity.
  - vm_compute. repeat split; reflexivity.
  - vm_compute. reflexivity.
  - split; [exact A |].
    apply B; [reflexivity |].
    eexists. split; [vm_compute; reflexivity | vm_compute; discriminate].
Defined.

(* ================================================================== *)
(** ** GDI variant: nearer is at least as bright *)
(* ================================================================== *)

Section MonotoneFinite.
Context {F : Format}.

Lemma fsub_fin_mono a b c :
  a <= b -> fle (fsub (Fin a) (Fin c)) (fsub (Fin b) (Fin c) : fp F) = true.
Proof. intros H. unfold fsub. cbn [fopp fadd]. apply rnd_mono; lia. Qed.

Lemma fsub_fin_anti a b c :
  a <= b -> fle (fsub (Fin c) (Fin b)) (fsub (Fin c) (Fin a) : fp F) = true.
Proof. intros H. unfold fsub. cbn [fopp fadd]. apply rnd_mono; lia. Qed.

Lemma fadd_fin_fin_mono a b c :
  a <= b -> fle (fadd (Fin c) (Fin a)) (fadd (Fin c) (Fin b) : fp F) = true.
Proof. intros H. cbn [fadd]. apply rnd_mono; lia. Qed.

Lemma fmul_fin_mono a b c :
  0 <= c -> a <= b ->
  fle (fmul (Fin a) (Fin c)) (fmul (Fin b) (Fin c) : fp F) = true.
Proof.
  intros Hc H. cbn [fmul]. pose proof (ushift_pow_pos (F := F)) as HU.
  apply rnd_mono; [lia | lia |].
  apply Z.mul_le_mono_nonneg_r; [lia|].
  apply Z.mul_le_mono_nonneg_r; lia.
Qed.

Lemma fdiv_fin_mono a b c :
  0 < c -> a <= b ->
  fle (fdiv (Fin a) (Fin c)) (fdiv (Fin b) (Fin c) : fp F) = true.
Proof.
  intros Hc H. cbn [fdiv]. pose proof (ushift_pow_pos (F := F)) as HU.
  destruct (Z.eqb_spec c 0); [lia|].
  rewrite !Z.sgn_pos, !Z.abs_eq, !Z.mul_1_l by lia.
  apply rnd_mono; [lia | lia |].
  apply Z.mul_le_mono_nonneg_r; [lia|].
  apply Z.mul_le_mono_nonneg_r; lia.
Qed.

(** Two finite numbers in one range, in order. *)
Lemma within_pair lo hi (x y : fp F) :
  within lo hi x -> within lo hi y -> fle x y = true ->
  exists a b, x = Fin a /\ y = Fin b /\ lo <= a /\ a <= b /\ b <= hi.
Proof.
  intros (a & -> & Ha) (b & -> & Hb) H. cbn [fle] in H. apply Z.leb_le in H.
  exists a, b. repeat split; try reflexivity; lia.
Qed.

End MonotoneFinite.

(** [lroundf] and the conversion to [int] preserve the order of
    non-negative numbers below 2^31. *)
Lemma lround_mono (m n hi : Z) :
  0 <= m -> m <= n -> n <= hi * 2 ^ 149 -> hi < 2 ^ 31 ->
  lround (Fin m : float) <= lround (Fin n : float).
Proof.
  intros Hm Hmn Hn Hhi.
  pose proof (lround_range m hi ltac:(lia) Hhi) as Rm.
  pose proof (lround_range n hi ltac:(lia) Hhi) as Rn.
  revert Rm Rn. cbn [lround]. change (@ushift binary32) with 149.
  set (tm := (2 * Z.abs m + 2 ^ 149) / 2 ^ (149 + 1)).
  set (tn := (2 * Z.abs n + 2 ^ 149) / 2 ^ (149 + 1)).
  assert (Ht : 0 <= tm <= tn).
  { subst tm tn. rewrite !Z.abs_eq by lia. split.
    - apply Z.div_pos; lia.
    - apply Z.div_le_mono; lia. }
  assert (Hs : Z.sgn m * tm <= Z.sgn n * tn).
  { destruct (Z.eq_dec m 0) as [->|].
    - change (Z.sgn 0) with 0. rewrite Z.mul_0_l.
      apply Z.mul_nonneg_nonneg; [|lia].
      destruct (Z.eq_dec n 0) as [->|]; [cbn; lia|]. rewrite Z.sgn_pos; lia.
    - rewrite !Z.sgn_pos by lia. lia. }
  clearbody tm tn. unfold in_int32.
  destruct ((- 2 ^ 31 <=? Z.sgn m * tm) && (Z.sgn m * tm <? 2 ^ 31)) eqn:Em;
    destruct ((- 2 ^ 31 <=? Z.sgn n * tn) && (Z.sgn n * tn <? 2 ^ 31)) eqn:En;
    intros Rm Rn.
  - exact Hs.
  - unfold INT_INDEFINITE in Rn. lia.
  - unfold INT_INDEFINITE in Rm. lia.
  - unfold INT_INDEFINITE in Rm. lia.
Qed.

Lemma to_int_mono (m n : Z) :
  0 <= m -> m <= n -> n < 2 ^ 31 * 2 ^ 149 ->
  to_int (Fin m : float) <= to_int (Fin n : float).
Proof.
  intros Hm Hmn Hn. cbn [to_int]. change (@ushift binary32) with 149.
  rewrite !Z.quot_div_nonneg by lia.
  assert (H0 : 0 <= m / 2 ^ 149) by (apply Z.div_pos; lia).
  assert (H1 : m / 2 ^ 149 <= n / 2 ^ 149) by (apply Z.div_le_mono; lia).
  assert (H2 : n / 2 ^ 149 < 2 ^ 31) by (apply Z.div_lt_upper_bound; lia).
  unfold in_int32.
  destruct (Z.leb_spec (- 2 ^ 31) (m / 2 ^ 149)); [|lia].
  destruct (Z.ltb_spec (m / 2 ^ 149) (2 ^ 31)); [|lia].
  destruct (Z.leb_spec (- 2 ^ 31) (n / 2 ^ 149)); [|lia].
  destruct (Z.ltb_spec (n / 2 ^ 149) (2 ^ 31)); [|lia].
  cbn [andb]. exact H1.
Qed.

Lemma f32_155 : (lit 155 1 : float) = Fin (155 * 2 ^ 149).
Proof. vm_compute. reflexivity. Qed.

Lemma f32_100 : (lit 100 1 : float) = Fin (100 * 2 ^ 149).
Proof. vm_compute. reflexivity. Qed.

(** [1.0f - t]: finite, in [0, 1], and not larger for the larger depth. *)
Lemma gdi_depth_intensity_mono (a b : Z) :
  2 * 2 ^ 149 <= a -> a <= b -> b <= 33 * 2 ^ 149 ->
  exists da db,
    fsub (lit 1 1)
         (fdiv (fsub (Fin a) Gdi.Z_MIN) (fsub Gdi.Z_MAX Gdi.Z_MIN)) = Fin da
    /\ fsub (lit 1 1)
            (fdiv (fsub (Fin b) Gdi.Z_MIN) (fsub Gdi.Z_MAX Gdi.Z_MIN)) = Fin db
    /\ 0 <= db /\ db <= da /\ da <= 2 ^ 149.
Proof.
  intros Ha Hab Hb. rewrite gdi_Z_RANGE, gdi_Z_MIN, f32_1.
  assert (X : forall c, 2 * 2 ^ 149 <= c <= 33 * 2 ^ 149 ->
              within 0 (31 * 2 ^ 149)
                     (fsub (Fin c) (Fin (2 * 2 ^ 149)) : float)).
  { intros c Hc.
    apply fsub_within with (la := 2 * 2 ^ 149) (ha := 33 * 2 ^ 149)
                           (lb := 2 * 2 ^ 149) (hb := 2 * 2 ^ 149);
      [ exists c; split; [reflexivity | lia]
      | exists (2 * 2 ^ 149); split; [reflexivity | lia]
      | vm_compute; reflexivity | vm_compute; reflexivity ]. }
  destruct (within_pair _ _ _ _ (X a ltac:(lia)) (X b ltac:(lia))
              (fsub_fin_mono a b _ Hab))
    as (xa & xb & -> & -> & Hx0 & Hx1 & Hx2).
  clear X.
  assert (T : forall c, 0 <= c <= 31 * 2 ^ 149 ->
              within 0 (2 ^ 149)
                     (fdiv (Fin c) (Fin (31 * 2 ^ 149)) : float)).
  { intros c Hc.
    apply fdiv_within with (la := 0) (ha := 31 * 2 ^ 149)
                           (lb := 31 * 2 ^ 149) (hb := 31 * 2 ^ 149);
      [ lia | lia
      | exists c; split; [reflexivity | lia]
      | exists (31 * 2 ^ 149); split; [reflexivity | lia]
      | vm_compute; reflexivity | vm_compute; reflexivity ]. }
  destruct (within_pair _ _ _ _ (T xa ltac:(lia)) (T xb ltac:(lia))
              (fdiv_fin_mono xa xb (31 * 2 ^ 149) ltac:(lia) Hx1))
    as (ta & tb & -> & -> & Ht0 & Ht1 & Ht2).
  clear T.
  assert (D : forall c, 0 <= c <= 2 ^ 149 ->
              within 0 (2 ^ 149) (fsub (Fin (2 ^ 149)) (Fin c) : float)).
  { intros c Hc.
    apply fsub_within with (la := 2 ^ 149) (ha := 2 ^ 149)
                           (lb := 0) (hb := 2 ^ 149);
      [ exists (2 ^ 149); split; [reflexivity | lia]
      | exists c; split; [reflexivity | lia]
      | vm_compute; reflexivity | vm_compute; reflexivity ]. }
  destruct (within_pair _ _ _ _ (D tb ltac:(lia)) (D ta ltac:(lia))
              (fsub_fin_anti ta tb _ Ht1))
    as (db & da & Eb & Ea & Hd0 & Hd1 & Hd2).
  exists da, db. repeat split; assumption.
Qed.

(** [100.0f + depthIntensity * 155.0f * pulse] for a pulse between 0
    and 2: finite, below 2^31, and not smaller for the larger
    [depthIntensity]. *)
Lemma gdi_intensity_sum_mono (da db : Z) (pulse : float) :
  0 <= db -> db <= da -> da <= 2 ^ 149 ->
  within 0 (2 * 2 ^ 149) pulse ->
  exists sa sb,
    fadd (lit 100 1) (fmul (fmul (Fin da) (lit 155 1)) pulse) = Fin sa
    /\ fadd (lit 100 1) (fmul (fmul (Fin db) (lit 155 1)) pulse) = Fin sb
    /\ 0 <= sb /\ sb <= sa /\ sa <= 410 * 2 ^ 149.
Proof.
  intros H0 H1 H2 (p & -> & Hp). rewrite f32_155, f32_100.
  assert (M : forall c, 0 <= c <= 2 ^ 149 ->
              within 0 (155 * 2 ^ 149)
                     (fmul (Fin c) (Fin (155 * 2 ^ 149)) : float)).
  { intros c Hc.
    apply fmul_within_const with (la := 0) (ha := 2 ^ 149);
      [ lia | exists c; split; [reflexivity | lia]
      | vm_compute; reflexivity | vm_compute; reflexivity ]. }
  destruct (within_pair _ _ _ _ (M db ltac:(lia)) (M da ltac:(lia))
              (fmul_fin_mono db da (155 * 2 ^ 149) ltac:(lia) H1))
    as (mb & ma & -> & -> & Hm0 & Hm1 & Hm2).
  clear M.
  assert (P : forall c, 0 <= c <= 155 * 2 ^ 149 ->
              within 0 (310 * 2 ^ 149) (fmul (Fin c) (Fin p) : float)).
  { intros c Hc.
    apply fmul_within with (la := 0) (ha := 155 * 2 ^ 149)
                           (lb := 0) (hb := 2 * 2 ^ 149);
      [ lia | lia
      | exists c; split; [reflexivity | lia]
      | exists p; split; [reflexivity | lia]
      | vm_compute; reflexivity | vm_compute; reflexivity ]. }
  destruct (within_pair _ _ _ _ (P mb ltac:(lia)) (P ma ltac:(lia))
              (fmul_fin_mono mb ma p ltac:(lia) Hm1))
    as (qb & qa & -> & -> & Hq0 & Hq1 & Hq2).
  clear P.
  assert (S : forall c, 0 <= c <= 310 * 2 ^ 149 ->
              within (100 * 2 ^ 149) (410 * 2 ^ 149)
                     (fadd (Fin (100 * 2 ^ 149)) (Fin c) : float)).
  { intros c Hc.
    apply fadd_within with (la := 100 * 2 ^ 149) (ha := 100 * 2 ^ 149)
                           (lb := 0) (hb := 310 * 2 ^ 149);
      [ exists (100 * 2 ^ 149); split; [reflexivity | lia]
      | exists c; split; [reflexivity | lia]
      | vm_compute; reflexivity | vm_compute; reflexivity ]. }
  destruct (within_pair _ _ _ _ (S qb ltac:(lia)) (S qa ltac:(lia))
              (fadd_fin_fin_mono qb qa _ Hq1))
    as (sb & sa & Eb & Ea & Hs0 & Hs1 & Hs2).
  exists sa, sb. repeat split; try assumption. lia.
Qed.

(** The bucket does not decrease with the intensity. *)
Lemma gdi_bucket_mono (i j : Z) :
  0 <= i -> i <= j -> j <= 255 -> Gdi.star_bucket i <= Gdi.star_bucket j.
Proof.
  intros H0 H1 H2. unfold Gdi.star_bucket. cbv zeta.
  assert (EB : exists pb, (fdiv (lit 256 1) (of_int Gdi.BUCKETS) : float) = Fin pb
                          /\ 42 * 2 ^ 149 <= pb <= 43 * 2 ^ 149).
  { eexists. split; [vm_compute; reflexivity | vm_compute; split; discriminate]. }
  destruct EB as (pb & -> & Hpb).
  assert (I : forall c, 0 <= c <= 255 ->
              within 0 (255 * 2 ^ 149) (of_int c : float)).
  { intros c Hc. apply of_int_within with (lo := 0) (hi := 255);
      [ lia | vm_compute; reflexivity | vm_compute; reflexivity ]. }
  assert (Hij : fle (of_int i : float) (of_int j) = true).
  { unfold of_int. apply rnd_mono; [lia | lia |].
    rewrite !Z.mul_1_r. apply Z.mul_le_mono_nonneg_r; lia. }
  destruct (within_pair _ _ _ _ (I i ltac:(lia)) (I j ltac:(lia)) Hij)
    as (fi & fj & -> & -> & Hf0 & Hf1 & Hf2).
  clear I Hij.
  assert (Q : forall c, 0 <= c <= 255 * 2 ^ 149 ->
              within 0 (7 * 2 ^ 149) (fdiv (Fin c) (Fin pb) : float)).
  { intros c Hc. cbn [fdiv]. change (@ushift binary32) with 149.
    destruct (Z.eqb_spec pb 0); [lia|].
    rewrite Z.sgn_pos, Z.abs_eq, Z.mul_1_l by lia.
    apply rnd_within with (Nl := 0) (Dl := 1) (Nh := 7 * 2 ^ 149) (Dh := 1);
      [ lia | lia | lia | vm_compute; reflexivity | vm_compute; reflexivity
      | | ].
    - rewrite Z.mul_0_l, Z.mul_1_r. apply Z.mul_nonneg_nonneg; lia.
    - rewrite Z.mul_1_r.
      transitivity (255 * 2 ^ 149 * 2 ^ 149);
        [apply Z.mul_le_mono_nonneg_r; lia|].
      transitivity (7 * 2 ^ 149 * (42 * 2 ^ 149)); [lia|].
      apply Z.mul_le_mono_nonneg_l; lia. }
  destruct (within_pair _ _ _ _ (Q fi ltac:(lia)) (Q fj ltac:(lia))
              (fdiv_fin_mono fi fj pb ltac:(lia) Hf1))
    as (qi & qj & -> & -> & Hq0 & Hq1 & Hq2).
  pose proof (to_int_mono qi qj Hq0 Hq1 ltac:(lia)) as T.
  lia.
Qed.

(** The pulse of a frame, [1.0f + 0.05f * sinf(...)], lies between 0 and
    2 whenever the sine is taken of a finite number. *)
Lemma gdi_pulse_range (L : Libc) (k : Z) :
  sine_ok L ->
  within 0 (2 * 2 ^ 149)
         (fadd (lit 1 1) (fmul (lit 5 100) (sinf (Fin k))) : float).
Proof.
  intros HS. destruct (HS k) as [S1 S2]. rewrite f32_m1 in S1. rewrite f32_1 in *.
  assert (W : within (- 2 ^ 149) (2 ^ 149) (sinf (Fin k))).
  { apply fle_within; [|exact S1 | exact S2].
    destruct (sinf (Fin k)); [discriminate S1 | reflexivity | reflexivity]. }
  destruct W as (sv & -> & Hs).
  assert (E5 : exists c, (lit 5 100 : float) = Fin c /\ 0 <= c <= 2 ^ 148).
  { eexists. split; [vm_compute; reflexivity | vm_compute; split; discriminate]. }
  destruct E5 as (c & -> & Hc).
  cbn [fmul]. change (@ushift binary32) with 149.
  destruct (rnd_within (F := binary32) (- 2 ^ 148) 1 (- 2 ^ 148) (2 ^ 148) 1 (2 ^ 148)
              (c * sv) (2 ^ 149)) as (m & -> & Hm);
    [ lia | lia | lia | vm_compute; reflexivity | vm_compute; reflexivity
    | | | ].
  - rewrite Z.mul_1_r.
    assert (- (c * 2 ^ 149) <= c * sv).
    { rewrite <- Z.mul_opp_r. apply Z.mul_le_mono_nonneg_l; lia. }
    assert (c * 2 ^ 149 <= 2 ^ 148 * 2 ^ 149)
      by (apply Z.mul_le_mono_nonneg_r; lia).
    lia.
  - rewrite Z.mul_1_r.
    assert (c * sv <= c * 2 ^ 149) by (apply Z.mul_le_mono_nonneg_l; lia).
    assert (c * 2 ^ 149 <= 2 ^ 148 * 2 ^ 149)
      by (apply Z.mul_le_mono_nonneg_r; lia).
    lia.
  - cbn [fadd].
    apply rnd_within with (Nl := 0) (Dl := 1) (Nh := 2 * 2 ^ 149) (Dh := 1);
      [ lia | lia | lia | vm_compute; reflexivity | vm_compute; reflexivity
      | lia | lia ].
Qed.

(** X24.  Nearer is at least as bright (GDI variant).  In a frame whose
    pulse 1 + 0.05 sin(1.5 t) is taken of a finite number by a sine with
    values in [-1, 1], of two stars whose depths lie in the band
    [Z_MIN, Z_MAX] the one with the smaller depth gets an intensity that
    is at least the intensity of the other, and a brush bucket that is at
    least the bucket of the other. *)
Theorem X24_gdi_nearer_is_brighter (L : Libc) (s1 s2 : Gdi.Star)
    (totalTime : float) :
  sine_ok L ->
  (exists k, fmul totalTime (lit 15 10) = Fin k) ->
  Gdi.in_band s1 = true -> Gdi.in_band s2 = true ->
  fle (Gdi.z s1) (Gdi.z s2) = true ->
  let pulse := fadd (lit 1 1)
                 (fmul (lit 5 100) (sinf (fmul totalTime (lit 15 10)))) in
  Gdi.star_intensity (Gdi.z s2) pulse <= Gdi.star_intensity (Gdi.z s1) pulse
  /\ Gdi.star_bucket (Gdi.star_intensity (Gdi.z s2) pulse)
     <= Gdi.star_bucket (Gdi.star_intensity (Gdi.z s1) pulse).
Proof.
  intros HS (k & Ek) B1 B2 H pulse.
  assert (HP : within 0 (2 * 2 ^ 149) pulse).
  { subst pulse. rewrite Ek. apply gdi_pulse_range. exact HS. }
  clearbody pulse.
  apply gdi_in_band_within in B1, B2.
  destruct (within_pair _ _ _ _ B1 B2 H) as (a & b & Ea & Eb & Ha & Hab & Hb).
  rewrite Ea, Eb.
  assert (I : Gdi.star_intensity (Fin b) pulse <= Gdi.star_intensity (Fin a) pulse).
  { unfold Gdi.star_intensity. cbv zeta.
    destruct (gdi_depth_intensity_mono a b Ha Hab Hb)
      as (da & db & -> & -> & Hd0 & Hd1 & Hd2).
    destruct (gdi_intensity_sum_mono da db pulse Hd0 Hd1 Hd2 HP)
      as (sa & sb & -> & -> & Hs0 & Hs1 & Hs2).
    pose proof (lround_mono sb sa 410 Hs0 Hs1 Hs2 ltac:(lia)) as M.
    lia. }
  split; [exact I|].
  apply gdi_bucket_mono; [apply gdi_intensity_range | exact I
                         | apply gdi_intensity_range].
Qed.

Lemma X24_witness :
  let pulse := fadd (lit 1 1)
                 (fmul (lit 5 100) (@sinf test_libc (fmul (lit 3 60) (lit 15 10)))) in
  Gdi.star_intensity (lit 20 1) pulse
  <= Gdi.star_intensity (Gdi.z gdi_low_star) pulse
  /\ Gdi.star_bucket (Gdi.star_intensity (lit 20 1) pulse)
     <= Gdi.star_bucket (Gdi.star_intensity (Gdi.z gdi_low_star) pulse).
Proof.
  apply (X24_gdi_nearer_is_brighter test_libc gdi_low_star
           {| Gdi.x := lit 100 1; Gdi.y := lit 50 1; Gdi.z := lit 20 1;
              Gdi.speed := lit 60 1 |} (lit 3 60)).
  - exact test_libc_sine_ok.
  - eexists. vm_compute. reflexivity.
  - vm_compute. reflexivity.
  - vm_compute. reflexivity.
  - vm_compute. reflexivity.
Defined.
